(* ===== verification/_CoqProject ===== *)
-Q . S2P
Prelude.v
Lists.v
Maps.v
Arrays.v
RenderManager.v
Pixels.v
Lgui.v
BitmapCache.v
CStrings.v
Url.v
FieldNames.v
Fields.v
DataObjects.v
ObjectTrees.v
ObjectFields.v
Sync.v
SyncTrees.v
Protocol.v
SyncSend.v
SyncForced.v
SyncServer.v
Ui.v
Modify.v
Focus.v
FocusTrees.v
Styles.v
StyleRules.v
Layout.v
Placing.v
PlaceRules.v
PlaceTrees.v
Frames.v
Connection.v
ConnectionRules.v
Utf8.v
Entry.v
EntryRules.v
Text.v
Clipping.v
Drawing.v
DrawingRules.v
Mime.v
MimeRules.v
Keys.v
Manager.v
Screen.v
ScreenRules.v
Screens.v
Clock.v
ClockRules.v
Timers.v
TimerRules.v
System.v
SystemRules.v
BootRules.v
Messages.v
MessageRules.v
Script.v
ScriptRules.v
ScriptEvents.v
Network.v
NetworkRules.v
Mailboxes.v
MailboxRules.v
