(* ===== verification/Prelude.v ===== *)
(** * Verification of the emobiix runtime of PeekLinux

    PeekLinux is the system software of a small mail device.  Its own code is the
    emobiix runtime, in src/peek-build/src/emobiix: containers, data objects that
    are kept in step with a server and double as the widgets of the user interface,
    and a software renderer.  The rest of the repository is the vendor's radio
    stack, vendored libraries, an emulator and tools.  This library models the
    runtime bottom up, without its drivers; file names below are those of that directory.

    ** The parts and how they are modelled

    - Prelude: outcomes ([Ok], [Abort] for a failed EMO_ASSERT, [Fault] for what C
      leaves undefined, [NoFuel]), the state-and-outcome monad [M], machine integers,
      association lists, tactics.
    - Lists (List.c): a heap of list headers and nodes; [is_list] relates it to the
      sequence of cells.  One definition per function, with its order of writes.
    - Maps (Map.c, DataObjectMap.c): maps as lists of key/data nodes over the heap of
      Lists; [rep] relates a store of disjoint maps to association lists.  The class
      [MapStore] is what clients rely on, [map_store] the proof that Map.c gives it.
    - Arrays (Array.c): a byte buffer with capacity and length; bytes fresh from
      realloc are indeterminate; the float growth computation with its roundings.
    - RenderManager (RenderManager.c): the queue of widgets to redraw, a client of
      Arrays.
    - Pixels, Lgui (lgui.c, lgui.h, Rectangle.c, Gradient.c): RGB565 arithmetic, clip
      stack, regions, lines, boxes, gradients, blits, circles and rounded boxes on a
      320x240 framebuffer, all through the loop nest [clipped].
    - BitmapCache (BitmapCache.c): glyphs packed two pixels to a byte, a client of
      [MapStore].
    - CStrings, Url (URL.c), Utf8 and Text (Font.c and the text part of lgui.c): C
      strings with a readable terminator, the URL parser, the UTF-8 decoder, the glyph
      lookup, the markup state machine, line breaking, drawing and measuring.  What
      FreeType renders for a character is the parameter [ft] of Text.
    - FieldNames (protocol/EmobiixField.c): the field enumeration, the table of its
      names and the literal of built-in type names that types are compared in.
    - Fields, DataObjects (DataObject.c, part of Widget.c): tagged fields and objects
      on a heap, with the ownership of strings, maps of fields, references, the tree
      and its indices.  Here the maps and lists of an object are the sequences that
      Maps and Lists are proved to maintain.
    - ObjectTrees, ObjectFields: the properties of DataObjects.
    - Sync (ConnectionContext.c, Protocol.c): the receiving side of the synchronisation,
      operands applied one by one to the object at the current index; SyncTrees: the
      operands a tree stands for, and that receiving them rebuilds it.
    - Protocol (Protocol.c, ProtocolUtils.c, protocol/fri.asn1): the packets, their
      builders and the number printing; SyncSend (ConnectionContext.c): one request on
      the side that sends, with authentication.  Whether the ASN.1 runtime can encode a
      packet is the parameter [encodes].  SyncForced and SyncServer: the properties, with
      the receiver of Sync at the other end.
    - Ui (Widget.c, Application.c, ApplicationManager.c): the state of the user interface
      (the objects, the redraw queue, the applications, the root style) and the attributes
      of widgets; Modify (DataObject.c, ArrayWidget.c): change propagation, expansion of
      arrays, deletion, dirty marks; Focus (Widget.c, StackWidget.c, SetWidget.c,
      ScrolledWidget.c): focus and search; FocusTrees: the properties of the focus.
    - Styles (Style.c, WidgetRenderer.c): style lookup and the cascade of properties;
      StyleRules: their properties.
    - Layout, Placing (Widget.c and the measure functions of the widgets): margins,
      measuring and placing.  The class [Fonts] is what text measuring relies on, [junk]
      the value of a coordinate that a measure function leaves unset.  PlaceRules: the
      arithmetic of rows and columns; PlaceTrees: the pass over a tree.
    - Connection (ConnectionContext.c, UITask.c, HashTable.c): the table of requests, the
      loop, the dispatch of packets, the receive buffer, the objects by URL.  The parameter
      [script] is what an event handler does, [decode] the ASN.1 decoder, [endpoint_text]
      the printed address.  ConnectionRules: properties of all runs of a connection.
    - Entry (EntryWidget.c, CheckBoxWidget.c), Keys (peek/KeyMappings): the keys of
      entries and check boxes, and the keys of the device; EntryRules: typing and erasing.
    - Drawing (Style.c, WidgetRenderer.c and the render functions of the widgets): the
      walk over the widgets that draws what is dirty, on the pair of Ui and Text.  The
      parameters are those of Text and Lgui and [junk], what a local variable holds that
      is read before it is set.  Layout measures texts through [Fonts], drawing through
      Text itself.
    - Frames: a relation between the state before and after that a part of the code
      respects, by following its structure (tactic [respects]); Clipping and DrawingRules
      use it for what drawing may change.
    - Mime (Mime.c): pictures, with libpng as the parameter [png]; MimeRules: that the
      renderer shows them.
    - Manager (ApplicationManager.c, Application.c, DataObject.c): references, the list
      of applications, dialogs and the dispatch of keys; Screen (RenderManager.c,
      UITask.c, peek/KeyHandler.c): the flush of the redraw queue, what is sent to the
      display, and key events; ScreenRules: their properties.  [manager] is the whole
      state: the connection, which holds the Ui, and the picture.
    - Screens (BootApplication.c, RootApplication.c, StaticApplications.c, RootStyle.c):
      the objects of the start-up screens and of the root style, statement by statement;
      [files] is the file system.
    - Clock (time.c of tasks/hwtask): the time and zone of the network and the clock of
      the device, whose driver is the class [RTC]; ClockRules: the calendar.
    - Timers (timer.c and tmr.c of tasks/hwtask): a queue of timers over the heap of Lists
      and the timer of the operating system, the class [VSI].  The parameter [callback] is
      the code behind the pointers, [junk] an uninitialised local; TimerRules.
    - System (system_time.c, system_battery.c, Gprs.c, UITask.c, ApplicationManager.c;
      backlight.c, at.c and mmi.c of tasks/hwtask): the manager, the clock, the published
      objects, the light and the operating system as one state ([system]), over which the
      timers run ([device_callback] says which function is behind a timer), and the
      start of the program.  SystemRules: runs of keys, timeouts and messages; BootRules:
      the start, run on a device that is off, and what can be computed from its result.
    - Messages (sms.c): the listing of short messages that the radio prints, and the
      commands it is given; MessageRules.
    - Script (Script.c, protocol/emofield.lua.inc): the functions that scripts call, over
      the whole state; a text is the [program] of calls that the Lua engine makes of it,
      the parameter [chunk]; ScriptRules.  The events of Connection keep the simpler
      parameter [script], which changes the Ui only: ScriptEvents shows that events whose
      scripts stay with the objects are of this kind.
    - Network (Transport.c, StaticList.c, ConnectionManager.c, BalTCPTransport.c,
      UITask.c): the transports by name, the creation of a connection context, and the
      handler of the messages of the user interface task over the whole device with the
      context; NetworkRules: runs of all its events.
    - Mailboxes (Exeapi.c, emailstask.c; hwtask.c, kbd.c, hwpei.c of tasks/hwtask): mailboxes
      through which tasks talk, over the kernel as the class [Nucleus] with its laws, and the
      loops of two tasks; MailboxRules: a step relation that interleaves senders and reader.

    ** What the theorems show

    - Containers: every operation refines its abstract counterpart, frees each block
      once, terminates, and leaves other lists, maps and arrays alone; the growth of
      arrays always makes room.  What goes wrong is stated as theorems too: a cleared
      list keeps dangling ends, the insert-at-iterator operations repair one link
      chain, removing an array element does not shorten the array.
    - Renderer: the drawing operations paint exactly the visible pixels of their
      rectangle with the right colours; clip operations are intersection and smallest
      enclosing rectangle; the packed blend is a linear interpolation per channel; the
      off-by-one and overrun cases are characterised.
    - Text: decoding inverts UTF-8 encoding, measuring sums advances, printed URLs
      parse back, glyphs survive the packing; unterminated sequences and trailing
      markup overrun.
    - Synchronisation: receiving the operands of a tree of texts gives exactly that
      tree, with every other object as before; a form sent from one side arrives at the
      same place of the other; the answer of a server ends, and what goes wrong when it
      has children; printed numbers are read back.
    - User interface: the focus moves in preorder, forwards and backwards, and reaches
      every widget; a style is that of the nearest level; the measured size of a container
      holds its children, which do not overlap; typing and erasing work on characters.
    - Screen: whatever the widgets and styles are, redrawing changes the framebuffer only
      at the places that are recorded, and these are what is sent to the display; a
      converted picture shows its pixels.
    - Clock and timers: eastern zones give the local date and time, which the clock then
      shows; timers are queued in order and a timer that is alone runs out in time; with
      several, the code reads a variable it has not set.
    - Start and device: the program starts whatever uninitialised variables hold, and its
      result is in the shape the theorems on trees assume; the boot screen shows every time,
      the icons every level, the style dresses every type; the light sleeps only a
      minute after the last key; a change of a published object follows a missing type.
    - Mailboxes: in every interleaving a message is delivered once and in order, and no
      wake-up is lost; the operations of the code are runs of the steps; the task of the
      hardware hands on every key.
    - Messages: a listing of two messages is read back, and the second is kept too long.
    - Scripts: no script draws or sends before the authorization; what it sets it gets
      back; scripts that stay with the objects do what the parameter of Connection stands
      for; the names of sixteen fields stand for other fields.
    - Connections: in every run of the device nothing of an object is sent before the
      authorization on that connection; packets are processed in order, a waiting request
      blocks the others.
    - Objects: index and object determine each other on a well-formed tree, the next
      operation of the synchronisation attaches objects in preorder, packing keeps the
      tree well-formed, setting and getting fields agree, built-in types can be
      compared by pointer, the redraw queue holds no widget twice until one is removed.

    ** Loops and fuel

    Loops over a list that the body does not change are [mfor] and [mfind].  Other
    loops take fuel, and the bound is part of the definition of the operation: one
    more than the length of the text for loops that consume it, one more than the
    number of objects for walks over the object graph ([walk_fuel]), one more than the number of
    nodes for loops over heap lists.  The theorems conclude [Ok], so the bound is
    shown to be enough; a [NoFuel] in a theorem means the C loop does not end.

    ** What is not modelled

    The sockets behind the transport, the Lua engine, the start of the radio and the rest of the
    hardware task: they consist of calls into libraries and into the operating system of
    the phone.  Whether there is a connection is the parameter [online] of the parts up
    to System; in Network it is a part of the state.  The
    start is run without picture files, so that pictures are empty there; Mime and
    MimeRules have the pictures.  Cache.c is compiled out by CACHE_DISABLE.
    Debug prints have no effect on the state and are dropped, up to the pointers they
    follow.
    Allocation does not fail except where a size that is not positive makes it. *)
From stdpp Require Export base numbers list gmap strings.
From Stdlib Require Export ZArith Lia.

Open Scope Z_scope.

(** ** Outcomes of C code

    [Ok] is a normal return; [Abort] is a failed [EMO_ASSERT] (Debug.h expands
    it to [abort()]); [Fault] is an access that C leaves undefined (a NULL or
    dangling pointer, an index outside its object); [NoFuel] only says that the
    bound given to a loop of the model was too small. *)
Inductive outcome (A : Type) : Type :=
  | Ok (a : A)
  | Abort
  | Fault
  | NoFuel.
Arguments Ok {A} a.
Arguments Abort {A}.
Arguments Fault {A}.
Arguments NoFuel {A}.

(** ** The state and error monad the stateful components are written in *)
Definition M (S A : Type) : Type := S → outcome (A * S).

#[export] Instance M_ret S : MRet (M S) := λ A a s, Ok (a, s).
#[export] Instance M_bind S : MBind (M S) := λ A B f m s,
  match m s with
  | Ok (a, s') => f a s'
  | Abort => Abort
  | Fault => Fault
  | NoFuel => NoFuel
  end.

Definition get {S} : M S S := λ s, Ok (s, s).
Definition put {S} (s' : S) : M S () := λ _, Ok ((), s').
Definition gets {S A} (f : S → A) : M S A := λ s, Ok (f s, s).
Definition modify {S} (f : S → S) : M S () := λ s, Ok ((), f s).
Definition fault {S A} : M S A := λ _, Fault.
Definition no_fuel {S A} : M S A := λ _, NoFuel.
Definition when {S} (b : bool) (m : M S ()) : M S () := if b then m else mret ().

(** [EMO_ASSERT (b, ...)]. *)
Definition emo_assert {S} (b : bool) : M S () := λ s, if b then Ok ((), s) else Abort.
(** [EMO_ASSERT (p != NULL, ...)], giving the object the pointer names. *)
Definition emo_nonnull {S A} (p : option A) : M S A := λ s,
  match p with Some a => Ok (a, s) | None => Abort end.
(** Following a pointer that the code does not test. *)
Definition deref {S A} (p : option A) : M S A := λ s,
  match p with Some a => Ok (a, s) | None => Fault end.

(** [for]/[while] over a list the loop body does not change. *)
Fixpoint mfor {S A} (f : A → M S ()) (l : list A) : M S () :=
  match l with
  | [] => mret ()
  | a :: l => f a ;; mfor f l
  end.

(** The same with an early [return]: the first [Some] wins. *)
Fixpoint mfind {S A B} (f : A → M S (option B)) (l : list A) : M S (option B) :=
  match l with
  | [] => mret None
  | a :: l =>
      r ← f a;
      match r with Some b => mret (Some b) | None => mfind f l end
  end.

(** ** Machine integers *)
Definition int32 (z : Z) : Z := (z + 2 ^ 31) mod 2 ^ 32 - 2 ^ 31.
Definition uint32 (z : Z) : Z := z mod 2 ^ 32.
Definition int16 (z : Z) : Z := (z + 2 ^ 15) mod 2 ^ 16 - 2 ^ 15.
Definition uint16 (z : Z) : Z := z mod 2 ^ 16.
Definition uint8 (z : Z) : Z := z mod 2 ^ 8.

Lemma int32_small z : -2 ^ 31 ≤ z < 2 ^ 31 → int32 z = z.
Proof. intros. unfold int32. rewrite Z.mod_small; lia. Qed.
Lemma uint32_small z : 0 ≤ z < 2 ^ 32 → uint32 z = z.
Proof. intros. unfold uint32. by rewrite Z.mod_small. Qed.
Lemma int16_small z : -2 ^ 15 ≤ z < 2 ^ 15 → int16 z = z.
Proof. intros. unfold int16. rewrite Z.mod_small; lia. Qed.
Lemma uint16_small z : 0 ≤ z < 2 ^ 16 → uint16 z = z.
Proof. intros. unfold uint16. by rewrite Z.mod_small. Qed.
Lemma uint8_small z : 0 ≤ z < 2 ^ 8 → uint8 z = z.
Proof. intros. unfold uint8. by rewrite Z.mod_small. Qed.

Lemma int32_add_l a b : int32 (int32 a + b) = int32 (a + b).
Proof.
  unfold int32. f_equal.
  replace ((a + 2 ^ 31) mod 2 ^ 32 - 2 ^ 31 + b + 2 ^ 31)
    with ((a + 2 ^ 31) mod 2 ^ 32 + b) by lia.
  rewrite Zplus_mod_idemp_l. f_equal. lia.
Qed.

Lemma int32_sub_l a b : int32 (int32 a - b) = int32 (a - b).
Proof. apply (int32_add_l a (- b)). Qed.

Lemma int32_range z : -2 ^ 31 ≤ int32 z < 2 ^ 31.
Proof. unfold int32. pose proof (Z.mod_pos_bound (z + 2 ^ 31) (2 ^ 32)). lia. Qed.

(** ** Association lists

    The abstract value of the maps of the program: the order of insertion is
    observable, and appending a key that is present moves it to the end. *)
Section alist.
Context {K V : Type} `{EqDecision K}.
Implicit Types (k : K) (v : V) (l : list (K * V)).

Fixpoint al_find k l : option V :=
  match l with
  | [] => None
  | (k', v) :: l => if decide (k' = k) then Some v else al_find k l
  end.
Fixpoint al_remove k l : list (K * V) :=
  match l with
  | [] => []
  | (k', v) :: l => if decide (k' = k) then al_remove k l else (k', v) :: al_remove k l
  end.
Definition al_append k v l : list (K * V) := al_remove k l ++ [(k, v)].

Lemma al_remove_app k l1 l2 : al_remove k (l1 ++ l2) = al_remove k l1 ++ al_remove k l2.
Proof.
  induction l1 as [|[k' v] l1 IH]; [done|]. simpl. rewrite IH. by case_decide.
Qed.
Lemma al_remove_notin k l : k ∉ l.*1 → al_remove k l = l.
Proof.
  induction l as [|[k' v] l IH]; [done|]. csimpl.
  rewrite not_elem_of_cons. intros [? ?]. rewrite decide_False by done. by rewrite IH.
Qed.
Lemma al_remove_middle k v l1 l2 :
  k ∉ l1.*1 → k ∉ l2.*1 → al_remove k (l1 ++ (k, v) :: l2) = l1 ++ l2.
Proof.
  intros H1 H2. rewrite al_remove_app. simpl. rewrite decide_True by done.
  by rewrite !al_remove_notin.
Qed.
Lemma al_elem_of_remove k k' l : k' ∈ (al_remove k l).*1 → k' ≠ k ∧ k' ∈ l.*1.
Proof.
  induction l as [|[k1 v] l IH]; csimpl; [set_solver|].
  case_decide; csimpl; set_solver.
Qed.
Lemma al_remove_NoDup k l : NoDup l.*1 → NoDup (al_remove k l).*1.
Proof.
  induction l as [|[k' v] l IH]; [done|]. csimpl.
  intros [? ?]%NoDup_cons. case_decide; [by apply IH|]. csimpl. apply NoDup_cons.
  split; [|by apply IH]. by intros [_ ?]%al_elem_of_remove.
Qed.
Lemma al_append_NoDup k v l : NoDup l.*1 → NoDup (al_append k v l).*1.
Proof.
  intros H. unfold al_append. rewrite fmap_app. apply NoDup_app. split_and!.
  - by apply al_remove_NoDup.
  - intros k' [? _]%al_elem_of_remove. csimpl. set_solver.
  - csimpl. apply NoDup_singleton.
Qed.
Lemma al_find_notin k l : al_find k l = None ↔ k ∉ l.*1.
Proof.
  induction l as [|[k' v] l IH]; csimpl; [set_solver|].
  rewrite not_elem_of_cons. case_decide; naive_solver.
Qed.
Lemma al_find_app k l1 l2 :
  al_find k (l1 ++ l2) = match al_find k l1 with Some v => Some v | None => al_find k l2 end.
Proof. induction l1 as [|[k' v] l1 IH]; [done|]. simpl. by case_decide. Qed.
Lemma al_find_remove k k' l :
  al_find k' (al_remove k l) = if decide (k' = k) then None else al_find k' l.
Proof.
  induction l as [|[k1 v] l IH]; [by case_decide|]. simpl.
  repeat (case_decide; simpl); subst; try done; try (by rewrite IH, decide_True);
    by rewrite IH, decide_False.
Qed.
Lemma al_find_append k k' v l :
  al_find k' (al_append k v l) = if decide (k' = k) then Some v else al_find k' l.
Proof.
  unfold al_append. rewrite al_find_app, al_find_remove. simpl.
  repeat case_decide; subst; try done. by destruct (al_find k' l).
Qed.
End alist.

(** ** Symbolic execution *)
Lemma bind_Ok {S A B} (m : M S A) (f : A → M S B) s a s' :
  m s = Ok (a, s') → (m ≫= f) s = f a s'.
Proof. intros H. unfold mbind, M_bind. by rewrite H. Qed.

Lemma bind_Ok_inv {S A B} (m : M S A) (f : A → M S B) s b s'' :
  (m ≫= f) s = Ok (b, s'') →
  ∃ a s', m s = Ok (a, s') ∧ f a s' = Ok (b, s'').
Proof.
  unfold mbind, M_bind. destruct (m s) as [[a s']| | |] eqn:E; intros; try done.
  eauto.
Qed.

Lemma bind_NoFuel {S A B} (m : M S A) (f : A → M S B) s : m s = NoFuel → (m ≫= f) s = NoFuel.
Proof. intros H. unfold mbind, M_bind. by rewrite H. Qed.
Lemma bind_Fault {S A B} (m : M S A) (f : A → M S B) s : m s = Fault → (m ≫= f) s = Fault.
Proof. intros H. unfold mbind, M_bind. by rewrite H. Qed.
Lemma bind_Abort {S A B} (m : M S A) (f : A → M S B) s : m s = Abort → (m ≫= f) s = Abort.
Proof. intros H. unfold mbind, M_bind. by rewrite H. Qed.

Lemma bind_assoc {S A B C} (m : M S A) (f : A → M S B) (g : B → M S C) s :
  ((m ≫= f) ≫= g) s = (m ≫= (λ a, f a ≫= g)) s.
Proof. unfold mbind, M_bind. by destruct (m s) as [[??]| | |]. Qed.

Lemma mfor_app {S A} (f : A → M S ()) l1 l2 s :
  mfor f (l1 ++ l2) s = (mfor f l1 ;; mfor f l2) s.
Proof.
  revert s; induction l1 as [|a l1 IH]; intros s; [done|].
  simpl. rewrite bind_assoc. unfold mbind, M_bind.
  destruct (f a s) as [[[] s']| | |]; [|done..]. apply IH.
Qed.

(** A loop whose body preserves [P] and returns normally does so itself. *)
Lemma mfor_inv {S A} (f : A → M S ()) (P : S → Prop) l s :
  P s →
  (∀ a s, a ∈ l → P s → ∃ s', f a s = Ok ((), s') ∧ P s') →
  ∃ s', mfor f l s = Ok ((), s') ∧ P s'.
Proof.
  revert s; induction l as [|a l IH]; intros s HP Hf; simpl.
  { by exists s. }
  destruct (Hf a s) as (s1 & H1 & HP1); [set_solver|done|].
  rewrite (bind_Ok _ _ _ _ _ H1). apply IH; [done|]. intros. apply Hf; set_solver.
Qed.

(** Every round of a loop that returns normally did so itself. *)
Lemma mfor_Ok_elem {S A} (f : A → M S ()) (P : S → Prop) l s s' :
  (∀ a s s', P s → f a s = Ok ((), s') → P s') →
  P s → mfor f l s = Ok ((), s') →
  P s' ∧ ∀ a, a ∈ l → ∃ s1 s2, P s1 ∧ f a s1 = Ok ((), s2).
Proof.
  intros Hf. revert s; induction l as [|a l IH]; intros s HP H; simpl in H.
  { injection H as <-. split; [done|]. intros a Ha. by apply elem_of_nil in Ha. }
  apply bind_Ok_inv in H as ([] & s1 & E & H). destruct (IH s1 (Hf _ _ _ HP E) H) as [HP' Hall].
  split; [done|]. intros b [->|Hb]%elem_of_cons; [by exists s, s1|by apply Hall].
Qed.

(** Step through binds whose first computation reduces. *)
Ltac mstep :=
  match goal with
  | |- context [(mbind _ _) ?s] => erewrite bind_Ok by first [reflexivity | eassumption]
  end.
Ltac msteps := repeat mstep.
(** Step with a known run. *)
Ltac run_with E := erewrite bind_Ok by exact E.
Ltac minv H :=
  let a := fresh "r" in let s := fresh "s" in let H1 := fresh "H" in
  apply bind_Ok_inv in H as (a & s & H1 & H).

Create HintDb emobiix discriminated.
#[export] Hint Constants Opaque : emobiix.
#[export] Hint Resolve int32_small uint32_small int16_small uint16_small uint8_small : emobiix.
