(* ===== verification/Lists.v ===== *)
(** * List.c: the doubly linked list every other component is built on

    [List] and [ListNode] objects live in a [heap]; [list_new] and the
    inserting operations allocate from it, [listIterator_remove],
    [list_clear] and [list_delete] free.  [is_list h l cs] says that the
    [List] at [l] represents the cells [cs] (address and payload of every
    node, in order): both link directions, both ends and the stored length
    agree.  The operations are proved against it. *)
From S2P Require Import Prelude.

Abbreviation loc := positive.

(** A payload is an untyped pointer: [None] is NULL. *)
Record ListNode (A : Type) := mkNode {
  data : option A;
  prev : option loc;
  next : option loc }.
Arguments mkNode {A}.
Arguments data {A}.
Arguments prev {A}.
Arguments next {A}.

Record List_t := mkList { l_length : Z; l_head : option loc; l_tail : option loc }.

(** [offset] of the C iterator is the offset of [next] or of [prev]. *)
Inductive direction := OffsetNext | OffsetPrev.
Record ListIterator := mkIter {
  it_list : loc;
  it_node : option loc;
  it_offset : direction }.

Record heap (A : Type) := mkHeap {
  nodes : gmap loc (ListNode A);
  lists : gmap loc List_t;
  brk : loc }.
Arguments mkHeap {A}.
Arguments nodes {A}.
Arguments lists {A}.
Arguments brk {A}.

Section Operations.
Context {A : Type}.
Abbreviation HM := (M (heap A)).

(** [p_malloc]/[p_free] of the two object kinds, and checked accesses. *)
Definition malloc_node : HM loc := λ h,
  Ok (brk h, mkHeap (<[brk h := mkNode None None None]> (nodes h)) (lists h)
                    (Pos.succ (brk h))).
Definition malloc_list : HM loc := λ h,
  Ok (brk h, mkHeap (nodes h) (<[brk h := mkList 0 None None]> (lists h))
                    (Pos.succ (brk h))).
Definition free_node (n : loc) : HM () := λ h,
  match nodes h !! n with
  | Some _ => Ok ((), mkHeap (delete n (nodes h)) (lists h) (brk h))
  | None => Fault
  end.
Definition free_list (l : loc) : HM () := λ h,
  match lists h !! l with
  | Some _ => Ok ((), mkHeap (nodes h) (delete l (lists h)) (brk h))
  | None => Fault
  end.
Definition get_node (n : loc) : HM (ListNode A) := λ h,
  match nodes h !! n with Some c => Ok (c, h) | None => Fault end.
Definition get_list (l : loc) : HM List_t := λ h,
  match lists h !! l with Some c => Ok (c, h) | None => Fault end.
Definition set_node (n : loc) (f : ListNode A → ListNode A) : HM () := λ h,
  match nodes h !! n with
  | Some c => Ok ((), mkHeap (<[n := f c]> (nodes h)) (lists h) (brk h))
  | None => Fault
  end.
Definition set_list (l : loc) (f : List_t → List_t) : HM () := λ h,
  match lists h !! l with
  | Some c => Ok ((), mkHeap (nodes h) (<[l := f c]> (lists h)) (brk h))
  | None => Fault
  end.
Definition set_next (p : option loc) (c : ListNode A) := mkNode (data c) (prev c) p.
Definition set_prev (p : option loc) (c : ListNode A) := mkNode (data c) p (next c).
Definition set_data (d : option A) (c : ListNode A) := mkNode d (prev c) (next c).
Definition set_head (p : option loc) (l : List_t) := mkList (l_length l) p (l_tail l).
Definition set_tail (p : option loc) (l : List_t) := mkList (l_length l) (l_head l) p.
Definition set_length (z : Z) (l : List_t) := mkList z (l_head l) (l_tail l).
Definition incr_length (l : List_t) := set_length (int32 (l_length l + 1)) l.
Definition decr_length (l : List_t) := set_length (int32 (l_length l - 1)) l.

Definition list_new : HM (option loc) := l ← malloc_list; mret (Some l).

Definition list_init (l : option loc) : HM () :=
  l ← emo_nonnull l;
  set_list l (set_length 0);; set_list l (set_head None);; set_list l (set_tail None).

Definition list_append (l : option loc) (item : option A) : HM () :=
  l ← emo_nonnull l;
  node ← malloc_node;
  lst ← get_list l;
  match l_tail lst with
  | Some t => set_node t (set_next (Some node))
  | None => set_list l (set_head (Some node))
  end;;
  set_node node (set_next None);;
  lst ← get_list l;
  set_node node (set_prev (l_tail lst));;
  set_list l (set_tail (Some node));;
  set_node node (set_data item);;
  set_list l incr_length.

Definition list_prepend (l : option loc) (item : option A) : HM () :=
  l ← emo_nonnull l;
  node ← malloc_node;
  lst ← get_list l;
  match l_head lst with
  | Some t => set_node t (set_prev (Some node))
  | None => mret ()
  end;;
  set_node node (set_next (l_head lst));;
  set_node node (set_prev None);;
  set_list l (set_head (Some node));;
  lst ← get_list l;
  match l_tail lst with
  | None => set_list l (set_tail (Some node))
  | Some _ => mret ()
  end;;
  set_node node (set_data item);;
  set_list l incr_length.

(** Every loop below visits a live node per iteration; more iterations than
    nodes means a cycle, which the model reports as [NoFuel]. *)
Definition loop_fuel (h : heap A) : nat := S (size (nodes h)).

Fixpoint list_clear_loop (fuel : nat) (node : option loc) : HM () :=
  match fuel with
  | O => no_fuel
  | S fuel =>
      match node with
      | None => mret ()
      | Some n =>
          c ← get_node n;
          free_node n;;
          list_clear_loop fuel (next c)
      end
  end.
Definition list_clear (l : option loc) : HM () :=
  l ← emo_nonnull l;
  lst ← get_list l;
  fuel ← gets loop_fuel;
  list_clear_loop fuel (l_head lst).

Definition list_delete (l : option loc) : HM () :=
  _ ← emo_nonnull l;
  list_clear l;;
  l ← deref l;
  free_list l.

Definition list_begin (l : option loc) : HM ListIterator :=
  l ← emo_nonnull l;
  lst ← get_list l;
  mret (mkIter l (l_head lst) OffsetNext).

Definition list_rbegin (l : option loc) : HM ListIterator :=
  l ← emo_nonnull l;
  lst ← get_list l;
  mret (mkIter l (l_tail lst) OffsetPrev).

Definition listIterator_finished (iter : ListIterator) : bool :=
  bool_decide (it_node iter = None).

Definition listIterator_item (iter : ListIterator) : HM (option A) :=
  match it_node iter with
  | None => mret None
  | Some n => c ← get_node n; mret (data c)
  end.

Definition listIterator_next (iter : ListIterator) : HM ListIterator :=
  match it_node iter with
  | None => mret iter
  | Some n =>
      c ← get_node n;
      mret (mkIter (it_list iter)
                   (match it_offset iter with
                    | OffsetNext => next c
                    | OffsetPrev => prev c
                    end)
                   (it_offset iter))
  end.

(** A [ListComparitor] compares two payloads; zero means equal. *)
Fixpoint list_find_loop (fuel : nat) (obj : option A)
    (lc : option A → option A → Z) (iter : ListIterator) : HM (Z * ListIterator) :=
  match fuel with
  | O => no_fuel
  | S fuel =>
      if listIterator_finished iter then mret (0, iter) else
      output ← listIterator_item iter;
      if bool_decide (lc obj output = 0) then mret (1, iter) else
      iter ← listIterator_next iter;
      list_find_loop fuel obj lc iter
  end.
Definition list_findIter (l : option loc) (obj : option A)
    (lc : option A → option A → Z) : HM (Z * ListIterator) :=
  _ ← emo_nonnull l;
  iter ← list_begin l;
  fuel ← gets loop_fuel;
  list_find_loop fuel obj lc iter.

Definition list_find (l : option loc) (obj : option A)
    (lc : option A → option A → Z) : HM (option A) :=
  _ ← emo_nonnull l;
  '(result, iter) ← list_findIter l obj lc;
  if bool_decide (result = 0) then mret None else listIterator_item iter.

Definition list_size (l : option loc) : HM Z :=
  l ← emo_nonnull l;
  lst ← get_list l;
  mret (l_length lst).

Definition listIterator_remove (iter : ListIterator) : HM ListIterator :=
  n ← deref (it_node iter);
  node ← get_node n;
  match prev node with
  | Some p => set_node p (set_next (next node))
  | None => set_list (it_list iter) (set_head (next node))
  end;;
  match next node with
  | Some q => set_node q (set_prev (prev node))
  | None => set_list (it_list iter) (set_tail (prev node))
  end;;
  set_list (it_list iter) decr_length;;
  free_node n;;
  mret (mkIter (it_list iter) (prev node) (it_offset iter)).

Definition listIterator_insertBefore (iter : ListIterator) (obj : option A) : HM () :=
  n ← emo_nonnull (it_node iter);
  node ← malloc_node;
  set_node node (set_data obj);;
  c ← get_node n;
  set_node node (set_prev (prev c));;
  set_node node (set_next (Some n));;
  set_node n (set_prev (Some node));;
  set_list (it_list iter) incr_length;;
  nc ← get_node node;
  match prev nc with
  | None => set_list (it_list iter) (set_head (Some node))
  | Some _ => mret ()
  end.

Definition listIterator_insertAfter (iter : ListIterator) (obj : option A) : HM () :=
  n ← emo_nonnull (it_node iter);
  node ← malloc_node;
  set_node node (set_data obj);;
  set_node node (set_prev (Some n));;
  c ← get_node n;
  set_node node (set_next (next c));;
  set_node n (set_next (Some node));;
  set_list (it_list iter) incr_length;;
  nc ← get_node node;
  match next nc with
  | None => set_list (it_list iter) (set_tail (Some node))
  | Some _ => mret ()
  end.

Definition list_firstItem (l : option loc) : HM (option A) :=
  l ← emo_nonnull l;
  lst ← get_list l;
  match l_head lst with
  | Some n => c ← get_node n; mret (data c)
  | None => mret None
  end.

Definition list_lastItem (l : option loc) : HM (option A) :=
  l ← emo_nonnull l;
  lst ← get_list l;
  match l_tail lst with
  | Some n => c ← get_node n; mret (data c)
  | None => mret None
  end.

(** What a client sees by iterating: the payloads from the iterator on. *)
Fixpoint items_from (fuel : nat) (iter : ListIterator) : HM (list (option A)) :=
  match fuel with
  | O => no_fuel
  | S fuel =>
      if listIterator_finished iter then mret [] else
      x ← listIterator_item iter;
      iter ← listIterator_next iter;
      xs ← items_from fuel iter;
      mret (x :: xs)
  end.
Definition list_items (l : loc) : HM (list (option A)) :=
  iter ← list_begin (Some l);
  fuel ← gets loop_fuel;
  items_from fuel iter.
Definition list_ritems (l : loc) : HM (list (option A)) :=
  iter ← list_rbegin (Some l);
  fuel ← gets loop_fuel;
  items_from fuel iter.
End Operations.

#[global] Arguments loop_fuel : simpl never.

Definition ListEqualComparitor `{EqDecision A} (arg1 arg2 : option A) : Z :=
  if decide (arg1 = arg2) then 0 else 1.

(** ** Representation *)
Section Representation.
Context {A : Type}.
Implicit Types (h : heap A) (l n : loc) (cs : list (loc * option A)) (p q : option loc).

(** First and last address of a segment that is followed by [q],
    respectively preceded by [p]. *)
Definition first_loc cs q : option loc := match cs with [] => q | c :: _ => Some c.1 end.
Definition last_loc p cs : option loc := match last cs with None => p | Some c => Some c.1 end.

(** The nodes of [cs] are linked in both directions, with [p] before the
    first and [q] after the last. *)
Fixpoint seg (m : gmap loc (ListNode A)) p cs q : Prop :=
  match cs with
  | [] => True
  | (n, a) :: cs' => m !! n = Some (mkNode a p (first_loc cs' q)) ∧ seg m (Some n) cs' q
  end.

Record is_list h l cs : Prop := {
  il_hdr : lists h !! l =
    Some (mkList (int32 (Z.of_nat (length cs))) (first_loc cs None) (last_loc None cs));
  il_nodup : NoDup cs.*1;
  il_seg : seg (nodes h) None cs None }.

(** Addresses in use are below the allocation pointer. *)
Definition heap_ok h : Prop :=
  (∀ n, is_Some (nodes h !! n) → (n < brk h)%positive) ∧
  (∀ l, is_Some (lists h !! l) → (l < brk h)%positive).

(** [h'] differs from [h] only in the list [l], the nodes of [cs] and fresh
    memory, so every other list of the heap is untouched. *)
Definition only_touches h h' l cs : Prop :=
  ∀ l' cs', l' ≠ l → (∀ n, n ∈ cs'.*1 → n ∉ cs.*1) → is_list h l' cs' → is_list h' l' cs'.

Lemma last_loc_snoc p cs c : last_loc p (cs ++ [c]) = Some c.1.
Proof. unfold last_loc. by rewrite last_snoc. Qed.
Lemma last_loc_app p cs c cs' : last_loc p (cs ++ c :: cs') = last_loc (Some c.1) cs'.
Proof.
  unfold last_loc. rewrite last_app, last_cons. by destruct (last cs').
Qed.
Lemma last_loc_cons p c cs : last_loc p (c :: cs) = last_loc (Some c.1) cs.
Proof. apply (last_loc_app p []). Qed.
Lemma first_loc_app cs cs' q : first_loc (cs ++ cs') q = first_loc cs (first_loc cs' q).
Proof. by destruct cs. Qed.

Lemma seg_app m p cs1 cs2 q :
  seg m p (cs1 ++ cs2) q ↔
  seg m p cs1 (first_loc cs2 q) ∧ seg m (last_loc p cs1) cs2 q.
Proof.
  revert p; induction cs1 as [|[n a] cs1 IH]; intros p; simpl; [naive_solver|].
  rewrite IH, first_loc_app, last_loc_cons. naive_solver.
Qed.

Lemma seg_frame m m' p cs q :
  (∀ n, n ∈ cs.*1 → m' !! n = m !! n) → seg m p cs q → seg m' p cs q.
Proof.
  revert p; induction cs as [|[n a] cs IH]; intros p Hm; simpl; [done|].
  intros [H1 H2]. split.
  - rewrite Hm; [done|]. simpl. set_solver.
  - apply IH; [|done]. intros k Hk. apply Hm. simpl. set_solver.
Qed.

Lemma seg_lookup m p cs q n : seg m p cs q → n ∈ cs.*1 → is_Some (m !! n).
Proof.
  revert p; induction cs as [|[k a] cs IH]; simpl; intros p; [set_solver|].
  intros [H1 H2] [->|Hin]%elem_of_cons; [eauto|]. eauto.
Qed.

Lemma is_list_frame h h' l cs :
  lists h' !! l = lists h !! l →
  (∀ n, n ∈ cs.*1 → nodes h' !! n = nodes h !! n) →
  is_list h l cs → is_list h' l cs.
Proof.
  intros Hl Hn [H1 H2 H3]. split; [congruence|done|]. by eapply seg_frame.
Qed.

Lemma is_list_fresh h l cs : heap_ok h → is_list h l cs → brk h ∉ cs.*1.
Proof.
  intros [Hok _] [_ _ Hs] Hin. pose proof (Hok _ (seg_lookup _ _ _ _ _ Hs Hin)). lia.
Qed.
Lemma fresh_node h : heap_ok h → nodes h !! brk h = None.
Proof.
  intros [Hn _]. destruct (nodes h !! brk h) eqn:E; [|done].
  specialize (Hn (brk h)). rewrite E in Hn. specialize (Hn ltac:(eauto)). lia.
Qed.
Lemma fresh_list h : heap_ok h → lists h !! brk h = None.
Proof.
  intros [_ Hn]. destruct (lists h !! brk h) eqn:E; [|done].
  specialize (Hn (brk h)). rewrite E in Hn. specialize (Hn ltac:(eauto)). lia.
Qed.

(** An update confined to [l], [ks] and fresh addresses touches nothing else. *)
Lemma only_touches_intro h h' l cs :
  heap_ok h →
  (∀ l', l' ≠ l → is_Some (lists h !! l') → lists h' !! l' = lists h !! l') →
  (∀ n, n ∉ cs.*1 → is_Some (nodes h !! n) → nodes h' !! n = nodes h !! n) →
  only_touches h h' l cs.
Proof.
  intros Hok Hl Hn l' cs' Hne Hd Hl'. apply (is_list_frame h); [|..|done].
  - apply Hl; [done|]. rewrite (il_hdr _ _ _ Hl'). eauto.
  - intros n Hin. apply Hn; [by apply Hd|]. eapply seg_lookup; [apply Hl'|done].
Qed.
End Representation.

(** Run straight-line heap code whose lookups are known. *)
Ltac hrun :=
  unfold set_node, set_list, get_node, get_list, malloc_node, malloc_list, free_node,
    free_list, mbind, M_bind, mret, M_ret, emo_nonnull, deref, gets; simpl;
  repeat (simplify_map_eq; simpl).
(** The same one bind at a time, leaving the loop that follows alone. *)
Ltac run_bind :=
  repeat (rewrite ?bind_assoc;
          erewrite bind_Ok by
            first [ reflexivity
                  | unfold get_list; match goal with H : lists _ !! _ = _ |- _ => rewrite H end;
                    reflexivity
                  | unfold get_node; match goal with H : nodes _ !! _ = _ |- _ => rewrite H end;
                    reflexivity ]);
  cbn [data prev next l_length l_head l_tail it_list it_node it_offset].
Ltac heap_ok_tac :=
  split; simpl; intros ?;
  rewrite ?lookup_delete_is_Some, ?lookup_insert_is_Some';
  intros; destruct_or?; destruct_and?; subst; try lia;
  match goal with
  | Hok : heap_ok ?h, H : is_Some (nodes ?h !! ?n) |- _ => pose proof (proj1 Hok n H); lia
  | Hok : heap_ok ?h, H : is_Some (lists ?h !! ?n) |- _ => pose proof (proj2 Hok n H); lia
  | Hok : heap_ok ?h, H : nodes ?h !! ?n = Some _ |- context [?n] =>
      pose proof (proj1 Hok n (mk_is_Some _ _ H)); lia
  | Hok : heap_ok ?h, H : lists ?h !! ?n = Some _ |- context [?n] =>
      pose proof (proj2 Hok n (mk_is_Some _ _ H)); lia
  end.
(** Address disequalities, from non-membership and duplicate-freeness. *)
Lemma NoDup_cells_middle {A} (cs1 cs2 : list (loc * option A)) n a :
  NoDup (cs1 ++ (n, a) :: cs2).*1 ↔
  n ∉ cs1.*1 ∧ n ∉ cs2.*1 ∧ NoDup (cs1 ++ cs2).*1.
Proof.
  rewrite !fmap_app. simpl. rewrite !NoDup_app, NoDup_cons. set_solver.
Qed.
Lemma NoDup_cells_disj {A} (cs1 cs2 : list (loc * option A)) n :
  NoDup (cs1 ++ cs2).*1 → n ∈ cs1.*1 → n ∉ cs2.*1.
Proof. rewrite fmap_app, NoDup_app. naive_solver. Qed.
Ltac cells :=
  repeat match goal with
  | H : _ ∉ (_ ++ _).*1 |- _ => rewrite fmap_app, not_elem_of_app in H; destruct H
  | H : _ ∉ (_ :: _).*1 |- _ =>
      rewrite fmap_cons, not_elem_of_cons in H; cbn [fst] in H; destruct H
  | H : _ ∉ _ :: _ |- _ => rewrite not_elem_of_cons in H; destruct H
  | H : _ ∈ (_ ++ _).*1 |- _ => rewrite fmap_app, elem_of_app in H
  | H : _ ∈ (_ :: _).*1 |- _ => rewrite fmap_cons, elem_of_cons in H; cbn [fst] in H
  | H : NoDup (_ ++ (_, _) :: _).*1 |- _ => apply NoDup_cells_middle in H as (? & ? & H)
  end.
Ltac addr_ne :=
  let E := fresh in intros E; subst; cells; destruct_or?; (done || congruence).
Ltac mapne :=
  repeat first [rewrite lookup_insert_ne by addr_ne | rewrite lookup_delete_ne by addr_ne].
Ltac seg_same H := eapply seg_frame; [|exact H]; intros ??; simpl; mapne; done.

Section Correctness.
Context {A : Type}.
Implicit Types (h : heap A) (l n : loc) (cs : list (loc * option A)).

Lemma list_append_ok h l cs item :
  heap_ok h → is_list h l cs →
  ∃ n h', list_append (Some l) item h = Ok ((), h') ∧ heap_ok h' ∧
    is_list h' l (cs ++ [(n, item)]) ∧ nodes h !! n = None ∧ only_touches h h' l cs.
Proof.
  intros Hok Hl. exists (brk h).
  pose proof (fresh_node _ Hok) as Hf. pose proof (is_list_fresh _ _ _ Hok Hl) as Hnew.
  destruct Hl as [H1 H2 H3].
  assert (NoDup (cs ++ [(brk h, item)]).*1) as Hnd.
  { apply NoDup_cells_middle. rewrite app_nil_r. split_and!; [done|apply not_elem_of_nil|done]. }
  destruct cs as [|[t x] cs0 _] using rev_ind.
  - unfold list_append. hrun. eexists; split; [done|].
    split_and!; [heap_ok_tac|split|done|apply only_touches_intro; [done|..]]; csimpl; try done.
    + by simplify_map_eq.
    + by simplify_map_eq.
    + intros. by simplify_map_eq.
    + intros n Hn [c Hc]. assert (n ≠ brk h) by congruence. by simplify_map_eq.
  - rewrite last_loc_snoc in H1. apply seg_app in H3 as [H3 [Ht _]]. revert Hnd. cells. intros Hnd.
    unfold list_append. hrun. eexists; split; [done|].
    split_and!; [heap_ok_tac|split|done|apply only_touches_intro; [done|..]]; csimpl; try done.
    + simplify_map_eq. unfold incr_length, set_length, set_tail; simpl.
      rewrite int32_add_l, !last_loc_snoc, !first_loc_app. do 3 f_equal.
      rewrite !length_app. simpl. lia.
    + rewrite <-(app_assoc cs0), seg_app. simpl. simplify_map_eq.
      split_and!; [seg_same H3|done..].
    + intros. by simplify_map_eq.
    + intros n Hn [c Hc]. cells. by mapne.
Qed.

Lemma list_prepend_ok h l cs item :
  heap_ok h → is_list h l cs →
  ∃ n h', list_prepend (Some l) item h = Ok ((), h') ∧ heap_ok h' ∧
    is_list h' l ((n, item) :: cs) ∧ only_touches h h' l cs.
Proof.
  intros Hok Hl. exists (brk h).
  pose proof (fresh_node _ Hok) as Hf. pose proof (is_list_fresh _ _ _ Hok Hl) as Hnew.
  destruct Hl as [H1 H2 H3].
  assert (NoDup ((brk h, item) :: cs).*1) as Hnd by (csimpl; by apply NoDup_cons).
  destruct cs as [|[t x] cs0].
  - unfold list_prepend. hrun. eexists; split; [done|].
    split_and!; [heap_ok_tac|split|apply only_touches_intro; [done|..]]; csimpl; try done.
    + by simplify_map_eq.
    + by simplify_map_eq.
    + intros. by simplify_map_eq.
    + intros n Hn [c Hc]. assert (n ≠ brk h) by congruence. by simplify_map_eq.
  - rewrite last_loc_cons in H1. destruct H3 as [Ht H3].
    csimpl in H2. apply NoDup_cons in H2 as [Hnt H2]. revert Hnd. cells. intros Hnd.
    unfold list_prepend.
    assert (∃ k, last_loc (Some t) cs0 = Some k) as [k Hk].
    { unfold last_loc. destruct (last cs0); eauto. }
    csimpl in *. rewrite Hk in *.
    hrun. eexists; split; [done|].
    split_and!; [heap_ok_tac|split|apply only_touches_intro; [done|..]]; csimpl; try done.
    + simplify_map_eq. unfold incr_length, set_length, set_head; simpl.
      rewrite int32_add_l, !last_loc_cons. simpl. rewrite Hk. do 3 f_equal. lia.
    + simplify_map_eq. split_and!; [done..|seg_same H3].
    + intros. by simplify_map_eq.
    + intros n Hn [c Hc]. cells. by mapne.
Qed.

(** Replacing the link at one end of a segment. *)
Lemma seg_set_next m p cs q q' k c :
  NoDup cs.*1 → seg m p cs q → last_loc None cs = Some k → m !! k = Some c →
  seg (<[k := set_next q' c]> m) p cs q'.
Proof.
  destruct cs as [|[k' b] cs0 _] using rev_ind; [done|].
  rewrite last_loc_snoc. intros Hnd [H1 [H2 _]]%seg_app ? ?. cells. simplify_map_eq.
  apply seg_app; simpl. simplify_map_eq. split; [|done]. seg_same H1.
Qed.
Lemma seg_set_prev m p p' cs q k c :
  NoDup cs.*1 → seg m p cs q → first_loc cs None = Some k → m !! k = Some c →
  seg (<[k := set_prev p' c]> m) p' cs q.
Proof.
  destruct cs as [|[k' b] cs0]; [done|]. csimpl.
  intros [? ?]%NoDup_cons [H1 H2] ? ?. simplify_map_eq. split; [done|]. seg_same H2.
Qed.

(** The two halves of unlinking: what precedes the hole is made to point
    past it, and what follows it to point back over it. *)
Lemma relink_next h l L cs q q' :
  heap_ok h → NoDup cs.*1 → lists h !! l = Some L →
  l_head L = first_loc cs q → seg (nodes h) None cs q →
  ∃ h', (match last_loc None cs with
         | Some p => set_node p (set_next q')
         | None => set_list l (set_head q')
         end) h = Ok ((), h') ∧ heap_ok h' ∧
    lists h' !! l = Some (set_head (first_loc cs q') L) ∧
    (∀ l', l' ≠ l → lists h' !! l' = lists h !! l') ∧
    (∀ n, n ∉ cs.*1 → nodes h' !! n = nodes h !! n) ∧
    seg (nodes h') None cs q'.
Proof.
  intros Hok Hnd HL Hh Hs. destruct cs as [|[k b] cs _] using rev_ind.
  - cbn [last_loc last]. hrun. eexists; split; [done|].
    split_and!; [heap_ok_tac|..]; simpl; try done; intros; by simplify_map_eq.
  - rewrite last_loc_snoc. cbn [fst].
    destruct (seg_lookup _ _ _ _ k Hs) as [c Hc]; [rewrite fmap_app; set_solver|].
    hrun. eexists; split; [done|].
    split_and!; [heap_ok_tac|..]; simpl.
    + rewrite HL. rewrite first_loc_app in *. destruct L; simpl in *; subst.
      by destruct cs.
    + done.
    + intros n Hn. cells. by mapne.
    + eapply seg_set_next; [done|exact Hs|by rewrite last_loc_snoc|done].
Qed.

Lemma relink_prev h l L cs p p' :
  heap_ok h → NoDup cs.*1 → lists h !! l = Some L →
  l_tail L = last_loc p cs → seg (nodes h) p cs None →
  ∃ h', (match first_loc cs None with
         | Some q => set_node q (set_prev p')
         | None => set_list l (set_tail p')
         end) h = Ok ((), h') ∧ heap_ok h' ∧
    lists h' !! l = Some (set_tail (last_loc p' cs) L) ∧
    (∀ l', l' ≠ l → lists h' !! l' = lists h !! l') ∧
    (∀ n, n ∉ cs.*1 → nodes h' !! n = nodes h !! n) ∧
    seg (nodes h') p' cs None.
Proof.
  intros Hok Hnd HL Hh Hs. destruct cs as [|[k b] cs].
  - cbn [first_loc]. hrun. eexists; split; [done|].
    split_and!; [heap_ok_tac|..]; simpl; try done; intros; by simplify_map_eq.
  - cbn [first_loc fst].
    destruct (seg_lookup _ _ _ _ k Hs) as [c Hc]; [rewrite fmap_cons; set_solver|].
    pose proof (seg_set_prev (nodes h) p p' ((k, b) :: cs) None k c Hnd Hs eq_refl Hc) as Hs'.
    clear Hs.
    hrun. eexists; split; [done|].
    split; [heap_ok_tac|]. split; [|split; [|split]]; simpl; [..|by simplify_map_eq].
    + rewrite HL. rewrite last_loc_cons in *. by destruct L; simpl in *; subst.
    + done.
    + intros n Hn. cells. by mapne.
Qed.

(** [listIterator_remove] unlinks the node under the iterator, frees it, and
    leaves the iterator on the node before it. *)
Lemma listIterator_remove_ok h l cs1 n a cs2 d :
  heap_ok h → is_list h l (cs1 ++ (n, a) :: cs2) →
  ∃ h', listIterator_remove (mkIter l (Some n) d) h =
          Ok (mkIter l (last_loc None cs1) d, h') ∧ heap_ok h' ∧
    is_list h' l (cs1 ++ cs2) ∧ nodes h' !! n = None ∧
    only_touches h h' l (cs1 ++ (n, a) :: cs2).
Proof.
  intros Hok [H1 H2 H3]. apply NoDup_cells_middle in H2 as (Hn1 & Hn2 & H2).
  apply seg_app in H3 as [H3 [Hn H4]].
  rewrite first_loc_app, last_loc_app in H1. cbn [first_loc fst] in *.
  pose proof H2 as Hd. rewrite fmap_app, NoDup_app in Hd. destruct Hd as (Hd1 & Hd & Hd2).
  unfold listIterator_remove. cbn [it_node it_list it_offset].
  erewrite bind_Ok by reflexivity.
  erewrite bind_Ok by (unfold get_node; rewrite Hn; reflexivity). cbn [prev next].
  destruct (relink_next h l _ cs1 (Some n) (first_loc cs2 None) Hok Hd1 H1 eq_refl H3)
    as (h1 & E1 & Hok1 & L1 & F1 & N1 & S1).
  erewrite bind_Ok by exact E1.
  destruct (relink_prev h1 l _ cs2 (Some n) (last_loc None cs1) Hok1 Hd2 L1 eq_refl)
    as (h2 & E2 & Hok2 & L2 & F2 & N2 & S2).
  { eapply seg_frame; [|exact H4]. intros k Hk. apply N1. set_solver. }
  erewrite bind_Ok by exact E2.
  assert (nodes h2 !! n = nodes h !! n) as Hn' by (rewrite N2, N1; done).
  rewrite Hn in Hn'. hrun. eexists; split; [done|]. split_and!.
  - heap_ok_tac.
  - split; simpl; [|done|].
    + simplify_map_eq. unfold decr_length, set_length; simpl.
      rewrite int32_sub_l, first_loc_app. f_equal. f_equal.
      * f_equal. rewrite !length_app. simpl. lia.
      * unfold last_loc. rewrite last_app. by destruct (last cs2).
    + apply seg_app; split.
      * apply (seg_frame (nodes h1)); [|done]. intros k Hk. mapne. apply N2. set_solver.
      * apply (seg_frame (nodes h2)); [|done]. intros k Hk. by mapne.
  - simpl. by simplify_map_eq.
  - apply only_touches_intro; simpl; [done|..].
    + intros l' Hne _. rewrite lookup_insert_ne by done. by rewrite F2, F1.
    + intros k Hk _. cells. mapne. rewrite N2, N1; done.
Qed.

(** *** Traversal *)
Lemma cells_le_fuel h l cs : is_list h l cs → (length cs < loop_fuel h)%nat.
Proof.
  intros [_ Hnd Hs]. unfold loop_fuel. rewrite <-(length_fmap fst cs).
  rewrite <-(size_list_to_set (C := gset loc) cs.*1) by done.
  rewrite <-size_dom. apply Nat.lt_succ_r, subseteq_size. intros n Hn.
  rewrite elem_of_list_to_set in Hn. apply elem_of_dom. by eapply seg_lookup.
Qed.

(** The forward and the backward chain are followed separately, because the
    two insert-at-iterator operations repair only one of them. *)
Fixpoint fwd (m : gmap loc (ListNode A)) cs q : Prop :=
  match cs with
  | [] => True
  | (n, a) :: cs' => (∃ p, m !! n = Some (mkNode a p (first_loc cs' q))) ∧ fwd m cs' q
  end.
Fixpoint bwd (m : gmap loc (ListNode A)) p cs : Prop :=
  match cs with
  | [] => True
  | (n, a) :: cs' => (∃ q, m !! n = Some (mkNode a p q)) ∧ bwd m (Some n) cs'
  end.

Lemma fwd_app m cs1 cs2 q :
  fwd m (cs1 ++ cs2) q ↔ fwd m cs1 (first_loc cs2 q) ∧ fwd m cs2 q.
Proof.
  induction cs1 as [|[n a] cs1 IH]; simpl; [naive_solver|].
  rewrite IH, first_loc_app. naive_solver.
Qed.
Lemma seg_fwd m p cs q : seg m p cs q → fwd m cs q.
Proof. revert p; induction cs as [|[n a] cs IH]; simpl; naive_solver. Qed.
Lemma seg_bwd m p cs q : seg m p cs q → bwd m p cs.
Proof. revert p; induction cs as [|[n a] cs IH]; simpl; naive_solver. Qed.
Lemma bwd_app m p cs1 cs2 : bwd m p (cs1 ++ cs2) ↔ bwd m p cs1 ∧ bwd m (last_loc p cs1) cs2.
Proof.
  revert p; induction cs1 as [|[n a] cs1 IH]; intros p; simpl; [naive_solver|].
  rewrite IH, last_loc_cons. naive_solver.
Qed.

(** A change that keeps payload and successor keeps the forward chain; one
    that keeps payload and predecessor keeps the backward chain. *)
Lemma fwd_mono m m' cs q :
  (∀ n c, n ∈ cs.*1 → m !! n = Some c →
     ∃ c', m' !! n = Some c' ∧ data c' = data c ∧ next c' = next c) →
  fwd m cs q → fwd m' cs q.
Proof.
  induction cs as [|[n a] cs IH]; simpl; [done|]. intros Hm [[p Hn] Hs]. split.
  - destruct (Hm n _ ltac:(by left) Hn) as ([] & ? & ? & ?); simpl in *; subst. eauto.
  - apply IH; [|done]. intros k c Hk. apply Hm. by right.
Qed.
Lemma bwd_mono m m' p cs :
  (∀ n c, n ∈ cs.*1 → m !! n = Some c →
     ∃ c', m' !! n = Some c' ∧ data c' = data c ∧ prev c' = prev c) →
  bwd m p cs → bwd m' p cs.
Proof.
  revert p; induction cs as [|[n a] cs IH]; simpl; [done|]. intros p Hm [[q Hn] Hs]. split.
  - destruct (Hm n _ ltac:(by left) Hn) as ([] & ? & ? & ?); simpl in *; subst. eauto.
  - apply IH; [|done]. intros k c Hk. apply Hm. by right.
Qed.

Lemma fwd_items h l cs fuel :
  fwd (nodes h) cs None → (length cs < fuel)%nat →
  items_from fuel (mkIter l (first_loc cs None) OffsetNext) h = Ok (cs.*2, h).
Proof.
  revert fuel; induction cs as [|[n a] cs IH]; intros [|fuel] Hs Hf; try (simpl in Hf; lia).
  - done.
  - destruct Hs as [[p Hn] Hs]. simpl. unfold listIterator_item, listIterator_next. simpl.
    hrun. unfold mbind, M_bind in IH. erewrite IH; [done|exact Hs|simpl in Hf; lia].
Qed.
Lemma bwd_items h l cs fuel :
  bwd (nodes h) None cs → (length cs < fuel)%nat →
  items_from fuel (mkIter l (last_loc None cs) OffsetPrev) h = Ok (rev cs.*2, h).
Proof.
  revert fuel; induction cs as [|[n a] cs IH] using rev_ind; intros [|fuel] Hs Hf;
    rewrite ?length_app in Hf; try (simpl in Hf; lia).
  - done.
  - apply bwd_app in Hs as [Hs [[q Hn] _]]. rewrite last_loc_snoc, fmap_app, rev_app_distr.
    simpl. unfold listIterator_item, listIterator_next. simpl. hrun.
    unfold mbind, M_bind in IH. erewrite IH; [done|exact Hs|simpl in Hf; lia].
Qed.
Lemma list_items_ok h l cs : is_list h l cs → list_items l h = Ok (cs.*2, h).
Proof.
  intros Hl. pose proof (cells_le_fuel _ _ _ Hl) as Hf. destruct Hl as [H1 H2 H3].
  unfold list_items, list_begin. run_bind. apply fwd_items; [by eapply seg_fwd|done].
Qed.
Lemma list_ritems_ok h l cs : is_list h l cs → list_ritems l h = Ok (rev cs.*2, h).
Proof.
  intros Hl. pose proof (cells_le_fuel _ _ _ Hl) as Hf. destruct Hl as [H1 H2 H3].
  unfold list_ritems, list_rbegin. run_bind. apply bwd_items; [by eapply seg_bwd|done].
Qed.

(** The position the search loop stops at. *)
Lemma list_find_loop_ok h l cs p obj lc fuel :
  seg (nodes h) p cs None → (length cs < fuel)%nat →
  (∃ cs1 n a cs2, cs = cs1 ++ (n, a) :: cs2 ∧ lc obj a = 0 ∧
     Forall (λ c, lc obj c.2 ≠ 0) cs1 ∧
     list_find_loop fuel obj lc (mkIter l (first_loc cs None) OffsetNext) h =
       Ok (1, mkIter l (Some n) OffsetNext, h)) ∨
  (Forall (λ c, lc obj c.2 ≠ 0) cs ∧
     list_find_loop fuel obj lc (mkIter l (first_loc cs None) OffsetNext) h =
       Ok (0, mkIter l None OffsetNext, h)).
Proof.
  revert p fuel; induction cs as [|[n a] cs IH]; intros p [|fuel] Hs Hf; try (simpl in Hf; lia).
  - right. split; [constructor|done].
  - destruct Hs as [Hn Hs]. simpl. unfold listIterator_item, listIterator_next. simpl.
    hrun. case_bool_decide as Hlc.
    + left. exists [], n, a, cs. split_and!; [done..|constructor|done].
    + hrun. destruct (IH (Some n) fuel Hs ltac:(simpl in Hf; lia))
        as [(cs1 & n' & a' & cs2 & -> & ? & ? & E)|[? E]].
      * left. exists ((n, a) :: cs1), n', a', cs2. split_and!; [done..| |by rewrite <-E].
        by constructor.
      * right. split; [by constructor|by rewrite <-E].
Qed.

(** *** Freeing *)
Lemma list_clear_loop_ok h p cs fuel :
  seg (nodes h) p cs None → NoDup cs.*1 → (length cs < fuel)%nat →
  ∃ h', list_clear_loop fuel (first_loc cs None) h = Ok ((), h') ∧
    lists h' = lists h ∧ brk h' = brk h ∧
    (∀ n, nodes h' !! n = if decide (n ∈ cs.*1) then None else nodes h !! n).
Proof.
  revert p h fuel; induction cs as [|[n a] cs IH]; intros p h [|fuel] Hs Hnd Hf;
    try (simpl in Hf; lia).
  - exists h. split_and!; try done. 
  - destruct Hs as [Hn Hs]. csimpl in *. apply NoDup_cons in Hnd as [Hn' Hnd].
    unfold mbind, M_bind. cbn [get_node free_node]. hrun.
    destruct (IH (Some n) (mkHeap (delete n (nodes h)) (lists h) (brk h)) fuel)
      as (h' & E & Hl & Hb & Hk).
    { eapply seg_frame; [|exact Hs]. intros k Hk; cbn [nodes].
      rewrite lookup_delete_ne; [done|by intros ->]. }
    { done. }
    { simpl in Hf. lia. }
    exists h'. cbn [nodes lists brk] in *. split_and!; [done..|].
    intros k. rewrite Hk. destruct (decide (k = n)) as [->|Hne].
    + rewrite decide_False by done. rewrite decide_True by (by left). by simplify_map_eq.
    + rewrite lookup_delete_ne by done. repeat case_decide; try done; exfalso.
      * by rewrite elem_of_cons in *; tauto.
      * by rewrite elem_of_cons in *; destruct_or?.
Qed.

Lemma list_clear_ok h l cs :
  heap_ok h → is_list h l cs →
  ∃ h', list_clear (Some l) h = Ok ((), h') ∧ heap_ok h' ∧
    lists h' = lists h ∧ brk h' = brk h ∧
    (∀ n, nodes h' !! n = if decide (n ∈ cs.*1) then None else nodes h !! n) ∧
    only_touches h h' l cs.
Proof.
  intros Hok Hl. pose proof (cells_le_fuel _ _ _ Hl) as Hf. destruct Hl as [H1 H2 H3].
  destruct (list_clear_loop_ok h None cs (loop_fuel h) H3 H2 Hf) as (h' & E & Hl & Hb & Hn).
  exists h'. unfold list_clear. run_bind. rewrite E. split_and!; [done| |done..|].
  - split; rewrite Hb, ?Hl; [|apply Hok]. intros n. rewrite Hn.
    case_decide; [by intros []|apply Hok].
  - apply only_touches_intro; [done|..].
    + intros. by rewrite Hl.
    + intros n Hnc _. rewrite Hn. by case_decide.
Qed.


(** *** [list_delete] *)
Lemma list_delete_ok h l cs :
  heap_ok h → is_list h l cs →
  ∃ h', list_delete (Some l) h = Ok ((), h') ∧ heap_ok h' ∧
    lists h' = delete l (lists h) ∧
    (∀ n, nodes h' !! n = if decide (n ∈ cs.*1) then None else nodes h !! n) ∧
    only_touches h h' l cs.
Proof.
  intros Hok Hl. destruct (list_clear_ok h l cs Hok Hl) as (h1 & E & Hok1 & L1 & B1 & N1 & T1).
  destruct Hl as [Hh _ _]. unfold list_delete.
  erewrite bind_Ok by reflexivity. erewrite bind_Ok by exact E.
  rewrite <-L1 in Hh. hrun. eexists; split; [done|]. split_and!.
  - heap_ok_tac.
  - simpl. by rewrite L1.
  - done.
  - apply only_touches_intro; simpl; [done|..].
    + intros. rewrite L1. by simplify_map_eq.
    + intros n Hn _. rewrite N1. by case_decide.
Qed.

(** *** Insertion at an iterator *)
Lemma listIterator_insertBefore_run h l cs1 n a cs2 d obj :
  heap_ok h → is_list h l (cs1 ++ (n, a) :: cs2) →
  listIterator_insertBefore (mkIter l (Some n) d) obj h =
    Ok ((), mkHeap
      (<[n := mkNode a (Some (brk h)) (first_loc cs2 None)]>
        (<[brk h := mkNode obj (last_loc None cs1) (Some n)]> (nodes h)))
      (<[l := mkList (int32 (Z.of_nat (length (cs1 ++ (n, a) :: cs2)) + 1))
          (match cs1 with [] => Some (brk h) | c :: _ => Some c.1 end)
          (last_loc (Some n) cs2)]> (lists h))
      (Pos.succ (brk h))).
Proof.
  intros Hok Hl. pose proof (fresh_node _ Hok) as Hf.
  destruct Hl as [H1 H2 [S1 [Hn S2]]%seg_app].
  assert (n ≠ brk h) by (intros ->; congruence).
  rewrite last_loc_app in *. unfold listIterator_insertBefore. hrun.
  rewrite <-int32_add_l. unfold set_next, set_prev, set_data; simpl.
  destruct cs1 as [|[k b] cs1 _] using rev_ind; simpl.
  - hrun. rewrite !insert_insert_eq. done.
  - rewrite !last_loc_snoc. rewrite !insert_insert_eq. do 3 f_equal.
    by destruct cs1.
Qed.

Lemma listIterator_insertAfter_run h l cs1 n a cs2 d obj :
  heap_ok h → is_list h l (cs1 ++ (n, a) :: cs2) →
  listIterator_insertAfter (mkIter l (Some n) d) obj h =
    Ok ((), mkHeap
      (<[n := mkNode a (last_loc None cs1) (Some (brk h))]>
        (<[brk h := mkNode obj (Some n) (first_loc cs2 None)]> (nodes h)))
      (<[l := mkList (int32 (Z.of_nat (length (cs1 ++ (n, a) :: cs2)) + 1))
          (first_loc (cs1 ++ (n, a) :: cs2) None)
          (match cs2 with [] => Some (brk h) | c :: cs2 => last_loc (Some c.1) cs2 end)]>
        (lists h))
      (Pos.succ (brk h))).
Proof.
  intros Hok Hl. pose proof (fresh_node _ Hok) as Hf.
  destruct Hl as [H1 H2 [S1 [Hn S2]]%seg_app].
  assert (n ≠ brk h) by (intros ->; congruence).
  rewrite last_loc_app in *. unfold listIterator_insertAfter. hrun.
  rewrite <-int32_add_l. unfold set_next, set_prev, set_data; simpl.
  destruct cs2 as [|[k b] cs2]; simpl.
  - hrun. rewrite !insert_insert_eq. done.
  - rewrite !insert_insert_eq, last_loc_cons. done.
Qed.

Lemma insert_fresh_size (m : gmap loc (ListNode A)) n k c c' :
  is_Some (m !! n) → m !! k = None → size (<[n := c]> (<[k := c']> m)) = S (size m).
Proof.
  intros H H'. assert (n ≠ k) by (intros ->; destruct H; congruence).
  rewrite map_size_insert_Some by (by rewrite lookup_insert_ne).
  by apply map_size_insert_None.
Qed.

Lemma insertBefore_chains h l cs1 k b n a cs2 d obj :
  heap_ok h → is_list h l (cs1 ++ (k, b) :: (n, a) :: cs2) →
  ∃ h', listIterator_insertBefore (mkIter l (Some n) d) obj h = Ok ((), h') ∧
    size (nodes h') = S (size (nodes h)) ∧
    fwd (nodes h') (cs1 ++ (k, b) :: (n, a) :: cs2) None ∧
    bwd (nodes h') None (cs1 ++ (k, b) :: (brk h, obj) :: (n, a) :: cs2) ∧
    lists h' !! l = Some (mkList
      (int32 (Z.of_nat (length (cs1 ++ (k, b) :: (n, a) :: cs2)) + 1))
      (first_loc (cs1 ++ (k, b) :: (n, a) :: cs2) None)
      (last_loc None (cs1 ++ (k, b) :: (n, a) :: cs2))).
Proof.
  intros Hok Hl. pose proof (fresh_node _ Hok) as Hf.
  pose proof (is_list_fresh _ _ _ Hok Hl) as Hnew.
  assert (cs1 ++ (k, b) :: (n, a) :: cs2 = (cs1 ++ [(k, b)]) ++ (n, a) :: cs2) as E
    by (by rewrite <-app_assoc).
  pose proof (listIterator_insertBefore_run h l (cs1 ++ [(k, b)]) n a cs2 d obj Hok) as R.
  rewrite <-E in R. specialize (R Hl). eexists; split; [exact R|]. cbn [nodes lists].
  destruct Hl as [H1 H2 H3]. pose proof H3 as HF. rewrite E in H3.
  apply seg_app in H3 as [S1 [Hn S2]]. rewrite last_loc_snoc in *. cbn [fst] in *.
  rewrite E in H2, Hnew. cells. split_and!.
  - by apply insert_fresh_size; [rewrite Hn; eauto|].
  - eapply fwd_mono; [|by eapply seg_fwd].
    intros m c Hm Hc. destruct (decide (m = n)) as [->|].
    + rewrite lookup_insert_eq. eexists; split; [done|]. by simplify_eq.
    + mapne. eauto.
  - replace (cs1 ++ (k, b) :: (brk h, obj) :: (n, a) :: cs2) with
      ((cs1 ++ [(k, b)]) ++ (brk h, obj) :: (n, a) :: cs2) by (by rewrite <-app_assoc).
    apply bwd_app. rewrite last_loc_snoc. cbn [fst]. split.
    + eapply bwd_mono; [|by eapply seg_bwd]. intros m c Hm Hc. rewrite fmap_app in Hm.
      assert (m ≠ n ∧ m ≠ brk h) as [? ?].
      { apply elem_of_app in Hm as [Hm | ->%list_elem_of_singleton]; [|done].
        split; intros ->; done. }
      mapne. eauto.
    + simpl. simplify_map_eq. split_and!; [eauto..|].
      eapply bwd_mono; [|by eapply seg_bwd]. intros m c Hm Hc. mapne. eauto.
  - rewrite lookup_insert_eq, last_loc_app, last_loc_cons. by destruct cs1.
Qed.

Lemma insertAfter_chains h l cs1 n a k b cs2 d obj :
  heap_ok h → is_list h l (cs1 ++ (n, a) :: (k, b) :: cs2) →
  ∃ h', listIterator_insertAfter (mkIter l (Some n) d) obj h = Ok ((), h') ∧
    size (nodes h') = S (size (nodes h)) ∧
    fwd (nodes h') (cs1 ++ (n, a) :: (brk h, obj) :: (k, b) :: cs2) None ∧
    bwd (nodes h') None (cs1 ++ (n, a) :: (k, b) :: cs2) ∧
    lists h' !! l = Some (mkList
      (int32 (Z.of_nat (length (cs1 ++ (n, a) :: (k, b) :: cs2)) + 1))
      (first_loc (cs1 ++ (n, a) :: (k, b) :: cs2) None)
      (last_loc None (cs1 ++ (n, a) :: (k, b) :: cs2))).
Proof.
  intros Hok Hl. pose proof (fresh_node _ Hok) as Hf.
  pose proof (is_list_fresh _ _ _ Hok Hl) as Hnew.
  pose proof (listIterator_insertAfter_run h l cs1 n a ((k, b) :: cs2) d obj Hok Hl) as R.
  eexists; split; [exact R|]. cbn [nodes lists].
  destruct Hl as [H1 H2 H3]. pose proof H3 as HF.
  apply seg_app in H3 as [S1 [Hn S2]]. cbn [first_loc fst] in *. cells. split_and!.
  - by apply insert_fresh_size; [rewrite Hn; eauto|].
  - apply (fwd_app _ cs1). split; [|split; [|split]].
    + eapply fwd_mono; [|by eapply seg_fwd]. intros m c Hm Hc. mapne. eauto.
    + simplify_map_eq. eauto.
    + simplify_map_eq. eauto.
    + eapply (fwd_mono _ _ ((k, b) :: cs2)); [|by eapply seg_fwd].
      intros m c Hm Hc. assert (m ≠ n ∧ m ≠ brk h) as [? ?] by (split; addr_ne).
      mapne. eauto.
  - eapply bwd_mono; [|by eapply seg_bwd]. intros m c Hm Hc.
    destruct (decide (m = n)) as [->|].
    + rewrite lookup_insert_eq. eexists; split; [done|]. by simplify_eq.
    + mapne. eauto.
  - rewrite lookup_insert_eq, last_loc_app, last_loc_cons. done.
Qed.
End Correctness.

(** ** A concrete heap for the examples: a list at address 1 holding 10, 20, 30 *)
Definition demo_heap : heap Z :=
  mkHeap
    {[ 2%positive := mkNode (Some 10) None (Some 3%positive);
       3%positive := mkNode (Some 20) (Some 2%positive) (Some 4%positive);
       4%positive := mkNode (Some 30) (Some 3%positive) None ]}
    {[ 1%positive := mkList 3 (Some 2%positive) (Some 4%positive) ]} 5.
Definition demo_cells : list (loc * option Z) :=
  [(2%positive, Some 10); (3%positive, Some 20); (4%positive, Some 30)].

Lemma demo_heap_ok : heap_ok demo_heap.
Proof.
  split; intros n; unfold demo_heap; cbn [nodes lists brk];
    rewrite ?lookup_insert_is_Some', ?lookup_singleton_is_Some; lia.
Qed.
Lemma demo_is_list : is_list demo_heap 1%positive demo_cells.
Proof.
  split; [reflexivity| |repeat split].
  by apply (bool_decide_unpack (NoDup demo_cells.*1)).
Qed.

(** ** Properties *)
Section Properties.
Context {A : Type}.
Implicit Types (h : heap A) (l n : loc) (cs : list (loc * option A)).

(** [list_append] and [list_prepend] never fail on a well-formed list and
    add exactly one element at the stated end: the list read forward and the
    list read backward both show it, the heap stays well-formed, and no other
    list of the heap changes. *)
Theorem list_push_spec h l cs item :
  heap_ok h → is_list h l cs →
  (∃ n h', list_append (Some l) item h = Ok ((), h') ∧ heap_ok h' ∧
     is_list h' l (cs ++ [(n, item)]) ∧
     list_items l h' = Ok (cs.*2 ++ [item], h') ∧
     list_ritems l h' = Ok (item :: rev cs.*2, h') ∧ only_touches h h' l cs) ∧
  (∃ n h', list_prepend (Some l) item h = Ok ((), h') ∧ heap_ok h' ∧
     is_list h' l ((n, item) :: cs) ∧
     list_items l h' = Ok (item :: cs.*2, h') ∧
     list_ritems l h' = Ok (rev cs.*2 ++ [item], h') ∧ only_touches h h' l cs).
Proof.
  intros Hok Hl. split.
  - destruct (list_append_ok h l cs item Hok Hl) as (n & h' & E & ? & Hl' & _ & ?).
    exists n, h'. split_and!; try done.
    + rewrite (list_items_ok _ _ _ Hl'). by rewrite fmap_app.
    + rewrite (list_ritems_ok _ _ _ Hl'). by rewrite fmap_app, rev_app_distr.
  - destruct (list_prepend_ok h l cs item Hok Hl) as (n & h' & E & ? & Hl' & ?).
    exists n, h'. split_and!; try done.
    + by rewrite (list_items_ok _ _ _ Hl').
    + by rewrite (list_ritems_ok _ _ _ Hl').
Qed.

(** C32: [listIterator_remove] unlinks exactly the element under the iterator
    (both traversals of the list skip it and keep everything else, and
    [list_size] drops by one), frees its node, moves the iterator to the node
    before it and leaves every other list of the heap alone. *)
Theorem listIterator_remove_spec h l cs1 n a cs2 d :
  heap_ok h → is_list h l (cs1 ++ (n, a) :: cs2) →
  ∃ h', listIterator_remove (mkIter l (Some n) d) h =
          Ok (mkIter l (last_loc None cs1) d, h') ∧ heap_ok h' ∧
    is_list h' l (cs1 ++ cs2) ∧
    list_items l h' = Ok (cs1.*2 ++ cs2.*2, h') ∧
    list_ritems l h' = Ok (rev cs2.*2 ++ rev cs1.*2, h') ∧
    list_size (Some l) h' = Ok (int32 (Z.of_nat (length cs1 + length cs2)), h') ∧
    nodes h' !! n = None ∧ only_touches h h' l (cs1 ++ (n, a) :: cs2).
Proof.
  intros Hok Hl.
  destruct (listIterator_remove_ok h l cs1 n a cs2 d Hok Hl) as (h' & E & ? & Hl' & ? & ?).
  exists h'. split_and!; try done.
  - rewrite (list_items_ok _ _ _ Hl'). by rewrite fmap_app.
  - rewrite (list_ritems_ok _ _ _ Hl'). by rewrite fmap_app, rev_app_distr.
  - unfold list_size. destruct Hl' as [Hh _ _]. hrun. by rewrite length_app.
Qed.

(** [list_findIter] terminates on a well-formed list and stops at the
    first element its comparator calls equal, answering 1; when there is none
    it answers 0 with a finished iterator.  Neither case changes the heap. *)
Theorem list_findIter_spec h l cs obj lc :
  is_list h l cs →
  (∃ cs1 n a cs2, cs = cs1 ++ (n, a) :: cs2 ∧ lc obj a = 0 ∧
     Forall (λ c, lc obj c.2 ≠ 0) cs1 ∧
     list_findIter (Some l) obj lc h = Ok (1, mkIter l (Some n) OffsetNext, h)) ∨
  (Forall (λ c, lc obj c.2 ≠ 0) cs ∧
     list_findIter (Some l) obj lc h = Ok (0, mkIter l None OffsetNext, h)).
Proof.
  intros Hl. pose proof (cells_le_fuel _ _ _ Hl) as Hf. destruct Hl as [H1 H2 H3].
  assert (list_findIter (Some l) obj lc h =
    list_find_loop (loop_fuel h) obj lc (mkIter l (first_loc cs None) OffsetNext) h) as E.
  { unfold list_findIter, list_begin. by run_bind. }
  rewrite E. by eapply list_find_loop_ok.
Qed.

(** C34: [list_delete] terminates on a well-formed list and frees the [List]
    and every one of its nodes, once each, and nothing else; the list cannot be used afterwards. *)
Theorem list_delete_spec h l cs :
  heap_ok h → is_list h l cs →
  ∃ h', list_delete (Some l) h = Ok ((), h') ∧ heap_ok h' ∧
    lists h' = delete l (lists h) ∧
    (∀ n, nodes h' !! n = if decide (n ∈ cs.*1) then None else nodes h !! n) ∧
    only_touches h h' l cs ∧
    list_size (Some l) h' = Fault ∧ list_clear (Some l) h' = Fault.
Proof.
  intros Hok Hl. destruct (list_delete_ok h l cs Hok Hl) as (h' & E & Hok' & Hh & Hn & Ht).
  exists h'. split_and!; try done.
  - unfold list_size, get_list, mbind, M_bind, emo_nonnull. by rewrite Hh, lookup_delete_eq.
  - unfold list_clear, get_list, mbind, M_bind, emo_nonnull. by rewrite Hh, lookup_delete_eq.
Qed.

(** [list_clear] frees the nodes but leaves [head], [tail] and [length]
    as they were, so on a non-empty list the next [list_append] writes through
    the dangling [tail] pointer and the next traversal reads a freed node. *)
Theorem list_clear_then_use_faults h l cs item :
  heap_ok h → is_list h l cs → cs ≠ [] →
  ∃ h', list_clear (Some l) h = Ok ((), h') ∧
    list_size (Some l) h' = Ok (int32 (Z.of_nat (length cs)), h') ∧
    list_append (Some l) item h' = Fault ∧ list_items l h' = Fault.
Proof.
  intros Hok Hl Hne. destruct (list_clear_ok h l cs Hok Hl) as (h1 & E & Hok1 & L1 & B1 & N1 & _).
  exists h1. split; [done|]. destruct Hl as [Hh _ H3]. rewrite <-L1 in Hh.
  split; [unfold list_size; by hrun|]. split.
  - destruct cs as [|[t x] cs _] using rev_ind; [done|]. rewrite last_loc_snoc in Hh.
    assert (t ∈ (cs ++ [(t, x)]).*1) as Hin by (rewrite fmap_app; set_solver).
    assert (t ≠ brk h1) as Hb.
    { apply (seg_lookup _ _ _ _ _ H3) in Hin. apply (proj1 Hok) in Hin. lia. }
    specialize (N1 t). rewrite decide_True in N1 by done.
    unfold list_append. hrun. done.
  - destruct cs as [|[t x] cs]; [done|].
    specialize (N1 t). rewrite decide_True in N1 by (simpl; by left).
    unfold list_items, list_begin. run_bind. simpl. unfold listIterator_item. simpl.
    unfold mbind, M_bind, get_node. by rewrite N1.
Qed.

(** inserting between two neighbours repairs only one of the two link
    chains.  After [listIterator_insertBefore] at [n] the element is seen by
    the backward traversal but a forward traversal skips it; after
    [listIterator_insertAfter] it is the other way round.  [list_size] counts
    the element in both cases, so the list is no longer well-formed. *)
Theorem insert_at_iterator_one_sided h l cs1 n a k b cs2 d obj :
  heap_ok h → is_list h l (cs1 ++ (n, a) :: (k, b) :: cs2) →
  (∃ h', listIterator_insertBefore (mkIter l (Some k) d) obj h = Ok ((), h') ∧
     list_items l h' = Ok (cs1.*2 ++ a :: b :: cs2.*2, h') ∧
     list_ritems l h' = Ok (rev (cs1.*2 ++ a :: obj :: b :: cs2.*2), h') ∧
     list_size (Some l) h' = Ok (int32 (Z.of_nat (length cs1 + length cs2) + 3), h')) ∧
  (∃ h', listIterator_insertAfter (mkIter l (Some n) d) obj h = Ok ((), h') ∧
     list_items l h' = Ok (cs1.*2 ++ a :: obj :: b :: cs2.*2, h') ∧
     list_ritems l h' = Ok (rev (cs1.*2 ++ a :: b :: cs2.*2), h') ∧
     list_size (Some l) h' = Ok (int32 (Z.of_nat (length cs1 + length cs2) + 3), h')).
Proof.
  intros Hok Hl. pose proof (cells_le_fuel _ _ _ Hl) as Hf.
  assert (∀ c : loc * option A, first_loc (cs1 ++ (n, a) :: c :: cs2) None =
              first_loc (cs1 ++ (n, a) :: (k, b) :: cs2) None) as Hfst
    by (intros; by rewrite !first_loc_app).
  assert (Z.of_nat (length (cs1 ++ (n, a) :: (k, b) :: cs2)) + 1 =
          Z.of_nat (length cs1 + length cs2) + 3) as len3
    by (rewrite length_app; simpl; lia).
  split.
  - destruct (insertBefore_chains h l cs1 n a k b cs2 d obj Hok Hl)
      as (h' & E & Hsz & HF & HB & HL). exists h'. split; [done|]. split_and!.
    + unfold list_items, list_begin. run_bind.
      rewrite fwd_items; [by rewrite fmap_app|done|]. unfold loop_fuel in *. lia.
    + unfold list_ritems, list_rbegin. run_bind.
      replace (last_loc None (cs1 ++ (n, a) :: (k, b) :: cs2)) with
        (last_loc None (cs1 ++ (n, a) :: (brk h, obj) :: (k, b) :: cs2))
        by (by rewrite !last_loc_app, !last_loc_cons).
      rewrite bwd_items; [by rewrite fmap_app|done|].
      unfold loop_fuel in *. rewrite length_app in *. simpl in *. lia.
    + unfold list_size. run_bind. by rewrite len3.
  - destruct (insertAfter_chains h l cs1 n a k b cs2 d obj Hok Hl)
      as (h' & E & Hsz & HF & HB & HL). exists h'. split; [done|]. split_and!.
    + unfold list_items, list_begin. run_bind.
      replace (first_loc (cs1 ++ (n, a) :: (k, b) :: cs2) None) with
        (first_loc (cs1 ++ (n, a) :: (brk h, obj) :: (k, b) :: cs2) None)
        by (by rewrite !first_loc_app).
      rewrite fwd_items; [by rewrite fmap_app|done|].
      unfold loop_fuel in *. rewrite length_app in *. simpl in *. lia.
    + unfold list_ritems, list_rbegin. run_bind.
      rewrite bwd_items; [by rewrite fmap_app|done|]. unfold loop_fuel in *. lia.
    + unfold list_size. run_bind. by rewrite len3.
Qed.
End Properties.

(** ** Instances of the properties on the concrete heap *)
Lemma list_push_spec_witness :
  ∃ n h', list_append (Some 1%positive) (Some 40) demo_heap = Ok ((), h') ∧
    is_list h' 1%positive (demo_cells ++ [(n, Some 40)]).
Proof.
  destruct (list_push_spec demo_heap 1%positive demo_cells (Some 40) demo_heap_ok demo_is_list)
    as [(n & h' & E & _ & H & _) _].
  exists n, h'. exact (conj E H).
Defined.

Lemma listIterator_remove_spec_witness :
  ∃ h', listIterator_remove (mkIter 1 (Some 3) OffsetNext)%positive demo_heap =
          Ok (mkIter 1 (Some 2) OffsetNext, h')%positive ∧
    list_items 1%positive h' = Ok ([Some 10; Some 30], h').
Proof.
  destruct (listIterator_remove_spec demo_heap 1%positive [(2%positive, Some 10)] 3%positive
    (Some 20) [(4%positive, Some 30)] OffsetNext demo_heap_ok demo_is_list)
    as (h' & E & _ & _ & H & _).
  exists h'. exact (conj E H).
Defined.

Lemma list_findIter_spec_witness :
  is_list demo_heap 1%positive demo_cells ∧
  list_findIter (Some 1%positive) (Some 20) ListEqualComparitor demo_heap =
    Ok (1, mkIter 1%positive (Some 3%positive) OffsetNext, demo_heap).
Proof.
  split; [exact demo_is_list|].
  destruct (list_findIter_spec demo_heap 1%positive demo_cells (Some 20) ListEqualComparitor
    demo_is_list) as [_|[_ H]]; [reflexivity|vm_compute in H; discriminate H].
Defined.

Lemma list_delete_spec_witness :
  ∃ h', list_delete (Some 1%positive) demo_heap = Ok ((), h') ∧ lists h' = ∅.
Proof.
  destruct (list_delete_spec demo_heap 1%positive demo_cells demo_heap_ok demo_is_list)
    as (h' & E & _ & H & _).
  exists h'. split; [exact E|]. rewrite H. vm_compute. reflexivity.
Defined.

Lemma list_clear_then_use_faults_witness :
  ∃ h', list_clear (Some 1%positive) demo_heap = Ok ((), h') ∧
    list_append (Some 1%positive) (Some 40) h' = Fault.
Proof.
  destruct (list_clear_then_use_faults demo_heap 1%positive demo_cells (Some 40) demo_heap_ok
    demo_is_list) as (h' & E & _ & H & _); [discriminate|].
  exists h'. exact (conj E H).
Defined.

Lemma insert_at_iterator_one_sided_witness :
  ∃ h', listIterator_insertBefore (mkIter 1 (Some 3) OffsetNext)%positive (Some 15) demo_heap =
          Ok ((), h') ∧
    list_items 1%positive h' = Ok ([Some 10; Some 20; Some 30], h').
Proof.
  destruct (insert_at_iterator_one_sided demo_heap 1%positive [] 2%positive (Some 10) 3%positive
    (Some 20) [(4%positive, Some 30)] OffsetNext (Some 15) demo_heap_ok demo_is_list)
    as [(h' & E & H & _) _].
  exists h'. exact (conj E H).
Defined.
