(* ===== verification/Maps.v ===== *)
(** * Map.c: maps as lists of heap-allocated key/data nodes

    A [Map] owns a [List] whose payloads are pointers to [MapNode]s.  The
    abstract value of a map is an association list [alist] (the iteration order
    is visible to clients); [rep] relates a whole store of maps to the store of
    their abstract values, and every operation is proved against it.
    DataObjectMap.c, a client of the lists of its own, follows at the end. *)
From S2P Require Import Prelude Lists.

(** ** Data *)
Inductive MapType := STRING | NUMBER.
#[export] Instance MapType_eq_dec : EqDecision MapType.
Proof. solve_decision. Defined.

(** The [key] union of a node.  The copy made by [p_strdup] belongs to the node
    and is freed with it, so the string is kept in place. *)
Inductive MapKey := KString (s : string) | KNumber (z : Z).
#[export] Instance MapKey_eq_dec : EqDecision MapKey.
Proof. solve_decision. Defined.

Record MapNode (D : Type) := mkMapNode { mn_key : MapKey; mn_data : option D }.
Arguments mkMapNode {D}.
Arguments mn_key {D}.
Arguments mn_data {D}.
Record Map_t := mkMap { map_type : MapType; map_list : loc }.

Record mstate (D : Type) := mkMS {
  ms_lists : heap loc;
  ms_nodes : gmap loc (MapNode D);
  ms_maps : gmap loc Map_t;
  ms_brk : loc }.
Arguments mkMS {D}.
Arguments ms_lists {D}.
Arguments ms_nodes {D}.
Arguments ms_maps {D}.
Arguments ms_brk {D}.

(** The [const void *key] argument: the address of a string or an integer cast
    to a pointer, the integer 0 being NULL. *)
Definition key_null (k : MapKey) : bool := bool_decide (k = KNumber 0).

Section Operations.
Context {D : Type}.
Abbreviation MM := (M (mstate D)).

Definition on_lists {B} (m : M (heap loc) B) : MM B := λ s,
  match m (ms_lists s) with
  | Ok (b, h) => Ok (b, mkMS h (ms_nodes s) (ms_maps s) (ms_brk s))
  | Abort => Abort
  | Fault => Fault
  | NoFuel => NoFuel
  end.
Definition malloc_mapnode (c : MapNode D) : MM loc := λ s,
  Ok (ms_brk s, mkMS (ms_lists s) (<[ms_brk s := c]> (ms_nodes s)) (ms_maps s)
                     (Pos.succ (ms_brk s))).
Definition malloc_map (c : Map_t) : MM loc := λ s,
  Ok (ms_brk s, mkMS (ms_lists s) (ms_nodes s) (<[ms_brk s := c]> (ms_maps s))
                     (Pos.succ (ms_brk s))).
Definition get_mapnode (n : loc) : MM (MapNode D) := λ s,
  match ms_nodes s !! n with Some c => Ok (c, s) | None => Fault end.
Definition set_mapnode (n : loc) (f : MapNode D → MapNode D) : MM () := λ s,
  match ms_nodes s !! n with
  | Some c => Ok ((), mkMS (ms_lists s) (<[n := f c]> (ms_nodes s)) (ms_maps s) (ms_brk s))
  | None => Fault
  end.
Definition free_mapnode (n : loc) : MM () := λ s,
  match ms_nodes s !! n with
  | Some _ => Ok ((), mkMS (ms_lists s) (delete n (ms_nodes s)) (ms_maps s) (ms_brk s))
  | None => Fault
  end.
Definition get_map (m : loc) : MM Map_t := λ s,
  match ms_maps s !! m with Some c => Ok (c, s) | None => Fault end.
Definition free_map (m : loc) : MM () := λ s,
  match ms_maps s !! m with
  | Some _ => Ok ((), mkMS (ms_lists s) (ms_nodes s) (delete m (ms_maps s)) (ms_brk s))
  | None => Fault
  end.
(** [p_free (node->key.kstring)]: [p_free] ignores NULL, and any other integer
    is no pointer to free. *)
Definition free_kstring (k : MapKey) : MM () :=
  match k with
  | KString _ => mret ()
  | KNumber z => if bool_decide (z = 0) then mret () else fault
  end.

(** [strcmp (node->key.kstring, key) == 0] and [node->key.number == (int)key];
    reading the union through the wrong member is a [Fault]. *)
Definition kstring_is (key : MapKey) (c : MapNode D) : MM bool :=
  match mn_key c, key with
  | KString s, KString s' => mret (bool_decide (s = s'))
  | _, _ => fault
  end.
Definition number_is (key : MapKey) (c : MapNode D) : MM bool :=
  match mn_key c, key with
  | KNumber z, KNumber z' => mret (bool_decide (z = z'))
  | _, _ => fault
  end.

(** The [switch (ht->type)] around the test. *)
Definition key_test (ty : MapType) (key : MapKey) : MapNode D → M (mstate D) bool :=
  match ty with STRING => kstring_is key | NUMBER => number_is key end.

Definition map_new (htt : MapType) : MM loc :=
  l ← on_lists list_new;
  l ← deref l;
  malloc_map (mkMap htt l).
Definition map_string : MM loc := map_new STRING.
Definition map_int : MM loc := map_new NUMBER.

Fixpoint map_find_loop (fuel : nat) (key_is : MapNode D → MM bool)
    (iter : ListIterator) : MM (option D * ListIterator) :=
  match fuel with
  | O => no_fuel
  | S fuel =>
      if listIterator_finished iter then mret (None, iter) else
      output ← on_lists (listIterator_item iter);
      output ← deref output;
      c ← get_mapnode output;
      b ← key_is c;
      if b : bool then mret (mn_data c, iter) else
      iter ← on_lists (listIterator_next iter);
      map_find_loop fuel key_is iter
  end.
Definition map_find_number (ht : loc) (key : Z) : MM (option D * ListIterator) :=
  m ← get_map ht;
  iter ← on_lists (list_begin (Some (map_list m)));
  fuel ← gets (loop_fuel ∘ ms_lists);
  map_find_loop fuel (number_is (KNumber key)) iter.
Definition map_find_string (ht : loc) (key : MapKey) : MM (option D * ListIterator) :=
  m ← get_map ht;
  iter ← on_lists (list_begin (Some (map_list m)));
  fuel ← gets (loop_fuel ∘ ms_lists);
  map_find_loop fuel (kstring_is key) iter.
Definition map_find_iter (ht : option loc) (key : MapKey) : MM (option D * ListIterator) :=
  ht ← emo_nonnull ht;
  emo_assert (negb (key_null key));;
  m ← get_map ht;
  match map_type m with
  | STRING => map_find_string ht key
  | NUMBER =>
      match key with KNumber z => map_find_number ht z | KString _ => fault end
  end.
Definition map_find (ht : option loc) (key : MapKey) : MM (option D) :=
  '(d, _) ← map_find_iter ht key; mret d.

Fixpoint map_remove_loop (fuel : nat) (ty : MapType) (key : MapKey)
    (iter : ListIterator) : MM () :=
  match fuel with
  | O => no_fuel
  | S fuel =>
      if listIterator_finished iter then mret () else
      output ← on_lists (listIterator_item iter);
      output ← deref output;
      c ← get_mapnode output;
      b ← key_test ty key c;
      if b : bool then
        on_lists (listIterator_remove iter);;
        match ty with STRING => free_kstring (mn_key c) | NUMBER => mret () end;;
        free_mapnode output
      else
        iter ← on_lists (listIterator_next iter);
        map_remove_loop fuel ty key iter
  end.
Definition map_remove (ht : option loc) (key : MapKey) : MM () :=
  ht ← emo_nonnull ht;
  emo_assert (negb (key_null key));;
  m ← get_map ht;
  iter ← on_lists (list_begin (Some (map_list m)));
  fuel ← gets (loop_fuel ∘ ms_lists);
  map_remove_loop fuel (map_type m) key iter.

Definition map_append (ht : option loc) (key : MapKey) (data : option D) : MM () :=
  ht ← emo_nonnull ht;
  emo_assert (negb (key_null key));;
  map_remove (Some ht) key;;
  m ← get_map ht;
  match map_type m, key with
  | STRING, KString s =>
      node ← malloc_mapnode (mkMapNode (KString s) data);
      on_lists (list_append (Some (map_list m)) (Some node))
  | NUMBER, KNumber z =>
      node ← malloc_mapnode (mkMapNode (KNumber z) data);
      on_lists (list_append (Some (map_list m)) (Some node))
  | _, _ => fault
  end.

Fixpoint map_delete_loop (fuel : nat) (m : Map_t) : MM () :=
  match fuel with
  | O => no_fuel
  | S fuel =>
      iter ← on_lists (list_begin (Some (map_list m)));
      if listIterator_finished iter then mret () else
      node ← on_lists (listIterator_item iter);
      node ← deref node;
      c ← get_mapnode node;
      match map_type m with STRING => free_kstring (mn_key c) | NUMBER => mret () end;;
      on_lists (listIterator_remove iter);;
      free_mapnode node;;
      map_delete_loop fuel m
  end.
Definition map_delete (ht : option loc) : MM () :=
  ht ← emo_nonnull ht;
  m ← get_map ht;
  fuel ← gets (loop_fuel ∘ ms_lists);
  map_delete_loop fuel m;;
  on_lists (list_delete (Some (map_list m)));;
  free_map ht.

Definition map_begin (ht : option loc) : MM ListIterator :=
  ht ← emo_nonnull ht;
  m ← get_map ht;
  on_lists (list_begin (Some (map_list m))).
Definition mapIterator_finished : ListIterator → bool := listIterator_finished.
Definition mapIterator_item (iter : ListIterator) : MM (option D * MapKey) :=
  item ← on_lists (listIterator_item iter);
  item ← deref item;
  c ← get_mapnode item;
  mret (mn_data c, mn_key c).
Definition mapIterator_replace (iter : ListIterator) (data : option D) : MM () :=
  data ← emo_nonnull data;
  item ← on_lists (listIterator_item iter);
  item ← deref item;
  set_mapnode item (λ c, mkMapNode (mn_key c) (Some data)).
Definition mapIterator_remove (iter : ListIterator) : MM ListIterator :=
  item ← on_lists (listIterator_item iter);
  iter ← on_lists (listIterator_remove iter);
  item ← deref item;
  c ← get_mapnode item;
  free_kstring (mn_key c);;
  free_mapnode item;;
  mret iter.
Definition mapIterator_removeInt (iter : ListIterator) : MM ListIterator :=
  item ← on_lists (listIterator_item iter);
  iter ← on_lists (listIterator_remove iter);
  item ← deref item;
  free_mapnode item;;
  mret iter.
Definition mapIterator_next (iter : ListIterator) : MM ListIterator :=
  on_lists (listIterator_next iter).
End Operations.

(** ** Representation *)
Definition key_type (k : MapKey) : MapType :=
  match k with KString _ => STRING | KNumber _ => NUMBER end.

(** What the store knows of one map: its list, the cells of that list (address
    and payload of each list node) and the abstract value. *)
Record amap (D : Type) := mkAmap {
  am_type : MapType;
  am_list : loc;
  am_cells : list (loc * option loc);
  am_kvs : list (MapKey * option D) }.
Arguments mkAmap {D}.
Arguments am_type {D}.
Arguments am_list {D}.
Arguments am_cells {D}.
Arguments am_kvs {D}.

Section Representation.
Context {D : Type}.
Implicit Types (s : mstate D) (G : gmap loc (amap D)) (a : amap D).

Definition cell_ok (ns : gmap loc (MapNode D)) (ty : MapType)
    (c : loc * option loc) (kv : MapKey * option D) : Prop :=
  ∃ nd, c.2 = Some nd ∧ ns !! nd = Some (mkMapNode kv.1 kv.2) ∧ key_type kv.1 = ty.

Record map_ok s (m : loc) a : Prop := {
  mo_hdr : ms_maps s !! m = Some (mkMap (am_type a) (am_list a));
  mo_list : is_list (ms_lists s) (am_list a) (am_cells a);
  mo_cells : Forall2 (cell_ok (ms_nodes s) (am_type a)) (am_cells a) (am_kvs a);
  mo_nodes : NoDup (am_cells a).*2;
  mo_keys : NoDup (am_kvs a).*1 }.

Definition sep a1 a2 : Prop :=
  am_list a1 ≠ am_list a2 ∧
  (∀ n, n ∈ (am_cells a1).*1 → n ∉ (am_cells a2).*1) ∧
  (∀ n, n ∈ (am_cells a1).*2 → n ∉ (am_cells a2).*2).

(** The store [s] holds exactly the maps of [G], in disjoint memory. *)
Record rep s G : Prop := {
  rep_heap : heap_ok (ms_lists s);
  rep_fresh_node : ∀ n, is_Some (ms_nodes s !! n) → (n < ms_brk s)%positive;
  rep_fresh_map : ∀ m, is_Some (ms_maps s !! m) → (m < ms_brk s)%positive;
  rep_maps : ∀ m a, G !! m = Some a → map_ok s m a;
  rep_sep : ∀ m1 m2 a1 a2, m1 ≠ m2 → G !! m1 = Some a1 → G !! m2 = Some a2 → sep a1 a2 }.

Lemma cells_alloc ns ty cs kvs n :
  Forall2 (cell_ok ns ty) cs kvs → n ∈ cs.*2 → ∃ nd, n = Some nd ∧ is_Some (ns !! nd).
Proof.
  intros H. rewrite list_elem_of_fmap. intros ([k p] & -> & Hin).
  apply list_elem_of_lookup in Hin as [i Hi].
  destruct (Forall2_lookup_l _ _ _ _ _ H Hi) as (kv & _ & nd & ? & ? & _). simpl in *. eauto.
Qed.

(** A change confined to the memory of one map. *)
Lemma cell_frame ns ns' ty cs kvs :
  (∀ nd, Some nd ∈ cs.*2 → ns' !! nd = ns !! nd) →
  Forall2 (cell_ok ns ty) cs kvs → Forall2 (cell_ok ns' ty) cs kvs.
Proof.
  intros Hn H. induction H as [|c kv cs kvs (nd & Hc & Hl & Ht) H IH]; constructor.
  - exists nd. split_and!; [done| |done]. rewrite Hn; [done|]. csimpl. rewrite Hc. by left.
  - apply IH. intros k Hk. apply Hn. csimpl. by right.
Qed.

Lemma rep_update s s' G m a a' :
  rep s G → G !! m = Some a →
  heap_ok (ms_lists s') → map_ok s' m a' → am_list a' = am_list a →
  ms_maps s' = ms_maps s → (ms_brk s ≤ ms_brk s')%positive →
  only_touches (ms_lists s) (ms_lists s') (am_list a) (am_cells a) →
  (∀ nd, Some nd ∉ (am_cells a).*2 → is_Some (ms_nodes s !! nd) →
         ms_nodes s' !! nd = ms_nodes s !! nd) →
  (∀ nd, is_Some (ms_nodes s' !! nd) → (nd < ms_brk s')%positive) →
  (∀ n, n ∈ (am_cells a').*1 → n ∈ (am_cells a).*1 ∨ nodes (ms_lists s) !! n = None) →
  (∀ nd, Some nd ∈ (am_cells a').*2 → Some nd ∈ (am_cells a).*2 ∨ ms_nodes s !! nd = None) →
  rep s' (<[m := a']> G).
Proof.
  intros HR Hm Hok' Ha' Hl' Hmaps Hbrk Hot Hn Hfn Hc1 Hc2.
  assert (∀ m2 a2, m2 ≠ m → G !! m2 = Some a2 → sep a' a2 ∧ sep a2 a') as Hsep.
  { intros m2 a2 Hne H2. destruct (rep_sep _ _ HR m m2 a a2 (not_eq_sym Hne) Hm H2) as (S1&S2&S3).
    destruct (rep_maps _ _ HR _ _ H2) as [_ L2 C2 _ _].
    assert (∀ n, n ∈ (am_cells a').*1 → n ∉ (am_cells a2).*1) as T1.
    { intros n [Hin|Hin]%Hc1; [by apply S2|]. intros Hin2.
      destruct (seg_lookup _ _ _ _ _ (il_seg _ _ _ L2) Hin2). congruence. }
    assert (∀ n, n ∈ (am_cells a').*2 → n ∉ (am_cells a2).*2) as T2.
    { intros n Hin Hin2. destruct (cells_alloc _ _ _ _ _ C2 Hin2) as (nd & -> & [? ?]).
      destruct (Hc2 _ Hin); [by eapply S3|congruence]. }
    split; split_and!; try congruence; [done|done|..]; intros n Hi Hi'; [by eapply T1|by eapply T2]. }
  split; [done|done|..].
  - intros m2. rewrite Hmaps. intros H%(rep_fresh_map _ _ HR). lia.
  - intros m2 a2. rewrite lookup_insert_Some. intros [[<- <-]|[Hne H2]]; [done|].
    destruct (rep_sep _ _ HR m m2 a a2 Hne Hm H2) as (S1 & S2 & S3).
    destruct (rep_maps _ _ HR _ _ H2) as [H0 L2 C2 N2 K2]. split; [congruence| | |done|done].
    + apply Hot; [done| |done]. intros n Hin Hin'. by eapply S2.
    + eapply cell_frame; [|exact C2]. intros nd Hnd. apply Hn.
      * intros Hin. by eapply S3.
      * destruct (cells_alloc _ _ _ _ _ C2 Hnd) as (? & [= <-] & ?). done.
  - intros m1 m2 a1 a2 Hne. rewrite !lookup_insert_Some.
    intros [[<- <-]|[Hn1 H1]] [[<- <-]|[Hn2 H2]]; try done; [by apply (Hsep m2)|by apply (Hsep m1)|].
    by eapply (rep_sep _ _ HR m1 m2).
Qed.

(** ** Running the operations *)
Lemma on_lists_Ok {B} (m : M (heap loc) B) s b h :
  m (ms_lists s) = Ok (b, h) →
  on_lists m s = Ok (b, mkMS h (ms_nodes s) (ms_maps s) (ms_brk s)).
Proof. unfold on_lists. by intros ->. Qed.
Lemma on_lists_pure {B} (m : M (heap loc) B) s b :
  m (ms_lists s) = Ok (b, ms_lists s) → on_lists m s = Ok (b, s).
Proof. unfold on_lists. intros ->. by destruct s. Qed.
Lemma get_mapnode_Ok s n c : ms_nodes s !! n = Some c → get_mapnode n s = Ok (c, s).
Proof. unfold get_mapnode. by intros ->. Qed.
Lemma get_map_Ok s m a : map_ok s m a →
  get_map m s = Ok (mkMap (am_type a) (am_list a), s).
Proof. intros [H _ _ _ _]. unfold get_map. by rewrite H. Qed.
Lemma map_list_begin s m a : map_ok s m a →
  on_lists (list_begin (Some (am_list a))) s =
    Ok (mkIter (am_list a) (first_loc (am_cells a) None) OffsetNext, s).
Proof.
  intros [_ [H _ _] _ _ _]. apply on_lists_pure. unfold list_begin. by run_bind.
Qed.
Lemma listIterator_item_at (h : heap loc) l n c d :
  nodes h !! n = Some c → listIterator_item (mkIter l (Some n) d) h = Ok (data c, h).
Proof. intros H. unfold listIterator_item. simpl. hrun. done. Qed.
Lemma listIterator_next_at (h : heap loc) l n c :
  nodes h !! n = Some c →
  listIterator_next (mkIter l (Some n) OffsetNext) h = Ok (mkIter l (next c) OffsetNext, h).
Proof. intros H. unfold listIterator_next. simpl. hrun. done. Qed.

(** The key test a loop performs, on a node of the right kind. *)
Definition tests (ty : MapType) (key : MapKey) (key_is : MapNode D → M (mstate D) bool) : Prop :=
  ∀ k d s, key_type k = ty → key_is (mkMapNode k d) s = Ok (bool_decide (k = key), s).
Lemma kstring_tests key : key_type key = STRING → tests STRING key (kstring_is key).
Proof.
  destruct key; [|done]. intros _ [s'|] d st; [intros _|done]. unfold kstring_is. simpl.
  unfold mret, M_ret. do 2 f_equal. apply bool_decide_ext. naive_solver.
Qed.
Lemma number_tests key : key_type key = NUMBER → tests NUMBER key (number_is key).
Proof.
  destruct key; [done|]. intros _ [|z'] d st; [done|intros _]. unfold number_is. simpl.
  unfold mret, M_ret. do 2 f_equal. apply bool_decide_ext. naive_solver.
Qed.

(** The search stops at the node holding [key], if there is one. *)
Lemma map_find_loop_ok ty key key_is s l p cs kvs fuel :
  tests ty key key_is →
  seg (nodes (ms_lists s)) p cs None → Forall2 (cell_ok (ms_nodes s) ty) cs kvs →
  (length cs < fuel)%nat →
  ∃ iter, map_find_loop fuel key_is (mkIter l (first_loc cs None) OffsetNext) s =
            Ok (mjoin (al_find key kvs), iter, s) ∧
    (it_node iter = None ↔ al_find key kvs = None).
Proof.
  intros Ht. revert p kvs fuel; induction cs as [|[n x] cs IH]; intros p kvs [|fuel] Hs HF Hf;
    try (simpl in Hf; lia).
  - apply Forall2_nil_inv_l in HF as ->. eexists; split; [done|done].
  - apply Forall2_cons_inv_l in HF as ([k d] & kvs' & (nd & Hx & Hnd & Hty) & HF & ->).
    destruct Hs as [Hn Hs]. simpl in Hx, Hnd, Hty. subst x. simpl.
    erewrite bind_Ok by (apply on_lists_pure, listIterator_item_at; exact Hn). simpl.
    erewrite bind_Ok by reflexivity. erewrite bind_Ok by (by apply get_mapnode_Ok).
    erewrite bind_Ok by (by apply Ht). case_bool_decide as Hk.
    + rewrite decide_True by done. by eexists.
    + rewrite decide_False by done.
      erewrite bind_Ok by (apply on_lists_pure, listIterator_next_at; exact Hn). simpl.
      apply (IH (Some n)); [done..|simpl in Hf; lia].
Qed.

(** Unlinking the list node [n] and freeing the map node [nd] it carries. *)
Definition with_cells (a : amap D) cs kvs : amap D :=
  mkAmap (am_type a) (am_list a) cs kvs.

Lemma remove_at_ok s G m a c1 n nd c2 k1 kd k2 d :
  rep s G → G !! m = Some a →
  am_cells a = c1 ++ (n, Some nd) :: c2 → am_kvs a = k1 ++ kd :: k2 → length c1 = length k1 →
  ∃ h s', listIterator_remove (mkIter (am_list a) (Some n) d) (ms_lists s) =
            Ok (mkIter (am_list a) (last_loc None c1) d, h) ∧
    free_mapnode nd (mkMS h (ms_nodes s) (ms_maps s) (ms_brk s)) = Ok ((), s') ∧
    ms_nodes s' = delete nd (ms_nodes s) ∧
    rep s' (<[m := with_cells a (c1 ++ c2) (k1 ++ k2)]> G).
Proof.
  intros HR Hm Ec Ek Hlen. destruct (rep_maps _ _ HR _ _ Hm) as [M1 M2 M3 M4 M5].
  rewrite Ec in M2, M3, M4. rewrite Ek in M3, M5.
  destruct (listIterator_remove_ok _ _ _ _ _ _ d (rep_heap _ _ HR) M2)
    as (h & E & Hok & Hl & Hn & Hot). exists h.
  apply Forall2_app_inv in M3 as [F1 F2]; [|done].
  apply Forall2_cons in F2 as [(nd' & [= <-] & Hnd & Hty) F2].
  rewrite fmap_app in M4. csimpl in *. apply NoDup_app in M4 as (N1 & N2 & N3).
  apply NoDup_cons in N3 as [N3 N4].
  assert (Some nd ∉ c1.*2) as N0 by (intros Hin; apply (N2 _ Hin); by left).
  unfold free_mapnode. cbn [ms_nodes]. rewrite Hnd.
  eexists; split_and!; [done..|].
  apply (rep_update s _ _ _ a); cbn [ms_lists ms_nodes ms_maps ms_brk with_cells am_list am_cells];
    [done..| |done|done|lia|by rewrite Ec| | | |].
  - split; cbn [ms_lists ms_nodes ms_maps ms_brk with_cells am_list am_cells am_kvs am_type];
      [done|done| | |].
    + apply Forall2_app; (eapply cell_frame; [|done]); intros k Hk; apply lookup_delete_ne;
        intros <-; [by apply N0|by apply N3].
    + rewrite fmap_app. apply NoDup_app. split_and!; [done| |done].
      intros x Hx Hx'. apply (N2 _ Hx). by right.
    + rewrite fmap_app in M5 |- *. csimpl in M5. apply NoDup_app in M5 as (K1 & K2 & K3).
      apply NoDup_cons in K3 as [? ?]. apply NoDup_app. split_and!; [done| |done].
      intros x Hx Hx'. apply (K2 _ Hx). by right.
  - intros k Hk _. apply lookup_delete_ne. intros <-. apply Hk. rewrite Ec, fmap_app. csimpl.
    apply elem_of_app. right. by left.
  - intros k [_ Hk]%lookup_delete_is_Some. by apply (rep_fresh_node _ _ HR).
  - intros k Hk. left. rewrite Ec. rewrite fmap_app in Hk |- *. csimpl. set_solver.
  - intros k Hk. left. rewrite Ec. rewrite fmap_app in Hk |- *. csimpl. set_solver.
Qed.

(** *** [map_remove] *)
Lemma key_test_ok ty key : key_type key = ty → tests ty key (key_test ty key).
Proof. destruct ty; [apply kstring_tests|apply number_tests]. Qed.

Lemma map_remove_skip ty key s l p c1 rest k1 fuel :
  key_type key = ty →
  seg (nodes (ms_lists s)) p (c1 ++ rest) None → Forall2 (cell_ok (ms_nodes s) ty) c1 k1 →
  key ∉ k1.*1 →
  map_remove_loop (length c1 + fuel) ty key
      (mkIter l (first_loc (c1 ++ rest) None) OffsetNext) s =
    map_remove_loop fuel ty key (mkIter l (first_loc rest None) OffsetNext) s.
Proof.
  intros Ht. revert p k1; induction c1 as [|[n x] c1 IH]; intros p k1 Hs HF Hk; [done|].
  apply Forall2_cons_inv_l in HF as ([k d] & kvs' & (nd & Hx & Hnd & Hty) & HF & ->).
  destruct Hs as [Hn Hs]. simpl in Hx, Hnd, Hty. subst x. csimpl in *.
  apply not_elem_of_cons in Hk as [Hk Hk'].
  erewrite bind_Ok by (apply on_lists_pure, listIterator_item_at; exact Hn). simpl.
  erewrite bind_Ok by reflexivity. erewrite bind_Ok by (by apply get_mapnode_Ok).
  erewrite bind_Ok by (by apply (key_test_ok ty key)). rewrite bool_decide_false by done.
  erewrite bind_Ok by (apply on_lists_pure, listIterator_next_at; exact Hn). simpl.
  by eapply (IH (Some n)).
Qed.

Lemma al_split (key : MapKey) (cs : list (loc * option loc)) (kvs : list (MapKey * option D)) ns ty :
  Forall2 (cell_ok ns ty) cs kvs → key ∈ kvs.*1 → NoDup kvs.*1 →
  ∃ c1 n nd c2 k1 d k2, cs = c1 ++ (n, Some nd) :: c2 ∧ kvs = k1 ++ (key, d) :: k2 ∧
    length c1 = length k1 ∧ key ∉ k1.*1 ∧ al_remove key kvs = k1 ++ k2 ∧
    ns !! nd = Some (mkMapNode key d).
Proof.
  intros HF Hin Hnd. apply list_elem_of_fmap in Hin as ([k d] & -> & Hin).
  apply list_elem_of_split in Hin as (k1 & k2 & ->).
  apply Forall2_app_inv_r in HF as (c1 & c2' & F1 & F2 & ->).
  apply Forall2_cons_inv_r in F2 as ([n x] & c2 & (nd & Hx & Hl & _) & F2 & ->).
  simpl in Hx, Hl; subst x. rewrite fmap_app in Hnd. csimpl in *.
  apply NoDup_app in Hnd as (H1 & H2 & H3). apply NoDup_cons in H3 as [H3 _].
  exists c1, n, nd, c2, k1, d, k2.
  assert (k ∉ k1.*1) by (intros ?; eapply H2; [done|by left]).
  split_and!; try done; [by eapply Forall2_length|by apply al_remove_middle].
Qed.

Lemma map_remove_ok s G m a key :
  rep s G → G !! m = Some a → key_type key = am_type a → key_null key = false →
  ∃ s' cs, map_remove (Some m) key s = Ok ((), s') ∧
    rep s' (<[m := with_cells a cs (al_remove key (am_kvs a))]> G).
Proof.
  intros HR Hm Ht Hnull. pose proof (rep_maps _ _ HR _ _ Hm) as Ha.
  unfold map_remove. rewrite Hnull. erewrite bind_Ok by reflexivity.
  erewrite bind_Ok by reflexivity. erewrite bind_Ok by (by apply get_map_Ok).
  cbn [map_list map_type]. erewrite bind_Ok by (by eapply map_list_begin).
  erewrite bind_Ok by reflexivity. unfold compose.
  destruct Ha as [M1 M2 M3 M4 M5]. pose proof (cells_le_fuel _ _ _ M2) as Hf.
  destruct M2 as [L1 L2 L3].
  destruct (decide (key ∈ (am_kvs a).*1)) as [Hin|Hnin].
  - destruct (al_split _ _ _ _ _ M3 Hin M5) as (c1&n&nd&c2&k1&d&k2&Ec&Ek&Hlen&Hk1&Er&Hnd).
    rewrite Er. rewrite Ec in L3, Hf |- *. rewrite Ec, Ek in M3.
    apply Forall2_app_inv in M3 as [F1 F2]; [|done].
    rewrite length_app in Hf. simpl in Hf.
    replace (loop_fuel (ms_lists s)) with (length c1 + S (loop_fuel (ms_lists s) - length c1 - 1))%nat
      by lia.
    rewrite (map_remove_skip _ _ _ _ None _ _ k1) by done.
    apply seg_app in L3 as [_ [Hn _]].
    destruct (remove_at_ok s G m a c1 n nd c2 k1 (key, d) k2 OffsetNext HR Hm Ec Ek Hlen)
      as (h & s' & E1 & E2 & _ & HR'). exists s', (c1 ++ c2). split; [|done]. simpl.
    erewrite bind_Ok by (apply on_lists_pure, listIterator_item_at; exact Hn). simpl.
    erewrite bind_Ok by reflexivity. erewrite bind_Ok by (by apply get_mapnode_Ok).
    erewrite bind_Ok by (by apply (key_test_ok _ key)). rewrite bool_decide_true by done.
    erewrite bind_Ok by (apply on_lists_Ok; exact E1). rewrite <-Ht.
    erewrite bind_Ok by (instantiate (2 := ()); by destruct key). exact E2.
  - exists s, (am_cells a). rewrite al_remove_notin by done. split.
    + rewrite <-(app_nil_r (am_cells a)) in L3 |- *.
      replace (loop_fuel (ms_lists s)) with
        (length (am_cells a) + S (loop_fuel (ms_lists s) - length (am_cells a) - 1))%nat by lia.
      by rewrite (map_remove_skip _ _ _ _ None _ _ (am_kvs a)).
    + by rewrite insert_id by (by destruct a).
Qed.

(** *** [map_append] *)
Lemma alloc_append_ok s G m a key d :
  rep s G → G !! m = Some a → key_type key = am_type a → key ∉ (am_kvs a).*1 →
  ∃ h s' cs, malloc_mapnode (mkMapNode key d) s = Ok (ms_brk s, h) ∧
    on_lists (list_append (Some (am_list a)) (Some (ms_brk s))) h = Ok ((), s') ∧
    rep s' (<[m := with_cells a cs (am_kvs a ++ [(key, d)])]> G).
Proof.
  intros HR Hm Ht Hk. destruct (rep_maps _ _ HR _ _ Hm) as [M1 M2 M3 M4 M5].
  destruct (list_append_ok _ _ _ (Some (ms_brk s)) (rep_heap _ _ HR) M2)
    as (n & h & E & Hok & Hl & Hfresh & Hot).
  assert (ms_nodes s !! ms_brk s = None) as Hb.
  { destruct (ms_nodes s !! ms_brk s) eqn:Eb; [|done].
    pose proof (rep_fresh_node _ _ HR (ms_brk s) ltac:(eauto)). lia. }
  assert (Some (ms_brk s) ∉ (am_cells a).*2) as Hnew.
  { intros Hin. destruct (cells_alloc _ _ _ _ _ M3 Hin) as (? & [= <-] & [? ?]). congruence. }
  eexists _, _, (am_cells a ++ [(n, Some (ms_brk s))]). split_and!; [done| |].
  { apply on_lists_Ok. exact E. }
  apply (rep_update s _ _ _ a); cbn [ms_lists ms_nodes ms_maps ms_brk with_cells am_list am_cells];
    [done..| |done|done|lia|done| | | |].
  - split; cbn [ms_lists ms_nodes ms_maps ms_brk with_cells am_list am_cells am_kvs am_type];
      [done|done| | |].
    + apply Forall2_app.
      * eapply cell_frame; [|done]. intros k Hin. apply lookup_insert_ne. by intros <-.
      * constructor; [|constructor]. exists (ms_brk s). by rewrite lookup_insert_eq.
    + rewrite fmap_app. apply NoDup_app. split_and!; [done| |apply NoDup_singleton].
      intros x Hx. csimpl. set_solver.
    + rewrite fmap_app. apply NoDup_app. split_and!; [done| |apply NoDup_singleton].
      intros x Hx. csimpl. set_solver.
  - intros k _ [? Hin]. apply lookup_insert_ne. intros <-. congruence.
  - intros k. rewrite lookup_insert_is_Some'. intros [<-|Hin]; [lia|].
    pose proof (rep_fresh_node _ _ HR _ Hin). lia.
  - intros k. rewrite fmap_app. csimpl. rewrite elem_of_app, list_elem_of_singleton.
    intros [?| ->]; [by left|by right].
  - intros k. rewrite fmap_app. csimpl. rewrite elem_of_app, list_elem_of_singleton.
    intros [?|[= ->]]; [by left|by right].
Qed.

Lemma map_append_ok s G m a key d :
  rep s G → G !! m = Some a → key_type key = am_type a → key_null key = false →
  ∃ s' cs, map_append (Some m) key d s = Ok ((), s') ∧
    rep s' (<[m := with_cells a cs (al_append key d (am_kvs a))]> G).
Proof.
  intros HR Hm Ht Hnull. unfold map_append. rewrite Hnull.
  erewrite bind_Ok by reflexivity. erewrite bind_Ok by reflexivity.
  destruct (map_remove_ok s G m a key HR Hm Ht Hnull) as (s1 & cs1 & E1 & HR1).
  erewrite bind_Ok by exact E1.
  assert (key ∉ (al_remove key (am_kvs a)).*1) as Hk by (by intros [? _]%al_elem_of_remove).
  pose proof (rep_maps _ _ HR1 m _ (lookup_insert_eq _ _ _)) as Ha1.
  erewrite bind_Ok by (by apply get_map_Ok). cbn [map_type map_list with_cells am_type am_list].
  destruct (alloc_append_ok s1 _ m _ key d HR1 (lookup_insert_eq _ _ _) Ht Hk)
    as (h & s' & cs & E2 & E3 & HR'). exists s', cs.
  rewrite insert_insert_eq in HR'. split; [|done].
  rewrite <-Ht. destruct key; simpl; by erewrite bind_Ok by exact E2.
Qed.

(** *** [map_find] *)
Lemma map_find_ok s G m a key :
  rep s G → G !! m = Some a → key_type key = am_type a → key_null key = false →
  map_find (Some m) key s = Ok (mjoin (al_find key (am_kvs a)), s).
Proof.
  intros HR Hm Ht Hnull. pose proof (rep_maps _ _ HR _ _ Hm) as Ha.
  unfold map_find, map_find_iter. rewrite Hnull, !bind_assoc. erewrite bind_Ok by reflexivity.
  rewrite !bind_assoc. erewrite bind_Ok by reflexivity.
  rewrite !bind_assoc. erewrite bind_Ok by (by apply get_map_Ok). cbn [map_type map_list].
  assert (∀ key_is, tests (am_type a) key key_is → ∃ iter,
    (m ← get_map m; iter ← on_lists (list_begin (Some (map_list m)));
     fuel ← gets (loop_fuel ∘ ms_lists); map_find_loop fuel key_is iter) s =
    Ok (mjoin (al_find key (am_kvs a)), iter, s)) as Hloop.
  { intros key_is Hk. erewrite bind_Ok by (by apply get_map_Ok). cbn [map_list].
    erewrite bind_Ok by (by eapply map_list_begin). erewrite bind_Ok by reflexivity.
    destruct Ha as [_ M2 M3 _ _].
    destruct (map_find_loop_ok _ key key_is s (am_list a) None (am_cells a) (am_kvs a)
      (loop_fuel (ms_lists s)) Hk (il_seg _ _ _ M2) M3 (cells_le_fuel _ _ _ M2))
      as (iter & E & _). exists iter. exact E. }
  destruct (Hloop _ (key_test_ok _ _ Ht)) as [iter E].
  rewrite <-Ht in *. destruct key; cbn [key_type] in *; by erewrite bind_Ok by exact E.
Qed.

(** *** [map_new] and [map_delete] *)
Lemma list_new_fresh (h : heap loc) :
  heap_ok h →
  ∃ h', list_new h = Ok (Some (brk h), h') ∧ heap_ok h' ∧ is_list h' (brk h) [] ∧
    lists h !! brk h = None ∧ only_touches h h' (brk h) [].
Proof.
  intros Hok. eexists _. split; [reflexivity|]. split_and!.
  - heap_ok_tac.
  - split; simpl; [by simplify_map_eq|constructor|done].
  - by apply fresh_list.
  - apply only_touches_intro; simpl; [done|..]; intros; by simplify_map_eq.
Qed.

Lemma map_new_ok s G ty :
  rep s G →
  ∃ s', map_new ty s = Ok (ms_brk s, s') ∧ G !! ms_brk s = None ∧
    rep s' (<[ms_brk s := mkAmap ty (brk (ms_lists s)) [] []]> G).
Proof.
  intros HR. destruct (list_new_fresh _ (rep_heap _ _ HR)) as (h & E & Hok & Hl & Hf & Hot).
  set (l := brk (ms_lists s)) in *.
  assert (G !! ms_brk s = None) as HG.
  { destruct (G !! ms_brk s) eqn:E'; [|done]. destruct (rep_maps _ _ HR _ _ E') as [H _ _ _ _].
    pose proof (rep_fresh_map _ _ HR (ms_brk s) ltac:(eauto)). lia. }
  assert (∀ m a, G !! m = Some a → am_list a ≠ l) as Hne.
  { intros m a Ha <-. pose proof (il_hdr _ _ _ (mo_list _ _ _ (rep_maps _ _ HR _ _ Ha))). congruence. }
  eexists _. unfold map_new. erewrite bind_Ok by (apply on_lists_Ok; exact E).
  split; [reflexivity|]. split; [done|].
  split; cbn [ms_lists ms_nodes ms_maps ms_brk]; [done|..].
  - intros n Hn%(rep_fresh_node _ _ HR). lia.
  - intros n. rewrite lookup_insert_is_Some'. intros [<-|Hn]; [lia|].
    pose proof (rep_fresh_map _ _ HR _ Hn). lia.
  - intros m a. rewrite lookup_insert_Some. intros [[<- <-]|[Hm Ha]].
    + split; cbn [ms_maps ms_lists am_list am_type am_cells am_kvs];
        [by rewrite lookup_insert_eq|done|constructor|constructor|constructor].
    + destruct (rep_maps _ _ HR _ _ Ha) as [M1 M2 M3 M4 M5].
      split; cbn [ms_maps ms_lists ms_nodes]; [by rewrite lookup_insert_ne| |done..].
      apply Hot; [by eapply Hne|set_solver|done].
  - intros m1 m2 a1 a2 Hm. rewrite !lookup_insert_Some.
    intros [[<- <-]|[Hn1 H1]] [[<- <-]|[Hn2 H2]]; try done; [..|by eapply (rep_sep _ _ HR m1 m2)];
      (split_and!; cbn [am_list am_cells]; [|set_solver..]).
    + apply not_eq_sym. by eapply Hne.
    + by eapply Hne.
Qed.

Lemma map_delete_loop_ok s G m ty l cs kvs fuel :
  rep s G → G !! m = Some (mkAmap ty l cs kvs) → (length cs < fuel)%nat →
  ∃ s', map_delete_loop fuel (mkMap ty l) s = Ok ((), s') ∧
    (∀ k, ms_nodes s' !! k = if decide (Some k ∈ cs.*2) then None else ms_nodes s !! k) ∧
    rep s' (<[m := mkAmap ty l [] []]> G).
Proof.
  revert s G cs kvs; induction fuel as [|fuel IH]; intros s G cs kvs HR Hm Hf; [lia|].
  pose proof (rep_maps _ _ HR _ _ Hm) as Ha. simpl.
  erewrite bind_Ok by (by apply (map_list_begin s m _ Ha)). cbn [am_list am_cells].
  destruct Ha as [M1 M2 M3 M4 M5]; cbn [am_list am_cells am_type am_kvs] in *.
  destruct cs as [|[n x] cs].
  - apply Forall2_nil_inv_l in M3 as ->. exists s. split_and!; [done|done|]. by rewrite insert_id.
  - apply Forall2_cons_inv_l in M3 as ([k d] & kvs' & (nd & Hx & Hnd & Hty) & HF & ->).
    simpl in Hx, Hnd, Hty. subst x. destruct (il_seg _ _ _ M2) as [Hn _].
    destruct (remove_at_ok s G m _ [] n nd cs [] (k, d) kvs' OffsetNext HR Hm eq_refl eq_refl eq_refl)
      as (h & s1 & E1 & E2 & En & HR').
    destruct (IH s1 _ cs kvs' HR' (lookup_insert_eq _ _ _) ltac:(simpl in Hf; lia))
      as (s' & E & Hk & HR'').
    exists s'. rewrite insert_insert_eq in HR''. split_and!; [|..|done].
    + simpl. erewrite bind_Ok by (apply on_lists_pure, listIterator_item_at; exact Hn). simpl.
      erewrite bind_Ok by reflexivity. erewrite bind_Ok by (by apply get_mapnode_Ok).
      erewrite bind_Ok by (instantiate (2 := ()); rewrite <-Hty; by destruct k).
      erewrite bind_Ok by (apply on_lists_Ok; exact E1).
      erewrite bind_Ok by exact E2. exact E.
    + intros i. rewrite Hk, En. csimpl. destruct (decide (i = nd)) as [->|Hne].
      * rewrite (decide_True (P := Some nd ∈ Some nd :: _)) by (by left).
        rewrite lookup_delete_eq. by case_decide.
      * rewrite lookup_delete_ne by done. apply decide_ext.
        rewrite elem_of_cons. naive_solver.
Qed.

(** C34: [map_delete] terminates and frees the map, its list and every one of its
    nodes (each once, strings included, or it would fault), and leaves the
    memory of every other map as it was. *)
Theorem map_delete_frees s G m a :
  rep s G → G !! m = Some a →
  ∃ s', map_delete (Some m) s = Ok ((), s') ∧ rep s' (delete m G) ∧
    ms_maps s' !! m = None ∧ lists (ms_lists s') !! am_list a = None ∧
    (∀ k, ms_nodes s' !! k =
       if decide (Some k ∈ (am_cells a).*2) then None else ms_nodes s !! k).
Proof.
  intros HR Hm. pose proof (rep_maps _ _ HR _ _ Hm) as Ha. destruct a as [ty l cs kvs].
  unfold map_delete. erewrite bind_Ok by reflexivity. erewrite bind_Ok by (by apply get_map_Ok).
  erewrite bind_Ok by reflexivity. unfold compose. cbn [am_type am_list am_cells] in *.
  destruct (map_delete_loop_ok s G m ty l cs kvs _ HR Hm (cells_le_fuel _ _ _ (mo_list _ _ _ Ha)))
    as (s1 & E1 & Hk & HR1). erewrite bind_Ok by exact E1.
  destruct (rep_maps _ _ HR1 m _ (lookup_insert_eq _ _ _)) as [M1 M2 M3 M4 M5].
  cbn [map_list am_type am_list am_cells] in *.
  destruct (list_delete_ok _ _ _ (rep_heap _ _ HR1) M2) as (h & E2 & Hok & Hl & Hn & Hot).
  erewrite bind_Ok by (apply on_lists_Ok; exact E2).
  unfold free_map. cbn [ms_maps]. rewrite M1. eexists. split; [done|].
  cbn [ms_maps ms_lists ms_nodes]. rewrite Hl, !lookup_delete_eq. split_and!; [|done..].
  split; cbn [ms_maps ms_lists ms_nodes ms_brk]; [done|..].
  - apply (rep_fresh_node _ _ HR1).
  - intros m2 [_ H]%lookup_delete_is_Some. by apply (rep_fresh_map _ _ HR1).
  - intros m2 a2 [Hne H2]%lookup_delete_Some.
    assert (<[m:=mkAmap ty l [] []]> G !! m2 = Some a2) as H2' by (by rewrite lookup_insert_ne).
    destruct (rep_sep _ _ HR1 m m2 _ a2 Hne (lookup_insert_eq _ _ _) H2') as (S1 & _ & _).
    destruct (rep_maps _ _ HR1 _ _ H2') as [N1 N2 N3 N4 N5].
    split; cbn [ms_maps ms_lists ms_nodes]; [by rewrite lookup_delete_ne| |done..].
    apply Hot; [by apply not_eq_sym|set_solver|done].
  - intros m1 m2 a1 a2 Hne [? H1]%lookup_delete_Some [? H2]%lookup_delete_Some.
    by eapply (rep_sep _ _ HR m1 m2).
Qed.
End Representation.

(** ** A concrete store: one string map and one int map *)
Definition no_maps {D} : mstate D := mkMS (mkHeap ∅ ∅ 1%positive) ∅ ∅ 1.
Lemma no_maps_rep {D} : rep (no_maps (D := D)) ∅.
Proof.
  split; [split| | | |]; simpl; try (intros ? [? ?]; set_solver); intros; set_solver.
Qed.
Definition run_or {S B} (m : M S B) (s : S) : S :=
  match m s with Ok (_, s') => s' | _ => s end.
Definition demo_maps {D} : mstate D := run_or map_int (run_or map_string no_maps).
Definition demo_amaps {D} : gmap loc (amap D) :=
  <[2%positive := mkAmap NUMBER 2 [] []]> {[1%positive := mkAmap STRING 1 [] []]}.
Lemma demo_maps_rep {D} : rep (demo_maps (D := D)) demo_amaps.
Proof.
  destruct (map_new_ok _ _ STRING (no_maps_rep (D := D))) as (s & E & _ & H).
  assert (s = run_or map_string no_maps) as -> by (unfold run_or, map_string; by rewrite E).
  destruct (map_new_ok _ _ NUMBER H) as (s' & E' & _ & H').
  assert (s' = demo_maps) as -> by (unfold demo_maps, run_or at 1, map_int; by rewrite E').
  exact H'.
Qed.

(** ** DataObjectMap.c: field-name translations

    A [DataObjectMap] is a list of [Mapping]s, each with a list of target names;
    the two heaps hold the lists of mappings and the lists of names. *)
Record Mapping := mkMapping { m_from : string; m_to : loc }.
Record dmstate := mkDM { dm_mappings : heap Mapping; dm_names : heap string }.

Definition on_mappings {B} (m : M (heap Mapping) B) : M dmstate B := λ s,
  match m (dm_mappings s) with
  | Ok (b, h) => Ok (b, mkDM h (dm_names s))
  | Abort => Abort | Fault => Fault | NoFuel => NoFuel
  end.
Definition on_names {B} (m : M (heap string) B) : M dmstate B := λ s,
  match m (dm_names s) with
  | Ok (b, h) => Ok (b, mkDM (dm_mappings s) h)
  | Abort => Abort | Fault => Fault | NoFuel => NoFuel
  end.

(** Both loops test the item under the iterator and go round again without
    advancing it. *)
Fixpoint dm_search_loop (fuel : nat) (from : string) (iter : ListIterator) :
    M dmstate (option Mapping) :=
  match fuel with
  | O => no_fuel
  | S fuel =>
      if listIterator_finished iter then mret None else
      item ← on_mappings (listIterator_item iter);
      item ← deref item;
      if bool_decide (m_from item = from) then mret (Some item)
      else dm_search_loop fuel from iter
  end.

Definition dataobjectmap_new : M dmstate (option loc) := on_mappings list_new.

Definition dataobjectmap_setTranslation (fuel : nat) (dmap : loc) (from to : string) :
    M dmstate () :=
  iter ← on_mappings (list_begin (Some dmap));
  found ← dm_search_loop fuel from iter;
  item ← match found with
         | Some item => mret item
         | None =>
             to_list ← on_names list_new;
             to_list ← deref to_list;
             let item := mkMapping from to_list in
             on_mappings (list_append (Some dmap) (Some item));;
             mret item
         end;
  on_names (list_append (Some (m_to item)) (Some to)).

Definition dataobjectmap_translate (fuel : nat) (dmap : loc) (field : string) :
    M dmstate (option loc) :=
  iter ← on_mappings (list_begin (Some dmap));
  item ← dm_search_loop fuel field iter;
  mret (m_to <$> item).

Lemma dm_search_stuck fuel s l n c d field mp :
  nodes (dm_mappings s) !! n = Some c → data c = Some mp → m_from mp ≠ field →
  dm_search_loop fuel field (mkIter l (Some n) d) s = NoFuel.
Proof.
  intros Hn Hd Hne. induction fuel as [|fuel IH]; [done|]. simpl.
  unfold mbind at 1, M_bind, on_mappings, listIterator_item. simpl.
  unfold get_node, mbind, M_bind. rewrite Hn. simpl. rewrite Hd. simpl.
  rewrite bool_decide_false by done. destruct s. apply IH.
Qed.
Lemma dm_begin_ok s l cs :
  is_list (dm_mappings s) l cs →
  on_mappings (list_begin (Some l)) s = Ok (mkIter l (first_loc cs None) OffsetNext, s).
Proof.
  intros [H _ _]. unfold on_mappings, list_begin. run_bind. by destruct s.
Qed.

(** ** Properties *)
Section Properties.
Context {D : Type}.
Implicit Types (s : mstate D) (G : gmap loc (amap D)) (a : amap D).

(** C35: [map_append], [map_remove] and [map_find] refine the association-list
    operations: on a well-formed store they return normally, [map_append] leaves
    the key bound exactly once, at the end, to the new datum, [map_remove] drops
    its binding, [map_find] answers the binding or NULL; iteration order and
    every other map of the store are as the abstract operations say. *)
Theorem map_operations_refine s G m a key d :
  rep s G → G !! m = Some a → key_type key = am_type a → key_null key = false →
  (∃ s' cs, map_append (Some m) key d s = Ok ((), s') ∧
     rep s' (<[m := with_cells a cs (al_append key d (am_kvs a))]> G) ∧
     ∀ key', key_type key' = am_type a → key_null key' = false →
       map_find (Some m) key' s' =
         Ok (if decide (key' = key) then d else mjoin (al_find key' (am_kvs a)), s')) ∧
  (∃ s' cs, map_remove (Some m) key s = Ok ((), s') ∧
     rep s' (<[m := with_cells a cs (al_remove key (am_kvs a))]> G) ∧
     map_find (Some m) key s' = Ok (None, s')).
Proof.
  intros HR Hm Ht Hnull. split.
  - destruct (map_append_ok s G m a key d HR Hm Ht Hnull) as (s' & cs & E & HR').
    exists s', cs. split_and!; [done|done|]. intros key' Ht' Hn'.
    rewrite (map_find_ok _ _ _ _ _ HR' (lookup_insert_eq _ _ _) Ht' Hn').
    cbn [with_cells am_kvs]. rewrite al_find_append. by case_decide.
  - destruct (map_remove_ok s G m a key HR Hm Ht Hnull) as (s' & cs & E & HR').
    exists s', cs. split_and!; [done|done|].
    rewrite (map_find_ok _ _ _ _ _ HR' (lookup_insert_eq _ _ _) Ht Hnull).
    cbn [with_cells am_kvs]. by rewrite al_find_remove, decide_True.
Qed.

(** [mapIterator_remove] is only right for string maps.  With the iterator on
    an entry of a string map it removes exactly that entry and steps back; on an
    entry of an int map it passes the integer key to [p_free], which
    [mapIterator_removeInt] does not. *)
Theorem mapIterator_remove_by_type s G m ty l c1 n nd c2 k1 k d k2 :
  rep s G → G !! m = Some (mkAmap ty l (c1 ++ (n, Some nd) :: c2) (k1 ++ (k, d) :: k2)) →
  length c1 = length k1 → key_null k = false →
  let it := mkIter l (Some n) OffsetNext in
  let it' := mkIter l (last_loc None c1) OffsetNext in
  match ty with
  | STRING => ∃ s', mapIterator_remove it s = Ok (it', s') ∧
      rep s' (<[m := mkAmap ty l (c1 ++ c2) (k1 ++ k2)]> G)
  | NUMBER => mapIterator_remove it s = Fault ∧
      ∃ s', mapIterator_removeInt it s = Ok (it', s') ∧
        rep s' (<[m := mkAmap ty l (c1 ++ c2) (k1 ++ k2)]> G)
  end.
Proof.
  intros HR Hm Hlen Hk0 it it'. pose proof (rep_maps _ _ HR _ _ Hm) as [_ M2 M3 _ _].
  cbn [am_list am_cells am_type am_kvs] in *.
  destruct (remove_at_ok s G m _ c1 n nd c2 k1 (k, d) k2 OffsetNext HR Hm eq_refl eq_refl Hlen)
    as (h & s' & E1 & E2 & _ & HR').
  apply Forall2_app_inv in M3 as [_ F2]; [|done].
  apply Forall2_cons in F2 as [(nd' & [= <-] & Hnd & Hty) _]. simpl in Hnd, Hty.
  destruct (proj2 (proj1 (seg_app _ _ _ _ _) (il_seg _ _ _ M2))) as [Hn _].
  assert (on_lists (listIterator_item it) s = Ok (Some nd, s)) as EI
    by (apply on_lists_pure; exact (listIterator_item_at _ l _ _ OffsetNext Hn)).
  pose proof (on_lists_Ok _ _ _ _ E1) as E1'.
  set (s1 := mkMS h _ _ _) in *.
  assert (get_mapnode nd s1 = Ok (mkMapNode k d, s1)) as EG by (by apply get_mapnode_Ok).
  destruct ty; [|split].
  - exists s'. split; [|done]. unfold mapIterator_remove. run_with EI. run_with E1'.
    erewrite bind_Ok by reflexivity. run_with EG. destruct k; [|done].
    erewrite bind_Ok by reflexivity. by run_with E2.
  - unfold mapIterator_remove. run_with EI. run_with E1'.
    erewrite bind_Ok by reflexivity. run_with EG. destruct k; [done|]. unfold key_null in Hk0.
    apply bool_decide_eq_false in Hk0. erewrite bind_Fault; [done|]. simpl.
    rewrite bool_decide_false; [done|congruence].
  - exists s'. split; [|done]. unfold mapIterator_removeInt. run_with EI. run_with E1'.
    erewrite bind_Ok by reflexivity. by run_with E2.
Qed.
End Properties.

(** [dataobjectmap_translate] and [dataobjectmap_setTranslation] never
    advance their iterator: as soon as the map has an entry and the name asked
    for is not the one of the first entry, both loop for ever, whatever the
    bound; only the first entry can ever be found. *)
Theorem dataobjectmap_only_first_entry s l n mp cs field to fuel :
  is_list (dm_mappings s) l ((n, Some mp) :: cs) →
  (m_from mp = field →
     dataobjectmap_translate (S fuel) l field s = Ok (Some (m_to mp), s)) ∧
  (m_from mp ≠ field →
     dataobjectmap_translate fuel l field s = NoFuel ∧
     dataobjectmap_setTranslation fuel l field to s = NoFuel).
Proof.
  intros Hl. pose proof (il_seg _ _ _ Hl) as [Hn _]. split.
  - intros Hf. unfold dataobjectmap_translate. run_with (dm_begin_ok _ _ _ Hl). simpl.
    unfold on_mappings, listIterator_item, get_node, mbind, M_bind; simpl. rewrite Hn. simpl.
    rewrite bool_decide_true by done. by destruct s.
  - intros Hf. unfold dataobjectmap_translate, dataobjectmap_setTranslation.
    pose proof (dm_search_stuck fuel s l n _ OffsetNext field mp Hn eq_refl Hf) as E.
    split; run_with (dm_begin_ok _ _ _ Hl); cbn [first_loc fst]; by erewrite bind_NoFuel by exact E.
Qed.

(** ** Instances of the properties *)
Lemma map_operations_refine_witness :
  rep (demo_maps (D := Z)) demo_amaps ∧
  ∃ s', map_append (Some 1%positive) (KString "uri") (Some 7) demo_maps = Ok ((), s') ∧
    map_find (Some 1%positive) (KString "uri") s' = Ok (Some 7, s').
Proof.
  split; [exact demo_maps_rep|].
  destruct (map_operations_refine demo_maps demo_amaps 1%positive (mkAmap STRING 1 [] [])
    (KString "uri") (Some 7) demo_maps_rep eq_refl eq_refl eq_refl)
    as [(s' & cs & E & _ & H) _].
  exists s'. split; [exact E|]. exact (H (KString "uri") eq_refl eq_refl).
Defined.

Lemma map_delete_frees_witness :
  ∃ s', map_delete (Some 1%positive) (demo_maps (D := Z)) = Ok ((), s') ∧
    rep s' (delete 1%positive demo_amaps).
Proof.
  destruct (map_delete_frees (demo_maps (D := Z)) demo_amaps 1%positive (mkAmap STRING 1 [] [])
    demo_maps_rep eq_refl) as (s' & E & H & _).
  exists s'. exact (conj E H).
Defined.

(** The int map of [demo_maps] after [map_append (m, 5, 50)]. *)
Definition demo_int : mstate Z := run_or (map_append (Some 2%positive) (KNumber 5) (Some 50)) demo_maps.
Definition demo_int_amaps : gmap loc (amap Z) :=
  <[2%positive := mkAmap NUMBER 2 [(3%positive, Some 3%positive)] [(KNumber 5, Some 50)]]> demo_amaps.
Lemma demo_int_rep : rep demo_int demo_int_amaps.
Proof.
  destruct (map_append_ok _ _ 2%positive _ (KNumber 5) (Some 50) demo_maps_rep eq_refl eq_refl eq_refl)
    as (s & cs & E & H).
  assert (s = demo_int) as -> by (unfold demo_int, run_or at 1; by rewrite E).
  destruct (rep_maps _ _ H 2%positive _ (lookup_insert_eq _ _ _)) as [_ [L1 _ L2] M3 _ _].
  apply Forall2_cons_inv_r in M3 as ([n x] & cs' & _ & M3 & E').
  apply Forall2_nil_inv_r in M3 as ->. cbn [with_cells am_cells] in *. subst cs.
  destruct L2 as [L2 _].
  vm_compute in L1. injection L1 as <-. vm_compute in L2. injection L2 as <-. exact H.
Qed.
Lemma mapIterator_remove_by_type_witness :
  demo_int_amaps !! 2%positive =
    Some (mkAmap NUMBER 2 ([] ++ [(3%positive, Some 3%positive)]) ([] ++ [(KNumber 5, Some 50)])) ∧
  mapIterator_remove (mkIter 2 (Some 3) OffsetNext)%positive demo_int = Fault.
Proof.
  split; [reflexivity|].
  refine (proj1 (mapIterator_remove_by_type demo_int demo_int_amaps 2%positive NUMBER 2%positive
    [] 3%positive 3%positive [] [] (KNumber 5) (Some 50) [] demo_int_rep eq_refl eq_refl eq_refl)).
Defined.

Definition demo_dm : dmstate := mkDM
  (mkHeap {[2%positive := mkNode (Some (mkMapping "from" 9)) None None]}
          {[1%positive := mkList 1 (Some 2%positive) (Some 2%positive)]} 3)
  (mkHeap ∅ {[9%positive := mkList 0 None None]} 10).
Lemma dataobjectmap_only_first_entry_witness :
  dataobjectmap_translate 1 1%positive "from" demo_dm = Ok (Some 9%positive, demo_dm) ∧
  dataobjectmap_translate 100 1%positive "subject" demo_dm = NoFuel.
Proof.
  assert (is_list (dm_mappings demo_dm) 1%positive [(2%positive, Some (mkMapping "from" 9))]) as H
    by (split; [reflexivity|apply NoDup_singleton|repeat split]).
  split.
  - apply (dataobjectmap_only_first_entry demo_dm 1%positive 2%positive (mkMapping "from" 9) []
      "from" "x" 0 H). reflexivity.
  - apply (dataobjectmap_only_first_entry demo_dm 1%positive 2%positive (mkMapping "from" 9) []
      "subject" "x" 100 H). discriminate.
Defined.

(** ** The interface other components use

    A [MapStore] is a store of maps with the two operations the caches of the
    program call, and their laws over association lists. *)
Class MapStore (St D : Type) := {
  st_abs : St → loc → MapType → list (MapKey * option D) → Prop;
  st_find : loc → MapKey → M St (option D);
  st_append : loc → MapKey → option D → M St ();
  st_find_ok s m ty kvs key :
    st_abs s m ty kvs → key_type key = ty → key_null key = false →
    st_find m key s = Ok (mjoin (al_find key kvs), s);
  st_append_ok s m ty kvs key d :
    st_abs s m ty kvs → key_type key = ty → key_null key = false →
    ∃ s', st_append m key d s = Ok ((), s') ∧ st_abs s' m ty (al_append key d kvs);
  st_find_null s m ty kvs :
    st_abs s m ty kvs → st_find m (KNumber 0) s = Abort }.

#[export] Program Instance map_store (D : Type) : MapStore (mstate D) D := {|
  st_abs s m ty kvs := ∃ G a, rep s G ∧ G !! m = Some a ∧ am_type a = ty ∧ am_kvs a = kvs;
  st_find m := map_find (Some m);
  st_append m := map_append (Some m) |}.
Next Obligation.
  intros D s m ty kvs key (G & a & HR & Hm & <- & <-) Ht Hn. by eapply map_find_ok.
Qed.
Next Obligation.
  intros D s m ty kvs key d (G & a & HR & Hm & <- & <-) Ht Hn.
  destruct (map_append_ok s G m a key d HR Hm Ht Hn) as (s' & cs & E & HR').
  exists s'. split; [done|]. eexists _, _. split; [exact HR'|]. by rewrite lookup_insert_eq.
Qed.
Next Obligation. done. Qed.
