(* ===== verification/Arrays.v ===== *)
(** * Array.c: growable arrays of fixed-size elements

    An [Array] is a byte buffer; a byte is [None] while it is indeterminate
    (fresh from [p_realloc]).  [size_t] and [int] are 32 bits wide, as on the
    device.  The growth factor is a [float], so the single-precision
    multiplication of [array_append] is modelled with its roundings.
    [arr_rep a xs] says that the array holds the elements [xs]. *)
From S2P Require Import Prelude.

(** ** Single-precision numbers

    A non-negative [float] is [m * 2 ^ e] with a significand of at most 24 bits;
    [f32_round] rounds to nearest, ties to even.  (Exponent overflow cannot
    occur for the magnitudes of a [size_t].) *)
Record f32 := mkF32 { f_m : Z; f_e : Z }.
Definition f32_round (m e : Z) : f32 :=
  if m <? 2 ^ 24 then mkF32 m e else
  let k := Z.log2 m - 23 in
  let q := m / 2 ^ k in
  let r := m mod 2 ^ k in
  let up := (2 ^ (k - 1) <? r) || ((2 ^ (k - 1) =? r) && Z.odd q) in
  mkF32 (if up then q + 1 else q) (e + k).
Definition f32_of_Z (z : Z) : f32 := f32_round z 0.
Definition f32_mul (a b : f32) : f32 := f32_round (f_m a * f_m b) (f_e a + f_e b).
(** Addition of [0.5f], aligning the exponents. *)
Definition f32_add_half (a : f32) : f32 :=
  let e := Z.min (f_e a) (-1) in
  f32_round (f_m a * 2 ^ (f_e a - e) + 2 ^ (-1 - e)) e.
(** [(size_t)x]: truncation. *)
Definition f32_trunc (a : f32) : Z := f_m a * 2 ^ Z.max 0 (f_e a) / 2 ^ Z.max 0 (- f_e a).
(** [2.2f]. *)
Definition f32_2_2 : f32 := mkF32 9227469 (-22).

(** ** Data and operations *)
Abbreviation byte_ := (option Z).
Record Array_t := mkArray {
  a_data : list byte_;
  a_size : Z;
  a_length : Z;
  a_elementSize : Z;
  a_factor : f32 }.

(** The operations run on the array their argument points to; [None] is a NULL
    argument, which every one of them asserts against. *)
Abbreviation AM := (M (option Array_t)).
Definition this : AM Array_t := λ s, match s with Some a => Ok (a, s) | None => Abort end.
Definition set_array (a : Array_t) : AM () := put (Some a).

(** [p_realloc]: it takes an [int], aborts when the allocator gives NULL (as it
    does for a size of 0 or one that is negative as an [int]) and keeps the old
    contents up to the new size. *)
Definition p_realloc (data : list byte_) (sz : Z) : AM (list byte_) :=
  emo_assert (bool_decide (0 < int32 sz));;
  mret (take (Z.to_nat sz) data ++ replicate (Z.to_nat sz - length data) None).

(** [memcpy (data + off, src, n)] into the buffer. *)
Definition buf_write (off : Z) (src : list byte_) (data : list byte_) : list byte_ :=
  take (Z.to_nat off) data ++ src ++ drop (Z.to_nat off + length src) data.
Definition memcpy_in (off n : Z) (src : list byte_) : AM () :=
  a ← this;
  if bool_decide (n ≤ Z.of_nat (length src) ∧ off + n ≤ Z.of_nat (length (a_data a))) then
    set_array (mkArray (buf_write off (take (Z.to_nat n) src) (a_data a))
                       (a_size a) (a_length a) (a_elementSize a) (a_factor a))
  else fault.

Definition array_new (elementSize : Z) : AM () :=
  emo_assert (bool_decide (elementSize ≠ 0));;
  set_array (mkArray [] 0 0 elementSize f32_2_2).

Definition array_resize (newSize : Z) : AM () :=
  a ← this;
  d ← p_realloc (a_data a) (uint32 (newSize * a_elementSize a));
  set_array (mkArray d newSize
    (if newSize <? a_length a then newSize else a_length a)
    (a_elementSize a) (a_factor a)).

Definition array_newWithSize (elementSize size : Z) : AM () :=
  array_new elementSize;; array_resize size.

Definition array_setFactor (f : f32) : AM () :=
  a ← this; set_array (mkArray (a_data a) (a_size a) (a_length a) (a_elementSize a) f).

Definition array_size : AM Z := a ← this; mret (int32 (a_size a)).
Definition array_length : AM Z := a ← this; mret (int32 (a_length a)).
Definition array_shrink : AM () := a ← this; array_resize (a_length a).

Definition array_setItem (index : Z) (data : list byte_) : AM () :=
  a ← this;
  emo_assert (bool_decide (index < a_length a));;
  memcpy_in (uint32 (a_elementSize a * index)) (a_elementSize a) data.

(** The capacity [array_append] asks for when the array is full. *)
Definition grow (factor : f32) (size : Z) : Z :=
  f32_trunc (f32_add_half (f32_mul (f32_of_Z (uint32 (size + 1))) factor)).

Definition array_append (data : list byte_) : AM () :=
  a ← this;
  (if bool_decide (a_size a = a_length a) then array_resize (grow (a_factor a) (a_size a))
   else mret ());;
  a ← this;
  set_array (mkArray (a_data a) (a_size a) (uint32 (a_length a + 1))
                     (a_elementSize a) (a_factor a));;
  a ← this;
  array_setItem (uint32 (a_length a - 1)) data.

(** [array_item] gives an address inside the buffer, here an offset;
    [array_load] is the read through it that clients do. *)
Definition array_item (index : Z) : AM Z :=
  a ← this;
  emo_assert (bool_decide (index < a_length a));;
  mret (uint32 (index * a_elementSize a)).
Definition array_load (off n : Z) : AM (list byte_) :=
  a ← this;
  if bool_decide (off + n ≤ Z.of_nat (length (a_data a))) then
    mret (take (Z.to_nat n) (drop (Z.to_nat off) (a_data a)))
  else fault.

(** The [memcpy] moves the rest of the array down; its regions overlap, so it is
    taken as the ascending copy the usual implementations perform. *)
Definition array_removeItem (index : Z) : AM () :=
  a ← this;
  emo_assert (bool_decide (index < a_length a));;
  let es := a_elementSize a in
  src ← array_load (uint32 ((index + 1) * es)) (uint32 ((a_length a - 1 - index) * es));
  memcpy_in (uint32 (index * es)) (uint32 ((a_length a - 1 - index) * es)) src.

Definition array_empty : AM () :=
  a ← this; set_array (mkArray (a_data a) (a_size a) 0 (a_elementSize a) (a_factor a)).

Definition array_delete : AM () := _ ← this; put None.

Example grow_0 : grow f32_2_2 0 = 2. Proof. reflexivity. Qed.
Example grow_2 : grow f32_2_2 2 = 7. Proof. reflexivity. Qed.
Example grow_10 : grow f32_2_2 10 = 24. Proof. reflexivity. Qed.

(** ** The growth policy *)
Lemma f32_round_bounds m e :
  0 ≤ m →
  ∃ k, 0 ≤ k ∧ f_e (f32_round m e) = e + k ∧ 0 ≤ f_m (f32_round m e) ∧
    (2 ^ 24 - 1) * m ≤ 2 ^ 24 * (f_m (f32_round m e) * 2 ^ k) ≤ (2 ^ 24 + 1) * m.
Proof.
  intros Hm. unfold f32_round. destruct (Z.ltb_spec m (2 ^ 24)).
  { exists 0. simpl. lia. }
  set (k := Z.log2 m - 23). cbn [f_m f_e].
  assert (24 ≤ Z.log2 m) by (apply Z.log2_le_pow2; lia).
  assert (0 < k) by lia. exists k.
  pose proof (Z.log2_spec m ltac:(lia)) as [Hlo _].
  assert (2 ^ Z.log2 m = 2 ^ 23 * 2 ^ k) as E by (rewrite <-Z.pow_add_r by lia; f_equal; lia).
  assert (2 ^ k = 2 * 2 ^ (k - 1)) as E2 by (rewrite <-Z.pow_succ_r by lia; f_equal; lia).
  pose proof (Z.pow_pos_nonneg 2 (k - 1) ltac:(lia) ltac:(lia)) as Hp.
  pose proof (Z.div_mod m (2 ^ k) ltac:(lia)) as Ed.
  pose proof (Z.mod_pos_bound m (2 ^ k) ltac:(lia)) as Hr.
  pose proof (Z.div_pos m (2 ^ k) ltac:(lia) ltac:(lia)) as Hq.
  set (q := m / 2 ^ k) in *. set (r := m mod 2 ^ k) in *. set (p := 2 ^ k) in *.
  destruct ((2 ^ (k - 1) <? r) || ((2 ^ (k - 1) =? r) && Z.odd q)) eqn:Hup.
  - assert (2 ^ (k - 1) ≤ r).
    { apply orb_true_iff in Hup as [?%Z.ltb_lt|[?%Z.eqb_eq _]%andb_true_iff]; lia. }
    assert ((q + 1) * p = m - r + p) as -> by lia. lia.
  - assert (r ≤ 2 ^ (k - 1)) by (apply orb_false_iff in Hup as [?%Z.ltb_ge _]; lia).
    assert (q * p = m - r) as -> by lia. lia.
Qed.

(** A value with exponent at least -22, read in units of [2 ^ -22]. *)
Definition f32_scaled (a : f32) : Z := f_m a * 2 ^ (f_e a + 22).
Lemma f32_trunc_scaled a : -22 ≤ f_e a → f32_trunc a = f32_scaled a / 2 ^ 22.
Proof.
  intros He. unfold f32_trunc, f32_scaled. destruct (Z.le_gt_cases 0 (f_e a)).
  - rewrite Z.max_r, Z.max_l by lia. rewrite Z.pow_add_r by lia.
    rewrite Z.mul_assoc, Z.div_mul by lia. by rewrite Z.pow_0_r, Z.div_1_r.
  - rewrite Z.max_l, Z.max_r by lia. rewrite Z.pow_0_r, Z.mul_1_r.
    replace (2 ^ 22) with (2 ^ (- f_e a) * 2 ^ (f_e a + 22))
      by (rewrite <-Z.pow_add_r by lia; f_equal; lia).
    rewrite Z.div_mul_cancel_r; lia.
Qed.
Lemma f32_round_scaled m e :
  0 ≤ m → -22 ≤ e →
  -22 ≤ f_e (f32_round m e) ∧ 0 ≤ f_m (f32_round m e) ∧
  (2 ^ 24 - 1) * (m * 2 ^ (e + 22)) ≤ 2 ^ 24 * f32_scaled (f32_round m e)
    ≤ (2 ^ 24 + 1) * (m * 2 ^ (e + 22)).
Proof.
  intros Hm He. destruct (f32_round_bounds m e Hm) as (k & Hk & Ee & H0 & H1 & H2).
  unfold f32_scaled. rewrite Ee.
  replace (e + k + 22) with (k + (e + 22)) by lia. rewrite (Z.pow_add_r 2 k (e + 22)) by lia.
  pose proof (Z.pow_nonneg 2 (e + 22) ltac:(lia)) as HP.
  apply (Z.mul_le_mono_nonneg_r _ _ _ HP) in H1, H2. lia.
Qed.

Lemma grow_bounds size :
  0 ≤ size < 2 ^ 32 - 1 → 2 * (size + 1) ≤ grow f32_2_2 size ≤ 3 * (size + 1).
Proof.
  intros Hs. unfold grow. rewrite uint32_small by lia. set (x := size + 1).
  destruct (f32_round_bounds x 0 ltac:(lia)) as (k1 & Hk1 & E1 & Hm1 & L1 & U1).
  unfold f32_mul, f32_of_Z. set (v1 := f32_round x 0) in *. rewrite Z.add_0_l in E1. subst k1.
  destruct (f32_round_scaled (f_m v1 * f_m f32_2_2) (f_e v1 + f_e f32_2_2)) as (E2 & Hm2 & L2 & U2).
  { simpl. lia. } { simpl. lia. }
  set (v2 := f32_round (f_m v1 * f_m f32_2_2) _) in *. cbn [f_m f_e f32_2_2] in L2, U2.
  replace (f_e v1 + -22 + 22) with (f_e v1) in * by lia.
  unfold f32_add_half. set (e := Z.min (f_e v2) (-1)).
  set (m3 := f_m v2 * 2 ^ (f_e v2 - e) + 2 ^ (-1 - e)).
  assert (m3 * 2 ^ (e + 22) = f32_scaled v2 + 2 ^ 21) as E3.
  { unfold m3, f32_scaled. rewrite Z.mul_add_distr_r, <-Z.mul_assoc, <-!Z.pow_add_r by lia.
    f_equal; [do 2 f_equal; lia|f_equal; lia]. }
  assert (0 ≤ m3).
  { unfold m3. pose proof (Z.pow_nonneg 2 (f_e v2 - e)). pose proof (Z.pow_nonneg 2 (-1 - e)). nia. }
  destruct (f32_round_scaled m3 e) as (E4 & Hm4 & L4 & U4); [done|lia|].
  rewrite E3 in L4, U4. rewrite f32_trunc_scaled by done.
  set (c := f32_scaled (f32_round m3 e)) in *. set (b := f32_scaled v2) in *.
  assert (f_m v1 * 9227469 * 2 ^ f_e v1 = 9227469 * (f_m v1 * 2 ^ f_e v1)) as E5 by lia.
  rewrite E5 in L2, U2. set (a := f_m v1 * 2 ^ f_e v1) in *.
  assert (1 ≤ x) by lia. clearbody a b c x. split.
  - apply Z.div_le_lower_bound; lia.
  - apply Z.div_le_upper_bound; lia.
Qed.

(** ** Representation *)
Record arr_rep (a : Array_t) (xs : list (list byte_)) : Prop := {
  ar_data : ∃ rest, a_data a = concat xs ++ rest;
  ar_items : Forall (λ x, Z.of_nat (length x) = a_elementSize a) xs;
  ar_length : a_length a = Z.of_nat (length xs);
  ar_size : Z.of_nat (length (a_data a)) = a_size a * a_elementSize a;
  ar_cap : a_length a ≤ a_size a;
  ar_es : 0 < a_elementSize a;
  ar_bound : a_size a * a_elementSize a < 2 ^ 31 }.

Lemma length_concat_items es (xs : list (list byte_)) :
  Forall (λ x, Z.of_nat (length x) = es) xs →
  Z.of_nat (length (concat xs)) = Z.of_nat (length xs) * es.
Proof. induction 1; simpl; [done|]. rewrite length_app. lia. Qed.

(** Overwriting the bytes of one item. *)
Lemma buf_write_item (es : Z) x1 y x2 (x : list byte_) rest :
  Forall (λ x, Z.of_nat (length x) = es) x1 → length x = length y →
  buf_write (Z.of_nat (length x1) * es) x (concat (x1 ++ y :: x2) ++ rest) =
    concat (x1 ++ x :: x2) ++ rest.
Proof.
  intros H1 Hl. pose proof (length_concat_items _ _ H1) as E. unfold buf_write. rewrite <-E, Nat2Z.id.
  rewrite !concat_app. simpl. rewrite <-!app_assoc, take_app_length. f_equal. f_equal.
  rewrite drop_app_add. by rewrite Hl, drop_app_length.
Qed.

Lemma run_this a : this (Some a) = Ok (a, Some a).
Proof. done. Qed.

Lemma take_all {A} n (l : list A) : length l = n → take n l = l.
Proof. intros <-. apply firstn_all. Qed.

Lemma mul_lt_index i n es b : 0 ≤ i < n → 0 < es → n * es < b → 0 ≤ i * es ∧ (i + 1) * es < b.
Proof. nia. Qed.

Lemma arr_rep_size_pos a xs x : arr_rep a xs → x ∈ xs → 0 < a_size a.
Proof.
  intros [_ _ H1 _ H2 _ _] Hx. destruct xs; [by apply elem_of_nil in Hx|]. simpl in H1. lia.
Qed.

Lemma array_setItem_ok a x1 y x2 x :
  arr_rep a (x1 ++ y :: x2) → Z.of_nat (length x) = a_elementSize a →
  ∃ a', array_setItem (Z.of_nat (length x1)) x (Some a) = Ok ((), Some a') ∧
    arr_rep a' (x1 ++ x :: x2) ∧ a_size a' = a_size a ∧ a_factor a' = a_factor a ∧
    a_elementSize a' = a_elementSize a.
Proof.
  intros [[rest Hd] Hi Hl Hs Hc He Hb] Hx. unfold array_setItem.
  rewrite (bind_Ok _ _ _ _ _ (run_this a)).
  rewrite length_app in Hl. simpl in Hl.
  erewrite bind_Ok by (unfold emo_assert; rewrite bool_decide_true by lia; reflexivity).
  unfold memcpy_in. rewrite (bind_Ok _ _ _ _ _ (run_this a)).
  destruct (mul_lt_index (Z.of_nat (length x1)) (a_size a) (a_elementSize a) (2 ^ 31))
    as [H0 H1]; [lia..|].
  rewrite uint32_small by lia. rewrite bool_decide_true by nia.
  unfold set_array, put. eexists; split; [done|].
  apply Forall_app in Hi as [Hi1 Hi2]. apply Forall_cons in Hi2 as [Hy Hi2].
  rewrite (take_all _ x), Hd, (Z.mul_comm (a_elementSize a)) by lia.
  rewrite buf_write_item; [|done|lia]. split_and!; [|done..].
  split; cbn [a_data a_size a_length a_elementSize a_factor]; [by eexists|..].
  - apply Forall_app. split; [done|]. by constructor.
  - rewrite length_app. simpl. lia.
  - rewrite <-Hs, Hd, !concat_app. simpl. rewrite !length_app. lia.
  - lia.
  - done.
  - done.
Qed.

Lemma array_resize_ok a xs n :
  arr_rep a xs → 0 < n → n * a_elementSize a < 2 ^ 31 → a_length a ≤ n →
  ∃ a', array_resize n (Some a) = Ok ((), Some a') ∧ arr_rep a' xs ∧ a_size a' = n ∧
    a_factor a' = a_factor a ∧ a_elementSize a' = a_elementSize a.
Proof.
  intros [[rest Hd] Hi Hl Hs Hc He Hb] Hn Hnb Hln. unfold array_resize.
  rewrite (bind_Ok _ _ _ _ _ (run_this a)).
  assert (0 < n * a_elementSize a) by nia.
  rewrite uint32_small by lia. unfold p_realloc. rewrite bind_assoc.
  erewrite bind_Ok by (unfold emo_assert; rewrite bool_decide_true
    by (rewrite int32_small by lia; lia); reflexivity).
  erewrite bind_Ok by reflexivity. unfold set_array, put.
  destruct (Z.ltb_spec n (a_length a)); [lia|].
  eexists; split; [done|]. split_and!; [|done..].
  pose proof (length_concat_items _ _ Hi) as Hcl. rewrite <-Hl in Hcl.
  assert (length (concat xs) ≤ Z.to_nat (n * a_elementSize a))%nat by nia.
  split; cbn [a_data a_size a_length a_elementSize a_factor]; [|done|done| |lia|done|done].
  - rewrite Hd, take_app_ge by lia. eexists. by rewrite <-app_assoc.
  - rewrite length_app, length_take, length_replicate. lia.
Qed.

Lemma array_append_ok a xs x :
  arr_rep a xs → Z.of_nat (length x) = a_elementSize a → a_factor a = f32_2_2 →
  3 * (a_size a + 1) * a_elementSize a < 2 ^ 31 →
  ∃ a', array_append x (Some a) = Ok ((), Some a') ∧ arr_rep a' (xs ++ [x]) ∧
    a_factor a' = f32_2_2 ∧ a_elementSize a' = a_elementSize a ∧
    (if decide (a_size a = a_length a)
     then 2 * (a_size a + 1) ≤ a_size a' ≤ 3 * (a_size a + 1) else a_size a' = a_size a).
Proof.
  intros HR Hx Hf Hb. pose proof HR as [_ _ Hl _ Hc He _].
  assert (a_size a + 1 ≤ (a_size a + 1) * a_elementSize a) by nia.
  pose proof (grow_bounds (a_size a) ltac:(lia)) as Hg.
  assert (∃ a1, (if bool_decide (a_size a = a_length a) then array_resize (grow (a_factor a) (a_size a))
             else mret ()) (Some a) = Ok ((), Some a1) ∧ arr_rep a1 xs ∧ a_length a1 < a_size a1 ∧
    a_factor a1 = f32_2_2 ∧ a_elementSize a1 = a_elementSize a ∧
    (if decide (a_size a = a_length a)
     then 2 * (a_size a + 1) ≤ a_size a1 ≤ 3 * (a_size a + 1) else a_size a1 = a_size a))
    as (a1 & E1 & HR1 & Hlt & Hf1 & He1 & Hs1).
  { case_bool_decide as Hfull; case_decide; try done.
    - rewrite Hf. destruct (array_resize_ok a xs (grow f32_2_2 (a_size a)) HR) as (a1 & E & HR1 & Hs & ? & ?);
        [lia|nia|lia|]. pose proof (ar_length _ _ HR1). exists a1. split_and!; try done; try congruence; lia.
    - exists a. split_and!; try done; lia. }
  unfold array_append. rewrite (bind_Ok _ _ _ _ _ (run_this a)).
  run_with E1. rewrite (bind_Ok _ _ _ _ _ (run_this a1)).
  pose proof HR1 as [[rest Hd] Hi Hl1 Hs Hc1 He' Hb1].
  erewrite bind_Ok by reflexivity. erewrite bind_Ok by reflexivity. cbn [a_length].
  assert (a_length a1 + 1 < 2 ^ 31) by nia.
  rewrite (uint32_small (a_length a1 + 1)) by lia.
  rewrite uint32_small by lia. rewrite Z.add_simpl_r, Hl1.
  (* the next free slot plays the role of the item that is overwritten *)
  assert (Z.of_nat (length (concat xs)) = Z.of_nat (length xs) * a_elementSize a1) as Hcl
    by (by apply length_concat_items).
  assert (a_elementSize a1 ≤ Z.of_nat (length rest)) as Hrest.
  { rewrite Hd, length_app in Hs. nia. }
  set (y := take (Z.to_nat (a_elementSize a1)) rest).
  assert (Z.of_nat (length y) = a_elementSize a1) as Hy
    by (unfold y; rewrite length_take; lia).
  destruct (array_setItem_ok (mkArray (a_data a1) (a_size a1) (Z.of_nat (length xs) + 1)
    (a_elementSize a1) (a_factor a1)) xs y [] x) as (a' & E & HR' & Es & Ef & Ee).
  - split; cbn [a_data a_size a_length a_elementSize a_factor]; try done.
    + exists (drop (Z.to_nat (a_elementSize a1)) rest).
      rewrite Hd, concat_app. simpl. rewrite app_nil_r, <-app_assoc. unfold y. by rewrite take_drop.
    + apply Forall_app. split; [done|]. by constructor.
    + rewrite length_app. simpl. lia.
    + lia.
  - cbn [a_elementSize]. congruence.
  - exists a'. cbn [a_size a_factor a_elementSize] in *. rewrite E.
    split_and!; [done|done|congruence|congruence|]. by rewrite Es.
Qed.

(** Reading the element at an index: [array_item] and a read of its bytes. *)
Definition array_get (i : Z) : AM (list byte_) :=
  off ← array_item i; a ← this; array_load off (a_elementSize a).
Lemma array_get_ok a x1 x x2 :
  arr_rep a (x1 ++ x :: x2) → array_get (Z.of_nat (length x1)) (Some a) = Ok (x, Some a).
Proof.
  intros [[rest Hd] Hi Hl Hs Hc He Hb]. unfold array_get, array_item.
  rewrite length_app in Hl. simpl in Hl. rewrite bind_assoc, (bind_Ok _ _ _ _ _ (run_this a)).
  rewrite bind_assoc.
  erewrite bind_Ok by (unfold emo_assert; rewrite bool_decide_true by lia; reflexivity).
  erewrite bind_Ok by reflexivity. rewrite (bind_Ok _ _ _ _ _ (run_this a)).
  unfold array_load. rewrite (bind_Ok _ _ _ _ _ (run_this a)).
  destruct (mul_lt_index (Z.of_nat (length x1)) (a_size a) (a_elementSize a) (2 ^ 31))
    as [H0 H1]; [lia..|].
  rewrite uint32_small by lia. rewrite bool_decide_true by nia.
  apply Forall_app in Hi as [Hi1 Hi2]. apply Forall_cons in Hi2 as [Hx _].
  rewrite <-(length_concat_items _ _ Hi1), Nat2Z.id, Hd, concat_app. simpl.
  rewrite <-!app_assoc, drop_app_length. unfold mret, M_ret. do 2 f_equal.
  replace (Z.to_nat (a_elementSize a)) with (length x) by lia. apply take_app_length.
Qed.

Lemma array_removeItem_ok a x1 x x2 :
  arr_rep a (x1 ++ x :: x2) →
  ∃ a', array_removeItem (Z.of_nat (length x1)) (Some a) = Ok ((), Some a') ∧
    arr_rep a' (x1 ++ x2 ++ [List.last x2 x]) ∧
    a_size a' = a_size a ∧ a_factor a' = a_factor a ∧ a_elementSize a' = a_elementSize a.
Proof.
  intros HR. pose proof HR as [[rest Hd] Hi Hl Hs Hc He Hb]. unfold array_removeItem.
  rewrite length_app in Hl. simpl in Hl. rewrite (bind_Ok _ _ _ _ _ (run_this a)).
  erewrite bind_Ok by (unfold emo_assert; rewrite bool_decide_true by lia; reflexivity).
  pose proof (mul_lt_index (Z.of_nat (length x1)) (a_size a) (a_elementSize a) (2 ^ 31)
    ltac:(lia) ltac:(lia) ltac:(lia)) as [H0 H1].
  apply Forall_app in Hi as [Hi1 Hi2]. apply Forall_cons in Hi2 as [Hx Hi2].
  pose proof (length_concat_items _ _ Hi1) as L1. pose proof (length_concat_items _ _ Hi2) as L2.
  set (es := a_elementSize a) in *. cbv zeta.
  replace (a_length a - 1 - Z.of_nat (length x1)) with (Z.of_nat (length x2)) by lia.
  assert (Z.of_nat (length x2) * es < 2 ^ 31) by nia.
  assert ((Z.of_nat (length x1) + 1) * es + Z.of_nat (length x2) * es ≤ a_size a * es) as Hle by nia.
  rewrite !uint32_small by lia.
  erewrite bind_Ok.
  2:{ unfold array_load. rewrite (bind_Ok _ _ _ _ _ (run_this a)).
      rewrite bool_decide_true by (rewrite Hs; exact Hle). reflexivity. }
  assert (drop (Z.to_nat ((Z.of_nat (length x1) + 1) * es)) (a_data a) = concat x2 ++ rest) as Ed.
  { rewrite Hd, concat_app. simpl. rewrite <-!app_assoc, app_assoc.
    replace (Z.to_nat ((Z.of_nat (length x1) + 1) * es)) with (length (concat x1 ++ x))
      by (rewrite length_app; lia). by rewrite drop_app_length. }
  assert (take (Z.to_nat (Z.of_nat (length x2) * es)) (concat x2 ++ rest) = concat x2) as Et.
  { rewrite <-L2, Nat2Z.id. apply take_app_length. }
  rewrite Ed, Et. unfold memcpy_in. rewrite (bind_Ok _ _ _ _ _ (run_this a)).
  rewrite bool_decide_true by lia. rewrite take_all by lia.
  unfold set_array, put. eexists; split; [done|]. split_and!; [|done..].
  assert (length (List.last x2 x) = length x) as Hlast.
  { destruct x2 as [|z x2 _] using rev_ind; [done|]. rewrite List.last_last.
    apply Forall_app in Hi2 as [_ [Hz _]%Forall_cons]. lia. }
  assert (buf_write (Z.of_nat (length x1) * es) (concat x2) (a_data a) =
          concat (x1 ++ x2 ++ [List.last x2 x]) ++ rest) as Ew.
  { unfold buf_write. rewrite Hd, <-L1, Nat2Z.id, !concat_app. simpl.
    rewrite app_nil_r, <-!app_assoc, take_app_length. f_equal. f_equal.
    rewrite drop_app_add. destruct x2 as [|z x2 _] using rev_ind; [done|].
    rewrite List.last_last in *. rewrite concat_app in *. simpl in *. rewrite app_nil_r in *.
    rewrite <-!app_assoc, app_assoc.
    replace (length (concat x2 ++ z)) with (length (x ++ concat x2)) by (rewrite !length_app; lia).
    by rewrite drop_app_length. }
  split; cbn [a_data a_size a_length a_elementSize a_factor]; [by eexists| | | |done|done|done].
  - rewrite !Forall_app. split_and!; [done|done|]. constructor; [|done]. lia.
  - rewrite !length_app. simpl. lia.
  - etransitivity; [|exact Hs]. rewrite Ew, Hd, !concat_app. simpl. rewrite !length_app. simpl. lia.
Qed.

(** ** Properties *)

(** C37: as long as the buffer stays below 2^31 bytes, [array_append] on a
    well-formed array adds the element at the end and keeps all others readable
    where they were; when it has to grow, the single-precision computation of the
    new capacity gives between two and three times the old capacity, so the write
    that follows is in bounds and the number of reallocations is logarithmic. *)
Theorem array_append_spec a xs x :
  arr_rep a xs → Z.of_nat (length x) = a_elementSize a → a_factor a = f32_2_2 →
  3 * (a_size a + 1) * a_elementSize a < 2 ^ 31 →
  ∃ a', array_append x (Some a) = Ok ((), Some a') ∧ arr_rep a' (xs ++ [x]) ∧
    (∀ i y, (xs ++ [x]) !! i = Some y → array_get (Z.of_nat i) (Some a') = Ok (y, Some a')) ∧
    array_length (Some a') = Ok (int32 (Z.of_nat (S (length xs))), Some a') ∧
    (if decide (a_size a = a_length a)
     then 2 * (a_size a + 1) ≤ a_size a' ≤ 3 * (a_size a + 1) else a_size a' = a_size a).
Proof.
  intros HR Hx Hf Hb. destruct (array_append_ok a xs x HR Hx Hf Hb) as (a' & E & HR' & _ & _ & Hg).
  exists a'. split_and!; try done.
  - intros i y Hi. pose proof (take_drop_middle _ _ _ Hi) as Es.
    assert (i = length (take i (xs ++ [x]))) as Hlen
      by (rewrite length_take; apply lookup_lt_Some in Hi; lia).
    rewrite <-Es in HR'. rewrite Hlen at 1. by eapply array_get_ok.
  - unfold array_length. rewrite (bind_Ok _ _ _ _ _ (run_this a')), (ar_length _ _ HR').
    rewrite length_app. simpl. by rewrite Nat.add_1_r.
Qed.

(** the indexed operations are bounds-checked: at an index of the array
    [array_setItem] replaces exactly that element and [array_item] addresses it;
    at any other [size_t] index all three stop at their assertion. *)
Theorem array_index_checked a xs i x :
  arr_rep a xs → Z.of_nat (length x) = a_elementSize a → 0 ≤ i →
  match xs !! Z.to_nat i with
  | Some y =>
      array_get i (Some a) = Ok (y, Some a) ∧
      ∃ a', array_setItem i x (Some a) = Ok ((), Some a') ∧ arr_rep a' (<[Z.to_nat i := x]> xs)
  | None => array_item i (Some a) = Abort ∧ array_setItem i x (Some a) = Abort ∧
            array_removeItem i (Some a) = Abort
  end.
Proof.
  intros HR Hx Hi. destruct (xs !! Z.to_nat i) as [y|] eqn:E.
  - pose proof (take_drop_middle _ _ _ E) as Es. pose proof (lookup_lt_Some _ _ _ E) as Hlt.
    assert (i = Z.of_nat (length (take (Z.to_nat i) xs))) as Hlen by (rewrite length_take; lia).
    rewrite insert_take_drop by done. rewrite <-Es in HR.
    set (x1 := take _ _) in *. set (x2 := drop _ _) in *. clearbody x1 x2. subst i. split.
    + by eapply array_get_ok.
    + destruct (array_setItem_ok a _ y _ x HR Hx) as (a' & E' & HR' & _). by exists a'.
  - apply lookup_ge_None in E. pose proof (ar_length _ _ HR) as Hl.
    unfold array_item, array_setItem, array_removeItem.
    rewrite !(bind_Ok _ _ _ _ _ (run_this a)).
    assert (emo_assert (bool_decide (i < a_length a)) (Some a) = Abort) as Ea
      by (unfold emo_assert; by rewrite bool_decide_false by lia).
    by rewrite !(bind_Abort _ _ _ Ea).
Qed.

(** [array_removeItem] moves the following elements down but leaves
    [length] as it was: the array keeps its number of elements and its last
    element appears twice (removing the last one changes nothing). *)
Theorem array_removeItem_keeps_length a x1 x x2 :
  arr_rep a (x1 ++ x :: x2) →
  ∃ a', array_removeItem (Z.of_nat (length x1)) (Some a) = Ok ((), Some a') ∧
    arr_rep a' (x1 ++ x2 ++ [List.last x2 x]) ∧
    a_length a' = a_length a.
Proof.
  intros HR. destruct (array_removeItem_ok a x1 x x2 HR) as (a' & E & HR' & _).
  exists a'. split_and!; [done|done|]. rewrite (ar_length _ _ HR'), (ar_length _ _ HR).
  rewrite !length_app. simpl. lia.
Qed.

(** ** Instances: an array of two-byte elements *)
Definition item2 (z : Z) : list byte_ := [Some (z mod 256); Some (z / 256)].
Definition demo_array : Array_t :=
  mkArray [Some 1; Some 0; Some 2; Some 0; Some 3; Some 0] 3 3 2 f32_2_2.
Lemma demo_array_rep : arr_rep demo_array [item2 1; item2 2; item2 3].
Proof. split; try reflexivity; try (by repeat constructor); [by exists []|done..]. Qed.

Lemma array_append_spec_witness :
  ∃ a', array_append (item2 4) (Some demo_array) = Ok ((), Some a') ∧
    arr_rep a' [item2 1; item2 2; item2 3; item2 4] ∧ 8 ≤ a_size a' ≤ 12.
Proof.
  destruct (array_append_spec demo_array _ (item2 4) demo_array_rep eq_refl eq_refl eq_refl)
    as (a' & E & HR & _ & _ & Hg).
  exists a'. exact (conj E (conj HR Hg)).
Defined.
Lemma array_index_checked_witness :
  array_get 1 (Some demo_array) = Ok (item2 2, Some demo_array) ∧
  array_setItem 3 (item2 9) (Some demo_array) = Abort.
Proof.
  split.
  - exact (proj1 (array_index_checked demo_array _ 1 (item2 9) demo_array_rep eq_refl ltac:(lia))).
  - exact (proj1 (proj2 (array_index_checked demo_array _ 3 (item2 9) demo_array_rep eq_refl
      ltac:(lia)))).
Defined.
Lemma array_removeItem_keeps_length_witness :
  ∃ a', array_removeItem 0 (Some demo_array) = Ok ((), Some a') ∧
    arr_rep a' [item2 2; item2 3; item2 3].
Proof.
  destruct (array_removeItem_keeps_length demo_array [] (item2 1) [item2 2; item2 3]
    demo_array_rep) as (a' & E & HR & _).
  exists a'. exact (conj E HR).
Defined.
