(* ===== verification/RenderManager.v ===== *)
(** * RenderManager.c: the queue of widgets to redraw

    The queue is an array of pointers; a pointer is its four bytes.  [renderman] is
    NULL before [renderman_init], and then nothing can be done.  The drawing in
    [renderman_flush] is in Screen.v; [renderman_cleanup] is its end. *)
From S2P Require Import Prelude Arrays.

Record RenderManager_t := mkRM { rm_queue : Array_t; rm_rectBefore : Array_t; rm_flags : Z }.
Abbreviation RM := (M (option RenderManager_t)).
Definition RM_NEEDS_RELAYOUT : Z := 0x01.
Definition RM_COMPLETE_REDRAW : Z := 0x02.

Definition renderman : RM RenderManager_t := λ s,
  match s with Some r => Ok (r, s) | None => Fault end.
(** An operation on one of the arrays, which is never freed. *)
Definition on_array {B} (get : RenderManager_t → Array_t) (set : Array_t → RenderManager_t → RenderManager_t)
    (m : M (option Array_t) B) : RM B := λ s,
  match s with
  | None => Fault
  | Some r =>
      match m (Some (get r)) with
      | Ok (b, Some a) => Ok (b, Some (set a r))
      | Ok (b, None) => Fault
      | Abort => Abort | Fault => Fault | NoFuel => NoFuel
      end
  end.
Definition on_queue {B} : M (option Array_t) B → RM B :=
  on_array rm_queue (λ a r, mkRM a (rm_rectBefore r) (rm_flags r)).
Definition on_rects {B} : M (option Array_t) B → RM B :=
  on_array rm_rectBefore (λ a r, mkRM (rm_queue r) a (rm_flags r)).
Definition set_rm_flags (f : Z → Z) : RM () := λ s,
  match s with
  | Some r => Ok ((), Some (mkRM (rm_queue r) (rm_rectBefore r) (f (rm_flags r))))
  | None => Fault
  end.

(** The sizes of a pointer and of a [Rectangle]. *)
Definition ptr_size : Z := 4.
Definition rect_size : Z := 16.
Definition run_array (m : M (option Array_t) ()) : outcome Array_t :=
  match m None with Ok (_, Some a) => Ok a | Ok (_, None) => Fault | Abort => Abort | Fault => Fault
  | NoFuel => NoFuel end.
Definition renderman_init : RM () := λ s,
  match s with
  | Some _ => Ok ((), s)
  | None =>
      match run_array (array_newWithSize ptr_size 10), run_array (array_newWithSize rect_size 10) with
      | Ok q, Ok b => Ok ((), Some (mkRM q b 0))
      | _, _ => Fault
      end
  end.

(** The loop over the indices of the queue, up to the first that holds [widget]. *)
Definition queue_find (widget : list byte_) (len : Z) : RM (option Z) :=
  mfind (λ i, x ← on_queue (array_get i);
              mret (if decide (x = widget) then Some i else None)) (seqZ 0 len).
Definition renderman_queue (widget : option (list byte_)) : RM () :=
  widget ← emo_nonnull widget; r ← renderman;
  if negb (Z.land (rm_flags r) RM_COMPLETE_REDRAW =? 0) then mret () else
  len ← on_queue array_length;
  found ← queue_find widget len;
  match found with Some _ => mret () | None => on_queue (array_append widget) end.
Definition renderman_dequeue (widget : option (list byte_)) : RM () :=
  widget ← emo_nonnull widget; r ← renderman;
  if negb (Z.land (rm_flags r) RM_COMPLETE_REDRAW =? 0) then mret () else
  len ← on_queue array_length;
  found ← queue_find widget len;
  match found with Some i => on_queue (array_removeItem i) | None => mret () end.
Definition renderman_markLayoutChanged : RM () := set_rm_flags (λ f, Z.lor f RM_NEEDS_RELAYOUT).
Definition renderman_clearQueue : RM () := set_rm_flags (λ f, Z.lor f RM_COMPLETE_REDRAW).
(** The end of [renderman_flush]. *)
Definition renderman_cleanup : RM () :=
  on_queue array_empty;; on_rects array_empty;; set_rm_flags (λ _, 0).

(** ** Properties *)
(** The queue holds the pointers [ws]. *)
Record queue_ok (r : RenderManager_t) (ws : list (list byte_)) : Prop := {
  qo_rep : arr_rep (rm_queue r) ws;
  qo_es : a_elementSize (rm_queue r) = ptr_size;
  qo_factor : a_factor (rm_queue r) = f32_2_2;
  qo_room : 3 * (a_size (rm_queue r) + 1) * ptr_size < 2 ^ 31 }.
Definition set_queue (a : Array_t) (r : RenderManager_t) : RenderManager_t :=
  mkRM a (rm_rectBefore r) (rm_flags r).

Lemma queue_find_ok r ws1 ws2 widget :
  queue_ok r (ws1 ++ ws2) → widget ∉ ws1 →
  mfind (λ i, x ← on_queue (array_get i); mret (if decide (x = widget) then Some i else None))
    (seqZ (Z.of_nat (length ws1)) (Z.of_nat (length ws2))) (Some r) =
  Ok ((λ p, Z.of_nat (length ws1 + p.1)) <$> list_find (λ x, x = widget) ws2, Some r).
Proof.
  revert ws1; induction ws2 as [|x ws2 IH]; intros ws1 HQ Hw; [done|].
  cbn [length]. rewrite seqZ_cons by lia. cbn [mfind].
  erewrite bind_Ok.
  2:{ erewrite bind_Ok; [reflexivity|]. unfold on_queue, on_array.
      rewrite (array_get_ok _ ws1 x ws2) by apply HQ. reflexivity. }
  destruct r as [q b fl]. cbn [rm_queue rm_rectBefore rm_flags]. cbn [list_find].
  destruct (decide (x = widget)) as [->|Hx].
  - unfold mret, M_ret. cbn [fmap option_fmap option_map fst]. by rewrite Nat.add_0_r.
  - replace (Z.succ (Z.of_nat (length ws1))) with (Z.of_nat (length (ws1 ++ [x]))) by
      (rewrite length_app; simpl; lia).
    replace (Z.pred (Z.of_nat (S (length ws2)))) with (Z.of_nat (length ws2)) by lia.
    rewrite IH.
    + destruct (list_find _ ws2) as [[k y]|]; [|done]. cbn [fmap option_fmap option_map fst].
      do 3 f_equal. rewrite length_app. simpl. lia.
    + by rewrite <-(assoc_L app).
    + rewrite elem_of_app. intros [?| ->%list_elem_of_singleton]; [done|]. done.
Qed.

Lemma queue_find_all r ws widget :
  queue_ok r ws → Z.of_nat (length ws) < 2 ^ 31 →
  (len ← on_queue array_length; queue_find widget len) (Some r) =
    Ok ((λ p, Z.of_nat p.1) <$> list_find (λ x, x = widget) ws, Some r).
Proof.
  intros HQ Hl. pose proof HQ as [[_ _ Hlen _ _ _ _] _ _ _]. destruct r as [q b fl].
  erewrite (bind_Ok _ _ _ (Z.of_nat (length ws))).
  2:{ unfold on_queue, on_array, array_length. cbn [rm_queue].
      erewrite bind_Ok by reflexivity. cbn [rm_queue] in Hlen. by rewrite Hlen, int32_small by lia. }
  apply (queue_find_ok (mkRM q b fl) [] ws widget HQ). apply not_elem_of_nil.
Qed.

(** Queueing a widget adds it at the end unless it is queued already, so that no
    widget is queued twice.  Dequeueing finds the widget but does not shorten the
    queue, because [array_removeItem] does not: the widget at the end of the queue
    takes the free place at the end a second time, and when the widget to remove is
    the last one it stays queued.  While a complete redraw is pending, both do
    nothing. *)
Theorem renderman_queue_dequeue r ws widget :
  queue_ok r ws → Z.of_nat (length ws) < 2 ^ 31 → Z.of_nat (length widget) = ptr_size →
  if decide (Z.land (rm_flags r) RM_COMPLETE_REDRAW = 0) then
    (∃ q, renderman_queue (Some widget) (Some r) = Ok ((), Some (set_queue q r)) ∧
       arr_rep q (if decide (widget ∈ ws) then ws else ws ++ [widget])) ∧
    (widget ∉ ws → renderman_dequeue (Some widget) (Some r) = Ok ((), Some r)) ∧
    (∀ ws1 ws2, ws = ws1 ++ widget :: ws2 → widget ∉ ws1 →
       ∃ q, renderman_dequeue (Some widget) (Some r) = Ok ((), Some (set_queue q r)) ∧
         arr_rep q (ws1 ++ ws2 ++ [List.last ws2 widget]) ∧ a_length q = Z.of_nat (length ws))
  else renderman_queue (Some widget) (Some r) = Ok ((), Some r) ∧
       renderman_dequeue (Some widget) (Some r) = Ok ((), Some r).
Proof.
  intros HQ Hl Hw. pose proof (queue_find_all r ws widget HQ Hl) as Hfind.
  assert (∀ f : option Z → RM (), Z.land (rm_flags r) RM_COMPLETE_REDRAW = 0 →
    (r ← renderman; if negb (Z.land (rm_flags r) RM_COMPLETE_REDRAW =? 0) then mret () else
      len ← on_queue array_length; found ← queue_find widget len; f found) (Some r) =
    f ((λ p, Z.of_nat p.1) <$> list_find (λ x, x = widget) ws) (Some r)) as Hrun.
  { intros f Hfl. erewrite bind_Ok by reflexivity. rewrite Hfl. cbn [negb Z.eqb].
    rewrite <-bind_assoc. by rewrite (bind_Ok _ _ _ _ _ Hfind). }
  unfold renderman_queue, renderman_dequeue. case_decide as Hfl.
  - rewrite !(bind_Ok (emo_nonnull (Some widget)) _ _ _ _ eq_refl), !Hrun by done.
    destruct HQ as [Hrep Hes Hfac Hroom]. split; [|split].
    + destruct (decide (widget ∈ ws)) as [Hin|Hin].
      * destruct (list_find_elem_of (λ x, x = widget) ws widget Hin eq_refl) as [[i y] E].
        rewrite E. cbn. exists (rm_queue r). split; [by destruct r|done].
      * assert (list_find (λ x, x = widget) ws = None) as -> by (apply list_find_None, Forall_forall; by intros ? ? ->).
        cbn [fmap option_fmap option_map].
        destruct (array_append_ok (rm_queue r) ws widget Hrep) as (q & E & HR & _); [congruence|done|congruence|].
        exists q. split; [|done]. unfold on_queue, on_array. by rewrite E.
    + intros Hin. assert (list_find (λ x, x = widget) ws = None) as ->
        by (apply list_find_None, Forall_forall; by intros ? ? ->). done.
    + intros ws1 ws2 -> Hn. assert (list_find (λ x, x = widget) (ws1 ++ widget :: ws2) = Some (length ws1, widget)) as ->.
      { rewrite list_find_app_r; [|apply list_find_None, Forall_forall; by intros ? ? ->].
        cbn [list_find]. rewrite decide_True by done. by rewrite Nat.add_0_r || reflexivity. }
      cbn [fmap option_fmap option_map fst].
      destruct (array_removeItem_ok (rm_queue r) ws1 widget ws2 Hrep) as (q & E & HR & _).
      exists q. split; [unfold on_queue, on_array; by rewrite E|]. split; [done|].
      rewrite (ar_length _ _ HR), !length_app. simpl. lia.
  - rewrite !(bind_Ok (emo_nonnull (Some widget)) _ _ _ _ eq_refl).
    erewrite !(bind_Ok renderman) by reflexivity. by destruct (Z.eqb_spec (Z.land (rm_flags r) RM_COMPLETE_REDRAW) 0).
Qed.

(** ** Instance: a queue of three widgets *)
Definition ptr (p : Z) : list byte_ := [Some p; Some 0; Some 0; Some 0].
Definition demo_queue : Array_t :=
  mkArray (ptr 1 ++ ptr 2 ++ ptr 3 ++ replicate 28 None) 10 3 4 f32_2_2.
Definition demo_rm : RenderManager_t := mkRM demo_queue demo_queue 0.
Lemma demo_rm_ok : queue_ok demo_rm [ptr 1; ptr 2; ptr 3].
Proof.
  split; [|done|done|vm_compute; reflexivity].
  split; try reflexivity; [by exists (replicate 28 None)|by repeat constructor|done..].
Qed.
Lemma renderman_queue_dequeue_witness :
  (∃ q, renderman_queue (Some (ptr 9)) (Some demo_rm) = Ok ((), Some (set_queue q demo_rm)) ∧
     arr_rep q [ptr 1; ptr 2; ptr 3; ptr 9]) ∧
  (∃ q, renderman_dequeue (Some (ptr 3)) (Some demo_rm) = Ok ((), Some (set_queue q demo_rm)) ∧
     arr_rep q [ptr 1; ptr 2; ptr 3]).
Proof.
  pose proof (λ w, renderman_queue_dequeue demo_rm [ptr 1; ptr 2; ptr 3] w demo_rm_ok eq_refl) as H.
  split.
  - exact (proj1 (H (ptr 9) eq_refl)).
  - destruct (proj2 (proj2 (H (ptr 3) eq_refl)) [ptr 1; ptr 2] [] eq_refl) as (q & E & HR & _).
    + apply (bool_decide_unpack _). reflexivity.
    + by exists q.
Defined.
