(* ===== verification/Pixels.v ===== *)
(** * The pixel arithmetic of lgui.c and lgui.h

    The screen holds 16-bit RGB565 pixels.  The macros are modelled on [Z] with
    the widths of the C expressions written out, and are related to arithmetic on
    the three channels. *)
From S2P Require Import Prelude.

(** ** Macros *)
(** [r], [g] and [b] are [unsigned char] or [unsigned short]; the shifts are done
    in [int]. *)
Definition RGB_TO_565 (r g b : Z) : Z :=
  Z.lor (Z.lor (Z.land (Z.shiftl (uint16 r) 8) 0xF800)
               (Z.land (Z.shiftl (uint16 g) 3) 0x7E0))
        (Z.shiftr b 3).

(** [scale] is an [unsigned char]. *)
Definition SCALE_PIXEL (scale r g b : Z) : Z :=
  Z.lor (Z.lor (Z.land (uint16 r * scale) 0xF800)
               (Z.land (Z.shiftr (uint16 g * scale) 5) 0x7E0))
        (Z.land (Z.shiftr (uint16 b * scale) 11) 0x1F).

Definition spread_mask : Z := 0x07e0f81f.
(** [(x | x << 16) & 0x07e0f81f] on [unsigned int]. *)
Definition spread (x : Z) : Z := Z.land (Z.lor x (uint32 (Z.shiftl x 16))) spread_mask.
(** The blend of [PIXEL_MODULATE_ALPHA (pixel, srcpixel, alpha, result)]. *)
Definition PIXEL_MODULATE_ALPHA (pixel srcpixel alpha : Z) : Z :=
  let s := spread pixel in
  let d := spread srcpixel in
  let d := uint32 (d + Z.shiftr (uint32 (uint32 (s - d) * Z.shiftr alpha 3)) 5) in
  let d := Z.land d spread_mask in
  uint16 (Z.lor d (Z.shiftr d 16)).

(** One component of line [idx] of [val]; the result is an [unsigned short]. *)
Definition GRADIENT_STEP (sr er val idx : Z) : Z :=
  let res := uint16 (Z.quot (sr * (val - idx)) val) in
  uint16 (res + (1 + uint16 (Z.quot (er * idx) val))).

(** ** Channels *)
Definition red5 (p : Z) : Z := p / 2048.
Definition green6 (p : Z) : Z := p / 32 mod 64.
Definition blue5 (p : Z) : Z := p mod 32.
Definition pack565 (r g b : Z) : Z := r * 2048 + g * 32 + b.
(** Linear interpolation with a weight of [a]/32. *)
Definition lerp (a s d : Z) : Z := ((32 - a) * d + a * s) / 32.

Lemma pack565_channels p :
  0 ≤ p < 65536 →
  p = pack565 (red5 p) (green6 p) (blue5 p) ∧
  0 ≤ red5 p < 32 ∧ 0 ≤ green6 p < 64 ∧ 0 ≤ blue5 p < 32.
Proof.
  unfold pack565, red5, green6, blue5. intros H. Z.div_mod_to_equations. lia.
Qed.
Lemma pack565_range r g b :
  0 ≤ r < 32 → 0 ≤ g < 64 → 0 ≤ b < 32 → 0 ≤ pack565 r g b < 65536.
Proof. unfold pack565. lia. Qed.
Lemma channels_pack565 r g b :
  0 ≤ r < 32 → 0 ≤ g < 64 → 0 ≤ b < 32 →
  red5 (pack565 r g b) = r ∧ green6 (pack565 r g b) = g ∧ blue5 (pack565 r g b) = b.
Proof.
  intros Hr Hg Hb. unfold pack565, red5, green6, blue5. Z.div_mod_to_equations. lia.
Qed.

(** *** Disjoint bit fields *)
Lemma testbit_split k a b i :
  0 ≤ k → 0 ≤ a < 2 ^ k → 0 ≤ i →
  Z.testbit (a + b * 2 ^ k) i = if i <? k then Z.testbit a i else Z.testbit b (i - k).
Proof.
  intros Hk Ha Hi. pose proof (Z.pow_pos_nonneg 2 k ltac:(lia) Hk).
  destruct (Z.ltb_spec i k).
  - rewrite <-(Z.mod_pow2_bits_low _ k) by lia.
    rewrite Z.mod_add, Z.mod_small by lia. done.
  - replace i with (i - k + k) at 1 by lia. rewrite <-Z.div_pow2_bits by lia.
    rewrite Z.div_add, Z.div_small by lia. by rewrite Z.add_0_l.
Qed.
Lemma land_split k lo hi mlo mhi :
  0 ≤ k → 0 ≤ lo < 2 ^ k → 0 ≤ mlo < 2 ^ k →
  Z.land (lo + hi * 2 ^ k) (mlo + mhi * 2 ^ k) = Z.land lo mlo + Z.land hi mhi * 2 ^ k.
Proof.
  intros Hk Hlo Hm.
  assert (0 ≤ Z.land lo mlo < 2 ^ k) as Hl.
  { split; [apply Z.land_nonneg; lia|]. rewrite <-(Z.mod_small lo (2 ^ k)) by lia.
    rewrite <-Z.land_ones, <-Z.land_assoc, (Z.land_comm (Z.ones k)), Z.land_assoc, Z.land_ones by lia.
    apply Z.mod_pos_bound. lia. }
  apply Z.bits_inj'. intros i Hi. rewrite Z.land_spec, !testbit_split by done.
  case_match; by rewrite Z.land_spec.
Qed.

Lemma lor_split k lo hi lo' hi' :
  0 ≤ k → 0 ≤ lo < 2 ^ k → 0 ≤ lo' < 2 ^ k →
  Z.lor (lo + hi * 2 ^ k) (lo' + hi' * 2 ^ k) = Z.lor lo lo' + Z.lor hi hi' * 2 ^ k.
Proof.
  intros Hk Hlo Hm.
  assert (0 ≤ Z.lor lo lo' < 2 ^ k) as Hl.
  { assert (Z.lor lo lo' = Z.lor lo lo' mod 2 ^ k) as ->.
    { rewrite <-Z.land_ones, Z.land_lor_distr_l, !Z.land_ones, !Z.mod_small by lia. done. }
    apply Z.mod_pos_bound. lia. }
  apply Z.bits_inj'. intros i Hi. rewrite Z.lor_spec, !testbit_split by done.
  case_match; by rewrite Z.lor_spec.
Qed.
Lemma land_ones_small x k : 0 ≤ k → 0 ≤ x < 2 ^ k → Z.land x (2 ^ k - 1) = x.
Proof.
  intros Hk Hx. rewrite Z.sub_1_r, <-Z.ones_equiv, Z.land_ones by done. by apply Z.mod_small.
Qed.

(** The mask keeps the fields at bits 0-4, 11-15 and 21-26. *)
Lemma land_spread_mask b f1 r f2 g k :
  0 ≤ b < 32 → 0 ≤ f1 < 64 → 0 ≤ r < 32 → 0 ≤ f2 < 32 → 0 ≤ g < 64 →
  Z.land (b + (f1 + (r + (f2 + (g + k * 2 ^ 6) * 2 ^ 5) * 2 ^ 5) * 2 ^ 6) * 2 ^ 5) spread_mask =
    b + r * 2 ^ 11 + g * 2 ^ 21.
Proof.
  intros. change spread_mask with
    ((2 ^ 5 - 1) + (0 + ((2 ^ 5 - 1) + (0 + ((2 ^ 6 - 1) + 0 * 2 ^ 6) * 2 ^ 5) * 2 ^ 5) * 2 ^ 6) * 2 ^ 5).
  rewrite !land_split by lia. rewrite !land_ones_small, !Z.land_0_r by lia. lia.
Qed.

Lemma spread_channels p :
  0 ≤ p < 65536 → spread p = blue5 p + red5 p * 2 ^ 11 + green6 p * 2 ^ 21.
Proof.
  intros Hp. destruct (pack565_channels p Hp) as (E & Hr & Hg & Hb).
  unfold spread. rewrite Z.shiftl_mul_pow2, uint32_small by lia.
  replace (Z.lor p (p * 2 ^ 16)) with (p + p * 2 ^ 16).
  2:{ pose proof (lor_split 16 p 0 0 p ltac:(lia) ltac:(lia) ltac:(lia)) as E2.
      rewrite Z.lor_0_r, Z.lor_0_l, Z.mul_0_l, Z.add_0_r, Z.add_0_l in E2. by rewrite E2. }
  rewrite <-(land_spread_mask (blue5 p) (green6 p) (red5 p) (blue5 p) (green6 p) (red5 p)) by done.
  f_equal. unfold pack565 in E. lia.
Qed.
Lemma unspread r g b :
  0 ≤ r < 32 → 0 ≤ g < 64 → 0 ≤ b < 32 →
  uint16 (Z.lor (b + r * 2 ^ 11 + g * 2 ^ 21) (Z.shiftr (b + r * 2 ^ 11 + g * 2 ^ 21) 16)) =
    pack565 r g b.
Proof.
  intros Hr Hg Hb. rewrite Z.shiftr_div_pow2 by done.
  replace ((b + r * 2 ^ 11 + g * 2 ^ 21) / 2 ^ 16) with (g * 2 ^ 5) by (Z.div_mod_to_equations; lia).
  replace (b + r * 2 ^ 11 + g * 2 ^ 21) with ((b + (0 + r * 2 ^ 6) * 2 ^ 5) + (g * 2 ^ 5) * 2 ^ 16) by lia.
  replace (g * 2 ^ 5) with ((0 + (g + 0 * 2 ^ 6) * 2 ^ 5) + 0 * 2 ^ 16) at 2 by lia.
  rewrite !lor_split by lia. rewrite !Z.lor_0_r, Z.lor_0_l.
  unfold uint16. rewrite Z.mod_add by lia. unfold pack565. rewrite Z.mod_small; lia.
Qed.

(** The red, green and blue components in a [Color] of full bytes. *)
Lemma RGB_TO_565_channels r g b :
  0 ≤ r < 256 → 0 ≤ g < 256 → 0 ≤ b < 256 →
  RGB_TO_565 r g b = pack565 (r / 8) (g / 4) (b / 8).
Proof.
  intros Hr Hg Hb. unfold RGB_TO_565. rewrite !uint16_small by lia.
  rewrite !Z.shiftl_mul_pow2, Z.shiftr_div_pow2 by done.
  change (b / 2 ^ 3) with (b / 8).
  assert (Z.land (r * 2 ^ 8) 0xF800 = r / 8 * 2 ^ 11) as ->.
  { replace (r * 2 ^ 8) with ((r mod 8) * 2 ^ 8 + (r / 8) * 2 ^ 11) by (Z.div_mod_to_equations; lia).
    change 0xF800 with (0 + (2 ^ 5 - 1) * 2 ^ 11).
    rewrite land_split, land_ones_small, Z.land_0_r by (Z.div_mod_to_equations; lia). lia. }
  assert (Z.land (g * 2 ^ 3) 0x7E0 = g / 4 * 2 ^ 5) as ->.
  { replace (g * 2 ^ 3) with ((g mod 4) * 2 ^ 3 + (g / 4) * 2 ^ 5) by (Z.div_mod_to_equations; lia).
    change 0x7E0 with (0 + (2 ^ 6 - 1) * 2 ^ 5).
    rewrite land_split, land_ones_small, Z.land_0_r by (Z.div_mod_to_equations; lia). lia. }
  assert (0 ≤ b / 8 < 32 ∧ 0 ≤ g / 4 < 64) as [? ?] by (Z.div_mod_to_equations; lia).
  replace (r / 8 * 2 ^ 11) with (0 + (0 + (r / 8) * 2 ^ 6) * 2 ^ 5) by lia.
  replace (g / 4 * 2 ^ 5) with (0 + (g / 4 + 0 * 2 ^ 6) * 2 ^ 5) by lia.
  replace (b / 8) with (b / 8 + (0 + 0 * 2 ^ 6) * 2 ^ 5) at 1 by lia.
  repeat (rewrite ?Z.lor_0_r, ?Z.lor_0_l; rewrite lor_split by lia).
  rewrite ?Z.lor_0_r, ?Z.lor_0_l. unfold pack565. lia.
Qed.

(** ** Properties *)

Lemma modulate_lerp s d alpha :
  0 ≤ s < 65536 → 0 ≤ d < 65536 → 0 ≤ alpha < 256 →
  let a := alpha / 8 in
  PIXEL_MODULATE_ALPHA s d alpha =
    pack565 (lerp a (red5 s) (red5 d)) (lerp a (green6 s) (green6 d)) (lerp a (blue5 s) (blue5 d)).
Proof.
  intros Hs Hd Halpha a. unfold PIXEL_MODULATE_ALPHA. rewrite (Z.shiftr_div_pow2 alpha 3) by done.
  change (alpha / 2 ^ 3) with a. assert (0 ≤ a < 32) as Ha by (unfold a; Z.div_mod_to_equations; lia).
  rewrite !spread_channels by done.
  destruct (pack565_channels s Hs) as (_ & Hr & Hg & Hb).
  destruct (pack565_channels d Hd) as (_ & Hr' & Hg' & Hb').
  revert Hr Hg Hb Hr' Hg' Hb'.
  generalize (red5 s) (green6 s) (blue5 s) (red5 d) (green6 d) (blue5 d).
  intros r g b r' g' b' Hr Hg Hb Hr' Hg' Hb'. clearbody a. clear s d Hs Hd Halpha alpha.
  set (S := b + r * 2 ^ 11 + g * 2 ^ 21). set (D := b' + r' * 2 ^ 11 + g' * 2 ^ 21).
  set (vb := (32 - a) * b' + a * b). set (vr := (32 - a) * r' + a * r).
  set (vg := (32 - a) * g' + a * g).
  assert (∃ k, uint32 (D + Z.shiftr (uint32 (uint32 (S - D) * a)) 5) =
    ((32 - a) * D + a * S) / 32 + k * 2 ^ 27) as [k ->].
  { rewrite (Z.shiftr_div_pow2 _ 5) by done. unfold uint32. rewrite Z.mul_mod_idemp_l by lia.
    replace (((32 - a) * D + a * S)) with ((S - D) * a + D * 32) by lia.
    rewrite Z.div_add by lia. generalize ((S - D) * a). clearbody D. intros T.
    exists ((D + T mod 2 ^ 32 / 2 ^ 5) / 2 ^ 32 * - 2 ^ 5 - T / 2 ^ 32).
    Z.div_mod_to_equations. lia. }
  assert (0 ≤ vb < 32 * 32 ∧ 0 ≤ vr < 32 * 32 ∧ 0 ≤ vg < 32 * 64) as (? & ? & ?)
    by (unfold vb, vr, vg; split_and!; nia).
  replace ((32 - a) * D + a * S) with (vb + (vr * 2 ^ 6 + vg * 2 ^ 16) * 32)
    by (unfold S, D, vb, vr, vg; lia).
  rewrite Z.div_add by lia.
  change (lerp a r r') with (vr / 32). change (lerp a g g') with (vg / 32).
  change (lerp a b b') with (vb / 32). clearbody vb vr vg. clear S D.
  replace (vb / 32 + (vr * 2 ^ 6 + vg * 2 ^ 16) + k * 2 ^ 27) with
    (vb / 32 + (vr mod 32 * 2 + (vr / 32 + (vg mod 32 + (vg / 32 + k * 2 ^ 6) * 2 ^ 5) * 2 ^ 5) * 2 ^ 6)
      * 2 ^ 5) by (Z.div_mod_to_equations; lia).
  rewrite land_spread_mask by (Z.div_mod_to_equations; lia).
  apply unspread; Z.div_mod_to_equations; lia.
Qed.

Lemma modulate_range s d alpha :
  0 ≤ s < 65536 → 0 ≤ d < 65536 → 0 ≤ alpha < 256 → 0 ≤ PIXEL_MODULATE_ALPHA s d alpha < 65536.
Proof. intros. unfold PIXEL_MODULATE_ALPHA, uint16. apply Z.mod_pos_bound. lia. Qed.

Lemma lerp_range a s d :
  0 ≤ a ≤ 32 → Z.min s d ≤ lerp a s d ≤ Z.max s d.
Proof.
  intros Ha. unfold lerp. split.
  - apply Z.div_le_lower_bound; [lia|]. nia.
  - apply Z.div_le_upper_bound; [lia|]. nia.
Qed.

(** The packed blend of [PIXEL_MODULATE_ALPHA], which works on all three
    channels in one 32-bit word with an unsigned difference that may wrap, is
    exactly the linear interpolation of each channel with the weight
    [alpha >> 3] out of 32, rounded down; no channel leaks into another,
    every channel stays between its two operands, and an alpha below 8 leaves the
    destination as it is. *)
Theorem pixel_modulate_is_lerp s d alpha :
  0 ≤ s < 65536 → 0 ≤ d < 65536 → 0 ≤ alpha < 256 →
  let p := PIXEL_MODULATE_ALPHA s d alpha in
  let a := alpha / 8 in
  0 ≤ p < 65536 ∧
  red5 p = lerp a (red5 s) (red5 d) ∧
  green6 p = lerp a (green6 s) (green6 d) ∧
  blue5 p = lerp a (blue5 s) (blue5 d) ∧
  Z.min (red5 s) (red5 d) ≤ red5 p ≤ Z.max (red5 s) (red5 d) ∧
  Z.min (green6 s) (green6 d) ≤ green6 p ≤ Z.max (green6 s) (green6 d) ∧
  Z.min (blue5 s) (blue5 d) ≤ blue5 p ≤ Z.max (blue5 s) (blue5 d) ∧
  (alpha < 8 → p = d).
Proof.
  intros Hs Hd Halpha p a. pose proof (modulate_lerp s d alpha Hs Hd Halpha) as E.
  fold p in E. fold a in E. cbv zeta in E.
  assert (0 ≤ a < 32) as Ha by (unfold a; Z.div_mod_to_equations; lia).
  destruct (pack565_channels s Hs) as (_ & Hr & Hg & Hb).
  destruct (pack565_channels d Hd) as (Ed & Hr' & Hg' & Hb').
  pose proof (lerp_range a (red5 s) (red5 d) ltac:(lia)).
  pose proof (lerp_range a (green6 s) (green6 d) ltac:(lia)).
  pose proof (lerp_range a (blue5 s) (blue5 d) ltac:(lia)).
  destruct (channels_pack565 (lerp a (red5 s) (red5 d)) (lerp a (green6 s) (green6 d))
    (lerp a (blue5 s) (blue5 d))) as (E1 & E2 & E3); [lia..|].
  rewrite <-E in E1, E2, E3. rewrite E1, E2, E3.
  split; [by apply modulate_range|]. split_and!; try done; try lia.
  intros Hlt. assert (a = 0) as Ha0 by (unfold a; Z.div_mod_to_equations; lia).
  rewrite E, Ha0. assert (∀ x y, lerp 0 x y = y) as Hz.
  { intros x y. unfold lerp. Z.div_mod_to_equations. lia. }
  by rewrite !Hz, <-Ed.
Qed.

(** a gradient line's component lies between its end points, one above at
    most: the macro adds 1 to the two rounded-down parts.  The first line of a
    gradient that starts at 255 therefore gets 256, which [RGB_TO_565] does not
    clamp: red and green fall out of their fields and blue spills into green, so
    white comes out as the nearly black pixel 0x0020. *)
Theorem gradient_step_overshoots sr er val idx :
  0 ≤ sr < 256 → 0 ≤ er < 256 → 0 ≤ idx < val → val ≤ 65536 →
  let c := GRADIENT_STEP sr er val idx in
  Z.min sr er ≤ c ≤ Z.max sr er + 1 ∧
  (idx = 0 → c = sr + 1) ∧
  (idx = 0 → sr = 255 → RGB_TO_565 c c c = pack565 0 1 0).
Proof.
  intros Hsr Her Hidx Hval c.
  assert (c = sr * (val - idx) / val + er * idx / val + 1) as E.
  { unfold c, GRADIENT_STEP. rewrite !Z.quot_div_nonneg by nia.
    assert (0 ≤ sr * (val - idx) / val < 256 ∧ 0 ≤ er * idx / val < 256) as [? ?].
    { split; (split; [apply Z.div_pos; nia|apply Z.div_lt_upper_bound; nia]). }
    rewrite (uint16_small (sr * _ / _)), (uint16_small (er * _ / _)) by lia.
    rewrite uint16_small; lia. }
  assert (idx = 0 → c = sr + 1) as Hfirst.
  { intros ->. rewrite E, Z.sub_0_r, Z.mul_0_r, Z.div_mul, Z.div_0_l by lia. lia. }
  split_and!; [| |done|].
  - rewrite E. pose proof (Z.div_mod (sr * (val - idx)) val ltac:(lia)).
    pose proof (Z.mod_pos_bound (sr * (val - idx)) val ltac:(lia)).
    pose proof (Z.div_mod (er * idx) val ltac:(lia)).
    pose proof (Z.mod_pos_bound (er * idx) val ltac:(lia)). nia.
  - rewrite E. pose proof (Z.mul_div_le (sr * (val - idx)) val ltac:(lia)).
    pose proof (Z.mul_div_le (er * idx) val ltac:(lia)). nia.
  - intros Hi ->. rewrite Hfirst by done. reflexivity.
Qed.

Lemma pixel_modulate_is_lerp_witness :
  red5 (PIXEL_MODULATE_ALPHA 0xF800 0 128) = 15 ∧ PIXEL_MODULATE_ALPHA 0xFFFF 0x1234 7 = 0x1234.
Proof.
  split.
  - exact (proj1 (proj2 (pixel_modulate_is_lerp 0xF800 0 128 ltac:(lia) ltac:(lia) ltac:(lia)))).
  - refine (proj2 (proj2 (proj2 (proj2 (proj2 (proj2 (proj2
      (pixel_modulate_is_lerp 0xFFFF 0x1234 7 ltac:(lia) ltac:(lia) ltac:(lia)))))))) _). lia.
Defined.
Lemma gradient_step_overshoots_witness :
  RGB_TO_565 (GRADIENT_STEP 255 0 40 0) (GRADIENT_STEP 255 0 40 0) (GRADIENT_STEP 255 0 40 0) = 0x20.
Proof.
  exact (proj2 (proj2 (gradient_step_overshoots 255 0 40 0 ltac:(lia) ltac:(lia) ltac:(lia)
    ltac:(lia))) eq_refl eq_refl).
Defined.
