(* ===== verification/Lgui.v ===== *)
(** * lgui.c and Rectangle.c: the software renderer

    The state of lgui.c: the 320x240 framebuffer, the stack of clip rectangles,
    the translation, the redraw regions and the dirty flag.  The framebuffer is a
    function from pixel indices to pixels; an access outside it is a [Fault].
    Screen coordinates are plain integers: they are far below the range of [int].

    Most drawing operations repeat one loop nest: clip a rectangle, then visit its
    visible part line by line.  That nest is [clipped], and [clipped_paints] says
    which pixels it changes. *)
From stdpp Require Import functions.
From S2P Require Import Prelude Pixels.

(** ** Rectangle.c *)
Record Rectangle := mkRect { rx : Z; ry : Z; rwidth : Z; rheight : Z }.
Definition rectangle_zero : Rectangle := mkRect 0 0 0 0.
Definition rectangle_union (r o : Rectangle) : Rectangle :=
  let x := if rx r <? rx o then rx r else rx o in
  let y := if ry r <? ry o then ry r else ry o in
  let rx2 := rx r + rwidth r in
  let ry2 := ry r + rheight r in
  let ox2 := rx o + rwidth o in
  let oy2 := ry o + rheight o in
  mkRect x y (if ox2 <? rx2 then rx2 - x else ox2 - x) (if oy2 <? ry2 then ry2 - y else oy2 - y).
(** The points of a rectangle. *)
Definition in_rect (r : Rectangle) (px py : Z) : Prop :=
  rx r ≤ px < rx r + rwidth r ∧ ry r ≤ py < ry r + rheight r.
#[export] Instance in_rect_dec r px py : Decision (in_rect r px py).
Proof. unfold in_rect. apply _. Defined.

(** ** State *)
Definition LGUI_WIDTH : Z := 320.
Definition LGUI_HEIGHT : Z := 240.
Definition LGUI_SIZE : Z := LGUI_WIDTH * LGUI_HEIGHT.
Definition CLIP_STACK_SIZE : Z := 5.
Definition REDRAW_REGION_COUNT : Z := 30.
Record gui := mkGui {
  lgui_buffer : Z → Z;
  clip_stack : list Rectangle;
  clip_index : Z;
  translate_x : Z;
  translate_y : Z;
  region_blit : list Rectangle;
  region_index : Z;
  lguiDirty : bool;
  putpixelX : Z;
  putpixelY : Z }.
Abbreviation GM := (M gui).

Definition set_buffer b s := mkGui b (clip_stack s) (clip_index s) (translate_x s) (translate_y s)
  (region_blit s) (region_index s) (lguiDirty s) (putpixelX s) (putpixelY s).
Definition set_clips st i s := mkGui (lgui_buffer s) st i (translate_x s) (translate_y s)
  (region_blit s) (region_index s) (lguiDirty s) (putpixelX s) (putpixelY s).
Definition set_translate x y s := mkGui (lgui_buffer s) (clip_stack s) (clip_index s) x y
  (region_blit s) (region_index s) (lguiDirty s) (putpixelX s) (putpixelY s).
Definition set_regions r i d s := mkGui (lgui_buffer s) (clip_stack s) (clip_index s)
  (translate_x s) (translate_y s) r i d (putpixelX s) (putpixelY s).
Definition set_putpixel x y s := mkGui (lgui_buffer s) (clip_stack s) (clip_index s)
  (translate_x s) (translate_y s) (region_blit s) (region_index s) (lguiDirty s) x y.

(** ** Clipping *)
(** [CLIP] is [clip_stack[clip_index]]. *)
Definition CLIP : GM Rectangle := λ s,
  if 0 <=? clip_index s then
    match clip_stack s !! Z.to_nat (clip_index s) with Some r => Ok (r, s) | None => Fault end
  else Fault.
Definition set_CLIP (r : Rectangle) : GM () :=
  _ ← CLIP;
  modify (λ s, set_clips (<[Z.to_nat (clip_index s) := r]> (clip_stack s)) (clip_index s) s).

Definition lgui_clip_set (rect : Rectangle) : GM () := set_CLIP rect.

Definition clip_union (c rect : Rectangle) : Rectangle :=
  let yh := ry c + rheight c in
  let xh := rx c + rwidth c in
  let nyh := ry rect + rheight rect in
  let nxh := rx rect + rwidth rect in
  let x := if rx rect <? rx c then rx rect else rx c in
  let y := if ry rect <? ry c then ry rect else ry c in
  mkRect x y (if xh <? nxh then nxh - x else xh - x) (if yh <? nyh then nyh - y else yh - y).
Definition lgui_clip_union (rect : Rectangle) : GM () := c ← CLIP; set_CLIP (clip_union c rect).

Definition clip_and (c rect : Rectangle) : Rectangle :=
  let yh := ry c + rheight c in
  let xh := rx c + rwidth c in
  let nyh := ry rect + rheight rect in
  let nxh := rx rect + rwidth rect in
  let x := if rx c <? rx rect then rx rect else rx c in
  let y := if ry c <? ry rect then ry rect else ry c in
  mkRect x y (if nxh <? xh then nxh - x else xh - x) (if nyh <? yh then nyh - y else yh - y).
Definition lgui_clip_and (rect : Rectangle) : GM () := c ← CLIP; set_CLIP (clip_and c rect).

Definition lgui_clip_identity : GM () :=
  modify (λ s, set_clips (clip_stack s) 0 s);;
  set_CLIP (mkRect 0 0 LGUI_WIDTH LGUI_HEIGHT).

Definition lgui_clip_push : GM () :=
  i ← gets clip_index;
  if CLIP_STACK_SIZE - 1 <=? i then mret () else
  c ← CLIP;
  modify (λ s, set_clips (clip_stack s) (i + 1) s);;
  set_CLIP c.

Definition lgui_clip_pop : GM () :=
  modify (λ s, set_clips (clip_stack s)
    (if clip_index s - 1 <? 0 then 0 else clip_index s - 1) s).

(** The visible part of a rectangle, relative to it: columns [lowx .. highx - 1]
    of lines [lowy .. highy - 1]; [None] when the C function returns 0. *)
Definition clip_rect (c rect : Rectangle) : option (Z * Z * Z * Z) :=
  if ry c + rheight c <? ry rect then None else
  let lowy := if ry rect <? ry c then ry c - ry rect else 0 in
  if rheight rect <? lowy then None else
  let val := ry rect + rheight rect in
  if val <? ry c then None else
  let highy := if ry c + rheight c <? val then ry c + rheight c - ry rect else rheight rect in
  if highy <=? 0 then None else
  if rx c + rwidth c <? rx rect then None else
  let lowx := if rx rect <? rx c then rx c - rx rect else 0 in
  if rwidth rect <? lowx then None else
  let val := rx rect + rwidth rect in
  if val <? rx c then None else
  let highx := if rx c + rwidth c <? val then rx c + rwidth c - rx rect else rwidth rect in
  if highx <=? 0 then None else
  Some (lowx, lowy, highx, highy).
Definition lgui_clip_rect (rect : Rectangle) : GM (option (Z * Z * Z * Z)) :=
  c ← CLIP; mret (clip_rect c rect).

Definition lgui_translate (x y : Z) : GM () :=
  modify (λ s, set_translate (translate_x s + x) (translate_y s + y) s).
Definition lgui_get_translate : GM (Z * Z) := gets (λ s, (translate_x s, translate_y s)).

Definition lgui_push_region : GM () :=
  c ← CLIP;
  i ← gets region_index;
  if bool_decide (0 ≤ i < REDRAW_REGION_COUNT) then
    modify (λ s, set_regions (<[Z.to_nat i := c]> (region_blit s)) (i + 1) (lguiDirty s) s)
  else fault.
Definition lgui_index_count : GM Z := gets region_index.
Definition lgui_get_region (index : Z) : GM Rectangle := λ s,
  if 0 <=? index then
    match region_blit s !! Z.to_nat index with Some r => Ok (r, s) | None => Fault end
  else Fault.
Definition lgui_blit_done : GM () := modify (λ s, set_regions (region_blit s) 0 false s).
Definition lgui_set_dirty : GM () :=
  modify (λ s, set_regions (region_blit s) (region_index s) true s).
Definition lgui_is_dirty : GM bool := gets lguiDirty.

(** ** The loop nest of the drawing operations *)
(** An update of the pixel at index [a]; [f] may itself fault. *)
Definition put_pixel (a : Z) (f : Z → option Z) : GM () := λ s,
  if bool_decide (0 ≤ a < LGUI_SIZE) then
    match f (lgui_buffer s a) with
    | Some v => Ok ((), set_buffer (<[a := v]> (lgui_buffer s)) s)
    | None => Fault
    end
  else Fault.
Definition row_loop (base lo hi : Z) (px : Z → Z → option Z) : GM () :=
  mfor (λ i, put_pixel (base + i) (px i)) (seqZ lo (hi - lo)).
Definition off_screen (ypos : Z) : bool := (ypos <? 0) || (LGUI_HEIGHT <=? ypos).
Definition lines_loop (x y lo hi : Z) (row : Z → Z → GM ()) : GM () :=
  mfor (λ line, let ypos := y + line in
          if off_screen ypos then mret () else row line (x + ypos * LGUI_WIDTH))
    (seqZ lo (hi - lo)).
Definition clipped (rect : Rectangle) (px : Z → Z → Z → option Z) : GM () :=
  c ← lgui_clip_rect rect;
  match c with
  | None => mret ()
  | Some (ccol, cline, cwidth, cheight) =>
      lgui_set_dirty;;
      lines_loop (rx rect) (ry rect) cline cheight
        (λ line buf, row_loop buf ccol cwidth (px line))
  end.

(** ** Lines, boxes and gradients *)
Definition lgui_clear (pixel : Z) : GM () :=
  modify (λ s, set_buffer (λ a, if bool_decide (0 ≤ a < LGUI_SIZE) then pixel * 256 + pixel
                                else lgui_buffer s a) s).

Definition lgui_vline (x y len width red green blue alpha : Z) : GM () :=
  '(tx, ty) ← lgui_get_translate;
  let pixel := RGB_TO_565 red green blue in
  clipped (mkRect (x + tx) (y + ty) width len)
    (λ _ _ srcpixel, Some (if alpha <? 255 then PIXEL_MODULATE_ALPHA pixel srcpixel alpha
                           else pixel)).
Definition lgui_hline (x y len width red green blue alpha : Z) : GM () :=
  lgui_vline x y width len red green blue alpha.

Definition LGUI_TOP : Z := 0x01.
Definition LGUI_RIGHT : Z := 0x02.
Definition LGUI_BOTTOM : Z := 0x04.
Definition LGUI_LEFT : Z := 0x08.
Definition LGUI_CORNER_TOPLEFT : Z := 0x01.
Definition LGUI_CORNER_TOPRIGHT : Z := 0x02.
Definition LGUI_CORNER_BOTTOMRIGHT : Z := 0x04.
Definition LGUI_CORNER_BOTTOMLEFT : Z := 0x08.
Definition has (flags f : Z) : bool := negb (Z.land flags f =? 0).

Definition lgui_box (x y width height linewidth red green blue alpha borderFlags : Z) : GM () :=
  when (has borderFlags LGUI_TOP) (lgui_hline x y width linewidth red green blue alpha);;
  when (has borderFlags LGUI_BOTTOM)
    (lgui_hline x (y + height - linewidth) width linewidth red green blue alpha);;
  when (has borderFlags LGUI_LEFT) (lgui_vline x y height linewidth red green blue alpha);;
  when (has borderFlags LGUI_RIGHT)
    (lgui_vline (x + width - linewidth) y height linewidth red green blue alpha).

Record Color := mkColor { c_red : Z; c_green : Z; c_blue : Z; c_alpha : Z }.

Definition lgui_vertical_gradient (cs ce : Color) (startx starty width height : Z) : GM () :=
  '(tx, ty) ← lgui_get_translate;
  clipped (mkRect (startx + tx) (starty + ty) width height)
    (λ line _ srcpixel,
       let red := GRADIENT_STEP (c_red cs) (c_red ce) height line in
       let green := GRADIENT_STEP (c_green cs) (c_green ce) height line in
       let blue := GRADIENT_STEP (c_blue cs) (c_blue ce) height line in
       let alpha := GRADIENT_STEP (c_alpha cs) (c_alpha ce) height line in
       let pixel := uint16 (RGB_TO_565 red green blue) in
       Some (if alpha <? 255 then PIXEL_MODULATE_ALPHA pixel srcpixel alpha else pixel)).

(** Gradient.c: the stops of a gradient, in percent of its height. *)
Record GradientStop := mkStop { position : Z; s_color : Color }.
Definition gradient_stops (g : list GradientStop) : Z := Z.of_nat (length g).
Definition gradient_getStop (g : list GradientStop) (id height : Z) : GM (Z * Color) :=
  s ← emo_nonnull (if id <? 0 then None else g !! Z.to_nat id);
  mret (Z.quot (height * position s) 100, s_color s).

(** One round of the [do] loop of [lgui_vertical_gradientG]. *)
Fixpoint gradientG_loop (fuel : nat) (g : list GradientStop) (startx starty width height : Z)
    (stop hstart hend : Z) (cstart cend : Color) : GM () :=
  match fuel with
  | O => no_fuel
  | S fuel =>
      when (negb (hstart =? hend))
        (lgui_vertical_gradient cstart cend startx (starty + hstart) width (hend - hstart));;
      let stop := stop + 1 in
      let cstart := cend in
      let hstart := hend in
      if stop <? gradient_stops g then
        '(hend, cend) ← gradient_getStop g stop height;
        gradientG_loop fuel g startx starty width height stop hstart hend cstart cend
      else mret ()
  end.
Definition lgui_vertical_gradientG (g : option (list GradientStop))
    (startx starty width height : Z) : GM () :=
  g ← emo_nonnull g;
  '(hstart, cstart) ← gradient_getStop g 0 height;
  '(hend, cend) ← gradient_getStop g 1 height;
  gradientG_loop (length g) g startx starty width height 1 hstart hend cstart cend.

(** ** What the loop nest paints *)
Lemma clip_rect_spec c r :
  match clip_rect c r with
  | Some (lx, ly, hx, hy) =>
      ∀ x y, (in_rect r x y ∧ in_rect c x y) ↔ (lx ≤ x - rx r < hx ∧ ly ≤ y - ry r < hy)
  | None => ∀ x y, ¬ (in_rect r x y ∧ in_rect c x y)
  end.
Proof.
  unfold clip_rect, in_rect. cbv zeta.
  repeat match goal with
  | |- context [Z.ltb ?a ?b] => destruct (Z.ltb_spec a b)
  | |- context [Z.leb ?a ?b] => destruct (Z.leb_spec a b)
  | H : context [Z.ltb ?a ?b] |- _ => destruct (Z.ltb_spec a b)
  end; intros x y; lia.
Qed.

Definition same_but_buffer (s s' : gui) : Prop := s' = set_buffer (lgui_buffer s') s.
Lemma set_buffer_twice b b' s : set_buffer b (set_buffer b' s) = set_buffer b s.
Proof. done. Qed.
Lemma set_buffer_id s : set_buffer (lgui_buffer s) s = s.
Proof. by destruct s. Qed.

Lemma put_pixel_ok a f s v :
  0 ≤ a < LGUI_SIZE → f (lgui_buffer s a) = Some v →
  put_pixel a f s = Ok ((), set_buffer (<[a := v]> (lgui_buffer s)) s).
Proof. intros Ha Hf. unfold put_pixel. by rewrite bool_decide_true, Hf. Qed.

(** The buffer after a row of pixels has been updated. *)
Definition row_result (base lo hi : Z) (px : Z → Z → option Z) (b : Z → Z) : Z → Z :=
  λ a, if decide (lo ≤ a - base < hi) then default 0 (px (a - base) (b a)) else b a.

Lemma row_loop_ok base lo hi px s :
  (∀ i, lo ≤ i < hi → 0 ≤ base + i < LGUI_SIZE) →
  (∀ i old, lo ≤ i < hi → is_Some (px i old)) →
  ∃ b, row_loop base lo hi px s = Ok ((), set_buffer b s) ∧
    ∀ a, b a = row_result base lo hi px (lgui_buffer s) a.
Proof.
  unfold row_loop. remember (Z.to_nat (hi - lo)) as n eqn:Hn.
  revert lo s Hn. induction n as [|n IH]; intros lo s Hn Hin Hpx.
  - rewrite seqZ_nil by lia. exists (lgui_buffer s). rewrite set_buffer_id. split; [done|].
    intros a. unfold row_result. by rewrite decide_False by lia.
  - rewrite seqZ_cons by lia. cbn [mfor].
    destruct (Hpx lo (lgui_buffer s (base + lo)) ltac:(lia)) as [v Hv].
    erewrite bind_Ok by (apply put_pixel_ok; [apply Hin; lia|exact Hv]).
    replace (Z.pred (hi - lo)) with (hi - Z.succ lo) by lia.
    destruct (IH (Z.succ lo) (set_buffer (<[base + lo := v]> (lgui_buffer s)) s)) as (b & E & Hb);
      [lia|intros; apply Hin; lia|intros; apply Hpx; lia|].
    exists b. rewrite E. split; [done|]. intros a. rewrite Hb. unfold row_result.
    cbn [lgui_buffer set_buffer]. destruct (decide (a = base + lo)) as [->|Hne].
    + rewrite fn_lookup_insert. rewrite decide_False by lia. rewrite decide_True by lia.
      replace (base + lo - base) with lo by lia. by rewrite Hv.
    + rewrite fn_lookup_insert_ne by done. apply decide_ext. lia.
Qed.

(** Pixel [a] lies on line [a / 320], column [a mod 320]. *)
Lemma pixel_split a x y : 0 ≤ x < LGUI_WIDTH → a = x + y * LGUI_WIDTH ↔ a mod LGUI_WIDTH = x ∧ a / LGUI_WIDTH = y.
Proof. unfold LGUI_WIDTH. Z.div_mod_to_equations. lia. Qed.

Lemma lines_loop_ok x y c0 c1 lo hi px s :
  (∀ i, c0 ≤ i < c1 → 0 ≤ x + i < LGUI_WIDTH) →
  (∀ line i old, lo ≤ line < hi → c0 ≤ i < c1 → is_Some (px line i old)) →
  ∃ b, lines_loop x y lo hi (λ line buf, row_loop buf c0 c1 (px line)) s = Ok ((), set_buffer b s) ∧
    ∀ a, 0 ≤ a < LGUI_SIZE →
      b a = let col := a mod LGUI_WIDTH - x in let line := a / LGUI_WIDTH - y in
            if decide (c0 ≤ col < c1 ∧ lo ≤ line < hi)
            then default 0 (px line col (lgui_buffer s a)) else lgui_buffer s a.
Proof.
  intros Hx. unfold lines_loop. remember (Z.to_nat (hi - lo)) as n eqn:Hn.
  revert lo s Hn. induction n as [|n IH]; intros lo s Hn Hpx.
  - rewrite seqZ_nil by lia. exists (lgui_buffer s). rewrite set_buffer_id. split; [done|].
    intros a Ha. cbv zeta. by rewrite decide_False by lia.
  - rewrite seqZ_cons by lia. cbn [mfor]. cbv zeta.
    replace (Z.pred (hi - lo)) with (hi - Z.succ lo) by lia.
    destruct (off_screen (y + lo)) eqn:Hoff.
    + erewrite bind_Ok by reflexivity.
      destruct (IH (Z.succ lo) s) as (b & E & Hb); [lia|intros; apply Hpx; lia|].
      exists b. split; [exact E|]. intros a Ha. rewrite (Hb a Ha). cbv zeta. apply decide_ext.
      unfold off_screen, LGUI_HEIGHT, LGUI_SIZE, LGUI_WIDTH, LGUI_HEIGHT in *.
      apply orb_true_iff in Hoff as [?%Z.ltb_lt|?%Z.leb_le]; Z.div_mod_to_equations; lia.
    + apply orb_false_iff in Hoff as [?%Z.ltb_ge ?%Z.leb_gt].
      destruct (row_loop_ok (x + (y + lo) * LGUI_WIDTH) c0 c1 (px lo) s) as (b1 & E1 & Hb1).
      { intros i Hi. specialize (Hx i Hi). unfold LGUI_SIZE, LGUI_WIDTH, LGUI_HEIGHT in *. lia. }
      { intros. apply Hpx; lia. }
      erewrite bind_Ok by exact E1.
      destruct (IH (Z.succ lo) (set_buffer b1 s)) as (b & E & Hb); [lia|intros; apply Hpx; lia|].
      exists b. split; [exact E|]. intros a Ha. rewrite (Hb a Ha). cbv zeta.
      cbn [lgui_buffer set_buffer]. rewrite Hb1. unfold row_result.
      set (col := a mod LGUI_WIDTH - x). set (line := a / LGUI_WIDTH - y).
      assert (a - (x + (y + lo) * LGUI_WIDTH) = col + (line - lo) * LGUI_WIDTH) as ->
        by (unfold col, line, LGUI_WIDTH; Z.div_mod_to_equations; lia).
      assert (c0 ≤ col + (line - lo) * LGUI_WIDTH < c1 ↔ c0 ≤ col < c1 ∧ line = lo) as Hiff.
      { assert (0 ≤ col + x < LGUI_WIDTH) by (unfold col, LGUI_WIDTH; Z.div_mod_to_equations; lia).
        split; [|by intros [? ->]; rewrite Z.sub_diag, Z.mul_0_l, Z.add_0_r].
        intros Hc. specialize (Hx _ Hc). unfold LGUI_WIDTH in *. lia. }
      destruct (decide (c0 ≤ col + (line - lo) * LGUI_WIDTH < c1)) as [Hc|Hc].
      * apply Hiff in Hc as [Hc ->]. rewrite Z.sub_diag, Z.mul_0_l, Z.add_0_r.
        rewrite decide_False by lia. by rewrite decide_True by lia.
      * apply decide_ext. rewrite Hiff in Hc. lia.
Qed.

Definition pixel_at (s : gui) (x y : Z) : Z := lgui_buffer s (x + y * LGUI_WIDTH).
(** [s'] is [s] with [f x y] applied to the pixels of [r] inside the clip [c];
    besides the framebuffer only the dirty flag may differ. *)
Definition paints (s s' : gui) (r c : Rectangle) (f : Z → Z → Z → Z) : Prop :=
  (∃ d, s' = set_regions (region_blit s) (region_index s) d (set_buffer (lgui_buffer s') s)) ∧
  ∀ x y, 0 ≤ x < LGUI_WIDTH → 0 ≤ y < LGUI_HEIGHT →
    pixel_at s' x y = if decide (in_rect r x y ∧ in_rect c x y)
                      then f x y (pixel_at s x y) else pixel_at s x y.
(** The columns of a clip rectangle are columns of the screen. *)
Definition clip_on_screen (c : Rectangle) : Prop := 0 ≤ rx c ∧ rx c + rwidth c ≤ LGUI_WIDTH.

Lemma clipped_paints rect px s c :
  CLIP s = Ok (c, s) → clip_on_screen c →
  (∀ x y old, in_rect rect x y → in_rect c x y → is_Some (px (y - ry rect) (x - rx rect) old)) →
  ∃ s', clipped rect px s = Ok ((), s') ∧
    paints s s' rect c (λ x y old, default 0 (px (y - ry rect) (x - rx rect) old)).
Proof.
  intros HC [Hc1 Hc2] Hpx. unfold clipped, lgui_clip_rect. rewrite bind_assoc. run_with HC.
  erewrite bind_Ok by reflexivity. pose proof (clip_rect_spec c rect) as Hs.
  destruct (clip_rect c rect) as [[[[lx ly] hx] hy]|].
  - erewrite bind_Ok by reflexivity.
    set (s0 := set_regions (region_blit s) (region_index s) true s).
    assert (∀ line i old, ly ≤ line < hy → lx ≤ i < hx → is_Some (px line i old)) as Hpx'.
    { intros line i old Hl Hi. destruct (proj2 (Hs (rx rect + i) (ry rect + line))) as [? ?]; [lia|].
      replace line with (ry rect + line - ry rect) by lia.
      replace i with (rx rect + i - rx rect) by lia. by apply Hpx. }
    destruct (decide (ly < hy)) as [Hly|Hly].
    + destruct (lines_loop_ok (rx rect) (ry rect) lx hx ly hy px s0) as (b & E & Hb).
      { intros i Hi. destruct (proj2 (Hs (rx rect + i) (ry rect + ly))) as [_ [? _]]; lia. }
      { done. }
      exists (set_buffer b s0). split; [exact E|]. split; [by exists true|].
      intros x y Hx Hy. unfold pixel_at. cbn [lgui_buffer set_buffer].
      rewrite Hb by (unfold LGUI_SIZE, LGUI_WIDTH, LGUI_HEIGHT in *; lia). cbv zeta.
      destruct (proj1 (pixel_split (x + y * LGUI_WIDTH) x y Hx) eq_refl) as [-> ->].
      apply decide_ext. rewrite Hs. tauto.
    + exists s0. split; [unfold lines_loop; by rewrite seqZ_nil by lia|]. split.
      * exists true. by destruct s.
      * intros x y Hx Hy. rewrite decide_False; [done|]. rewrite Hs. lia.
  - exists s. split; [done|]. split; [exists (lguiDirty s); by destruct s|].
    intros x y _ _. by rewrite decide_False by apply Hs.
Qed.

(** ** Blits *)
Definition read_byte (img : list Z) (off : Z) : option Z :=
  if off <? 0 then None else img !! Z.to_nat off.
(** [*(unsigned short * )p] on a little-endian machine. *)
Definition read_short (img : list Z) (off : Z) : option Z :=
  lo ← read_byte img off; hi ← read_byte img (off + 1); Some (lo + hi * 256).

Definition LGUI_MODE_REPLACE : Z := 0.
Definition LGUI_MODE_STENCIL : Z := 1.
Definition LGUI_MODE_ALPHA : Z := 2.

(** The nest of the two functions that do not clip. *)
Definition unclipped (destx desty w h : Z) (px : Z → Z → Z → option Z) : GM () :=
  lines_loop destx desty 0 h (λ line buf, row_loop buf 0 w (px line)).

Definition lgui_luminence_alpha_blitC (destx desty imgx imgy imgdx imgdy imgwidth imgheight : Z)
    (img : list Z) (red green blue : Z) : GM () :=
  unclipped destx desty imgdx imgdy (λ line col srcpixel,
    scale ← read_byte img (imgx + (imgy + line) * imgwidth + col);
    Some (if 0 <? scale then PIXEL_MODULATE_ALPHA (RGB_TO_565 red green blue) srcpixel scale
          else srcpixel)).

(** One nibble of [lgui_luminence_A4_blitC]. *)
Definition a4_pixel (c : Color) (mode scale srcpixel : Z) : Z :=
  if mode =? LGUI_MODE_ALPHA then
    if 0 <? scale then
      PIXEL_MODULATE_ALPHA (RGB_TO_565 (c_red c) (c_green c) (c_blue c)) srcpixel scale
    else srcpixel
  else if mode =? LGUI_MODE_STENCIL then
    if 0 <? scale then SCALE_PIXEL scale (c_red c) (c_green c) (c_blue c) else srcpixel
  else SCALE_PIXEL scale (c_red c) (c_green c) (c_blue c).

(** Each image byte is two pixels; the loop runs over bytes, so the first column
    is rounded up and the last one as well. *)
Definition lgui_luminence_A4_blitC (destx desty imgx imgy imgdx imgdy imgwidth imgheight : Z)
    (img : list Z) (c : Color) (mode : Z) (isItalic : bool) : GM () :=
  '(tx, ty) ← lgui_get_translate;
  let destx := destx + tx in
  let desty := desty + ty in
  r ← lgui_clip_rect (mkRect destx desty imgdx imgdy);
  match r with
  | None => mret ()
  | Some (ccol, cline, cwidth, cheight) =>
      lgui_set_dirty;;
      let c0 := Z.shiftr (ccol + 1) 1 in
      let c1 := Z.shiftr (cwidth + 1) 1 in
      lines_loop destx desty cline cheight (λ line buf,
        let buf := buf + (if isItalic then Z.shiftr (cheight - line) 2 else 0) in
        let imgbuf := Z.shiftr imgx 1 + (imgy + line) * Z.shiftr (imgwidth + 1) 1 in
        mfor (λ col,
          put_pixel (buf + 2 * col) (λ src,
            scaleorig ← read_byte img (imgbuf + col);
            Some (a4_pixel c mode (Z.land scaleorig 0xF0) src));;
          put_pixel (buf + 2 * col + 1) (λ src,
            scaleorig ← read_byte img (imgbuf + col);
            Some (a4_pixel c mode (Z.land (Z.shiftl scaleorig 4) 0xF0) src)))
          (seqZ c0 (c1 - c0)))
  end.

Definition lgui_blitRGB565 (destx desty imgx imgy imgwidth imgheight rowstride : Z)
    (img : list Z) (isStencil : bool) (alpha : Z) : GM () :=
  '(tx, ty) ← lgui_get_translate;
  clipped (mkRect (destx + tx) (desty + ty) imgwidth imgheight) (λ line col srcpixel,
    pixel ← read_short img (imgx + (imgy + line) * rowstride * 2 + 2 * col);
    let opixel := if alpha <? 255 then PIXEL_MODULATE_ALPHA pixel srcpixel alpha else pixel in
    Some (if isStencil then if 0 <? pixel then opixel else srcpixel else opixel)).

Definition lgui_blitRGB565A8 (destx desty imgx imgy imgwidth imgheight rowstride : Z)
    (img : list Z) (alpha : Z) : GM () :=
  '(tx, ty) ← lgui_get_translate;
  clipped (mkRect (destx + tx) (desty + ty) imgwidth imgheight) (λ line col srcpixel,
    let imgbuf := (imgx + (imgy + line) * rowstride) * 3 + col * 3 in
    lo ← read_byte img imgbuf;
    hi ← read_byte img (imgbuf + 1);
    scale ← read_byte img (imgbuf + 2);
    let pixel := Z.lor lo (Z.shiftl hi 8) in
    let scale := if alpha <? 255
                 then uint8 (Z.quot (scale * Z.shiftl alpha 7) (Z.shiftl 0xFF 7)) else scale in
    Some (PIXEL_MODULATE_ALPHA pixel srcpixel scale)).

Definition lgui_black_alpha_blitRGB (destx desty imgx imgy imgwidth imgheight : Z)
    (img : list Z) : GM () :=
  '(tx, ty) ← lgui_get_translate;
  unclipped (destx + tx) (desty + ty) imgwidth imgheight (λ line col srcpixel,
    let imgbuf := imgx + (imgy + line) * imgwidth * 3 + 3 * col in
    r ← read_byte img imgbuf;
    g ← read_byte img (imgbuf + 1);
    b ← read_byte img (imgbuf + 2);
    let pixel := RGB_TO_565 r g b in
    Some (if 0 <? pixel then pixel else srcpixel)).

Definition lgui_alpha_blitRGBA (destx desty imgx imgy imgwidth imgheight : Z)
    (img : list Z) : GM () :=
  '(tx, ty) ← lgui_get_translate;
  unclipped (destx + tx) (desty + ty) imgwidth imgheight (λ line col srcpixel,
    let imgbuf := imgx + (imgy + line) * imgwidth * 4 + 4 * col in
    r ← read_byte img imgbuf;
    g ← read_byte img (imgbuf + 1);
    b ← read_byte img (imgbuf + 2);
    scale ← read_byte img (imgbuf + 3);
    Some (PIXEL_MODULATE_ALPHA (RGB_TO_565 r g b) srcpixel scale)).

(** ** Circles and rounded boxes *)
(** [initD]: [f] is [(int)(I * sqrt(i)) % I] with [I = 255]; for [i < 100] the
    truncated double is the integer square root of [255 * 255 * i]. *)
Definition D_entry (i : Z) : Z :=
  let f := Z.sqrt (255 * 255 * i) mod 255 in
  if i =? 0 then 0 else if f =? 0 then 0 else 255 - f.
Definition D_table : list Z := map D_entry (seqZ 0 100).

Definition putpixelAlpha (x y pixel intensity : Z) : GM () :=
  '(tx, ty) ← lgui_get_translate;
  '(px, py) ← gets (λ s, (putpixelX s, putpixelY s));
  let x := x + tx + px in
  let y := y + ty + py in
  c ← CLIP;
  if (x <? rx c) || (rx c + rwidth c <? x) || (y <? ry c) || (ry c + rheight c <? y)
  then mret () else
  if (y <? 0) || (LGUI_HEIGHT <? y) then mret () else
  lgui_set_dirty;;
  put_pixel (x + y * LGUI_WIDTH) (λ srcpixel, Some (PIXEL_MODULATE_ALPHA pixel srcpixel intensity)).

(** The [while (y < x)] loop of [drawArch]; reading [D] out of range faults. *)
Fixpoint drawArch_loop (fuel : nat) (R pixel arcs x y d : Z) : GM () :=
  match fuel with
  | O => no_fuel
  | S fuel =>
      if y <? x then
        dnew ← deref (read_byte D_table (R * R - y * y));
        let x := if dnew <? d then x - 1 else x in
        when (has arcs LGUI_CORNER_BOTTOMRIGHT)
          (putpixelAlpha (x - 1) y pixel dnew;; putpixelAlpha x y pixel (255 - dnew);;
           putpixelAlpha y (x - 1) pixel dnew;; putpixelAlpha y x pixel (255 - dnew));;
        when (has arcs LGUI_CORNER_BOTTOMLEFT)
          (putpixelAlpha (- (x - 1)) y pixel dnew;; putpixelAlpha (- x) y pixel (255 - dnew);;
           putpixelAlpha (- y) (x - 1) pixel dnew;; putpixelAlpha (- y) x pixel (255 - dnew));;
        when (has arcs LGUI_CORNER_TOPRIGHT)
          (putpixelAlpha (x - 1) (- y) pixel dnew;; putpixelAlpha x (- y) pixel (255 - dnew);;
           putpixelAlpha y (- (x - 1)) pixel dnew;; putpixelAlpha y (- x) pixel (255 - dnew));;
        when (has arcs LGUI_CORNER_TOPLEFT)
          (putpixelAlpha (- (x - 1)) (- y) pixel dnew;; putpixelAlpha (- x) (- y) pixel (255 - dnew);;
           putpixelAlpha (- y) (- (x - 1)) pixel dnew;; putpixelAlpha (- y) (- x) pixel (255 - dnew));;
        drawArch_loop fuel R pixel arcs x (y + 1) dnew
      else mret ()
  end.
(** [x] starts at [R] and never grows while [y] does: [R + 1] rounds are enough. *)
Definition drawArch (R red green blue arcs : Z) : GM () :=
  drawArch_loop (S (Z.to_nat R)) R (RGB_TO_565 red green blue) arcs R 0 0.

Definition lgui_aacircle (x y rad arcs red green blue : Z) : GM () :=
  modify (set_putpixel x y);;
  drawArch rad red green blue arcs.

Definition lgui_roundedbox_line (x y width height radius red green blue borderFlags
    borderCornerFlags : Z) : GM () :=
  let tl := has borderCornerFlags LGUI_CORNER_TOPLEFT in
  let tr := has borderCornerFlags LGUI_CORNER_TOPRIGHT in
  let bl := has borderCornerFlags LGUI_CORNER_BOTTOMLEFT in
  let br := has borderCornerFlags LGUI_CORNER_BOTTOMRIGHT in
  let add (b : bool) := if b then radius else 0 in
  when tl (lgui_aacircle (x + radius) (y + radius) radius LGUI_CORNER_TOPLEFT red green blue);;
  when tr (lgui_aacircle (x + width - radius) (y + radius) radius LGUI_CORNER_TOPRIGHT red green blue);;
  when bl (lgui_aacircle (x + radius) (y + height - radius) radius LGUI_CORNER_BOTTOMLEFT red green blue);;
  when br (lgui_aacircle (x + width - radius) (y + height - radius) radius
             LGUI_CORNER_BOTTOMRIGHT red green blue);;
  when (has borderFlags LGUI_TOP)
    (lgui_hline (x + add tl) y (width - (add tl + add tr)) 1 red green blue 0xFF);;
  when (has borderFlags LGUI_BOTTOM)
    (lgui_hline (x + add bl) (y + height) (width - (add bl + add br)) 1 red green blue 0xFF);;
  when (has borderFlags LGUI_LEFT)
    (lgui_vline x (y + add tl) (height - (add tl + add bl) + 1) 1 red green blue 0xFF);;
  when (has borderFlags LGUI_RIGHT)
    (lgui_vline (x + width) (y + add tr) (height - (add tr + add br) + 1) 1 red green blue 0xFF).

(** The variables of [lgui_circlefill] are [short]s. *)
Fixpoint circlefill_loop (fuel : nat) (xc yc x y d diagonalInc rightInc : Z)
    (red green blue alpha : Z) : GM () :=
  match fuel with
  | O => no_fuel
  | S fuel =>
      if x <=? y then
        lgui_hline (xc - x) (yc + y) (Z.shiftl x 1 + 1) 1 red green blue alpha;;
        lgui_hline (xc - x) (yc - y) (Z.shiftl x 1 + 1) 1 red green blue alpha;;
        lgui_hline (xc - y) (yc + x) (Z.shiftl y 1 + 1) 1 red green blue alpha;;
        lgui_hline (xc - y) (yc - x) (Z.shiftl y 1 + 1) 1 red green blue alpha;;
        if 0 <=? d then
          circlefill_loop fuel xc yc (int16 (x + 1)) (int16 (y - 1)) (int16 (d + diagonalInc))
            (int16 (diagonalInc + 8)) (int16 (rightInc + 4)) red green blue alpha
        else
          circlefill_loop fuel xc yc (int16 (x + 1)) y (int16 (d + rightInc))
            (int16 (diagonalInc + 4)) (int16 (rightInc + 4)) red green blue alpha
      else mret ()
  end.
(** [y] starts at [r - 1] and [x] grows every round: [r + 1] rounds are enough. *)
Definition lgui_circlefill (xc yc r red green blue alpha : Z) : GM () :=
  circlefill_loop (S (Z.to_nat r)) xc yc 0 (int16 (r - 1)) (int16 (3 - 2 * r))
    (int16 (10 - 4 * r)) 6 red green blue alpha.

Definition lgui_roundedbox_fill (x y width height radius red green blue alpha
    cornerFlags : Z) : GM () :=
  let tl := has cornerFlags LGUI_CORNER_TOPLEFT in
  let tr := has cornerFlags LGUI_CORNER_TOPRIGHT in
  let bl := has cornerFlags LGUI_CORNER_BOTTOMLEFT in
  let br := has cornerFlags LGUI_CORNER_BOTTOMRIGHT in
  let add (b : bool) := if b then radius else 0 in
  when tl (lgui_circlefill (x + radius) (y + radius) radius red green blue alpha);;
  when tr (lgui_circlefill (x + width - radius) (y + radius) radius red green blue alpha);;
  when bl (lgui_circlefill (x + radius) (y + height - radius) radius red green blue alpha);;
  when br (lgui_circlefill (x + width - radius) (y + height - radius) radius red green blue alpha);;
  lgui_hline (x + add tl) y (width - (add tl + add tr)) radius red green blue alpha;;
  lgui_hline x (y + radius) width (height - radius * 2) red green blue alpha;;
  lgui_hline (x + add bl) (y + height - radius) (width - (add bl + add br)) radius
    red green blue alpha.

Section rbox_gradient.
(** [(int)(cr * (float)radius)] where [cr] is the cosine of [n / radius] right
    angles, in single precision: a value of the C mathematics library. *)
Variable cos_radius : Z → Z → Z.

(** How far line [ypos] of a box at [y] is pulled in at its left and right end. *)
Definition rbox_inset (y height radius cornerFlags ypos : Z) : Z * Z :=
  if ypos - y <? radius then
    let imod := radius - cos_radius (radius - (ypos - y)) radius in
    (if has cornerFlags LGUI_CORNER_TOPLEFT then imod else 0,
     if has cornerFlags LGUI_CORNER_TOPRIGHT then imod else 0)
  else if height - radius <? ypos - y then
    let imod := radius - cos_radius (radius - (height + y - ypos)) radius in
    (if has cornerFlags LGUI_CORNER_BOTTOMLEFT then imod else 0,
     if has cornerFlags LGUI_CORNER_BOTTOMRIGHT then imod else 0)
  else (0, 0).

(** The lines of one pair of stops. *)
Definition rbox_segment (x y width height radius cornerFlags hstart hend : Z)
    (cstart cend : Color) : GM () :=
  let ypos := y + hstart in
  let iheight := hend - hstart in
  r ← lgui_clip_rect (mkRect x ypos width iheight);
  match r with
  | None => mret ()
  | Some (cstartx, cline, cendx, cheight) =>
      lines_loop x ypos cline cheight (λ line buf,
        let red := GRADIENT_STEP (c_red cstart) (c_red cend) iheight line in
        let green := GRADIENT_STEP (c_green cstart) (c_green cend) iheight line in
        let blue := GRADIENT_STEP (c_blue cstart) (c_blue cend) iheight line in
        let pixel := uint16 (RGB_TO_565 red green blue) in
        let '(imodl, imodr) := rbox_inset y height radius cornerFlags (ypos + line) in
        let istart := if imodl <? cstartx then cstartx else imodl in
        let iwidth := if cendx <? width - imodr + 1 then cendx else width - imodr + 1 in
        row_loop buf istart iwidth (λ _ _, Some pixel))
  end.

Fixpoint rbox_loop (fuel : nat) (g : list GradientStop)
    (x y width height radius cornerFlags stop hstart hend : Z) (cstart cend : Color) : GM () :=
  match fuel with
  | O => no_fuel
  | S fuel =>
      when (negb (hstart =? hend))
        (rbox_segment x y width height radius cornerFlags hstart hend cstart cend);;
      let stop := stop + 1 in
      let cstart := cend in
      let hstart := hend in
      if stop <? gradient_stops g then
        '(hend, cend) ← gradient_getStop g stop height;
        rbox_loop fuel g x y width height radius cornerFlags stop hstart hend cstart cend
      else mret ()
  end.

Definition lgui_rbox_gradient (g : option (list GradientStop))
    (x y width height radius cornerFlags : Z) : GM () :=
  g ← emo_nonnull g;
  '(tx, ty) ← lgui_get_translate;
  let x := x + tx in
  let y := y + ty in
  '(hstart, cstart) ← gradient_getStop g 0 height;
  '(hend, cend) ← gradient_getStop g 1 height;
  r ← lgui_clip_rect (mkRect x y width height);
  match r with
  | None => mret ()
  | Some _ =>
      lgui_set_dirty;;
      rbox_loop (length g) g x y width height radius cornerFlags 1 hstart hend cstart cend
  end.
End rbox_gradient.

(** ** Properties *)
Lemma paints_ext s s' r c f g :
  (∀ x y old, in_rect r x y → in_rect c x y → f x y old = g x y old) →
  paints s s' r c f → paints s s' r c g.
Proof.
  intros Hfg [Hd Hp]. split; [done|]. intros x y Hx Hy. rewrite Hp by done.
  case_decide as Hin; [|done]. destruct Hin. by apply Hfg.
Qed.

(** Under a clip that lies on the screen, [lgui_vline] (and [lgui_hline],
    which calls it) paints exactly the pixels of the translated rectangle that
    are inside the clip: with its colour, or blended when [alpha < 255]; no other
    pixel and no other state but the dirty flag changes, and no access leaves the
    framebuffer. *)
Theorem lgui_vline_paints s c x y len width red green blue alpha :
  CLIP s = Ok (c, s) → clip_on_screen c →
  ∃ s', lgui_vline x y len width red green blue alpha s = Ok ((), s') ∧
    lgui_hline x y width len red green blue alpha s = Ok ((), s') ∧
    paints s s' (mkRect (x + translate_x s) (y + translate_y s) width len) c
      (λ _ _ old, if alpha <? 255
                  then PIXEL_MODULATE_ALPHA (RGB_TO_565 red green blue) old alpha
                  else RGB_TO_565 red green blue).
Proof.
  intros HC Hc. unfold lgui_hline, lgui_vline.
  destruct (clipped_paints (mkRect (x + translate_x s) (y + translate_y s) width len)
    (λ _ _ old, Some (if alpha <? 255
                      then PIXEL_MODULATE_ALPHA (RGB_TO_565 red green blue) old alpha
                      else RGB_TO_565 red green blue)) s c HC Hc) as (s' & E & Hp); [done|].
  by exists s'.
Qed.

(** Under a clip that lies on the screen, [lgui_vertical_gradient] paints
    exactly the visible part of its rectangle, every line with the components
    [GRADIENT_STEP] gives for its distance from the top of the whole rectangle, so
    clipping does not shift the gradient. *)
Theorem lgui_vertical_gradient_paints s c cs ce x y width height :
  CLIP s = Ok (c, s) → clip_on_screen c →
  ∃ s', lgui_vertical_gradient cs ce x y width height s = Ok ((), s') ∧
    paints s s' (mkRect (x + translate_x s) (y + translate_y s) width height) c
      (λ _ py old,
         let step f := GRADIENT_STEP (f cs) (f ce) height (py - (y + translate_y s)) in
         let pixel := uint16 (RGB_TO_565 (step c_red) (step c_green) (step c_blue)) in
         if step c_alpha <? 255 then PIXEL_MODULATE_ALPHA pixel old (step c_alpha) else pixel).
Proof.
  intros HC Hc. unfold lgui_vertical_gradient.
  edestruct (clipped_paints (mkRect (x + translate_x s) (y + translate_y s) width height))
    as (s' & E & Hp); [exact HC|exact Hc| |eexists; split; [exact E|]].
  - intros; by eexists.
  - by eapply paints_ext; [|exact Hp].
Qed.

Lemma read_byte_Some img off : 0 ≤ off < Z.of_nat (length img) → is_Some (read_byte img off).
Proof.
  intros H. unfold read_byte. destruct (Z.ltb_spec off 0); [lia|].
  apply lookup_lt_is_Some. lia.
Qed.

(** [lgui_blitRGB565] copies an image of [imgwidth] x [imgheight] pixels, when
    its bytes are all there: exactly the visible part changes, each pixel to the
    little-endian short of the image (kept where it is 0 in stencil mode, blended
    when [alpha < 255]), and no byte outside the image is read. *)
Theorem lgui_blitRGB565_paints s c destx desty w h img isStencil alpha :
  CLIP s = Ok (c, s) → clip_on_screen c →
  Z.of_nat (length img) = 2 * w * h →
  let r := mkRect (destx + translate_x s) (desty + translate_y s) w h in
  ∃ s', lgui_blitRGB565 destx desty 0 0 w h w img isStencil alpha s = Ok ((), s') ∧
    paints s s' r c (λ x y old,
      let off := 2 * ((y - ry r) * w + (x - rx r)) in
      let pixel := default 0 (read_short img off) in
      let opixel := if alpha <? 255 then PIXEL_MODULATE_ALPHA pixel old alpha else pixel in
      if isStencil then if 0 <? pixel then opixel else old else opixel).
Proof.
  intros HC Hc Himg r.
  assert (∀ x y, in_rect r x y →
    ∃ p, read_short img (0 + (0 + (y - ry r)) * w * 2 + 2 * (x - rx r)) = Some p ∧
         read_short img (2 * ((y - ry r) * w + (x - rx r))) = Some p) as Hread.
  { intros x y [Hx Hy]. change (rwidth r) with w in Hx. change (rheight r) with h in Hy.
    set (off := 2 * ((y - ry r) * w + (x - rx r))).
    replace (0 + (0 + (y - ry r)) * w * 2 + 2 * (x - rx r)) with off by (unfold off; lia).
    assert (0 ≤ off ∧ off + 1 < Z.of_nat (length img)) as [? ?].
    { unfold off. rewrite Himg. nia. }
    destruct (read_byte_Some img off) as [lo Hlo]; [lia|].
    destruct (read_byte_Some img (off + 1)) as [hi Hhi]; [lia|].
    exists (lo + hi * 256). unfold read_short. by rewrite Hlo, Hhi. }
  unfold lgui_blitRGB565.
  edestruct (clipped_paints r) as (s' & E & Hp); [exact HC|exact Hc| |eexists; split; [exact E|]].
  - intros x y old Hx _. destruct (Hread x y Hx) as (p & Hp & _). cbv zeta. rewrite Hp. by eexists.
  - eapply paints_ext; [|exact Hp]. intros x y old Hx _. cbv zeta.
    destruct (Hread x y Hx) as (p & Hp1 & Hp2). by rewrite Hp1, Hp2.
Qed.

(** *** The A4 blit *)
(** The nibble of the image for the pixel at [line], [col]. *)
Definition a4_nibble (img : list Z) (imgwidth line col : Z) : Z :=
  let b := default 0 (read_byte img (line * Z.shiftr (imgwidth + 1) 1 + col / 2)) in
  if Z.even col then Z.land b 0xF0 else Z.land (Z.shiftl b 4) 0xF0.

(** The pair loop is a row loop over twice as many columns. *)
Lemma pair_loop buf lo hi (px : Z → Z → option Z) s :
  mfor (λ col, put_pixel (buf + 2 * col) (px (2 * col));;
               put_pixel (buf + 2 * col + 1) (px (2 * col + 1))) (seqZ lo (hi - lo)) s =
  row_loop buf (2 * lo) (2 * hi) px s.
Proof.
  unfold row_loop. remember (Z.to_nat (hi - lo)) as n eqn:Hn. revert lo s Hn.
  induction n as [|n IH]; intros lo s Hn.
  - by rewrite !seqZ_nil by lia.
  - rewrite !(seqZ_cons lo), (seqZ_cons (2 * lo)), (seqZ_cons (Z.succ (2 * lo))) by lia. cbn [mfor].
    rewrite bind_assoc. replace (Z.succ (2 * lo)) with (2 * lo + 1) by lia.
    rewrite (Z.add_assoc buf).
    replace (Z.pred (hi - lo)) with (hi - Z.succ lo) by lia.
    replace (Z.pred (Z.pred (2 * hi - 2 * lo))) with (2 * hi - 2 * Z.succ lo) by lia.
    replace (Z.succ (2 * lo + 1)) with (2 * Z.succ lo) by lia.
    unfold mbind, M_bind. destruct (put_pixel (buf + 2 * lo) (px (2 * lo)) s) as [[[] s1]| | |]; [|done..].
    destruct (put_pixel (buf + 2 * lo + 1) (px (2 * lo + 1)) s1) as [[[] s2]| | |]; [|done..].
    apply IH. lia.
Qed.

Lemma mfor_ext {S A} (f g : A → M S ()) l s :
  (∀ a s, a ∈ l → f a s = g a s) → mfor f l s = mfor g l s.
Proof.
  revert s. induction l as [|a l IH]; intros s H; [done|]. simpl. unfold mbind, M_bind.
  rewrite H by (by left). destruct (g a s) as [[[] s']| | |]; [|done..].
  apply IH. intros. apply H. by right.
Qed.

Lemma put_pixel_ext a a' f g s :
  a = a' → (∀ old, f old = g old) → put_pixel a f s = put_pixel a' g s.
Proof. intros -> Hfg. unfold put_pixel. by rewrite Hfg. Qed.

(** The byte loop of a line, as a row loop over single pixels. *)
Definition a4_px (img : list Z) (c : Color) (w line i old : Z) : option Z :=
  scaleorig ← read_byte img (line * Z.shiftr (w + 1) 1 + i / 2);
  Some (a4_pixel c LGUI_MODE_ALPHA
    (if Z.even i then Z.land scaleorig 0xF0 else Z.land (Z.shiftl scaleorig 4) 0xF0) old).
Lemma a4_line_loop img c w line buf c0 c1 s :
  mfor (λ col,
    put_pixel (buf + 0 + 2 * col) (λ src,
      scaleorig ← read_byte img (0 + (0 + line) * Z.shiftr (w + 1) 1 + col);
      Some (a4_pixel c LGUI_MODE_ALPHA (Z.land scaleorig 0xF0) src));;
    put_pixel (buf + 0 + 2 * col + 1) (λ src,
      scaleorig ← read_byte img (0 + (0 + line) * Z.shiftr (w + 1) 1 + col);
      Some (a4_pixel c LGUI_MODE_ALPHA (Z.land (Z.shiftl scaleorig 4) 0xF0) src)))
    (seqZ c0 (c1 - c0)) s =
  row_loop buf (2 * c0) (2 * c1) (a4_px img c w line) s.
Proof.
  rewrite <-pair_loop. apply mfor_ext. intros k s1 _. unfold mbind, M_bind.
  assert (2 * k / 2 = k ∧ (2 * k + 1) / 2 = k) as [E1 E2] by (Z.div_mod_to_equations; lia).
  rewrite (put_pixel_ext (buf + 0 + 2 * k) (buf + 2 * k) _ (a4_px img c w line (2 * k))).
  - destruct (put_pixel _ _ s1) as [[[] s2]| | |]; [|done..].
    apply put_pixel_ext; [lia|]. intros old. unfold a4_px.
    rewrite E2, (Z.add_comm (2 * k)), Z.even_add_mul_2. simpl. by rewrite !Z.add_0_l.
  - lia.
  - intros old. unfold a4_px. rewrite E1, Z.even_mul. simpl. by rewrite !Z.add_0_l.
Qed.

(** [lgui_luminence_A4_blitC] works on bytes of two pixels, so it rounds the
    visible columns to pairs: it paints columns [2 * ((lo + 1) / 2)] up to
    [2 * ((hi + 1) / 2) - 1] of every visible line.  When the visible width is odd
    the last pair reaches one pixel beyond the clip, and when an odd number of
    columns is clipped on the left the first visible column is left unpainted. *)
Theorem lgui_A4_blit_rounds s c destx desty w h img col lo ly hi hy :
  CLIP s = Ok (c, s) →
  let r := mkRect (destx + translate_x s) (desty + translate_y s) w h in
  clip_rect c r = Some (lo, ly, hi, hy) →
  let c0 := 2 * ((lo + 1) / 2) in
  let c1 := 2 * ((hi + 1) / 2) in
  0 ≤ rx r + c0 → rx r + c1 ≤ LGUI_WIDTH →
  0 ≤ ly → hy ≤ h → hi ≤ w → 0 ≤ lo → Z.of_nat (length img) = (w + 1) / 2 * h →
  ∃ s', lgui_luminence_A4_blitC destx desty 0 0 w h w h img col LGUI_MODE_ALPHA false s = Ok ((), s') ∧
    ∀ x y, 0 ≤ x < LGUI_WIDTH → 0 ≤ y < LGUI_HEIGHT →
      pixel_at s' x y =
        if decide (c0 ≤ x - rx r < c1 ∧ ly ≤ y - ry r < hy)
        then a4_pixel col LGUI_MODE_ALPHA (a4_nibble img w (y - ry r) (x - rx r)) (pixel_at s x y)
        else pixel_at s x y.
Proof.
  intros HC r Hr c0 c1 Hc0 Hc1 Hly Hhy Hhi Hlo Himg.
  assert (∀ line i old, ly ≤ line < hy → c0 ≤ i < c1 → is_Some (a4_px img col w line i old)) as Hpx.
  { intros line i old Hl Hi. unfold a4_px. rewrite Z.shiftr_div_pow2 by done. change (2 ^ 1) with 2.
    destruct (read_byte_Some img (line * ((w + 1) / 2) + i / 2)) as [b ->]; [|by eexists].
    rewrite Himg. assert (0 ≤ i / 2 < (w + 1) / 2) by (unfold c0, c1 in *; Z.div_mod_to_equations; lia).
    nia. }
  set (s0 := set_regions (region_blit s) (region_index s) true s).
  destruct (lines_loop_ok (rx r) (ry r) c0 c1 ly hy (a4_px img col w) s0) as (b & E & Hb);
    [intros; lia|done|].
  exists (set_buffer b s0). split.
  - unfold lgui_luminence_A4_blitC. erewrite bind_Ok by reflexivity.
    unfold lgui_clip_rect. rewrite bind_assoc. run_with HC. erewrite bind_Ok by reflexivity.
    fold r. rewrite Hr. erewrite bind_Ok by reflexivity. rewrite <-E.
    unfold lines_loop. apply mfor_ext. intros line s1 _. cbv zeta.
    change (off_screen (ry r + line)) with (off_screen (desty + translate_y s + line)).
    destruct (off_screen _); [done|].
    rewrite Z.shiftr_0_l, (Z.shiftr_div_pow2 (lo + 1)), (Z.shiftr_div_pow2 (hi + 1)) by lia.
    unfold c0, c1. by rewrite <-a4_line_loop.
  - intros x y Hx Hy. unfold pixel_at at 1. cbn [lgui_buffer set_buffer].
    rewrite Hb by (unfold LGUI_SIZE, LGUI_WIDTH, LGUI_HEIGHT in *; lia). cbv zeta.
    destruct (proj1 (pixel_split (x + y * LGUI_WIDTH) x y Hx) eq_refl) as [-> ->].
    change (lgui_buffer s0 (x + y * LGUI_WIDTH)) with (pixel_at s x y).
    case_decide as Hin; [|done]. destruct Hin as [Hi Hl].
    destruct (Hpx _ _ (pixel_at s x y) Hl Hi) as [v Hv]. rewrite Hv. simpl. unfold a4_px in Hv.
    unfold a4_nibble. destruct (read_byte img _); [|done]. by injection Hv as <-.
Qed.

(** *** The clip stack *)
(** What every operation keeps: the arrays have their sizes and the indices are
    inside them (the region index may stand just past the end). *)
Record gui_ok (s : gui) : Prop := {
  go_stack : length (clip_stack s) = 5%nat;
  go_index : 0 ≤ clip_index s < CLIP_STACK_SIZE;
  go_regions : length (region_blit s) = 30%nat;
  go_rindex : 0 ≤ region_index s ≤ REDRAW_REGION_COUNT }.

Lemma CLIP_ok s : gui_ok s → ∃ c, CLIP s = Ok (c, s) ∧ clip_stack s !! Z.to_nat (clip_index s) = Some c.
Proof.
  intros [H1 H2 _ _]. unfold CLIP, CLIP_STACK_SIZE in *.
  destruct (lookup_lt_is_Some_2 (clip_stack s) (Z.to_nat (clip_index s))) as [c Hc]; [lia|].
  exists c. destruct (Z.leb_spec 0 (clip_index s)); [|lia]. by rewrite Hc.
Qed.
Lemma CLIP_at st i s r :
  0 ≤ i → st !! Z.to_nat i = Some r → CLIP (set_clips st i s) = Ok (r, set_clips st i s).
Proof.
  intros Hi H. unfold CLIP. cbn [clip_index clip_stack set_clips].
  destruct (Z.leb_spec 0 i); [|lia]. by rewrite H.
Qed.
Lemma set_CLIP_ok s c r :
  CLIP s = Ok (c, s) →
  set_CLIP r s = Ok ((), set_clips (<[Z.to_nat (clip_index s) := r]> (clip_stack s)) (clip_index s) s).
Proof. intros H. unfold set_CLIP. by run_with H. Qed.

(** a clip that is pushed, replaced and popped is restored with the whole
    stack below it, as long as the stack is not at its limit of five.  At the
    limit [lgui_clip_push] does nothing but [lgui_clip_pop] still pops, so a
    balanced push and pop loses the caller's clip and uncovers the one below. *)
Theorem clip_push_pop s c r :
  gui_ok s → CLIP s = Ok (c, s) →
  ∃ s', (lgui_clip_push;; lgui_clip_set r;; lgui_clip_pop) s = Ok ((), s') ∧ gui_ok s' ∧
    if decide (clip_index s < CLIP_STACK_SIZE - 1)
    then clip_index s' = clip_index s ∧ CLIP s' = Ok (c, s') ∧
         take (S (Z.to_nat (clip_index s))) (clip_stack s') =
         take (S (Z.to_nat (clip_index s))) (clip_stack s)
    else clip_index s' = 3 ∧ ∃ c', clip_stack s !! 3%nat = Some c' ∧ CLIP s' = Ok (c', s').
Proof.
  intros Hok HC. pose proof Hok as [H1 H2 H3 H4]. unfold CLIP_STACK_SIZE in *.
  destruct (CLIP_ok s Hok) as (c1 & E1 & Hc). assert (c1 = c) as -> by congruence.
  unfold lgui_clip_push. rewrite bind_assoc.
  erewrite bind_Ok by reflexivity. unfold CLIP_STACK_SIZE.
  destruct (Z.leb_spec (5 - 1) (clip_index s)) as [Hlim|Hlim].
  - erewrite bind_Ok by reflexivity. unfold lgui_clip_set.
    erewrite bind_Ok by (by eapply set_CLIP_ok). unfold lgui_clip_pop, modify.
    eexists; split; [done|]. cbn [clip_index set_clips].
    destruct (Z.ltb_spec (clip_index s - 1) 0); [lia|].
    rewrite decide_False by lia.
    destruct (lookup_lt_is_Some_2 (clip_stack s) 3) as [c' Hc']; [lia|].
    split; [split; cbn [clip_stack clip_index region_blit region_index set_clips];
      rewrite ?length_insert; unfold CLIP_STACK_SIZE; (done || lia)|].
    split; [lia|]. exists c'. split; [done|].
    rewrite CLIP_at with (r := c'); [done|lia|].
    cbn [clip_stack set_clips]. rewrite list_lookup_insert_ne by lia.
    replace (Z.to_nat (clip_index s - 1)) with 3%nat by (lia). done.
  - rewrite bind_assoc. run_with HC. rewrite bind_assoc. erewrite bind_Ok by reflexivity.
    destruct (lookup_lt_is_Some_2 (clip_stack s) (Z.to_nat (clip_index s + 1))) as [c2 Hc2]; [lia|].
    erewrite bind_Ok by (eapply set_CLIP_ok, CLIP_at; [lia|exact Hc2]).
    cbn [clip_stack clip_index set_clips]. unfold lgui_clip_set.
    erewrite bind_Ok.
    2:{ eapply set_CLIP_ok. cbn [set_clips clip_stack clip_index].
        apply (CLIP_at _ (clip_index s + 1) s c); [lia|]. apply list_lookup_insert_eq. lia. }
    cbn [clip_stack clip_index set_clips]. unfold lgui_clip_pop, modify.
    eexists; split; [done|]. cbn [clip_index set_clips].
    destruct (Z.ltb_spec (clip_index s + 1 - 1) 0); [lia|]. rewrite Z.add_simpl_r.
    rewrite decide_True by lia.
    split; [split; cbn [clip_stack clip_index region_blit region_index set_clips];
      rewrite ?length_insert; unfold CLIP_STACK_SIZE; (done || lia)|].
    cbn [clip_stack set_clips]. split; [done|]. split.
    + apply CLIP_at; [lia|]. rewrite !list_lookup_insert_ne by lia. done.
    + rewrite !take_insert_ge by lia. done.
Qed.

(** C40: [lgui_clip_and] intersects the clip with a rectangle exactly, also when
    the two do not meet; [lgui_clip_union] and [rectangle_union] compute the
    smallest rectangle that contains both. *)
Theorem clip_and_union_exact c r x y :
  (in_rect (clip_and c r) x y ↔ in_rect c x y ∧ in_rect r x y) ∧
  clip_union c r = rectangle_union c r ∧
  (in_rect c x y ∨ in_rect r x y → in_rect (clip_union c r) x y) ∧
  (0 < rwidth c → 0 < rheight c → 0 < rwidth r → 0 < rheight r →
   ∀ m, (∀ px py, in_rect c px py ∨ in_rect r px py → in_rect m px py) →
        in_rect (clip_union c r) x y → in_rect m x y).
Proof.
  unfold clip_union, rectangle_union, clip_and, in_rect. cbv zeta. cbn [rx ry rwidth rheight].
  destruct c as [cx cy cw ch], r as [x0 y0 w h]. cbn [rx ry rwidth rheight]. split_and!.
  - repeat case_match; rewrite ?Z.ltb_lt, ?Z.ltb_ge in *; lia.
  - repeat case_match; rewrite ?Z.ltb_lt, ?Z.ltb_ge in *; try lia; f_equal; lia.
  - repeat case_match; rewrite ?Z.ltb_lt, ?Z.ltb_ge in *; lia.
  - intros ???? [mx my mw mh] Hm. cbn [rx ry rwidth rheight] in *.
    pose proof (Hm cx cy ltac:(lia)). pose proof (Hm (cx + cw - 1) (cy + ch - 1) ltac:(lia)).
    pose proof (Hm x0 y0 ltac:(lia)). pose proof (Hm (x0 + w - 1) (y0 + h - 1) ltac:(lia)).
    repeat case_match; rewrite ?Z.ltb_lt, ?Z.ltb_ge in *; lia.
Qed.

(** *** Anti-aliased arcs *)
Definition dirty (s : gui) : gui := set_regions (region_blit s) (region_index s) true s.

(** [putpixelAlpha] on screen coordinates, after translation. *)
Lemma putpixelAlpha_run s c x y pixel a :
  CLIP s = Ok (c, s) →
  let X := x + translate_x s + putpixelX s in
  let Y := y + translate_y s + putpixelY s in
  rx c ≤ X ≤ rx c + rwidth c → ry c ≤ Y ≤ ry c + rheight c → 0 ≤ Y ≤ LGUI_HEIGHT →
  putpixelAlpha x y pixel a s =
    put_pixel (X + Y * LGUI_WIDTH) (λ old, Some (PIXEL_MODULATE_ALPHA pixel old a)) (dirty s).
Proof.
  intros HC X Y HX HY HY'. unfold putpixelAlpha. erewrite bind_Ok by reflexivity. cbv beta iota.
  erewrite bind_Ok by reflexivity. cbv beta iota zeta. run_with HC. fold X Y.
  destruct (Z.ltb_spec X (rx c)); [lia|]. destruct (Z.ltb_spec (rx c + rwidth c) X); [lia|].
  destruct (Z.ltb_spec Y (ry c)); [lia|]. destruct (Z.ltb_spec (ry c + rheight c) Y); [lia|].
  destruct (Z.ltb_spec Y 0); [lia|]. destruct (Z.ltb_spec LGUI_HEIGHT Y); [lia|]. done.
Qed.

(** The bounds test of [putpixelAlpha] is off by one in both directions.
    Under the identity clip a point of the screen changes exactly its own pixel;
    a point on column 320 changes the first pixel of the next line; a point on
    line 240 passes the test and writes behind the framebuffer. *)
Theorem putpixelAlpha_off_by_one s x y pixel a :
  CLIP s = Ok (mkRect 0 0 LGUI_WIDTH LGUI_HEIGHT, s) →
  translate_x s = 0 → translate_y s = 0 → putpixelX s = 0 → putpixelY s = 0 →
  0 ≤ x ≤ LGUI_WIDTH → 0 ≤ y ≤ LGUI_HEIGHT →
  let out := putpixelAlpha x y pixel a s in
  if decide (y = LGUI_HEIGHT ∨ (x = LGUI_WIDTH ∧ y = LGUI_HEIGHT - 1)) then out = Fault
  else ∃ s', out = Ok ((), s') ∧
    ∀ px py, 0 ≤ px < LGUI_WIDTH → 0 ≤ py < LGUI_HEIGHT →
      let here := if decide (x = LGUI_WIDTH) then px = 0 ∧ py = y + 1 else px = x ∧ py = y in
      (here → pixel_at s' px py = PIXEL_MODULATE_ALPHA pixel (pixel_at s px py) a) ∧
      (¬ here → pixel_at s' px py = pixel_at s px py).
Proof.
  intros HC H1 H2 H3 H4 Hx Hy out. unfold out.
  rewrite (putpixelAlpha_run s _ x y pixel a HC); cbn [rx ry rwidth rheight]; rewrite ?H1, ?H2, ?H3, ?H4; [|lia..].
  rewrite !Z.add_0_r. unfold put_pixel, LGUI_SIZE, LGUI_WIDTH, LGUI_HEIGHT in *.
  case_decide as Hout.
  - by rewrite bool_decide_false by lia.
  - rewrite bool_decide_true by lia. eexists; split; [done|]. intros px py Hpx Hpy. cbv zeta.
    unfold pixel_at. cbn [lgui_buffer set_buffer]. unfold LGUI_WIDTH.
    change (lgui_buffer (dirty s)) with (lgui_buffer s). split; intros Hh.
    + replace (px + py * 320) with (x + y * 320) by (case_decide; lia). by rewrite fn_lookup_insert.
    + rewrite fn_lookup_insert_ne; [done|]. intros E. apply Hh. case_decide; lia.
Qed.

(** Under a clip one pixel smaller than the screen [putpixelAlpha] is safe. *)
Definition inner_clip (c : Rectangle) : Prop :=
  0 ≤ rx c ∧ rx c + rwidth c < LGUI_WIDTH ∧ 0 ≤ ry c ∧ ry c + rheight c < LGUI_HEIGHT.
Lemma putpixelAlpha_safe s c x y pixel a :
  CLIP s = Ok (c, s) → inner_clip c →
  ∃ s', putpixelAlpha x y pixel a s = Ok ((), s') ∧ CLIP s' = Ok (c, s').
Proof.
  intros HC (? & ? & ? & ?).
  set (X := x + translate_x s + putpixelX s). set (Y := y + translate_y s + putpixelY s).
  destruct (decide (rx c ≤ X ≤ rx c + rwidth c ∧ ry c ≤ Y ≤ ry c + rheight c)) as [[HX HY]|Hout].
  - rewrite (putpixelAlpha_run s c) by (done || (fold X Y; lia)). fold X Y.
    erewrite put_pixel_ok by (done || (unfold LGUI_SIZE, LGUI_WIDTH, LGUI_HEIGHT in *; lia)).
    eexists; split; [done|]. revert HC. unfold CLIP. cbn. intros HC.
    destruct (0 <=? clip_index s); [|done]. by destruct (clip_stack s !! _) as [r|]; simplify_eq.
  - exists s. split; [|done]. unfold putpixelAlpha. erewrite bind_Ok by reflexivity. cbv beta iota.
    erewrite bind_Ok by reflexivity. cbv beta iota zeta. run_with HC. fold X Y.
    destruct (Z.ltb_spec X (rx c)); [done|]. destruct (Z.ltb_spec (rx c + rwidth c) X); [done|].
    destruct (Z.ltb_spec Y (ry c)); [done|]. destruct (Z.ltb_spec (ry c + rheight c) Y); [done|]. lia.
Qed.

Definition clip_keeps (c : Rectangle) (m : GM ()) : Prop :=
  ∀ s, CLIP s = Ok (c, s) → ∃ s', m s = Ok ((), s') ∧ CLIP s' = Ok (c, s').
Lemma clip_keeps_bind c m1 m2 : clip_keeps c m1 → clip_keeps c m2 → clip_keeps c (m1;; m2).
Proof.
  intros H1 H2 s Hs. destruct (H1 s Hs) as (s1 & E1 & Hs1). run_with E1. by apply H2.
Qed.
Lemma clip_keeps_when c b m : clip_keeps c m → clip_keeps c (when b m).
Proof. intros H s Hs. destruct b; [by apply H|by exists s]. Qed.

Lemma D_table_ok i : 0 ≤ i < 100 → ∃ v, read_byte D_table i = Some v ∧ 0 ≤ v < 256.
Proof.
  intros Hi. unfold read_byte. destruct (Z.ltb_spec i 0); [lia|].
  unfold D_table. rewrite list_lookup_fmap, lookup_seqZ_lt by lia. simpl.
  eexists; split; [done|]. unfold D_entry.
  pose proof (Z.mod_pos_bound (Z.sqrt (255 * 255 * (0 + Z.of_nat (Z.to_nat i)))) 255 ltac:(lia)).
  repeat case_match; lia.
Qed.

Ltac keeps := repeat first [apply clip_keeps_when | apply clip_keeps_bind |
  (let s := fresh in let H := fresh in intros s H; by apply putpixelAlpha_safe)].

Lemma drawArch_loop_safe c fuel R pixel arcs x y d s :
  inner_clip c → CLIP s = Ok (c, s) → R ≤ 9 → 0 ≤ y → x ≤ R →
  Z.max 0 (x - y) < Z.of_nat fuel →
  ∃ s', drawArch_loop fuel R pixel arcs x y d s = Ok ((), s') ∧ CLIP s' = Ok (c, s').
Proof.
  intros Hc. revert x y d s. induction fuel as [|fuel IH]; intros x y d s Hs HR Hy Hx Hf; [lia|].
  simpl. destruct (Z.ltb_spec y x); [|by exists s].
  destruct (D_table_ok (R * R - y * y)) as (dnew & Hd & _); [nia|].
  rewrite Hd. erewrite bind_Ok by reflexivity.
  set (x1 := if dnew <? d then x - 1 else x). assert (x1 ≤ x) by (unfold x1; case_match; lia).
  assert (∀ m, clip_keeps c m → ∀ k, (∀ s1, CLIP s1 = Ok (c, s1) →
    ∃ s', k () s1 = Ok ((), s') ∧ CLIP s' = Ok (c, s')) → ∀ s1, CLIP s1 = Ok (c, s1) →
    ∃ s', (m ≫= k) s1 = Ok ((), s') ∧ CLIP s' = Ok (c, s')) as Hstep.
  { intros m Hm k Hk s1 Hs1. destruct (Hm s1 Hs1) as (s2 & E & Hs2). run_with E. by apply Hk. }
  do 4 (apply Hstep; [keeps|clear s Hs; intros s Hs|done]).
  apply IH; try done; lia.
Qed.

(** the table [D] has 100 entries, so the arcs of radius 10 and more read
    behind it in their very first round, whatever corners are asked for; smaller
    arcs always terminate and, when the clip leaves out the last line and column
    of the screen, touch nothing outside the framebuffer. *)
Theorem lgui_aacircle_radius s c x y rad arcs red green blue :
  (10 ≤ rad → lgui_aacircle x y rad arcs red green blue s = Fault) ∧
  (rad ≤ 9 → CLIP s = Ok (c, s) → inner_clip c →
   ∃ s', lgui_aacircle x y rad arcs red green blue s = Ok ((), s') ∧ CLIP s' = Ok (c, s')).
Proof.
  unfold lgui_aacircle. erewrite bind_Ok by reflexivity. unfold drawArch. split.
  - intros Hr. simpl. destruct (Z.ltb_spec 0 rad); [|lia].
    assert (read_byte D_table (rad * rad - 0 * 0) = None) as Hn.
    { unfold read_byte. case_match; [done|]. apply lookup_ge_None.
      unfold D_table. rewrite length_map, length_seqZ. nia. }
    rewrite Hn. by erewrite bind_Fault by reflexivity.
  - intros Hr HC Hc. apply (drawArch_loop_safe c); try done; try lia.
    revert HC. unfold CLIP. cbn. destruct (0 <=? clip_index s); [|done].
    by destruct (clip_stack s !! _); intros; simplify_eq.
Qed.

(** [lgui_push_region] does not check its index: it records the clip in the
    next of the 30 slots, and the 31st call since [lgui_blit_done] writes behind
    the array. *)
Theorem lgui_push_region_bounds s c :
  gui_ok s → CLIP s = Ok (c, s) →
  if decide (region_index s < REDRAW_REGION_COUNT)
  then ∃ s', lgui_push_region s = Ok ((), s') ∧ gui_ok s' ∧
         lgui_index_count s' = Ok (region_index s + 1, s') ∧
         lgui_get_region (region_index s) s' = Ok (c, s') ∧
         (∀ i r, 0 ≤ i < region_index s → lgui_get_region i s = Ok (r, s) →
                 lgui_get_region i s' = Ok (r, s'))
  else lgui_push_region s = Fault.
Proof.
  intros [H1 H2 H3 H4] HC. unfold lgui_push_region, REDRAW_REGION_COUNT in *.
  case_decide; run_with HC; erewrite bind_Ok by reflexivity.
  - rewrite bool_decide_true by lia. unfold modify. eexists; split; [done|].
    split; [split; cbn; rewrite ?length_insert; unfold REDRAW_REGION_COUNT; (done || lia)|].
    split; [done|]. unfold lgui_get_region. cbn [region_blit set_regions]. split.
    + destruct (Z.leb_spec 0 (region_index s)); [|lia]. by rewrite list_lookup_insert_eq by lia.
    + intros i r Hi. destruct (Z.leb_spec 0 i); [|lia]. rewrite list_lookup_insert_ne by lia.
      destruct (region_blit s !! Z.to_nat i); [|done]. by intros [= ->].
  - by rewrite bool_decide_false by lia.
Qed.

(** ** Instances of the properties *)
Definition screen : Rectangle := mkRect 0 0 LGUI_WIDTH LGUI_HEIGHT.
Definition gui_with (i : Z) (c : Rectangle) : gui :=
  mkGui (λ _, 0x1234) (replicate 5 c) i 0 0 (replicate 30 rectangle_zero) 0 false 0 0.
Lemma gui_with_ok i c : 0 ≤ i < 5 → gui_ok (gui_with i c).
Proof. intros. split; try done; cbn; unfold REDRAW_REGION_COUNT; lia. Qed.

Lemma lgui_vline_paints_witness :
  ∃ s', lgui_vline 5 6 3 2 255 255 255 255 (gui_with 0 screen) = Ok ((), s') ∧
    pixel_at s' 5 6 = 0xFFFF ∧ pixel_at s' 7 6 = 0x1234.
Proof.
  destruct (lgui_vline_paints (gui_with 0 screen) screen 5 6 3 2 255 255 255 255 eq_refl)
    as (s' & E & _ & _ & H); [split; reflexivity || (cbn; unfold LGUI_WIDTH; lia)|].
  exists s'. split; [exact E|].
  rewrite !H by (unfold LGUI_WIDTH, LGUI_HEIGHT; lia). split; reflexivity.
Defined.
Definition grey (v : Z) : Color := mkColor v v v 255.
Lemma lgui_vertical_gradient_paints_witness :
  ∃ s', lgui_vertical_gradient (grey 255) (grey 255) 0 0 4 8 (gui_with 0 screen) = Ok ((), s') ∧
    pixel_at s' 0 0 = 0x20 ∧ pixel_at s' 0 1 = 0xFFFF.
Proof.
  destruct (lgui_vertical_gradient_paints (gui_with 0 screen) screen (grey 255) (grey 255) 0 0 4 8
    eq_refl) as (s' & E & _ & H); [split; reflexivity || (cbn; unfold LGUI_WIDTH; lia)|].
  exists s'. split; [exact E|].
  rewrite !H by (unfold LGUI_WIDTH, LGUI_HEIGHT; lia). split; reflexivity.
Defined.
Lemma lgui_blitRGB565_paints_witness :
  ∃ s', lgui_blitRGB565 10 10 0 0 2 1 2 [0x34; 0x12; 0; 0] true 255 (gui_with 0 screen) = Ok ((), s') ∧
    pixel_at s' 10 10 = 0x1234.
Proof.
  destruct (lgui_blitRGB565_paints (gui_with 0 screen) screen 10 10 2 1 [0x34; 0x12; 0; 0] true 255
    eq_refl) as (s' & E & _ & H);
    [split; reflexivity || (cbn; unfold LGUI_WIDTH; lia)|reflexivity|].
  exists s'. split; [exact E|].
  rewrite !H by (unfold LGUI_WIDTH, LGUI_HEIGHT; lia). reflexivity.
Defined.
(** A clip that ends after column 12: the glyph's pixel on column 13 is painted. *)
Lemma lgui_A4_blit_rounds_witness :
  ∃ s', lgui_luminence_A4_blitC 10 0 0 0 4 1 4 1 [0xFF; 0xFF] (grey 255) LGUI_MODE_ALPHA false
          (gui_with 0 (mkRect 0 0 13 10)) = Ok ((), s') ∧
    ¬ in_rect (mkRect 0 0 13 10) 13 0 ∧ pixel_at s' 13 0 ≠ 0x1234.
Proof.
  destruct (lgui_A4_blit_rounds (gui_with 0 (mkRect 0 0 13 10)) (mkRect 0 0 13 10) 10 0 4 1
    [0xFF; 0xFF] (grey 255) 0 0 3 1 eq_refl eq_refl) as (s' & E & H);
    try (vm_compute; discriminate || reflexivity).
  exists s'. split; [exact E|]. split; [unfold in_rect; cbn; lia|].
  rewrite !H by (unfold LGUI_WIDTH, LGUI_HEIGHT; lia). vm_compute. discriminate.
Defined.
Lemma clip_push_pop_witness :
  ∃ s', (lgui_clip_push;; lgui_clip_set rectangle_zero;; lgui_clip_pop) (gui_with 4 screen) =
    Ok ((), s') ∧ clip_index s' = 3.
Proof.
  destruct (clip_push_pop (gui_with 4 screen) screen rectangle_zero (gui_with_ok 4 screen ltac:(lia))
    eq_refl) as (s' & E & _ & H).
  exists s'. split; [exact E|]. exact (proj1 H).
Defined.
Lemma putpixelAlpha_off_by_one_witness :
  putpixelAlpha 17 240 0xFFFF 128 (gui_with 0 screen) = Fault.
Proof.
  exact (putpixelAlpha_off_by_one (gui_with 0 screen) 17 240 0xFFFF 128 eq_refl eq_refl eq_refl eq_refl
    eq_refl ltac:(unfold LGUI_WIDTH; lia) ltac:(unfold LGUI_HEIGHT; lia)).
Defined.
Lemma lgui_push_region_bounds_witness :
  ∃ s', lgui_push_region (gui_with 0 screen) = Ok ((), s') ∧
    lgui_get_region 0 s' = Ok (screen, s').
Proof.
  destruct (lgui_push_region_bounds (gui_with 0 screen) screen (gui_with_ok 0 screen ltac:(lia))
    eq_refl) as (s' & E & _ & _ & H & _).
  exists s'. exact (conj E H).
Defined.
Lemma lgui_aacircle_radius_witness :
  lgui_aacircle 50 50 10 15 0 0 0 (gui_with 0 screen) = Fault ∧
  ∃ s', lgui_aacircle 50 50 9 15 0 0 0 (gui_with 0 (mkRect 0 0 100 100)) = Ok ((), s').
Proof.
  split.
  - apply (lgui_aacircle_radius (gui_with 0 screen) screen 50 50 10 15 0 0 0). lia.
  - destruct (proj2 (lgui_aacircle_radius (gui_with 0 (mkRect 0 0 100 100)) (mkRect 0 0 100 100)
      50 50 9 15 0 0 0) ltac:(lia) eq_refl) as (s' & E & _);
      [unfold inner_clip, LGUI_WIDTH, LGUI_HEIGHT; cbn; lia|].
    exists s'. exact E.
Defined.
Lemma clip_and_union_exact_witness :
  (∀ px py, in_rect (mkRect 0 0 2 2) px py ∨ in_rect (mkRect 5 5 1 1) px py →
     in_rect (mkRect 0 0 6 6) px py) ∧
  in_rect (mkRect 0 0 6 6) 3 3.
Proof.
  assert (∀ px py, in_rect (mkRect 0 0 2 2) px py ∨ in_rect (mkRect 5 5 1 1) px py →
     in_rect (mkRect 0 0 6 6) px py) as H by (unfold in_rect; cbn; lia).
  split; [exact H|].
  destruct (clip_and_union_exact (mkRect 0 0 2 2) (mkRect 5 5 1 1) 3 3) as (_ & _ & _ & Hmin).
  apply Hmin; try (cbn; lia); [exact H|].
  apply (bool_decide_unpack _). vm_compute. exact I.
Defined.
