(* ===== verification/BitmapCache.v ===== *)
(** * BitmapCache.c: rendered glyphs packed two pixels to a byte

    The cache keeps the glyphs of a font in one growing buffer, four bits per
    pixel, and finds them through an int map.  The map is any [MapStore]; Map.c is
    one ([Maps.map_store]). *)
From S2P Require Import Prelude Lists Maps Arrays Pixels Lgui.

Definition BITMAPCACHE_STEP : Z := 8192.

Record Bitmap := mkBitmap {
  bm_data : Z;            (* offset in the buffer of the cache *)
  bm_width : Z;
  bm_height : Z;
  bm_xadvance : Z;
  bm_yadvance : Z;
  bm_baselinedy : Z;
  bm_isBold : bool }.

Section BitmapCache.
Context {St : Type} `{MapStore St Bitmap}.

Record BitmapCache := mkCache {
  bc_data : list byte_;
  bc_dataPos : Z;
  bc_dataSize : Z;
  bc_cache : loc;
  bc_store : St }.
Abbreviation CM := (M BitmapCache).

Definition on_store {B} (m : M St B) : CM B := λ c,
  match m (bc_store c) with
  | Ok (b, st) => Ok (b, mkCache (bc_data c) (bc_dataPos c) (bc_dataSize c) (bc_cache c) st)
  | Abort => Abort | Fault => Fault | NoFuel => NoFuel
  end.
Definition set_data (d : list byte_) (c : BitmapCache) : BitmapCache :=
  mkCache d (bc_dataPos c) (bc_dataSize c) (bc_cache c) (bc_store c).

(** [(void * )(value | (isBold ? 0x80000000 : 0))], read back as an [int]. *)
Definition glyph_key (value : Z) (isBold : bool) : MapKey :=
  KNumber (int32 (Z.lor value (if isBold then 0x80000000 else 0))).

(** The bytes a row of [width] grey pixels is packed to. *)
Definition packed_width (width : Z) : Z := Z.shiftr (width + 1) 1.

(** One byte of the packed image: the high nibbles of pixels [j] and [j + 1]. *)
Definition pack_pair (data : list Z) (src width j : Z) : option Z :=
  hi ← data !! Z.to_nat (src + j);
  if bool_decide (Z.rem width 2 = 1) && bool_decide (j = width - 1)
  then Some (Z.land hi 0xF0)
  else
    lo ← data !! Z.to_nat (src + j + 1);
    Some (Z.lor (Z.land hi 0xF0) (Z.land (Z.shiftr lo 4) 0x0F)).

(** [*dest = val; ++dest]. *)
Definition store_byte (dest : Z) (v : option Z) : CM () := λ c,
  match v with
  | None => Fault
  | Some v =>
      if bool_decide (0 ≤ dest < Z.of_nat (length (bc_data c)))
      then Ok ((), set_data (<[Z.to_nat dest := Some v]> (bc_data c)) c) else Fault
  end.
Definition pack_rows (data : list Z) (dest width height pitch : Z) : CM () :=
  mfor (λ i, mfor (λ k, store_byte (dest + i * packed_width width + k)
                          (pack_pair data (i * pitch) width (2 * k)))
               (seqZ 0 (packed_width width)))
    (seqZ 0 height).

(** The result is the offset of the packed bitmap in the buffer. *)
Definition bitmapcache_add (value : Z) (isBold : bool) (data : list Z)
    (width height xadvance yadvance pitch baselinedy : Z) : CM Z :=
  let dataSize := packed_width width * height in
  c ← get;
  (if bool_decide (bc_dataSize c < bc_dataPos c + dataSize) then
     put (mkCache (bc_data c ++ replicate (Z.to_nat BITMAPCACHE_STEP) None) (bc_dataPos c)
                  (bc_dataSize c + BITMAPCACHE_STEP) (bc_cache c) (bc_store c))
   else mret ());;
  let b := mkBitmap (bc_dataPos c) width height xadvance yadvance baselinedy isBold in
  pack_rows data (bm_data b) width height pitch;;
  modify (λ c, mkCache (bc_data c) (bc_dataPos c + dataSize) (bc_dataSize c) (bc_cache c) (bc_store c));;
  on_store (st_append (bc_cache c) (glyph_key value isBold) (Some b));;
  mret (bm_data b).

Definition bitmapcache_get (value : Z) (isBold : bool) : CM (option Bitmap) :=
  c ← get;
  on_store (st_find (bc_cache c) (glyph_key value isBold)).

(** The packed bytes of a cached glyph, as its readers see them. *)
Definition bitmap_bytes (c : BitmapCache) (b : Bitmap) : list byte_ :=
  take (Z.to_nat (packed_width (bm_width b) * bm_height b)) (drop (Z.to_nat (bm_data b)) (bc_data c)).

(** ** The packing loops *)
Lemma store_byte_ok dest v c :
  0 ≤ dest < Z.of_nat (length (bc_data c)) →
  store_byte dest (Some v) c = Ok ((), set_data (<[Z.to_nat dest := Some v]> (bc_data c)) c).
Proof. intros Hd. unfold store_byte. by rewrite bool_decide_true by done. Qed.

Lemma store_loop_ok dest lo hi (f : Z → option Z) c :
  (∀ k, lo ≤ k < hi → is_Some (f k)) →
  (∀ k, lo ≤ k < hi → 0 ≤ dest + k < Z.of_nat (length (bc_data c))) →
  ∃ d, mfor (λ k, store_byte (dest + k) (f k)) (seqZ lo (hi - lo)) c = Ok ((), set_data d c) ∧
    length d = length (bc_data c) ∧
    ∀ a, 0 ≤ a → d !! Z.to_nat a =
      if decide (lo ≤ a - dest < hi) then Some (f (a - dest)) else bc_data c !! Z.to_nat a.
Proof.
  remember (Z.to_nat (hi - lo)) as n eqn:Hn. revert lo c Hn.
  induction n as [|n IH]; intros lo c Hn Hf Hin.
  - rewrite seqZ_nil by lia. exists (bc_data c). split; [by destruct c|]. split; [done|].
    intros a _. by rewrite decide_False by lia.
  - rewrite seqZ_cons by lia. cbn [mfor]. destruct (Hf lo) as [v Hv]; [lia|].
    rewrite Hv. erewrite bind_Ok by (apply store_byte_ok, Hin; lia).
    replace (Z.pred (hi - lo)) with (hi - Z.succ lo) by lia.
    destruct (IH (Z.succ lo) (set_data (<[Z.to_nat (dest + lo) := Some v]> (bc_data c)) c))
      as (d & E & Hl & Hd).
    { lia. }
    { intros. apply Hf. lia. }
    { intros. cbn [bc_data set_data]. rewrite length_insert. apply Hin. lia. }
    cbn [bc_data set_data] in *. rewrite length_insert in Hl.
    exists d. split; [exact E|]. split; [done|]. intros a Ha. rewrite Hd by done.
    specialize (Hin lo ltac:(lia)). destruct (decide (a = dest + lo)) as [->|Hne].
    + rewrite decide_False by lia. rewrite decide_True by lia.
      rewrite list_lookup_insert_eq by lia. by replace (dest + lo - dest) with lo by lia; rewrite Hv.
    + rewrite list_lookup_insert_ne by lia. apply decide_ext. lia.
Qed.

(** The packed byte at position [k] of row [i]. *)
Definition packed (data : list Z) (width pitch i k : Z) : option Z :=
  pack_pair data (i * pitch) width (2 * k).

Lemma pack_rows_ok data dest width height pitch c :
  0 ≤ width →
  (∀ i k, 0 ≤ i < height → 0 ≤ k < packed_width width → is_Some (packed data width pitch i k)) →
  0 ≤ dest → dest + packed_width width * height ≤ Z.of_nat (length (bc_data c)) →
  ∃ d, pack_rows data dest width height pitch c = Ok ((), set_data d c) ∧
    length d = length (bc_data c) ∧
    (∀ i k, 0 ≤ i < height → 0 ≤ k < packed_width width →
       d !! Z.to_nat (dest + i * packed_width width + k) = Some (packed data width pitch i k)) ∧
    (∀ a, 0 ≤ a < dest → d !! Z.to_nat a = bc_data c !! Z.to_nat a).
Proof.
  intros Hw Hp Hdest Hfit. set (pw := packed_width width) in *.
  assert (0 ≤ pw) as Hpw by (unfold pw, packed_width; rewrite Z.shiftr_div_pow2 by done;
    apply Z.div_pos; lia).
  assert (∀ lo c, 0 ≤ lo → length (bc_data c) = length (bc_data c) →
    dest + pw * height ≤ Z.of_nat (length (bc_data c)) →
    ∃ d, mfor (λ i, mfor (λ k, store_byte (dest + i * pw + k) (packed data width pitch i k))
                      (seqZ 0 pw)) (seqZ lo (height - lo)) c = Ok ((), set_data d c) ∧
    length d = length (bc_data c) ∧
    (∀ i k, lo ≤ i < height → 0 ≤ k < pw →
       d !! Z.to_nat (dest + i * pw + k) = Some (packed data width pitch i k)) ∧
    (∀ a, 0 ≤ a < dest + lo * pw → d !! Z.to_nat a = bc_data c !! Z.to_nat a)) as Hgen.
  { clear Hfit c. intros lo. remember (Z.to_nat (height - lo)) as n eqn:Hn. revert lo Hn.
    induction n as [|n IH]; intros lo Hn c Hlo _ Hfit.
    - rewrite (seqZ_nil lo) by lia. exists (bc_data c). split; [by destruct c|]. split; [done|].
      split; [lia|done].
    - rewrite (seqZ_cons lo) by lia. cbn [mfor].
      destruct (store_loop_ok (dest + lo * pw) 0 pw (packed data width pitch lo) c)
        as (d1 & E1 & L1 & H1).
      { intros. apply Hp; lia. }
      { intros k Hk. assert (lo * pw + pw ≤ pw * height) by nia. nia. }
      rewrite Z.sub_0_r in E1. erewrite bind_Ok by exact E1.
      replace (Z.pred (height - lo)) with (height - Z.succ lo) by lia.
      destruct (IH (Z.succ lo) ltac:(lia) (set_data d1 c)) as (d & E & L & H2 & H3);
        cbn [bc_data set_data] in *; [lia|done|lia|].
      exists d. split; [exact E|]. split; [congruence|]. split.
      + intros i k Hi Hk. destruct (decide (i = lo)) as [->|Hne].
        * assert (0 ≤ lo * pw) by nia. rewrite H3 by lia. rewrite H1 by lia.
          rewrite decide_True by lia. do 2 f_equal. lia.
        * apply H2; lia.
      + intros a Ha. rewrite H3 by lia. rewrite H1 by lia. by rewrite decide_False by lia. }
  destruct (Hgen 0 c ltac:(lia) eq_refl Hfit) as (d & E & L & H1 & H2).
  exists d. rewrite Z.sub_0_r in E. split; [exact E|]. split; [done|]. split; [done|].
  intros a Ha. apply H2. lia.
Qed.

(** ** Nibbles *)
Lemma high_nibble x : 0 ≤ x < 256 → Z.land x 0xF0 = x / 16 * 16.
Proof.
  intros Hx. replace x with (x mod 16 + x / 16 * 2 ^ 4) at 1 by (Z.div_mod_to_equations; lia).
  change 0xF0 with (0 + (2 ^ 4 - 1) * 2 ^ 4).
  rewrite land_split, land_ones_small, Z.land_0_r by (Z.div_mod_to_equations; lia). lia.
Qed.
Lemma pack_two hi lo :
  0 ≤ hi < 256 → 0 ≤ lo < 256 →
  Z.lor (Z.land hi 0xF0) (Z.land (Z.shiftr lo 4) 0x0F) = hi / 16 * 16 + lo / 16.
Proof.
  intros Hh Hl. rewrite high_nibble, Z.shiftr_div_pow2 by done. change (2 ^ 4) with 16.
  change 0x0F with (2 ^ 4 - 1). rewrite land_ones_small by (Z.div_mod_to_equations; lia).
  replace (hi / 16 * 16) with (0 + hi / 16 * 2 ^ 4) by lia.
  replace (lo / 16) with (lo / 16 + 0 * 2 ^ 4) at 1 by lia.
  rewrite lor_split, Z.lor_0_l, Z.lor_0_r by (Z.div_mod_to_equations; lia). lia.
Qed.
Lemma low_nibble x : 0 ≤ x < 256 → Z.land (Z.shiftl x 4) 0xF0 = x mod 16 * 16.
Proof.
  intros Hx. rewrite Z.shiftl_mul_pow2 by done.
  replace (x * 2 ^ 4) with (0 + (x mod 16 + x / 16 * 2 ^ 4) * 2 ^ 4) by (Z.div_mod_to_equations; lia).
  change 0xF0 with (0 + (2 ^ 4 - 1 + 0 * 2 ^ 4) * 2 ^ 4).
  rewrite !land_split by (Z.div_mod_to_equations; lia).
  rewrite land_ones_small, Z.land_0_l, Z.land_0_r by (Z.div_mod_to_equations; lia). lia.
Qed.

Lemma nib_div a b : 0 ≤ b < 16 → (a * 16 + b) / 16 = a.
Proof. intros. rewrite Z.div_add_l, Z.div_small by lia. lia. Qed.
Lemma nib_mod a b : 0 ≤ b < 16 → (a * 16 + b) mod 16 = b.
Proof. intros. rewrite Z.add_comm, Z.mod_add, Z.mod_small by lia. done. Qed.

(** A grey image of bytes that holds [height] rows of [width] pixels. *)
Definition grey_image (data : list Z) (width height pitch : Z) : Prop :=
  Forall (λ b, 0 ≤ b < 256) data ∧
  ∀ i j, 0 ≤ i < height → 0 ≤ j < width → 0 ≤ i * pitch + j < Z.of_nat (length data).
Definition grey_at (data : list Z) (off : Z) : Z := default 0 (data !! Z.to_nat off).

Lemma grey_read data width height pitch i j :
  grey_image data width height pitch → 0 ≤ i < height → 0 ≤ j < width →
  data !! Z.to_nat (i * pitch + j) = Some (grey_at data (i * pitch + j)) ∧
  0 ≤ grey_at data (i * pitch + j) < 256.
Proof.
  intros [Hb Hin] Hi Hj. specialize (Hin i j Hi Hj). unfold grey_at.
  destruct (lookup_lt_is_Some_2 data (Z.to_nat (i * pitch + j))) as [v Hv]; [lia|].
  rewrite Hv. split; [done|]. by eapply (Forall_lookup_1 _ _ _ _ Hb).
Qed.

Lemma packed_width_half w : packed_width w = (w + 1) / 2.
Proof. unfold packed_width. by rewrite Z.shiftr_div_pow2 by done. Qed.

(** Unpacking a byte gives back the high nibbles of its pixels. *)
Lemma packed_nibble data width height pitch i j :
  grey_image data width height pitch → 0 ≤ i < height → 0 ≤ j < width →
  ∃ v, packed data width pitch i (j / 2) = Some v ∧
    (if Z.even j then Z.land v 0xF0 else Z.land (Z.shiftl v 4) 0xF0) =
      Z.land (grey_at data (i * pitch + j)) 0xF0.
Proof.
  intros Himg Hi Hj. unfold packed, pack_pair.
  assert (Z.even j = true ∧ j = 2 * (j / 2) ∨ Z.even j = false ∧ j = 2 * (j / 2) + 1) as Hpar.
  { destruct (Z.Even_or_Odd j) as [[k Hk]|[k Hk]]; [left|right]; (split; [|Z.div_mod_to_equations; lia]).
    - by rewrite Hk, Z.even_mul.
    - by rewrite Hk, Z.add_comm, Z.even_add_mul_2. }
  assert (0 ≤ 2 * (j / 2) < width) as Hlo by lia.
  destruct (grey_read _ _ _ _ i (2 * (j / 2)) Himg Hi Hlo) as [-> Hr1]. simpl.
  rewrite <-(Z.add_assoc (i * pitch)).
  assert (Z.rem width 2 = width mod 2) as Erem by (apply Z.rem_mod_nonneg; lia).
  rewrite Erem. clear Erem.
  assert (width mod 2 = 1 → 2 * (j / 2) = width - 1 → Z.even j = true) as Hodd.
  { intros _ ?. destruct Hpar as [[? _]|[_ ?]]; [done|lia]. }
  case_bool_decide as H1; [case_bool_decide as H2|]; simpl.
  { specialize (Hodd H1 H2). rewrite Hodd in *. destruct Hpar as [[_ Hj2]|[? _]]; [|done].
    eexists; split; [done|]. rewrite <-Hj2 in *. rewrite !high_nibble; try done.
    - rewrite Z.div_mul by lia. done.
    - rewrite high_nibble by done. Z.div_mod_to_equations. lia. }
  all: assert (2 * (j / 2) + 1 < width) as Hlt by
    (clear Hodd; Z.div_mod_to_equations; lia).
  all: destruct (grey_read _ _ _ _ i (2 * (j / 2) + 1) Himg Hi ltac:(lia)) as [-> Hr2]; simpl.
  all: rewrite pack_two by done; eexists; split; [done|].
  all: revert Hr1 Hr2; set (x := grey_at data (i * pitch + 2 * (j / 2)));
    set (y := grey_at data (i * pitch + (2 * (j / 2) + 1))); intros Hr1 Hr2.
  all: destruct Hpar as [[-> Hj2]|[-> Hj2]];
    [replace (i * pitch + j) with (i * pitch + 2 * (j / 2)) by lia; fold x
    |replace (i * pitch + j) with (i * pitch + (2 * (j / 2) + 1)) by lia; fold y].
  all: clearbody x y; clear -Hr1 Hr2.
  all: assert (0 ≤ x / 16 < 16 ∧ 0 ≤ y / 16 < 16) as [Hx Hy] by (Z.div_mod_to_equations; lia).
  all: rewrite ?(high_nibble (_ + _)), ?(low_nibble (_ + _)), ?nib_div, ?nib_mod by lia.
  all: by rewrite high_nibble by done.
Qed.

(** ** Properties *)
Record cache_ok (c : BitmapCache) (kvs : list (MapKey * option Bitmap)) : Prop := {
  co_map : st_abs (bc_store c) (bc_cache c) NUMBER kvs;
  co_size : Z.of_nat (length (bc_data c)) = bc_dataSize c;
  co_pos : 0 ≤ bc_dataPos c ≤ bc_dataSize c }.
(** The packed image of a cached glyph, read as the bytes of an A4 image. *)
Definition image_of (c : BitmapCache) (b : Bitmap) : list Z := default 0 <$> bitmap_bytes c b.
Definition stored (c : BitmapCache) (b : Bitmap) : Prop :=
  0 ≤ bm_data b ∧ bm_data b + packed_width (bm_width b) * bm_height b ≤ bc_dataPos c.

(** The cache once its buffer has been grown, if need be. *)
Definition grown (c : BitmapCache) (n : Z) : BitmapCache :=
  if bool_decide (bc_dataSize c < bc_dataPos c + n) then
    mkCache (bc_data c ++ replicate (Z.to_nat BITMAPCACHE_STEP) None) (bc_dataPos c)
            (bc_dataSize c + BITMAPCACHE_STEP) (bc_cache c) (bc_store c)
  else c.
Lemma grown_ok c n kvs :
  cache_ok c kvs → n ≤ BITMAPCACHE_STEP →
  cache_ok (grown c n) kvs ∧ bc_dataPos c + n ≤ bc_dataSize (grown c n) ∧
  bc_dataPos (grown c n) = bc_dataPos c ∧ bc_cache (grown c n) = bc_cache c ∧
  ∀ a, 0 ≤ a < bc_dataPos c → bc_data (grown c n) !! Z.to_nat a = bc_data c !! Z.to_nat a.
Proof.
  intros [H1 H2 H3] Hn. unfold grown, BITMAPCACHE_STEP in *. case_bool_decide.
  - split; [|split; [cbn; lia|split; [done|split; [done|]]]].
    + split; cbn [bc_store bc_cache bc_data bc_dataSize bc_dataPos]; [done| |lia].
      rewrite length_app, length_replicate. lia.
    + intros a Ha. cbn [bc_data]. apply lookup_app_l. lia.
  - split_and!; done || lia.
Qed.

Lemma bitmapcache_add_unfold value isBold data width height xa ya pitch bl c :
  bitmapcache_add value isBold data width height xa ya pitch bl c =
  (let n := packed_width width * height in
   let b := mkBitmap (bc_dataPos c) width height xa ya bl isBold in
   (pack_rows data (bc_dataPos c) width height pitch;;
    modify (λ c, mkCache (bc_data c) (bc_dataPos c + n) (bc_dataSize c) (bc_cache c) (bc_store c));;
    on_store (st_append (bc_cache c) (glyph_key value isBold) (Some b));;
    mret (bc_dataPos c)) (grown c n)).
Proof.
  unfold bitmapcache_add. erewrite bind_Ok by reflexivity. cbv zeta. unfold grown.
  case_bool_decide; by erewrite bind_Ok by reflexivity.
Qed.

(** A glyph of at most 8192 packed bytes that is added to the cache is found
    again with its metrics, and its packed image gives back, pixel by pixel, the
    upper four bits of the grey image; the glyphs cached before keep their bytes,
    whether or not the buffer was reallocated. *)
Theorem bitmapcache_add_get c kvs value isBold data width height xa ya pitch bl :
  cache_ok c kvs → 0 ≤ width → 0 ≤ height → grey_image data width height pitch →
  packed_width width * height ≤ BITMAPCACHE_STEP → key_null (glyph_key value isBold) = false →
  let b := mkBitmap (bc_dataPos c) width height xa ya bl isBold in
  ∃ c', bitmapcache_add value isBold data width height xa ya pitch bl c = Ok (bm_data b, c') ∧
    cache_ok c' (al_append (glyph_key value isBold) (Some b) kvs) ∧
    bitmapcache_get value isBold c' = Ok (Some b, c') ∧
    (∀ i j, 0 ≤ i < height → 0 ≤ j < width →
       a4_nibble (image_of c' b) width i j = Z.land (grey_at data (i * pitch + j)) 0xF0) ∧
    (∀ b', stored c b' → stored c' b' ∧ bitmap_bytes c' b' = bitmap_bytes c b').
Proof.
  intros Hok Hw Hh Himg Hn Hkey b. rewrite bitmapcache_add_unfold. cbv zeta. fold b.
  set (n := packed_width width * height) in *.
  destruct (grown_ok c n kvs Hok Hn) as (Hok1 & Hfit & Hpos & Hcache & Hold).
  set (c1 := grown c n) in *. destruct Hok as [_ _ Hp]. destruct Hok1 as [M1 M2 M3].
  assert (0 ≤ packed_width width) as Hpw by (rewrite packed_width_half; apply Z.div_pos; lia).
  assert (∀ i k, 0 ≤ i < height → 0 ≤ k < packed_width width →
    is_Some (packed data width pitch i k)) as Hpk.
  { intros i k Hi Hk. rewrite packed_width_half in Hk.
    destruct (packed_nibble data width height pitch i (2 * k) Himg Hi) as (v & Hv & _);
      [Z.div_mod_to_equations; lia|].
    rewrite Z.mul_comm, Z.div_mul in Hv by lia. by exists v. }
  destruct (pack_rows_ok data (bc_dataPos c) width height pitch c1 Hw Hpk) as (d & E & L & H1 & H2);
    [lia|unfold n in Hfit; lia|].
  run_with E. erewrite bind_Ok by reflexivity.
  cbn [set_data bc_data bc_dataPos bc_dataSize bc_cache bc_store].
  destruct (st_append_ok _ _ _ _ (glyph_key value isBold) (Some b) M1 eq_refl Hkey) as (st & Est & Habs).
  set (c2 := mkCache d (bc_dataPos c1 + n) (bc_dataSize c1) (bc_cache c1) (bc_store c1)).
  erewrite (bind_Ok (on_store _)).
  2:{ unfold on_store. cbn [bc_store c2]. rewrite <-Hcache, Est. reflexivity. }
  eexists; split; [reflexivity|]. unfold c2. cbn [bc_data bc_dataPos bc_dataSize bc_cache bc_store].
  split_and!.
  - split; cbn [bc_data bc_dataPos bc_dataSize bc_cache bc_store]; [done|congruence|].
    unfold n in *. nia.
  - unfold bitmapcache_get. erewrite bind_Ok by reflexivity. unfold on_store.
    cbn [bc_cache bc_store]. rewrite (st_find_ok _ _ _ _ (glyph_key value isBold) Habs eq_refl Hkey), al_find_append.
    by rewrite decide_True by done.
  - intros i j Hi Hj. destruct (packed_nibble data width height pitch i j Himg Hi Hj) as (v & Hv & <-).
    unfold a4_nibble, image_of, bitmap_bytes. cbn [bm_data bm_width bm_height b bc_data].
    assert (0 ≤ j / 2 < packed_width width) as Hj2
      by (rewrite packed_width_half; Z.div_mod_to_equations; lia).
    replace (Z.shiftr (width + 1) 1) with (packed_width width) by done.
    set (off := i * packed_width width + j / 2).
    assert (0 ≤ off < n) as Hoff by (unfold off, n; nia).
    replace (read_byte _ off) with (Some v); [done|].
    unfold read_byte. destruct (Z.ltb_spec off 0); [lia|]. rewrite list_lookup_fmap.
    rewrite lookup_take_lt by (fold n; lia). rewrite lookup_drop.
    replace (Z.to_nat (bc_dataPos c) + Z.to_nat off)%nat with
      (Z.to_nat (bc_dataPos c + i * packed_width width + j / 2)) by (unfold off in *; lia).
    by rewrite H1, Hv by done.
  - intros b' [Hb1 Hb2]. split; [split; cbn; unfold n in *; nia|].
    unfold bitmap_bytes. cbn [bc_data]. apply list_eq. intros k.
    destruct (decide (k < Z.to_nat (packed_width (bm_width b') * bm_height b'))%nat).
    + rewrite !lookup_take_lt, !lookup_drop by done.
      replace (Z.to_nat (bm_data b') + k)%nat with (Z.to_nat (bm_data b' + Z.of_nat k)) by lia.
      rewrite H2, Hold; [done|lia|lia].
    + rewrite !lookup_take_ge by lia. done.
Qed.

(** the buffer grows by 8192 bytes once per glyph, however large the glyph:
    when that is not enough, packing writes behind the buffer. *)
Theorem bitmapcache_add_large_faults c kvs value isBold data width height xa ya pitch bl :
  cache_ok c kvs → 0 < width → 0 < height →
  bc_dataSize c + BITMAPCACHE_STEP < bc_dataPos c + packed_width width * height →
  ¬ ∃ r, bitmapcache_add value isBold data width height xa ya pitch bl c = Ok r.
Proof.
  intros [M1 M2 M3] Hw Hh Hbig [[off c'] Hrun]. rewrite bitmapcache_add_unfold in Hrun. cbv zeta in Hrun.
  set (n := packed_width width * height) in *. set (c1 := grown c n) in *.
  apply bind_Ok_inv in Hrun as ([] & c2 & E & _).
  assert (0 < packed_width width) as Hpw
    by (rewrite packed_width_half; Z.div_mod_to_equations; lia).
  set (P := λ x : BitmapCache, length (bc_data x) = length (bc_data c1)).
  assert (∀ dest v s s', P s → store_byte dest v s = Ok ((), s') →
    P s' ∧ dest < Z.of_nat (length (bc_data c1))) as Hstore.
  { intros dest v s s' HP. unfold store_byte. destruct v; [|done]. case_bool_decide as Hd; [|done].
    intros [= <-]. unfold P in *. cbn [set_data bc_data]. rewrite length_insert. lia. }
  assert (∀ i s s', P s → mfor (λ k, store_byte (bc_dataPos c + i * packed_width width + k)
      (pack_pair data (i * pitch) width (2 * k))) (seqZ 0 (packed_width width)) s = Ok ((), s') → P s')
    as Hrow.
  { intros i s s' HP Hm.
    eapply (mfor_Ok_elem _ P) in Hm as [? _]; [done| |done].
    intros k s1 s2 HP1 HE. by eapply Hstore. }
  unfold pack_rows in E. eapply (mfor_Ok_elem _ P) in E as [_ Hall]; [|exact Hrow|done].
  destruct (Hall (height - 1)) as (s1 & s2 & HP1 & E1); [apply elem_of_seqZ; lia|].
  eapply (mfor_Ok_elem _ P) in E1 as [_ Hall1]; [| |done].
  2:{ intros k s3 s4 HP3 HE. by eapply Hstore. }
  destruct (Hall1 (packed_width width - 1)) as (s3 & s4 & HP3 & E3); [apply elem_of_seqZ; lia|].
  apply Hstore in E3 as [_ Hlt]; [|done].
  assert (Z.of_nat (length (bc_data c1)) ≤ bc_dataSize c + BITMAPCACHE_STEP) as Hlen.
  { unfold c1, grown, BITMAPCACHE_STEP. case_bool_decide; cbn [bc_data]; [|lia].
    rewrite length_app, length_replicate. lia. }
  unfold n in Hbig. nia.
Qed.
End BitmapCache.

(** ** Instances: an empty cache over the maps of Map.c *)
Definition demo_cache : BitmapCache (St := mstate Bitmap) := mkCache [] 0 0 2 demo_maps.
Lemma demo_cache_ok : cache_ok demo_cache [].
Proof.
  split; [|done|cbn; lia]. cbn. exists demo_amaps, (mkAmap NUMBER 2 [] []).
  split_and!; [apply demo_maps_rep|reflexivity..].
Qed.
Definition demo_glyph : list Z := [0x10; 0x20; 0x30; 0x40; 0x50; 0x60].
Lemma demo_glyph_ok : grey_image demo_glyph 3 2 3.
Proof.
  split.
  - unfold demo_glyph. repeat constructor; lia.
  - cbn. lia.
Qed.
Lemma bitmapcache_add_get_witness :
  ∃ c', bitmapcache_add 65 true demo_glyph 3 2 4 0 3 5 demo_cache = Ok (0, c') ∧
    bitmapcache_get 65 true c' = Ok (Some (mkBitmap 0 3 2 4 0 5 true), c') ∧
    a4_nibble (image_of c' (mkBitmap 0 3 2 4 0 5 true)) 3 1 2 = 0x60.
Proof.
  destruct (bitmapcache_add_get demo_cache [] 65 true demo_glyph 3 2 4 0 3 5 demo_cache_ok
    ltac:(lia) ltac:(lia) demo_glyph_ok ltac:(vm_compute; discriminate) eq_refl)
    as (c' & E & _ & Hget & Hnib & _).
  exists c'. split; [exact E|]. split; [exact Hget|].
  exact (eq_trans (Hnib 1 2 ltac:(lia) ltac:(lia)) eq_refl).
Defined.
Lemma bitmapcache_add_large_faults_witness :
  ¬ ∃ r, bitmapcache_add 65 false demo_glyph 200 200 4 0 200 5 demo_cache = Ok r.
Proof.
  apply (bitmapcache_add_large_faults demo_cache []); [exact demo_cache_ok|lia|lia|reflexivity].
Defined.
