(* ===== verification/CStrings.v ===== *)
(** * C strings

    A C string is the list of its bytes without the terminator; positions are
    indices.  The terminator may be read, anything behind it may not. *)
From S2P Require Import Prelude.

Abbreviation cstring := (list Z).
Definition nul : Z := 0.
Definition cstring_ok (s : cstring) : Prop := Forall (λ c, 0 < c < 256) s.
(** [s[i]]. *)
Definition char_at (s : cstring) (i : nat) : option Z :=
  if decide (i < length s)%nat then s !! i
  else if decide (i = length s) then Some nul else None.
Fixpoint find_char (c : Z) (s : cstring) (i : nat) : option nat :=
  match s with
  | [] => None
  | a :: s => if decide (a = c) then Some i else find_char c s (S i)
  end.
(** [strchr (s + i, c)] for a [c] that is not the terminator. *)
Definition strchr (s : cstring) (i : nat) (c : Z) : M () (option nat) :=
  if decide (i ≤ length s)%nat then mret (find_char c (drop i s) i) else fault.
(** [p_malloc (p2 - p1 + 1)], [memcpy (dst, p1, p2 - p1)] and the terminator; a
    NULL [p2] makes the size meaningless. *)
Definition copy_part (s : cstring) (p1 : nat) (p2 : option nat) : M () cstring :=
  p2 ← deref p2;
  if decide (p1 ≤ p2 ≤ length s)%nat then mret (take (p2 - p1) (drop p1 s)) else fault.

(** ** Numbers *)
(** [strtoul (s, NULL, 16)] on the characters of [s]: white space, a sign, an
    optional "0x", then digits; too large values saturate. *)
Definition hex_digit (c : Z) : option Z :=
  if (48 <=? c) && (c <=? 57) then Some (c - 48)
  else if (65 <=? c) && (c <=? 70) then Some (c - 55)
  else if (97 <=? c) && (c <=? 102) then Some (c - 87) else None.
Fixpoint hex_digits (s : cstring) (acc : Z) : Z :=
  match s with
  | c :: s => match hex_digit c with Some d => hex_digits s (Z.min (acc * 16 + d) (2 ^ 32 - 1)) | None => acc end
  | [] => acc
  end.
Definition hex_number (s : cstring) : Z :=
  match s with
  | 48 :: x :: d :: s' =>
      if ((x =? 120) || (x =? 88)) && bool_decide (is_Some (hex_digit d))
      then hex_digits (d :: s') 0 else hex_digits s 0
  | _ => hex_digits s 0
  end.
Fixpoint strtoul16 (s : cstring) : Z :=
  match s with
  | c :: s' =>
      if (c =? 32) || ((9 <=? c) && (c <=? 13)) then strtoul16 s'
      else if c =? 43 then hex_number s'
      else if c =? 45 then uint32 (- hex_number s')
      else hex_number s
  | [] => 0
  end.

(** [atoi]: white space, a sign, decimal digits; [None] where the number does not
    fit an [int], which C leaves undefined. *)
Fixpoint dec_digits (s : cstring) (acc : Z) : Z :=
  match s with
  | c :: s => if (48 <=? c) && (c <=? 57) then dec_digits s (acc * 10 + (c - 48)) else acc
  | [] => acc
  end.
Definition int_or_none (z : Z) : option Z := if bool_decide (int32 z = z) then Some z else None.
Fixpoint atoi (s : cstring) : option Z :=
  match s with
  | c :: s' =>
      if (c =? 32) || ((9 <=? c) && (c <=? 13)) then atoi s'
      else if c =? 43 then int_or_none (dec_digits s' 0)
      else if c =? 45 then int_or_none (- dec_digits s' 0)
      else int_or_none (dec_digits s 0)
  | [] => Some 0
  end.

(** ** Searching *)
Lemma find_char_skip c s1 s2 i :
  c ∉ s1 → find_char c (s1 ++ s2) i = find_char c s2 (i + length s1)%nat.
Proof.
  revert i; induction s1 as [|a s1 IH]; intros i Hc; simpl.
  - f_equal. lia.
  - apply not_elem_of_cons in Hc as [? ?]. rewrite decide_False by congruence.
    rewrite IH by done. f_equal. lia.
Qed.
(** The search from the end of [s1]. *)
Lemma strchr_found s1 s2 c s3 :
  c ∉ s2 →
  strchr (s1 ++ s2 ++ c :: s3) (length s1) c () = Ok (Some (length s1 + length s2)%nat, ()).
Proof.
  intros Hc. unfold strchr. rewrite decide_True by (rewrite length_app; lia).
  rewrite drop_app_length, find_char_skip by done. simpl. by rewrite decide_True.
Qed.
Lemma strchr_none s1 s2 c :
  c ∉ s2 → strchr (s1 ++ s2) (length s1) c () = Ok (None, ()).
Proof.
  intros Hc. unfold strchr. rewrite decide_True by (rewrite length_app; lia).
  rewrite drop_app_length. rewrite <-(app_nil_r s2), find_char_skip by done. done.
Qed.
Lemma copy_part_mid s1 s2 s3 :
  copy_part (s1 ++ s2 ++ s3) (length s1) (Some (length s1 + length s2)%nat) () = Ok (s2, ()).
Proof.
  unfold copy_part. erewrite bind_Ok by reflexivity.
  rewrite decide_True by (rewrite !length_app; lia).
  rewrite drop_app_length. replace (length s1 + length s2 - length s1)%nat with (length s2) by lia.
  by rewrite take_app_length.
Qed.

Lemma char_at_mid s1 c s2 : char_at (s1 ++ c :: s2) (length s1) = Some c.
Proof.
  unfold char_at. rewrite decide_True by (rewrite length_app; simpl; lia).
  by rewrite lookup_app_r, Nat.sub_diag by lia.
Qed.
