(* ===== verification/Url.v ===== *)
(** * URL.c: splitting a URL

    [url_parse] is followed with its early returns; [url_print] is the text it is
    meant to invert. *)
From S2P Require Import Prelude CStrings.

(** ** Data *)
Definition URL_SCHEME : Z := 0x001.
Definition URL_AUTHORITY : Z := 0x002.
Definition URL_HOSTNAME : Z := 0x004.
Definition URL_PORT : Z := 0x008.
Definition URL_PATH : Z := 0x080.
Definition URL_ALL : Z := 0x3FF.

(** The fields [user], [password], [query] and [fragment] are never set. *)
Record URL := mkURL {
  u_all : option cstring;
  u_scheme : option cstring;
  u_authority : option cstring;
  u_hostname : option cstring;
  u_port : option cstring;
  u_path : option cstring }.
Definition set_scheme v u := mkURL (u_all u) v (u_authority u) (u_hostname u) (u_port u) (u_path u).
Definition set_authority v u := mkURL (u_all u) (u_scheme u) v (u_hostname u) (u_port u) (u_path u).
Definition set_hostname v u := mkURL (u_all u) (u_scheme u) (u_authority u) v (u_port u) (u_path u).
Definition set_port v u := mkURL (u_all u) (u_scheme u) (u_authority u) (u_hostname u) v (u_path u).
Definition set_path v u := mkURL (u_all u) (u_scheme u) (u_authority u) (u_hostname u) (u_port u) v.

(** ** The parser *)
Abbreviation UM := (M ()).
(** [if (parts & flag) { copy; done |= flag; if (done == parts) return output; }]:
    [k] is the rest of the function. *)
Definition url_part (parts done flag : Z) (get : UM cstring)
    (set : option cstring → URL → URL) (u : URL) (k : Z → URL → UM (option URL)) : UM (option URL) :=
  if Z.land parts flag =? 0 then k done u else
  v ← get;
  let u := set (Some v) u in
  let done := Z.lor done flag in
  if done =? parts then mret (Some u) else k done u.

Definition url_process_path (url : cstring) (parts done : Z) (p2 : option nat) (u : URL) :
    UM (option URL) :=
  url_part parts done URL_PATH
    (p1 ← deref p2; if decide (p1 ≤ length url)%nat then mret (drop p1 url) else fault)
    set_path u (λ _ u, mret (Some u)).

Definition url_parse (url : option cstring) (parts : Z) : UM (option URL) :=
  match url with
  | None => mret None
  | Some url =>
      if parts =? 0 then mret None else
      p2 ← strchr url 0 58;                                (* ':' *)
      match p2 with
      | None => mret None
      | Some p2 =>
          let u := mkURL (Some url) None None None None None in
          url_part parts 0 URL_SCHEME (copy_part url 0 (Some p2)) set_scheme u (λ done u,
            let p1 := (p2 + 3)%nat in
            p2 ← strchr url p1 47;                         (* '/' *)
            match p2 with
            | None => mret None
            | Some p2 =>
                url_part parts done URL_AUTHORITY (copy_part url p1 (Some p2)) set_authority u (λ done u,
                  _ ← strchr url p1 64;                    (* '@', ignored *)
                  colon ← strchr url p1 58;
                  p2 ← (match colon with
                        | Some p2 => mret (Some p2)
                        | None => strchr url p1 47
                        end);
                  match p2 with
                  | None => mret None
                  | Some p2 =>
                      url_part parts done URL_HOSTNAME (copy_part url p1 (Some p2)) set_hostname u (λ done u,
                        c ← deref (char_at url p2);
                        if c =? 47 then url_process_path url parts done (Some p2) u else
                        let p1 := (p2 + 1)%nat in
                        p2 ← strchr url p1 47;
                        url_part parts done URL_PORT (copy_part url p1 p2) set_port u (λ done u,
                          url_process_path url parts done p2 u))
                  end)
            end)
      end
  end.

(** [url_delete] frees every field that is set and then the [URL]. *)
Definition url_delete (u : URL) : list cstring :=
  omap id [u_all u; u_scheme u; u_authority u; u_hostname u; u_port u; u_path u].

(** ** Printing *)
Definition url_print (scheme host : cstring) (port : option cstring) (path : cstring) : cstring :=
  scheme ++ [58; 47; 47] ++ host ++ match port with Some p => 58 :: p | None => [] end ++ path.

Lemma url_part_run parts done flag get set u k v :
  Z.land parts flag ≠ 0 → Z.lor done flag ≠ parts → get () = Ok (v, ()) →
  url_part parts done flag get set u k () = k (Z.lor done flag) (set (Some v) u) ().
Proof.
  intros Hp Hd Hg. unfold url_part. rewrite (proj2 (Z.eqb_neq _ _) Hp). run_with Hg.
  by rewrite (proj2 (Z.eqb_neq _ _) Hd).
Qed.
Ltac part E := cbv beta iota zeta; erewrite url_part_run by first [discriminate | exact E].

Section Parse.
Variables scheme host : cstring.
Hypothesis scheme_ok : 58 ∉ scheme.
Hypothesis host_slash : 47 ∉ host.

(** The address of the authority: behind "scheme://". *)
Definition front : cstring := scheme ++ [58; 47; 47].
Lemma front_length : length front = (length scheme + 3)%nat.
Proof. unfold front. by rewrite length_app. Qed.

Lemma scheme_found rest : strchr (front ++ rest) 0 58 () = Ok (Some (length scheme), ()).
Proof.
  unfold front. rewrite <-app_assoc.
  exact (strchr_found [] scheme 58 ([47; 47] ++ rest) scheme_ok).
Qed.
Lemma scheme_copied rest : copy_part (front ++ rest) 0 (Some (length scheme)) () = Ok (scheme, ()).
Proof. unfold front. rewrite <-app_assoc. exact (copy_part_mid [] scheme _). Qed.

(** The parse up to the authority, for any text [auth] without '/' in its place. *)
Lemma parse_front auth path :
  47 ∉ auth →
  url_parse (Some (front ++ auth ++ 47 :: path)) URL_ALL () =
  (let url := front ++ auth ++ 47 :: path in
   let u := mkURL (Some url) (Some scheme) (Some auth) None None None in
   _ ← strchr url (length front) 64;
   colon ← strchr url (length front) 58;
   p2 ← (match colon with Some p2 => mret (Some p2) | None => strchr url (length front) 47 end);
   match p2 with
   | None => mret None
   | Some p2 =>
       url_part URL_ALL 3 URL_HOSTNAME (copy_part url (length front) (Some p2)) set_hostname u (λ done u,
         c ← deref (char_at url p2);
         if c =? 47 then url_process_path url URL_ALL done (Some p2) u else
         let p1 := (p2 + 1)%nat in
         p2 ← strchr url p1 47;
         url_part URL_ALL done URL_PORT (copy_part url p1 p2) set_port u (λ done u,
           url_process_path url URL_ALL done p2 u))
   end) ().
Proof.
  intros Ha. unfold url_parse. cbv zeta. rewrite (proj2 (Z.eqb_neq URL_ALL 0)) by done.
  run_with (scheme_found (auth ++ 47 :: path)).
  part (scheme_copied (auth ++ 47 :: path)). rewrite <-front_length.
  run_with (strchr_found front auth 47 path Ha).
  by part (copy_part_mid front auth (47 :: path)).
Qed.

Lemma at_sign url n : (n ≤ length url)%nat → ∃ r, strchr url n 64 () = Ok (r, ()).
Proof. intros H. unfold strchr. rewrite decide_True by done. by eexists. Qed.

Lemma process_path_ok url p1 done u :
  (p1 ≤ length url)%nat → Z.lor done URL_PATH ≠ URL_ALL →
  url_process_path url URL_ALL done (Some p1) u () = Ok (Some (set_path (Some (drop p1 url)) u), ()).
Proof.
  intros H Hd. unfold url_process_path. erewrite url_part_run; [done|done|done|].
  erewrite bind_Ok by reflexivity. by rewrite decide_True.
Qed.

(** The parse when a ':' follows [h1] before any other ':'. *)
Lemma parse_colon h1 rest auth path :
  47 ∉ auth → 58 ∉ h1 → auth ++ 47 :: path = h1 ++ 58 :: rest →
  url_parse (Some (front ++ auth ++ 47 :: path)) URL_ALL () =
  (let url := front ++ auth ++ 47 :: path in
   let u := mkURL (Some url) (Some scheme) (Some auth) (Some h1) None None in
   p2 ← strchr url (length front + length h1 + 1) 47;
   url_part URL_ALL 7 URL_PORT (copy_part url (length front + length h1 + 1) p2) set_port u (λ done u,
     url_process_path url URL_ALL done p2 u)) ().
Proof.
  intros Ha Hh E. rewrite parse_front by done. cbv zeta.
  destruct (at_sign (front ++ auth ++ 47 :: path) (length front)) as [r Er]; [rewrite length_app; lia|].
  run_with Er. rewrite E. run_with (strchr_found front h1 58 rest Hh).
  erewrite bind_Ok by reflexivity. part (copy_part_mid front h1 (58 :: rest)).
  assert (char_at (front ++ h1 ++ 58 :: rest) (length front + length h1) = Some 58) as ->
    by (by rewrite app_assoc, <-length_app, char_at_mid).
  reflexivity.
Qed.

(** C36: for a scheme without ':', a host without ':' and '/', a port (if given)
    without '/' and a path that starts with '/' (and has no ':' when there is no
    port), [url_parse] of the printed URL gives back scheme, host, port and path,
    and the authority is host and port together. *)
Theorem url_parse_print port path :
  58 ∉ host → (if port is Some p then 47 ∉ p else 58 ∉ path) →
  let url := url_print scheme host port (47 :: path) in
  url_parse (Some url) URL_ALL () =
    Ok (Some (mkURL (Some url) (Some scheme)
      (Some (host ++ match port with Some p => 58 :: p | None => [] end))
      (Some host) port (Some (47 :: path))), ()).
Proof.
  intros Hh Hp url. unfold url, url_print. destruct port as [p|].
  - change (scheme ++ [58; 47; 47] ++ host ++ (58 :: p) ++ 47 :: path) with
      (scheme ++ [58; 47; 47] ++ host ++ (58 :: p) ++ 47 :: path).
    rewrite (app_assoc scheme), (app_assoc host). fold front.
    rewrite (parse_colon host (p ++ 47 :: path)); [|set_solver|done|by rewrite <-app_assoc].
    cbv zeta. rewrite <-(app_assoc host). simpl.
    replace (front ++ host ++ 58 :: p ++ 47 :: path) with ((front ++ host ++ [58]) ++ p ++ 47 :: path)
      by (by rewrite <-!app_assoc).
    replace (length front + length host + 1)%nat with (length (front ++ host ++ [58]))
      by (rewrite !length_app; simpl; lia).
    run_with (strchr_found (front ++ host ++ [58]) p 47 path Hp).
    part (copy_part_mid (front ++ host ++ [58]) p (47 :: path)).
    rewrite process_path_ok by (done || (rewrite !length_app; lia)).
    unfold set_path, set_port. cbn [u_all u_scheme u_authority u_hostname u_port].
    do 4 f_equal. by rewrite drop_app_add, drop_app_length.
  - replace (scheme ++ [58; 47; 47] ++ host ++ [] ++ 47 :: path) with (front ++ host ++ 47 :: path)
      by (unfold front; by rewrite <-app_assoc).
    rewrite app_nil_r, parse_front by done. cbv zeta.
    destruct (at_sign (front ++ host ++ 47 :: path) (length front)) as [r Er];
      [rewrite length_app; lia|].
    run_with Er. erewrite bind_Ok.
    2:{ apply (strchr_none front (host ++ 47 :: path)). rewrite not_elem_of_app, not_elem_of_cons. done. }
    run_with (strchr_found front host 47 path host_slash).
    part (copy_part_mid front host (47 :: path)).
    assert (char_at (front ++ host ++ 47 :: path) (length front + length host) = Some 47) as ->
      by (by rewrite app_assoc, <-length_app, char_at_mid).
    erewrite bind_Ok by reflexivity. rewrite Z.eqb_refl, process_path_ok by (done || (rewrite !length_app; lia)).
    unfold set_path, set_hostname. cbn [u_all u_scheme u_authority u_hostname u_port].
    do 4 f_equal. by rewrite drop_app_add, drop_app_length.
Qed.

(** the ':' of the port is looked for in the whole rest of the text.  A URL
    without a port whose path contains one is split at that ':': the host swallows
    the path before it, and when no '/' follows, the missing end of the "port" is
    dereferenced.  And a text that ends right after its first ':' makes the parser
    step over its terminator. *)
Theorem url_parse_colon_in_path p1 p2 :
  58 ∉ host → 58 ∉ p1 →
  let url := front ++ host ++ 47 :: p1 ++ 58 :: p2 in
  (47 ∉ p2 → url_parse (Some url) URL_ALL () = Fault) ∧
  (47 ∈ p2 → ∃ u, url_parse (Some url) URL_ALL () = Ok (Some u, ()) ∧
     u_hostname u = Some (host ++ 47 :: p1) ∧ u_authority u = Some host) ∧
  (∀ rest, (length rest < 2)%nat →
     url_parse (Some (scheme ++ 58 :: rest)) URL_ALL () = Fault).
Proof.
  intros Hh Hp1 url. assert (58 ∉ host ++ 47 :: p1) as Hh1
    by (rewrite not_elem_of_app, not_elem_of_cons; done).
  assert (url = (front ++ (host ++ 47 :: p1) ++ [58]) ++ p2) as Eu
    by (unfold url; by rewrite <-!app_assoc).
  assert ((length front + length (host ++ 47%Z :: p1) + 1)%nat =
          length (front ++ (host ++ 47 :: p1) ++ [58])) as Elen
    by (rewrite !length_app; simpl; lia).
  assert (host ++ 47 :: p1 ++ 58 :: p2 = (host ++ 47 :: p1) ++ 58 :: p2) as Eh
    by (by rewrite <-app_assoc).
  split_and!.
  - intros Hp2. unfold url at 1. rewrite (parse_colon (host ++ 47 :: p1) p2) by done.
    cbv zeta. fold url. rewrite Elen, Eu. run_with (strchr_none (front ++ (host ++ 47 :: p1) ++ [58]) p2 47 Hp2).
    unfold url_part. simpl. by erewrite bind_Fault by reflexivity.
  - intros Hp2. apply list_elem_of_split_l in Hp2 as (q1 & q2 & -> & Hq).
    unfold url at 1. rewrite (parse_colon (host ++ 47 :: p1) (q1 ++ 47 :: q2)) by done.
    cbv zeta. fold url. rewrite Elen, Eu.
    run_with (strchr_found (front ++ (host ++ 47 :: p1) ++ [58]) q1 47 q2 Hq).
    part (copy_part_mid (front ++ (host ++ 47 :: p1) ++ [58]) q1 (47 :: q2)).
    rewrite process_path_ok by (done || (rewrite !length_app; lia)).
    eexists; split; [done|]. done.
  - intros rest Hr. unfold url_parse. rewrite (proj2 (Z.eqb_neq URL_ALL 0)) by done.
    run_with (strchr_found [] scheme 58 rest scheme_ok). cbv zeta.
    part (copy_part_mid [] scheme (58 :: rest)).
    unfold strchr. rewrite decide_False; [done|]. simpl. rewrite length_app. simpl. lia.
Qed.
End Parse.

(** ** Instances: "emo://srv:80/x" and "emo://srv/a:b" *)
Definition emo_scheme : cstring := [101; 109; 111].
Definition srv : cstring := [115; 114; 118].
Lemma url_parse_print_witness :
  url_parse (Some (url_print emo_scheme srv (Some [56; 48]) [47; 120])) URL_ALL () =
    Ok (Some (mkURL (Some (url_print emo_scheme srv (Some [56; 48]) [47; 120])) (Some emo_scheme)
      (Some (srv ++ [58; 56; 48])) (Some srv) (Some [56; 48]) (Some [47; 120])), ()).
Proof.
  refine (url_parse_print emo_scheme srv _ _ (Some [56; 48]) [120] _ _);
    apply (bool_decide_unpack _); vm_compute; exact I.
Defined.
Lemma url_parse_colon_in_path_witness :
  url_parse (Some (front emo_scheme ++ srv ++ 47 :: [97] ++ 58 :: [98])) URL_ALL () = Fault.
Proof.
  refine (proj1 (url_parse_colon_in_path emo_scheme srv _ _ [97] [98] _ _) _);
    apply (bool_decide_unpack _); vm_compute; exact I.
Defined.
