(* ===== verification/FieldNames.v ===== *)
(** * EmobiixField.c: field names and built-in type names

    [EmoField] is the C enumeration, [enum_value] its integers.  [field_str] are the
    [EMO_FIELD_..._STR] macros.  The built-in type names lie in one string literal
    with embedded terminators, [EMO_TYPE_NAMES]; a pointer into it is an offset. *)
From S2P Require Import Prelude CStrings.
From Stdlib Require Import Ascii.

(** The bytes of a string literal. *)
Definition lit (s : string) : cstring := (λ c, Z.of_N (N_of_ascii c)) <$> String.list_ascii_of_string s.

(** ** Field names *)
Inductive EmoField :=
  | EMO_FIELD_ERRORNONE
  | EMO_FIELD_ALIGNMENT
  | EMO_FIELD_ALPHA
  | EMO_FIELD_ARRAY
  | EMO_FIELD_ARRAYSOURCE
  | EMO_FIELD_AUTOSCROLL
  | EMO_FIELD_BACKGROUND_COLOR
  | EMO_FIELD_BOLD
  | EMO_FIELD_BORDER
  | EMO_FIELD_BORDER_COLOR
  | EMO_FIELD_BORDER_CORNERS
  | EMO_FIELD_BOTTOM
  | EMO_FIELD_BOX
  | EMO_FIELD_BOX_RENDERER
  | EMO_FIELD_BUTTON
  | EMO_FIELD_CANFOCUS
  | EMO_FIELD_CENTER
  | EMO_FIELD_CHECK_COLOR
  | EMO_FIELD_CHECKBOX
  | EMO_FIELD_CHECKFIELD
  | EMO_FIELD_CHECKVALUE
  | EMO_FIELD_COLOR
  | EMO_FIELD_CURSOR
  | EMO_FIELD_CURSOR_COLOR
  | EMO_FIELD_DATA
  | EMO_FIELD_DATAFIELD
  | EMO_FIELD_DIRECTION
  | EMO_FIELD_ENDINDEX
  | EMO_FIELD_ENTRY
  | EMO_FIELD_FALSE
  | EMO_FIELD_FIELDNAME
  | EMO_FIELD_FIELDVALUE
  | EMO_FIELD_FILL
  | EMO_FIELD_FILTERFIELD
  | EMO_FIELD_FILTERVALUE
  | EMO_FIELD_FIXED
  | EMO_FIELD_FOCUSINDEX
  | EMO_FIELD_FOCUSSTACK
  | EMO_FIELD_FONT
  | EMO_FIELD_FONT_ALIGNMENT
  | EMO_FIELD_FONT_COLOR
  | EMO_FIELD_FRAME
  | EMO_FIELD_GRADBOX
  | EMO_FIELD_GRADIENT
  | EMO_FIELD_HASFOCUS
  | EMO_FIELD_HEIGHT
  | EMO_FIELD_HGRID
  | EMO_FIELD_HORIZONTAL
  | EMO_FIELD_ID
  | EMO_FIELD_IMAGE
  | EMO_FIELD_IMGHEIGHT
  | EMO_FIELD_IMGWIDTH
  | EMO_FIELD_IMGX
  | EMO_FIELD_IMGY
  | EMO_FIELD_LABEL
  | EMO_FIELD_LEFT
  | EMO_FIELD_MARGIN
  | EMO_FIELD_MARGINBOTTOM
  | EMO_FIELD_MARGINLEFT
  | EMO_FIELD_MARGINRIGHT
  | EMO_FIELD_MARGINTOP
  | EMO_FIELD_MULTILINE
  | EMO_FIELD_NAME
  | EMO_FIELD_NONE
  | EMO_FIELD_ORIENTATION
  | EMO_FIELD_PACKING
  | EMO_FIELD_PIXELFORMAT
  | EMO_FIELD_POSITION
  | EMO_FIELD_PREPEND
  | EMO_FIELD_RADIUS
  | EMO_FIELD_REFERENCE
  | EMO_FIELD_RENDERER
  | EMO_FIELD_RIGHT
  | EMO_FIELD_ROUNDED
  | EMO_FIELD_SCROLLBAR
  | EMO_FIELD_SCROLLED
  | EMO_FIELD_SET
  | EMO_FIELD_SOLID
  | EMO_FIELD_STACK
  | EMO_FIELD_STARTCOUNT
  | EMO_FIELD_STARTINDEX
  | EMO_FIELD_STENCIL
  | EMO_FIELD_TEXT
  | EMO_FIELD_THUMB_COLOR
  | EMO_FIELD_TOP
  | EMO_FIELD_TRACK_COLOR
  | EMO_FIELD_TRANSPARENCY
  | EMO_FIELD_TYPE
  | EMO_FIELD_VERTICAL
  | EMO_FIELD_VGRID
  | EMO_FIELD_VIEW
  | EMO_FIELD_WEIGHT
  | EMO_FIELD_WIDTH
  | EMO_FIELD_X
  | EMO_FIELD_XOFFSET
  | EMO_FIELD_Y
  | EMO_FIELD_YOFFSET
  | EMO_FIELD_ICONIFIED
  | EMO_FIELD_STYLE
  | EMO_FIELD_STARTUPVIEW
  | EMO_FIELD_FULLSCREEN
  | EMO_FIELD_URL
  | EMO_FIELD_INDEX
  | EMO_FIELD_MIMETYPE
  | EMO_FIELD_DESCRIPTION
  | EMO_FIELD_ONLOAD
  | EMO_FIELD_ACCESSKEY
  | EMO_FIELD_ONRETURN
  | EMO_FIELD_ICON
  | EMO_FIELD_SETITEM
  | EMO_FIELD_ONSYNCFINISHED
  | EMO_FIELD_UNKNOWN_FIELD.
#[export] Instance EmoField_eq_dec : EqDecision EmoField.
Proof. solve_decision. Defined.

Definition enum_value (f : EmoField) : Z :=
  match f with
  | EMO_FIELD_ERRORNONE => 0
  | EMO_FIELD_ALIGNMENT => 1
  | EMO_FIELD_ALPHA => 2
  | EMO_FIELD_ARRAY => 3
  | EMO_FIELD_ARRAYSOURCE => 4
  | EMO_FIELD_AUTOSCROLL => 5
  | EMO_FIELD_BACKGROUND_COLOR => 6
  | EMO_FIELD_BOLD => 7
  | EMO_FIELD_BORDER => 8
  | EMO_FIELD_BORDER_COLOR => 9
  | EMO_FIELD_BORDER_CORNERS => 10
  | EMO_FIELD_BOTTOM => 11
  | EMO_FIELD_BOX => 12
  | EMO_FIELD_BOX_RENDERER => 13
  | EMO_FIELD_BUTTON => 14
  | EMO_FIELD_CANFOCUS => 15
  | EMO_FIELD_CENTER => 16
  | EMO_FIELD_CHECK_COLOR => 17
  | EMO_FIELD_CHECKBOX => 18
  | EMO_FIELD_CHECKFIELD => 19
  | EMO_FIELD_CHECKVALUE => 20
  | EMO_FIELD_COLOR => 21
  | EMO_FIELD_CURSOR => 22
  | EMO_FIELD_CURSOR_COLOR => 23
  | EMO_FIELD_DATA => 24
  | EMO_FIELD_DATAFIELD => 25
  | EMO_FIELD_DIRECTION => 26
  | EMO_FIELD_ENDINDEX => 27
  | EMO_FIELD_ENTRY => 28
  | EMO_FIELD_FALSE => 29
  | EMO_FIELD_FIELDNAME => 30
  | EMO_FIELD_FIELDVALUE => 31
  | EMO_FIELD_FILL => 32
  | EMO_FIELD_FILTERFIELD => 33
  | EMO_FIELD_FILTERVALUE => 34
  | EMO_FIELD_FIXED => 35
  | EMO_FIELD_FOCUSINDEX => 36
  | EMO_FIELD_FOCUSSTACK => 37
  | EMO_FIELD_FONT => 38
  | EMO_FIELD_FONT_ALIGNMENT => 39
  | EMO_FIELD_FONT_COLOR => 40
  | EMO_FIELD_FRAME => 41
  | EMO_FIELD_GRADBOX => 42
  | EMO_FIELD_GRADIENT => 43
  | EMO_FIELD_HASFOCUS => 44
  | EMO_FIELD_HEIGHT => 45
  | EMO_FIELD_HGRID => 46
  | EMO_FIELD_HORIZONTAL => 47
  | EMO_FIELD_ID => 48
  | EMO_FIELD_IMAGE => 49
  | EMO_FIELD_IMGHEIGHT => 50
  | EMO_FIELD_IMGWIDTH => 51
  | EMO_FIELD_IMGX => 52
  | EMO_FIELD_IMGY => 53
  | EMO_FIELD_LABEL => 54
  | EMO_FIELD_LEFT => 55
  | EMO_FIELD_MARGIN => 56
  | EMO_FIELD_MARGINBOTTOM => 57
  | EMO_FIELD_MARGINLEFT => 58
  | EMO_FIELD_MARGINRIGHT => 59
  | EMO_FIELD_MARGINTOP => 60
  | EMO_FIELD_MULTILINE => 61
  | EMO_FIELD_NAME => 62
  | EMO_FIELD_NONE => 63
  | EMO_FIELD_ORIENTATION => 64
  | EMO_FIELD_PACKING => 65
  | EMO_FIELD_PIXELFORMAT => 66
  | EMO_FIELD_POSITION => 67
  | EMO_FIELD_PREPEND => 68
  | EMO_FIELD_RADIUS => 69
  | EMO_FIELD_REFERENCE => 70
  | EMO_FIELD_RENDERER => 71
  | EMO_FIELD_RIGHT => 72
  | EMO_FIELD_ROUNDED => 73
  | EMO_FIELD_SCROLLBAR => 74
  | EMO_FIELD_SCROLLED => 75
  | EMO_FIELD_SET => 76
  | EMO_FIELD_SOLID => 77
  | EMO_FIELD_STACK => 78
  | EMO_FIELD_STARTCOUNT => 79
  | EMO_FIELD_STARTINDEX => 80
  | EMO_FIELD_STENCIL => 81
  | EMO_FIELD_TEXT => 82
  | EMO_FIELD_THUMB_COLOR => 83
  | EMO_FIELD_TOP => 84
  | EMO_FIELD_TRACK_COLOR => 85
  | EMO_FIELD_TRANSPARENCY => 86
  | EMO_FIELD_TYPE => 87
  | EMO_FIELD_VERTICAL => 88
  | EMO_FIELD_VGRID => 89
  | EMO_FIELD_VIEW => 90
  | EMO_FIELD_WEIGHT => 91
  | EMO_FIELD_WIDTH => 92
  | EMO_FIELD_X => 93
  | EMO_FIELD_XOFFSET => 94
  | EMO_FIELD_Y => 95
  | EMO_FIELD_YOFFSET => 96
  | EMO_FIELD_ICONIFIED => 97
  | EMO_FIELD_STYLE => 98
  | EMO_FIELD_STARTUPVIEW => 99
  | EMO_FIELD_FULLSCREEN => 100
  | EMO_FIELD_URL => 101
  | EMO_FIELD_INDEX => 102
  | EMO_FIELD_MIMETYPE => 103
  | EMO_FIELD_DESCRIPTION => 104
  | EMO_FIELD_ONLOAD => 105
  | EMO_FIELD_ACCESSKEY => 106
  | EMO_FIELD_ONRETURN => 107
  | EMO_FIELD_ICON => 108
  | EMO_FIELD_SETITEM => 109
  | EMO_FIELD_ONSYNCFINISHED => 110
  | EMO_FIELD_UNKNOWN_FIELD => 111
  end.

(** The macros; the first and the last enumerator have none. *)
Definition field_str (f : EmoField) : string :=
  match f with
  | EMO_FIELD_ALIGNMENT => "alignment"
  | EMO_FIELD_ALPHA => "alpha"
  | EMO_FIELD_ARRAY => "array"
  | EMO_FIELD_ARRAYSOURCE => "arraysource"
  | EMO_FIELD_AUTOSCROLL => "autoscroll"
  | EMO_FIELD_BACKGROUND_COLOR => "background-color"
  | EMO_FIELD_BOLD => "bold"
  | EMO_FIELD_BORDER => "border"
  | EMO_FIELD_BORDER_COLOR => "border-color"
  | EMO_FIELD_BORDER_CORNERS => "border-corners"
  | EMO_FIELD_BOTTOM => "bottom"
  | EMO_FIELD_BOX => "box"
  | EMO_FIELD_BOX_RENDERER => "box-renderer"
  | EMO_FIELD_BUTTON => "button"
  | EMO_FIELD_CANFOCUS => "canfocus"
  | EMO_FIELD_CENTER => "center"
  | EMO_FIELD_CHECK_COLOR => "check-color"
  | EMO_FIELD_CHECKBOX => "checkbox"
  | EMO_FIELD_CHECKFIELD => "checkfield"
  | EMO_FIELD_CHECKVALUE => "checkvalue"
  | EMO_FIELD_COLOR => "color"
  | EMO_FIELD_CURSOR => "cursor"
  | EMO_FIELD_CURSOR_COLOR => "cursor-color"
  | EMO_FIELD_DATA => "data"
  | EMO_FIELD_DATAFIELD => "datafield"
  | EMO_FIELD_DIRECTION => "direction"
  | EMO_FIELD_ENDINDEX => "endindex"
  | EMO_FIELD_ENTRY => "entry"
  | EMO_FIELD_FALSE => "false"
  | EMO_FIELD_FIELDNAME => "fieldname"
  | EMO_FIELD_FIELDVALUE => "fieldvalue"
  | EMO_FIELD_FILL => "fill"
  | EMO_FIELD_FILTERFIELD => "filterfield"
  | EMO_FIELD_FILTERVALUE => "filtervalue"
  | EMO_FIELD_FIXED => "fixed"
  | EMO_FIELD_FOCUSINDEX => "focusindex"
  | EMO_FIELD_FOCUSSTACK => "focusstack"
  | EMO_FIELD_FONT => "font"
  | EMO_FIELD_FONT_ALIGNMENT => "font-alignment"
  | EMO_FIELD_FONT_COLOR => "font-color"
  | EMO_FIELD_FRAME => "frame"
  | EMO_FIELD_GRADBOX => "gradbox"
  | EMO_FIELD_GRADIENT => "gradient"
  | EMO_FIELD_HASFOCUS => "hasfocus"
  | EMO_FIELD_HEIGHT => "height"
  | EMO_FIELD_HGRID => "hgrid"
  | EMO_FIELD_HORIZONTAL => "horizontal"
  | EMO_FIELD_ID => "id"
  | EMO_FIELD_IMAGE => "image"
  | EMO_FIELD_IMGHEIGHT => "imgheight"
  | EMO_FIELD_IMGWIDTH => "imgwidth"
  | EMO_FIELD_IMGX => "imgx"
  | EMO_FIELD_IMGY => "imgy"
  | EMO_FIELD_LABEL => "label"
  | EMO_FIELD_LEFT => "left"
  | EMO_FIELD_MARGIN => "margin"
  | EMO_FIELD_MARGINBOTTOM => "marginbottom"
  | EMO_FIELD_MARGINLEFT => "marginleft"
  | EMO_FIELD_MARGINRIGHT => "marginright"
  | EMO_FIELD_MARGINTOP => "margintop"
  | EMO_FIELD_MULTILINE => "multiline"
  | EMO_FIELD_NAME => "name"
  | EMO_FIELD_NONE => "none"
  | EMO_FIELD_ORIENTATION => "orientation"
  | EMO_FIELD_PACKING => "packing"
  | EMO_FIELD_PIXELFORMAT => "pixelformat"
  | EMO_FIELD_POSITION => "position"
  | EMO_FIELD_PREPEND => "prepend"
  | EMO_FIELD_RADIUS => "radius"
  | EMO_FIELD_REFERENCE => "reference"
  | EMO_FIELD_RENDERER => "renderer"
  | EMO_FIELD_RIGHT => "right"
  | EMO_FIELD_ROUNDED => "rounded"
  | EMO_FIELD_SCROLLBAR => "scrollbar"
  | EMO_FIELD_SCROLLED => "scrolled"
  | EMO_FIELD_SET => "set"
  | EMO_FIELD_SOLID => "solid"
  | EMO_FIELD_STACK => "stack"
  | EMO_FIELD_STARTCOUNT => "startcount"
  | EMO_FIELD_STARTINDEX => "startindex"
  | EMO_FIELD_STENCIL => "stencil"
  | EMO_FIELD_TEXT => "text"
  | EMO_FIELD_THUMB_COLOR => "thumb-color"
  | EMO_FIELD_TOP => "top"
  | EMO_FIELD_TRACK_COLOR => "track-color"
  | EMO_FIELD_TRANSPARENCY => "transparency"
  | EMO_FIELD_TYPE => "type"
  | EMO_FIELD_VERTICAL => "vertical"
  | EMO_FIELD_VGRID => "vgrid"
  | EMO_FIELD_VIEW => "view"
  | EMO_FIELD_WEIGHT => "weight"
  | EMO_FIELD_WIDTH => "width"
  | EMO_FIELD_X => "x"
  | EMO_FIELD_XOFFSET => "xoffset"
  | EMO_FIELD_Y => "y"
  | EMO_FIELD_YOFFSET => "yoffset"
  | EMO_FIELD_ICONIFIED => "iconified"
  | EMO_FIELD_STYLE => "style"
  | EMO_FIELD_STARTUPVIEW => "startupview"
  | EMO_FIELD_FULLSCREEN => "fullscreen"
  | EMO_FIELD_URL => "url"
  | EMO_FIELD_INDEX => "index"
  | EMO_FIELD_MIMETYPE => "mime-type"
  | EMO_FIELD_DESCRIPTION => "description"
  | EMO_FIELD_ONLOAD => "onload"
  | EMO_FIELD_ACCESSKEY => "accesskey"
  | EMO_FIELD_ONRETURN => "onreturn"
  | EMO_FIELD_ICON => "icon"
  | EMO_FIELD_SETITEM => "setitem"
  | EMO_FIELD_ONSYNCFINISHED => "onsyncfinished"
  | EMO_FIELD_ERRORNONE | EMO_FIELD_UNKNOWN_FIELD => ""
  end%string.

Definition EmoFieldMap : list (EmoField * cstring) := [
  (EMO_FIELD_ERRORNONE, lit "ERROR-NONE"%string);
  (EMO_FIELD_ALIGNMENT, lit (field_str EMO_FIELD_ALIGNMENT));
  (EMO_FIELD_ALPHA, lit (field_str EMO_FIELD_ALPHA));
  (EMO_FIELD_ARRAY, lit (field_str EMO_FIELD_ARRAY));
  (EMO_FIELD_ARRAYSOURCE, lit (field_str EMO_FIELD_ARRAYSOURCE));
  (EMO_FIELD_AUTOSCROLL, lit (field_str EMO_FIELD_AUTOSCROLL));
  (EMO_FIELD_BACKGROUND_COLOR, lit (field_str EMO_FIELD_BACKGROUND_COLOR));
  (EMO_FIELD_BOLD, lit (field_str EMO_FIELD_BOLD));
  (EMO_FIELD_BORDER, lit (field_str EMO_FIELD_BORDER));
  (EMO_FIELD_BORDER_COLOR, lit (field_str EMO_FIELD_BORDER_COLOR));
  (EMO_FIELD_BORDER_CORNERS, lit (field_str EMO_FIELD_BORDER_CORNERS));
  (EMO_FIELD_BOTTOM, lit (field_str EMO_FIELD_BOTTOM));
  (EMO_FIELD_BOX, lit (field_str EMO_FIELD_BOX));
  (EMO_FIELD_BOX_RENDERER, lit (field_str EMO_FIELD_BOX_RENDERER));
  (EMO_FIELD_BUTTON, lit (field_str EMO_FIELD_BUTTON));
  (EMO_FIELD_CANFOCUS, lit (field_str EMO_FIELD_CANFOCUS));
  (EMO_FIELD_CENTER, lit (field_str EMO_FIELD_CENTER));
  (EMO_FIELD_CHECK_COLOR, lit (field_str EMO_FIELD_CHECK_COLOR));
  (EMO_FIELD_CHECKBOX, lit (field_str EMO_FIELD_CHECKBOX));
  (EMO_FIELD_CHECKFIELD, lit (field_str EMO_FIELD_CHECKFIELD));
  (EMO_FIELD_CHECKVALUE, lit (field_str EMO_FIELD_CHECKVALUE));
  (EMO_FIELD_COLOR, lit (field_str EMO_FIELD_COLOR));
  (EMO_FIELD_CURSOR, lit (field_str EMO_FIELD_CURSOR));
  (EMO_FIELD_CURSOR_COLOR, lit (field_str EMO_FIELD_CURSOR_COLOR));
  (EMO_FIELD_DATA, lit (field_str EMO_FIELD_DATA));
  (EMO_FIELD_DATAFIELD, lit (field_str EMO_FIELD_DATAFIELD));
  (EMO_FIELD_DIRECTION, lit (field_str EMO_FIELD_DIRECTION));
  (EMO_FIELD_ENDINDEX, lit (field_str EMO_FIELD_ENDINDEX));
  (EMO_FIELD_ENTRY, lit (field_str EMO_FIELD_ENTRY));
  (EMO_FIELD_FALSE, lit (field_str EMO_FIELD_FALSE));
  (EMO_FIELD_FIELDNAME, lit (field_str EMO_FIELD_FIELDNAME));
  (EMO_FIELD_FIELDVALUE, lit (field_str EMO_FIELD_FIELDVALUE));
  (EMO_FIELD_FILL, lit (field_str EMO_FIELD_FILL));
  (EMO_FIELD_FILTERFIELD, lit (field_str EMO_FIELD_FILTERFIELD));
  (EMO_FIELD_FILTERVALUE, lit (field_str EMO_FIELD_FILTERVALUE));
  (EMO_FIELD_FIXED, lit (field_str EMO_FIELD_FIXED));
  (EMO_FIELD_FOCUSINDEX, lit (field_str EMO_FIELD_FOCUSINDEX));
  (EMO_FIELD_FOCUSSTACK, lit (field_str EMO_FIELD_FOCUSSTACK));
  (EMO_FIELD_FONT, lit (field_str EMO_FIELD_FONT));
  (EMO_FIELD_FONT_ALIGNMENT, lit (field_str EMO_FIELD_FONT_ALIGNMENT));
  (EMO_FIELD_FONT_COLOR, lit (field_str EMO_FIELD_FONT_COLOR));
  (EMO_FIELD_FRAME, lit (field_str EMO_FIELD_FRAME));
  (EMO_FIELD_GRADBOX, lit (field_str EMO_FIELD_GRADBOX));
  (EMO_FIELD_GRADIENT, lit (field_str EMO_FIELD_GRADIENT));
  (EMO_FIELD_HASFOCUS, lit (field_str EMO_FIELD_HASFOCUS));
  (EMO_FIELD_HEIGHT, lit (field_str EMO_FIELD_HEIGHT));
  (EMO_FIELD_HGRID, lit (field_str EMO_FIELD_HGRID));
  (EMO_FIELD_HORIZONTAL, lit (field_str EMO_FIELD_HORIZONTAL));
  (EMO_FIELD_ID, lit (field_str EMO_FIELD_ID));
  (EMO_FIELD_IMAGE, lit (field_str EMO_FIELD_IMAGE));
  (EMO_FIELD_IMGHEIGHT, lit (field_str EMO_FIELD_IMGHEIGHT));
  (EMO_FIELD_IMGWIDTH, lit (field_str EMO_FIELD_IMGWIDTH));
  (EMO_FIELD_IMGX, lit (field_str EMO_FIELD_IMGX));
  (EMO_FIELD_IMGY, lit (field_str EMO_FIELD_IMGY));
  (EMO_FIELD_LABEL, lit (field_str EMO_FIELD_LABEL));
  (EMO_FIELD_LEFT, lit (field_str EMO_FIELD_LEFT));
  (EMO_FIELD_MARGIN, lit (field_str EMO_FIELD_MARGIN));
  (EMO_FIELD_MARGINBOTTOM, lit (field_str EMO_FIELD_MARGINBOTTOM));
  (EMO_FIELD_MARGINLEFT, lit (field_str EMO_FIELD_MARGINLEFT));
  (EMO_FIELD_MARGINRIGHT, lit (field_str EMO_FIELD_MARGINRIGHT));
  (EMO_FIELD_MARGINTOP, lit (field_str EMO_FIELD_MARGINTOP));
  (EMO_FIELD_MULTILINE, lit (field_str EMO_FIELD_MULTILINE));
  (EMO_FIELD_NAME, lit (field_str EMO_FIELD_NAME));
  (EMO_FIELD_NONE, lit (field_str EMO_FIELD_NONE));
  (EMO_FIELD_ORIENTATION, lit (field_str EMO_FIELD_ORIENTATION));
  (EMO_FIELD_PACKING, lit (field_str EMO_FIELD_PACKING));
  (EMO_FIELD_PIXELFORMAT, lit (field_str EMO_FIELD_PIXELFORMAT));
  (EMO_FIELD_POSITION, lit (field_str EMO_FIELD_POSITION));
  (EMO_FIELD_PREPEND, lit (field_str EMO_FIELD_PREPEND));
  (EMO_FIELD_RADIUS, lit (field_str EMO_FIELD_RADIUS));
  (EMO_FIELD_REFERENCE, lit (field_str EMO_FIELD_REFERENCE));
  (EMO_FIELD_RENDERER, lit (field_str EMO_FIELD_RENDERER));
  (EMO_FIELD_RIGHT, lit (field_str EMO_FIELD_RIGHT));
  (EMO_FIELD_ROUNDED, lit (field_str EMO_FIELD_ROUNDED));
  (EMO_FIELD_SCROLLBAR, lit (field_str EMO_FIELD_SCROLLBAR));
  (EMO_FIELD_SCROLLED, lit (field_str EMO_FIELD_SCROLLED));
  (EMO_FIELD_SET, lit (field_str EMO_FIELD_SET));
  (EMO_FIELD_SOLID, lit (field_str EMO_FIELD_SOLID));
  (EMO_FIELD_STACK, lit (field_str EMO_FIELD_STACK));
  (EMO_FIELD_STARTCOUNT, lit (field_str EMO_FIELD_STARTCOUNT));
  (EMO_FIELD_STARTINDEX, lit (field_str EMO_FIELD_STARTINDEX));
  (EMO_FIELD_STENCIL, lit (field_str EMO_FIELD_STENCIL));
  (EMO_FIELD_TEXT, lit (field_str EMO_FIELD_TEXT));
  (EMO_FIELD_THUMB_COLOR, lit (field_str EMO_FIELD_THUMB_COLOR));
  (EMO_FIELD_TOP, lit (field_str EMO_FIELD_TOP));
  (EMO_FIELD_TRACK_COLOR, lit (field_str EMO_FIELD_TRACK_COLOR));
  (EMO_FIELD_TRANSPARENCY, lit (field_str EMO_FIELD_TRANSPARENCY));
  (EMO_FIELD_TYPE, lit (field_str EMO_FIELD_TYPE));
  (EMO_FIELD_VERTICAL, lit (field_str EMO_FIELD_VERTICAL));
  (EMO_FIELD_VGRID, lit (field_str EMO_FIELD_VGRID));
  (EMO_FIELD_VIEW, lit (field_str EMO_FIELD_VIEW));
  (EMO_FIELD_WEIGHT, lit (field_str EMO_FIELD_WEIGHT));
  (EMO_FIELD_WIDTH, lit (field_str EMO_FIELD_WIDTH));
  (EMO_FIELD_X, lit (field_str EMO_FIELD_X));
  (EMO_FIELD_XOFFSET, lit (field_str EMO_FIELD_XOFFSET));
  (EMO_FIELD_Y, lit (field_str EMO_FIELD_Y));
  (EMO_FIELD_YOFFSET, lit (field_str EMO_FIELD_YOFFSET));
  (EMO_FIELD_ICONIFIED, lit (field_str EMO_FIELD_ICONIFIED));
  (EMO_FIELD_STYLE, lit (field_str EMO_FIELD_STYLE));
  (EMO_FIELD_STARTUPVIEW, lit (field_str EMO_FIELD_STARTUPVIEW));
  (EMO_FIELD_FULLSCREEN, lit (field_str EMO_FIELD_FULLSCREEN));
  (EMO_FIELD_URL, lit (field_str EMO_FIELD_URL));
  (EMO_FIELD_INDEX, lit (field_str EMO_FIELD_INDEX));
  (EMO_FIELD_MIMETYPE, lit (field_str EMO_FIELD_MIMETYPE));
  (EMO_FIELD_DESCRIPTION, lit (field_str EMO_FIELD_DESCRIPTION));
  (EMO_FIELD_ONLOAD, lit (field_str EMO_FIELD_ONLOAD));
  (EMO_FIELD_ACCESSKEY, lit (field_str EMO_FIELD_ACCESSKEY));
  (EMO_FIELD_ONRETURN, lit (field_str EMO_FIELD_ONRETURN));
  (EMO_FIELD_ICON, lit (field_str EMO_FIELD_ICON));
  (EMO_FIELD_SETITEM, lit (field_str EMO_FIELD_SETITEM));
  (EMO_FIELD_ONSYNCFINISHED, lit (field_str EMO_FIELD_ONSYNCFINISHED)) ].

(** NULL outside the range of the named fields. *)
Definition emo_field_to_string (fieldId : Z) : option cstring :=
  if (fieldId <=? 0) || (enum_value EMO_FIELD_UNKNOWN_FIELD <=? fieldId) then None
  else snd <$> EmoFieldMap !! Z.to_nat fieldId.

Fixpoint field_loop (l : list (EmoField * cstring)) (fieldId : Z) (fieldName : cstring) : Z :=
  match l with
  | [] => enum_value EMO_FIELD_UNKNOWN_FIELD
  | (_, name) :: l =>
      if decide (fieldName = name) then fieldId else field_loop l (fieldId + 1) fieldName
  end.
Definition emo_field_to_int (fieldName : option cstring) : Z :=
  match fieldName with
  | None | Some [] => enum_value EMO_FIELD_UNKNOWN_FIELD
  | Some s =>
      let first := enum_value EMO_FIELD_ERRORNONE + 1 in
      field_loop (drop (Z.to_nat first) EmoFieldMap) first s
  end.

(** ** Built-in type names *)
(** The literal, with the terminators written in it and the one C adds. *)
Definition EMO_TYPE_NAMES : list Z :=
  lit "view"%string ++ [nul] ++ lit "entry"%string ++ [nul] ++
  lit "checkbox"%string ++ [nul] ++ lit "box"%string ++ [nul] ++
  lit "application"%string ++ [nul] ++ lit "script"%string ++ [nul] ++
  lit "style"%string ++ [nul] ++ lit "image"%string ++ [nul] ++ lit "label"%string ++ [nul] ++
  lit "stack"%string ++ [nul] ++ lit "set"%string ++ [nul] ++ lit "setitem"%string ++ [nul] ++
  lit "text"%string ++ [nul] ++ lit "array"%string ++ [nul] ++ lit "frame"%string ++ [nul] ++
  lit "reference"%string ++ [nul] ++ lit "scrolled"%string ++ [nul] ++
  lit "gradient"%string ++ [nul] ++ lit "data"%string ++ [nul] ++ lit ""%string ++ [nul] ++ [nul].

(** The pointers [emo_builtin_type_init] sets. *)
Definition EMO_TYPE_VIEW : nat := 0%nat.
Definition EMO_TYPE_ENTRY : nat := (EMO_TYPE_VIEW + 5)%nat.
Definition EMO_TYPE_CHECKBOX : nat := (EMO_TYPE_ENTRY + 6)%nat.
Definition EMO_TYPE_BOX : nat := (EMO_TYPE_CHECKBOX + 9)%nat.
Definition EMO_TYPE_APPLICATION : nat := (EMO_TYPE_BOX + 4)%nat.
Definition EMO_TYPE_SCRIPT : nat := (EMO_TYPE_APPLICATION + 12)%nat.
Definition EMO_TYPE_STYLE : nat := (EMO_TYPE_SCRIPT + 7)%nat.
Definition EMO_TYPE_IMAGE : nat := (EMO_TYPE_STYLE + 6)%nat.
Definition EMO_TYPE_LABEL : nat := (EMO_TYPE_IMAGE + 6)%nat.
Definition EMO_TYPE_STACK : nat := (EMO_TYPE_LABEL + 6)%nat.
Definition EMO_TYPE_SET : nat := (EMO_TYPE_STACK + 6)%nat.
Definition EMO_TYPE_SETITEM : nat := (EMO_TYPE_SET + 4)%nat.
Definition EMO_TYPE_TEXT : nat := (EMO_TYPE_SETITEM + 8)%nat.
Definition EMO_TYPE_ARRAY : nat := (EMO_TYPE_TEXT + 5)%nat.
Definition EMO_TYPE_FRAME : nat := (EMO_TYPE_ARRAY + 6)%nat.
Definition EMO_TYPE_REFERENCE : nat := (EMO_TYPE_FRAME + 6)%nat.
Definition EMO_TYPE_SCROLLED : nat := (EMO_TYPE_REFERENCE + 10)%nat.
Definition EMO_TYPE_GRADIENT : nat := (EMO_TYPE_SCROLLED + 9)%nat.
Definition EMO_TYPE_DATA : nat := (EMO_TYPE_GRADIENT + 9)%nat.
Definition EMO_TYPE_NAMES_END : nat := (EMO_TYPE_DATA + 5)%nat.
(** After the initialisation; a pointer elsewhere compares as unequal. *)
Definition EMO_TYPE_IS_BUILTIN (off : nat) : bool := (off <=? EMO_TYPE_NAMES_END)%nat.

(** The string at the start of [mem]; [None] when it has no terminator. *)
Fixpoint until_nul (mem : list Z) : option cstring :=
  match mem with
  | [] => None
  | c :: mem => if c =? nul then Some [] else cons c <$> until_nul mem
  end.
Definition c_str (off : nat) : option cstring := until_nul (drop off EMO_TYPE_NAMES).

Fixpoint builtin_loop (fuel : nat) (typeName : cstring) (p : nat) : M () (option nat) :=
  match fuel with
  | O => no_fuel
  | S fuel =>
      ch ← deref (EMO_TYPE_NAMES !! p);
      if ch =? nul then mret None else
      name ← deref (c_str p);
      if decide (typeName = name) then mret (Some p)
      else builtin_loop fuel typeName (p + length name + 1)
  end.
Definition emo_builtin_type (typeName : cstring) : M () (option nat) :=
  builtin_loop (length EMO_TYPE_NAMES) typeName 0.

(** The type constants with the names they stand for. *)
Definition builtin_types : list (nat * cstring) := [
  (EMO_TYPE_VIEW, lit "view"%string);
  (EMO_TYPE_ENTRY, lit "entry"%string);
  (EMO_TYPE_CHECKBOX, lit "checkbox"%string);
  (EMO_TYPE_BOX, lit "box"%string);
  (EMO_TYPE_APPLICATION, lit "application"%string);
  (EMO_TYPE_SCRIPT, lit "script"%string);
  (EMO_TYPE_STYLE, lit "style"%string);
  (EMO_TYPE_IMAGE, lit "image"%string);
  (EMO_TYPE_LABEL, lit "label"%string);
  (EMO_TYPE_STACK, lit "stack"%string);
  (EMO_TYPE_SET, lit "set"%string);
  (EMO_TYPE_SETITEM, lit "setitem"%string);
  (EMO_TYPE_TEXT, lit "text"%string);
  (EMO_TYPE_ARRAY, lit "array"%string);
  (EMO_TYPE_FRAME, lit "frame"%string);
  (EMO_TYPE_REFERENCE, lit "reference"%string);
  (EMO_TYPE_SCROLLED, lit "scrolled"%string);
  (EMO_TYPE_GRADIENT, lit "gradient"%string);
  (EMO_TYPE_DATA, lit "data"%string) ].

(** ** Properties *)
Definition named (f : EmoField) : Prop := f ≠ EMO_FIELD_ERRORNONE ∧ f ≠ EMO_FIELD_UNKNOWN_FIELD.

Lemma field_loop_notin l i s : s ∉ l.*2 → field_loop l i s = enum_value EMO_FIELD_UNKNOWN_FIELD.
Proof.
  revert i; induction l as [|[f n] l IH]; intros i Hs; [done|]. simpl in *.
  apply not_elem_of_cons in Hs as [? Hs]. by rewrite decide_False, IH.
Qed.
Lemma field_loop_found l1 f s l2 i :
  s ∉ l1.*2 → field_loop (l1 ++ (f, s) :: l2) i s = i + Z.of_nat (length l1).
Proof.
  revert i; induction l1 as [|[g n] l1 IH]; intros i Hs; simpl in *.
  - rewrite decide_True by done. lia.
  - apply not_elem_of_cons in Hs as [? Hs]. rewrite decide_False, IH by done. lia.
Qed.

(** The table lists every field at the index that is its number. *)
Lemma table_index f : named f → EmoFieldMap !! Z.to_nat (enum_value f) = Some (f, lit (field_str f)).
Proof. intros [? ?]. destruct f; done. Qed.
Lemma enum_value_range f : named f → 0 < enum_value f < enum_value EMO_FIELD_UNKNOWN_FIELD.
Proof. intros [? ?]. destruct f; done. Qed.
Lemma names_NoDup : NoDup EmoFieldMap.*2.
Proof. apply (bool_decide_unpack _). vm_compute. done. Qed.
#[export] Instance named_dec f : Decision (named f).
Proof. unfold named. apply _. Defined.
Lemma table_named : Forall (λ p, named p.1 ∧ p.2 = lit (field_str p.1)) (drop 1 EmoFieldMap).
Proof. apply (bool_decide_unpack _). vm_compute. done. Qed.

Lemma to_int_named f : named f → emo_field_to_int (Some (lit (field_str f))) = enum_value f.
Proof.
  intros Hf. pose proof (enum_value_range f Hf) as [Hpos _].
  destruct (list_elem_of_split_length _ _ _ (table_index f Hf)) as (l1 & l2 & E & Hl).
  destruct l1 as [|p l1]; [simpl in Hl; lia|].
  assert (lit (field_str f) ∉ l1.*2) as Hnot.
  { pose proof names_NoDup as N. rewrite E in N. simpl in N. apply NoDup_cons in N as [_ N].
    rewrite fmap_app in N. apply NoDup_app in N as (_ & N & _). simpl in N.
    intros Hin. apply (N _ Hin). apply list_elem_of_here. }
  destruct (lit (field_str f)) as [|a s] eqn:Es; [by destruct Hf; destruct f|].
  change (field_loop (drop 1 EmoFieldMap) 1 (a :: s) = enum_value f). rewrite E.
  change (drop 1 _) with (l1 ++ (f, a :: s) :: l2). rewrite field_loop_found by done. simpl in Hl. lia.
Qed.

(** The enumeration and the table agree: every field's number is turned into
    its name and its name back into its number; any other text is reported as
    unknown and any other number has no name. *)
Theorem emo_field_names_roundtrip :
  (∀ f, named f → emo_field_to_string (enum_value f) = Some (lit (field_str f)) ∧
                  emo_field_to_int (Some (lit (field_str f))) = enum_value f) ∧
  (∀ s, (∀ f, named f → s ≠ lit (field_str f)) →
        emo_field_to_int (Some s) = enum_value EMO_FIELD_UNKNOWN_FIELD) ∧
  (∀ i, is_Some (emo_field_to_string i) ↔ ∃ f, named f ∧ i = enum_value f).
Proof.
  assert (∀ f, named f → emo_field_to_string (enum_value f) = Some (lit (field_str f))) as Hs.
  { intros f Hf. unfold emo_field_to_string. pose proof (enum_value_range f Hf).
    destruct (Z.leb_spec (enum_value f) 0); [lia|].
    destruct (Z.leb_spec (enum_value EMO_FIELD_UNKNOWN_FIELD) (enum_value f)); [lia|].
    simpl. by rewrite table_index by done. }
  split_and!.
  - intros f Hf. split; [by apply Hs|by apply to_int_named].
  - intros s Hno. destruct s as [|c s]; [done|]. unfold emo_field_to_int.
    change (Z.to_nat _) with 1%nat. apply field_loop_notin.
    intros (p & E & Hin)%list_elem_of_fmap. pose proof table_named as T.
    rewrite Forall_forall in T. destruct (T p Hin) as [Hp E2]. apply (Hno _ Hp). congruence.
  - intros i. split.
    + unfold emo_field_to_string. destruct (Z.leb_spec i 0); [by intros []|].
      destruct (Z.leb_spec (enum_value EMO_FIELD_UNKNOWN_FIELD) i); [by intros []|].
      simpl orb. cbv iota. intros [s Hi]. apply fmap_Some in Hi as ([f n] & Hi & _).
      exists f. assert (Forall (λ k, ∀ f n, EmoFieldMap !! k = Some (f, n) → named f ∧ Z.of_nat k = enum_value f)
        (seq 1 110)) as T by by repeat (constructor; [by intros ?? [= <- <-]|]).
      rewrite Forall_forall in T. specialize (T (Z.to_nat i)). rewrite elem_of_seq in T.
      change (enum_value EMO_FIELD_UNKNOWN_FIELD) with 111 in *.
      destruct (T ltac:(lia) f n Hi) as [Hf E]. split; [done|]. lia.
    + intros (f & Hf & ->). rewrite Hs by done. by eexists.
Qed.
Lemma emo_field_names_roundtrip_witness :
  emo_field_to_string 3 = Some (lit "array"%string) ∧ emo_field_to_int (Some (lit "array"%string)) = 3 ∧
  emo_field_to_int (Some (lit "colour"%string)) = 111.
Proof.
  destruct emo_field_names_roundtrip as (H1 & H2 & _).
  destruct (H1 EMO_FIELD_ARRAY ltac:(done)) as [? ?]. split_and!; [done|done|].
  apply H2. intros f [? ?]. by destruct f.
Defined.

Lemma until_nul_app s rest : nul ∉ s → until_nul (s ++ nul :: rest) = Some s.
Proof.
  induction s as [|c s IH]; intros Hs; [done|]. apply not_elem_of_cons in Hs as [? Hs]. simpl.
  destruct (Z.eqb_spec c nul); [congruence|]. by rewrite IH.
Qed.
(** One pass of the loop over each name of the table. *)
Lemma builtin_loop_names s l1 l2 fuel p :
  EMO_TYPE_NAMES = l1 ++ concat ((λ n, n ++ [nul]) <$> l2) ++ [nul; nul] → p = length l1 →
  Forall (λ n, nul ∉ n ∧ n ≠ []) l2 → (length l2 < fuel)%nat → s ∉ l2 →
  builtin_loop fuel s p () = Ok (None, ()).
Proof.
  revert l1 fuel p; induction l2 as [|n l2 IH]; intros l1 [|fuel] p E -> Hl Hf Hs; try (simpl in Hf; lia).
  - simpl in E. cbn [builtin_loop]. assert (EMO_TYPE_NAMES !! length l1 = Some nul) as Hn
      by by rewrite E, lookup_app_r, Nat.sub_diag by lia.
    rewrite Hn. by erewrite bind_Ok by reflexivity.
  - apply Forall_cons in Hl as [[Hn0 Hn] Hl]. apply not_elem_of_cons in Hs as [Hne Hs].
    cbn [builtin_loop fmap list_fmap concat] in *.
    assert (c_str (length l1) = Some n) as Hc.
    { unfold c_str. rewrite E, drop_app_length, <-!(assoc_L app). cbn [app].
      by apply until_nul_app. }
    destruct n as [|c n]; [done|].
    assert (EMO_TYPE_NAMES !! length l1 = Some c) as Hl1
      by by rewrite E, lookup_app_r, Nat.sub_diag by lia.
    rewrite Hl1. erewrite bind_Ok by reflexivity.
    apply not_elem_of_cons in Hn0 as [? ?]. destruct (Z.eqb_spec c nul); [congruence|].
    rewrite Hc. erewrite bind_Ok by reflexivity. rewrite decide_False by done.
    apply (IH (l1 ++ (c :: n) ++ [nul])); [|rewrite !length_app; simpl; lia|done|simpl in Hf; lia|done].
    by rewrite E, <-!(assoc_L app).
Qed.

Lemma builtin_found :
  Forall (λ p, emo_builtin_type p.2 () = Ok (Some p.1, ()) ∧
      EMO_TYPE_IS_BUILTIN p.1 = true ∧ c_str p.1 = Some p.2) builtin_types.
Proof. by repeat (constructor; [done|]). Qed.
Lemma builtin_not_found s : s ∉ builtin_types.*2 → emo_builtin_type s () = Ok (None, ()).
Proof.
  intros Hs. apply (builtin_loop_names s [] builtin_types.*2); [reflexivity|done| | |done].
  - apply (bool_decide_unpack _). vm_compute. done.
  - vm_compute. lia.
Qed.
Lemma builtin_types_NoDup : NoDup builtin_types.*1 ∧ NoDup builtin_types.*2.
Proof. split; apply (bool_decide_unpack _); vm_compute; done. Qed.

(** Looking a type name up in the table of built-in names gives the pointer
    that the constant of that name was initialised with, so that built-in types
    can be compared by pointer; other texts are not found. *)
Theorem emo_builtin_type_spec :
  (∀ off name, (off, name) ∈ builtin_types →
     emo_builtin_type name () = Ok (Some off, ()) ∧ EMO_TYPE_IS_BUILTIN off = true ∧
     c_str off = Some name) ∧
  NoDup builtin_types.*1 ∧
  (∀ s, s ∉ builtin_types.*2 → emo_builtin_type s () = Ok (None, ())).
Proof.
  pose proof builtin_found as T. rewrite Forall_forall in T.
  split_and!; [intros off name Hin; exact (T _ Hin)|apply builtin_types_NoDup|apply builtin_not_found].
Qed.
Lemma emo_builtin_type_spec_witness :
  emo_builtin_type (lit "frame"%string) () = Ok (Some EMO_TYPE_FRAME, ()) ∧
  emo_builtin_type (lit "window"%string) () = Ok (None, ()).
Proof.
  destruct emo_builtin_type_spec as (H1 & _ & H3). split.
  - apply (H1 EMO_TYPE_FRAME). unfold builtin_types. repeat constructor.
  - apply H3. apply (bool_decide_unpack _). reflexivity.
Defined.
