(* ===== verification/Fields.v ===== *)
(** * DataObject.c: the fields of data objects

    A [DataObjectField] is a tagged union on the heap with flags.  A string payload is
    either a pointer into the literal of built-in type names or a string the field
    owns, which [p_strdup] allocated for it alone. *)
From S2P Require Import Prelude Pixels CStrings FieldNames.

Inductive str_ptr :=
  | SBuiltin (off : nat)
  | SHeap (s : cstring)
  | SRaw (i : Z).          (* an integer that was stored over the pointer *)
Inductive DOFValue :=
  | DOF_STRING (string : str_ptr)
  | DOF_DATA (bytes : list Z) (size : Z)
  | DOF_INT (integer : Z)
  | DOF_UINT (uinteger : Z).
Record DataObjectField := mkField { f_value : DOFValue; f_flags : Z }.
#[export] Instance str_ptr_eq_dec : EqDecision str_ptr.
Proof. solve_decision. Defined.
#[export] Instance DOFValue_eq_dec : EqDecision DOFValue.
Proof. solve_decision. Defined.
#[export] Instance DataObjectField_eq_dec : EqDecision DataObjectField.
Proof. solve_decision. Defined.

Definition DOFF_ARRAYSOURCE : Z := 0x01.
Definition DOFF_DERIVED : Z := 0x04.
Definition DOFF_CHANGED : Z := 0x08.

Abbreviation floc := positive.
Record fheap := mkFH { fh : gmap floc DataObjectField; fh_brk : floc }.
Abbreviation FM := (M fheap).

Definition get_field (f : floc) : FM DataObjectField := λ h,
  match fh h !! f with Some c => Ok (c, h) | None => Fault end.
Definition set_field (f : floc) (c : DataObjectField) : FM () := λ h,
  match fh h !! f with Some _ => Ok ((), mkFH (<[f := c]> (fh h)) (fh_brk h)) | None => Fault end.
Definition free_field (f : floc) : FM () := λ h,
  match fh h !! f with Some _ => Ok ((), mkFH (delete f (fh h)) (fh_brk h)) | None => Fault end.
Definition new_field (v : DOFValue) (flags : Z) : FM floc := λ h,
  Ok (fh_brk h, mkFH (<[fh_brk h := mkField v flags]> (fh h)) (Pos.succ (fh_brk h))).

Definition is_builtin (p : str_ptr) : bool :=
  match p with SBuiltin off => EMO_TYPE_IS_BUILTIN off | SHeap _ | SRaw _ => false end.
(** The characters a string pointer leads to. *)
Definition str_content (p : str_ptr) : option cstring :=
  match p with SBuiltin off => c_str off | SHeap s => Some s | SRaw _ => None end.
(** [p_free] on a string: only the heap can be freed. *)
Definition free_string (p : str_ptr) : FM () :=
  match p with SHeap _ => mret () | SBuiltin _ | SRaw _ => fault end.
(** The members of the union read and written whatever the type says.  The value of
    an address is not modelled, so an integer is not read from a pointer. *)
Definition field_integer (c : DataObjectField) : option Z :=
  match f_value c with
  | DOF_INT i => Some i
  | DOF_UINT u => Some (int32 u)
  | DOF_STRING (SRaw i) => Some i
  | _ => None
  end.
Definition field_string (c : DataObjectField) : option str_ptr :=
  match f_value c with
  | DOF_STRING p => Some p
  | DOF_INT i => Some (SRaw i)
  | DOF_UINT u => Some (SRaw (int32 u))
  | DOF_DATA _ _ => None
  end.
Definition set_integer (f : floc) (i : Z) : FM () :=
  c ← get_field f;
  v ← (match f_value c with
       | DOF_INT _ => mret (DOF_INT i)
       | DOF_UINT _ => mret (DOF_UINT (uint32 i))
       | DOF_STRING _ => mret (DOF_STRING (SRaw i))
       | DOF_DATA _ _ => fault
       end);
  set_field f (mkField v (f_flags c)).
Definition get_integer (f : floc) : FM Z := c ← get_field f; deref (field_integer c).
Definition get_string (f : floc) : FM str_ptr := c ← get_field f; deref (field_string c).
Definition is_string (f : floc) : FM bool :=
  c ← get_field f; mret (match f_value c with DOF_STRING _ => true | _ => false end).

(** [EMO_DOF_IS_TYPE]: the field is followed whatever its type; an integer or data
    payload is not one of the type pointers. *)
Definition EMO_DOF_IS_TYPE (f : option floc) (ty : nat) : FM bool :=
  f ← deref f; c ← get_field f;
  mret (match f_value c with DOF_STRING p => bool_decide (p = SBuiltin ty) | _ => false end).

Definition set_flag (b : bool) (flag flags : Z) : Z :=
  if b then Z.lor flags flag else Z.ldiff flags flag.
Definition has_flag (flag flags : Z) : bool := negb (Z.land flags flag =? 0).

(** ** Operations *)
Definition dataobjectfield_free (f : option floc) : FM () :=
  f ← emo_nonnull f; c ← get_field f;
  (match f_value c with
   | DOF_STRING p => if is_builtin p then mret () else free_string p
   | _ => mret ()
   end);;
  free_field f.

Definition dataobjectfield_setIsDerived (f : option floc) (isderived : bool) : FM () :=
  f ← emo_nonnull f; c ← get_field f;
  set_field f (mkField (f_value c) (set_flag isderived DOFF_DERIVED (f_flags c))).
Definition dataobjectfield_setIsModified (f : option floc) (isModified : bool) : FM () :=
  f ← emo_nonnull f; c ← get_field f;
  set_field f (mkField (f_value c) (set_flag isModified DOFF_CHANGED (f_flags c))).

Definition p_strdup (s : option str_ptr) : FM str_ptr :=
  s ← emo_nonnull s; s ← deref (str_content s); mret (SHeap s).
Definition dataobjectfield_string (s : option str_ptr) : FM floc :=
  s ← emo_nonnull s; s ← p_strdup (Some s); new_field (DOF_STRING s) 0.
Definition dataobjectfield_data (data : option (list Z)) (size : Z) : FM floc :=
  data ← emo_nonnull data; emo_assert (negb (size =? 0));; new_field (DOF_DATA data size) 0.
Definition dataobjectfield_int (val : Z) : FM floc := new_field (DOF_INT val) 0.
Definition dataobjectfield_uint (val : Z) : FM floc := new_field (DOF_UINT val) 0.

(** The result is an [int]. *)
Definition dataobjectfield_isTrue (f : option floc) : FM Z :=
  match f with
  | None => mret 0
  | Some f =>
      c ← get_field f;
      match f_value c with
      | DOF_STRING p =>
          s ← deref (str_content p);
          mret (if bool_decide (s = lit "true"%string ∨ s = lit "1"%string) then 1 else 0)
      | DOF_INT i => mret i
      | DOF_UINT u => mret (int32 u)
      | DOF_DATA _ _ => mret 0
      end
  end.
Definition isString_inline (f : option floc) (str : cstring) : FM bool :=
  match f with
  | None => mret false
  | Some f =>
      c ← get_field f;
      match f_value c with
      | DOF_STRING p => s ← deref (str_content p); mret (bool_decide (s = str))
      | _ => mret false
      end
  end.
Definition dataobjectfield_isString (f : option floc) (str : option cstring) : FM bool :=
  str ← emo_nonnull str; isString_inline f str.

Definition dataobjectfield_setBoolean (f : option floc) (bval : Z) : FM () :=
  f ← emo_nonnull f; c ← get_field f;
  match f_value c with
  | DOF_STRING p =>
      emo_assert (negb (is_builtin p));;
      free_string p;;
      s ← p_strdup (Some (SHeap (if bval =? 0 then lit "0"%string else lit "1"%string)));
      set_field f (mkField (DOF_STRING s) (f_flags c))
  | DOF_INT _ => set_field f (mkField (DOF_INT bval) (f_flags c))
  | DOF_UINT _ => set_field f (mkField (DOF_UINT (uint32 bval)) (f_flags c))
  | DOF_DATA _ _ => mret ()
  end.
(** The old payload of a data field is not freed. *)
Definition dataobjectfield_setString (f : option floc) (bval : option str_ptr) : FM () :=
  f ← emo_nonnull f; c ← get_field f;
  (match f_value c with
   | DOF_STRING p => if is_builtin p then mret () else free_string p
   | _ => mret ()
   end);;
  s ← p_strdup bval;
  set_field f (mkField (DOF_STRING s) (f_flags c)).

(** [p_malloc (size)] and [memcpy]; no memory is found for a size that is not positive. *)
Definition copy_data (bytes : list Z) (size : Z) : FM (list Z) :=
  emo_assert (bool_decide (0 < size));;
  if bool_decide (size ≤ Z.of_nat (length bytes)) then mret (take (Z.to_nat size) bytes) else fault.
Definition dataobjectfield_copy (f : option floc) : FM floc :=
  f ← emo_nonnull f; c ← get_field f;
  output ← (match f_value c with
            | DOF_INT i => dataobjectfield_int i
            | DOF_UINT u => dataobjectfield_uint u
            | DOF_DATA bytes size => data ← copy_data bytes size; dataobjectfield_data (Some data) size
            | DOF_STRING p => dataobjectfield_string (Some p)
            end);
  o ← get_field output;
  set_field output (mkField (f_value o) (f_flags c));;
  mret output.

(** ** Conversion to an integer

    The common part of [dataobject_getEnumAsInt] and [dataobject_getValueAsInt]: a
    string is converted in place, "#" starting a colour. *)
Definition color_number (digits : cstring) : Z :=
  let n := strtoul16 digits in
  match length digits with
  | 6%nat => Z.lor (uint32 (Z.shiftl n 8)) 0xFF
  | 3%nat =>
      let u := Z.lor (uint32 (Z.shiftl (Z.land n 0xF00) 20)) (uint32 (Z.shiftl (Z.land n 0xF00) 16)) in
      let u := Z.lor u (Z.lor (Z.shiftl (Z.land n 0x0F0) 16) (Z.shiftl (Z.land n 0x0F0) 12)) in
      let u := Z.lor u (Z.lor (Z.shiftl (Z.land n 0x00F) 12) (Z.land n 0x00F)) in
      Z.lor u 0xFF
  | _ => n
  end.
Definition field_as_int (f : option floc) : FM (option floc) :=
  match f with
  | None => mret None
  | Some f =>
      c ← get_field f;
      match f_value c with
      | DOF_INT _ | DOF_UINT _ => mret (Some f)
      | DOF_STRING p =>
          str ← deref (str_content p);
          i ← (match str with
               | 35 :: digits => mret (int32 (color_number digits))
               | _ => deref (atoi str)
               end);
          set_field f (mkField (DOF_INT i) (f_flags c));;
          free_string p;;
          mret (Some f)
      | DOF_DATA _ _ => mret None
      end
  end.

Definition demo_field (v : DOFValue) : fheap := mkFH {[1%positive := mkField v 0]} 2.
Example as_int_red : field_as_int (Some 1%positive) (demo_field (DOF_STRING (SHeap (lit "#FF0000"%string)))) =
  Ok (Some 1%positive, demo_field (DOF_INT (int32 0xFF0000FF))).
Proof. reflexivity. Qed.
Example as_int_blue3 : field_as_int (Some 1%positive) (demo_field (DOF_STRING (SHeap (lit "#00F"%string)))) =
  Ok (Some 1%positive, demo_field (DOF_INT 0x0000F0FF)).
Proof. reflexivity. Qed.
Example as_int_neg : field_as_int (Some 1%positive) (demo_field (DOF_STRING (SHeap (lit " -12px"%string)))) =
  Ok (Some 1%positive, demo_field (DOF_INT (-12))).
Proof. reflexivity. Qed.

(** ** Colours *)
Definition hex_text (s : cstring) (ds : list Z) : Prop := Forall2 (λ c d, hex_digit c = Some d) s ds.
Definition hex_value (ds : list Z) : Z := foldl (λ a d, a * 16 + d) 0 ds.
Definition rgba (r g b a : Z) : Z := ((r * 256 + g) * 256 + b) * 256 + a.

Lemma hex_digit_range c d : hex_digit c = Some d → 0 ≤ d < 16 ∧ 48 ≤ c ∧ c ≠ 120 ∧ c ≠ 88.
Proof.
  unfold hex_digit. destruct (Z.leb_spec 48 c), (Z.leb_spec c 57), (Z.leb_spec 65 c),
    (Z.leb_spec c 70), (Z.leb_spec 97 c), (Z.leb_spec c 102); simpl; intros [= <-]; lia.
Qed.
Lemma hex_digits_value s ds acc n :
  hex_text s ds → (length s ≤ n)%nat → 0 ≤ acc → (acc + 1) * 16 ^ Z.of_nat n ≤ 2 ^ 32 →
  hex_digits s acc = foldl (λ a d, a * 16 + d) acc ds.
Proof.
  intros Hs. revert acc n. induction Hs as [|c d s ds Hc Hs IH]; intros acc n Hn Ha Hb; [done|].
  simpl in *. destruct n as [|n]; [lia|]. rewrite Hc. apply hex_digit_range in Hc as [Hd _].
  rewrite Nat2Z.inj_succ, Z.pow_succ_r in Hb by lia.
  assert (0 < 16 ^ Z.of_nat n) by (apply Z.pow_pos_nonneg; lia).
  rewrite Z.min_l by nia. apply (IH _ n); [lia|lia|nia].
Qed.
Lemma hex_number_other c s : c ≠ 48 → hex_number (c :: s) = hex_digits (c :: s) 0.
Proof.
  intros Hc. destruct c as [|p|p]; [done| |done].
  do 6 (destruct p as [p|p|]; try done).
Qed.
Lemma strtoul16_hex s ds : hex_text s ds → (length s ≤ 8)%nat → strtoul16 s = hex_value ds.
Proof.
  intros Hs Hl. pose proof (hex_digits_value s ds 0 8 Hs Hl) as E.
  assert (hex_number s = hex_digits s 0) as Hn.
  { destruct Hs as [|c d s ds Hc Hs]; [done|].
    destruct (decide (c = 48)) as [->|?]; [|by apply hex_number_other].
    destruct Hs as [|x d2 s ds Hx Hs]; [done|]. apply hex_digit_range in Hx.
    destruct s as [|y s]; [done|]. unfold hex_number.
    destruct (Z.eqb_spec x 120), (Z.eqb_spec x 88); simpl; try lia; done. }
  destruct Hs as [|c d s ds Hc Hs]; [done|]. cbn [strtoul16].
  apply hex_digit_range in Hc. destruct (Z.eqb_spec c 32), (Z.leb_spec 9 c), (Z.leb_spec c 13),
    (Z.eqb_spec c 43), (Z.eqb_spec c 45); cbn [orb andb]; try lia; rewrite Hn; apply E; lia.
Qed.

(** The three-digit form, for all digits. *)
Definition short_color_ok (n : Z) : bool :=
  (Z.lor (Z.lor (Z.lor (Z.lor (uint32 (Z.shiftl (Z.land n 0xF00) 20)) (uint32 (Z.shiftl (Z.land n 0xF00) 16)))
     (Z.lor (Z.shiftl (Z.land n 0x0F0) 16) (Z.shiftl (Z.land n 0x0F0) 12)))
     (Z.lor (Z.shiftl (Z.land n 0x00F) 12) (Z.land n 0x00F))) 0xFF =?
   rgba (17 * (n / 256)) (17 * (n / 16 mod 16)) (16 * (n mod 16)) 255).
Lemma short_colors n : 0 ≤ n < 4096 → short_color_ok n = true.
Proof.
  assert (forallb short_color_ok (seqZ 0 4096) = true) as H by (vm_compute; done).
  intros Hn. rewrite forallb_forall in H. apply H. apply list_elem_of_In, elem_of_seqZ. lia.
Qed.
Lemma hex_value_3 r g b : hex_value [r; g; b] = r * 256 + g * 16 + b.
Proof. unfold hex_value. simpl. lia. Qed.
Lemma opaque_color n : 0 ≤ n < 2 ^ 24 → Z.lor (uint32 (Z.shiftl n 8)) 0xFF = n * 256 + 255.
Proof.
  intros Hn. rewrite Z.shiftl_mul_pow2, uint32_small by lia.
  change 0xFF with (255 + 0 * 2 ^ 8). change (n * 2 ^ 8) with (0 + n * 2 ^ 8).
  rewrite lor_split, Z.lor_0_r by lia. change (Z.lor 0 255) with 255. lia.
Qed.

(** What a colour text means: eight digits are red, green, blue and alpha, six are
    opaque, three stand for doubled digits. *)
Definition color_meant (ds : list Z) : option Z :=
  match ds with
  | [r1; r2; g1; g2; b1; b2; a1; a2] =>
      Some (rgba (r1 * 16 + r2) (g1 * 16 + g2) (b1 * 16 + b2) (a1 * 16 + a2))
  | [r1; r2; g1; g2; b1; b2] => Some (rgba (r1 * 16 + r2) (g1 * 16 + g2) (b1 * 16 + b2) 255)
  | [r; g; b] => Some (rgba (17 * r) (17 * g) (17 * b) 255)
  | _ => None
  end.

Lemma color_number_spec s ds v :
  hex_text s ds → color_meant ds = Some v →
  color_number s = match ds with [_; _; b] => v - b * 256 | _ => v end.
Proof.
  intros Hs Hv. pose proof (Forall2_length _ _ _ Hs) as Hl.
  assert (Forall (λ d, 0 ≤ d < 16) ds) as Hd.
  { clear Hv Hl. induction Hs; constructor; [by eapply hex_digit_range|done]. }
  unfold color_number. rewrite Hl.
  destruct ds as [|d1 [|d2 [|d3 [|d4 [|d5 [|d6 [|d7 [|d8 [|]]]]]]]]]; simplify_eq/=;
    rewrite (strtoul16_hex _ _ Hs) by lia; repeat (apply Forall_cons in Hd as [? Hd]).
  - rewrite hex_value_3. set (n := d1 * 256 + d2 * 16 + d3).
    assert (0 ≤ n < 4096) as Hn by lia.
    etransitivity; [exact (proj1 (Z.eqb_eq _ _) (short_colors n Hn))|].
    replace (n / 256) with d1 by (unfold n; Z.div_mod_to_equations; lia).
    replace (n / 16 mod 16) with d2 by (unfold n; Z.div_mod_to_equations; lia).
    replace (n mod 16) with d3 by (unfold n; Z.div_mod_to_equations; lia).
    unfold rgba. lia.
  - rewrite opaque_color; unfold hex_value, rgba; simpl; lia.
  - unfold hex_value, rgba. simpl. lia.
Qed.

(** A field that holds a colour text becomes the integer of that colour, in place,
    its flags kept and its string freed: eight digits give red, green, blue and alpha,
    six an opaque colour.  The three-digit form doubles red and green but not blue,
    whose value comes out sixteen times its digit.  A second conversion changes
    nothing. *)
Theorem field_as_int_color h f s ds fl v :
  fh h !! f = Some (mkField (DOF_STRING (SHeap (35 :: s))) fl) → hex_text s ds →
  color_meant ds = Some v →
  let i := int32 (match ds with [_; _; b] => v - b * 256 | _ => v end) in
  let h' := mkFH (<[f := mkField (DOF_INT i) fl]> (fh h)) (fh_brk h) in
  field_as_int (Some f) h = Ok (Some f, h') ∧ field_as_int (Some f) h' = Ok (Some f, h').
Proof.
  intros Hf Hs Hv i h'. split.
  - unfold field_as_int, get_field. erewrite bind_Ok by by rewrite Hf.
    cbn [f_value str_content]. erewrite bind_Ok by reflexivity. erewrite bind_Ok by reflexivity.
    rewrite (color_number_spec s ds v Hs Hv). unfold set_field. erewrite bind_Ok by by rewrite Hf.
    done.
  - assert (fh h' !! f = Some (mkField (DOF_INT i) fl)) as Hf' by apply lookup_insert_eq.
    unfold field_as_int, get_field. by erewrite bind_Ok by by rewrite Hf'.
Qed.
Lemma field_as_int_color_witness :
  field_as_int (Some 1%positive) (demo_field (DOF_STRING (SHeap (35 :: lit "8f0"%string)))) =
    Ok (Some 1%positive, mkFH (<[1%positive := mkField (DOF_INT (int32 0x88FF00FF)) 0]>
      (fh (demo_field (DOF_STRING (SHeap (35 :: lit "8f0"%string)))))) 2).
Proof.
  apply (field_as_int_color (demo_field (DOF_STRING (SHeap (35 :: lit "8f0"%string)))) 1%positive
    (lit "8f0"%string) [8; 15; 0] 0 (rgba (17 * 8) (17 * 15) (17 * 0) 255)); [reflexivity| |reflexivity].
  repeat constructor.
Defined.
