(* ===== verification/DataObjects.v ===== *)
(** * DataObject.c: data objects and their tree

    A [DataObject] is a heap object with two maps of fields, a list of children, a
    parent and a reference to another object.  The maps and the lists are the
    sequences that Maps.v and Lists.v show Map.c and List.c to maintain: [al_find],
    [al_append] and [al_remove] for the maps, whose keys are tested for NULL as
    Map.c does, list append and prepend for the children.  Members that
    [dataobject_new] leaves uninitialised are [None] until they are set. *)
From S2P Require Import Prelude Lgui CStrings FieldNames Fields.

Abbreviation oloc := positive.
Inductive DataObjectState := DOS_INIT | DOS_SYNC | DOS_OK | DOS_ERROR.
Record DataObject := mkObj {
  o_data : list (cstring * floc);
  o_enumData : list (Z * floc);
  o_isLocal : option Z;
  o_state : DataObjectState;
  o_stampMinor : option Z;
  o_stampMajor : option Z;
  o_referenced : list oloc;
  o_children : list oloc;
  o_arrayChildren : list oloc;
  o_parent : option oloc;
  o_margin : Rectangle;
  o_box : Rectangle;
  o_childBox : option (Z * Z);   (* width and height, all that is used *)
  o_position : option (Z * Z);
  o_packing : Z;
  o_widgetData : option oloc;
  o_flags1 : Z;
  o_scriptContext : option Z }.

Definition DO_FLAG_DIRTY : Z := 0x01.
Definition DO_FLAG_LAYOUT_DIRTY_WIDTH : Z := 0x02.
Definition DO_FLAG_LAYOUT_DIRTY_HEIGHT : Z := 0x04.
Definition DO_FLAG_RECORD_TYPE : Z := 0x08.
Definition DO_FLAG_FORCE_SYNC : Z := 0x10.
Definition DO_FLAG_CHANGED : Z := 0x20.
Definition WP_VERTICAL : Z := 1.

Definition with_data d o := mkObj d (o_enumData o) (o_isLocal o) (o_state o) (o_stampMinor o)
  (o_stampMajor o) (o_referenced o) (o_children o) (o_arrayChildren o) (o_parent o) (o_margin o)
  (o_box o) (o_childBox o) (o_position o) (o_packing o) (o_widgetData o) (o_flags1 o) (o_scriptContext o).
Definition with_enumData e o := mkObj (o_data o) e (o_isLocal o) (o_state o) (o_stampMinor o)
  (o_stampMajor o) (o_referenced o) (o_children o) (o_arrayChildren o) (o_parent o) (o_margin o)
  (o_box o) (o_childBox o) (o_position o) (o_packing o) (o_widgetData o) (o_flags1 o) (o_scriptContext o).
Definition with_state s o := mkObj (o_data o) (o_enumData o) (o_isLocal o) s (o_stampMinor o)
  (o_stampMajor o) (o_referenced o) (o_children o) (o_arrayChildren o) (o_parent o) (o_margin o)
  (o_box o) (o_childBox o) (o_position o) (o_packing o) (o_widgetData o) (o_flags1 o) (o_scriptContext o).
Definition with_stamp mi ma o := mkObj (o_data o) (o_enumData o) (o_isLocal o) (o_state o) (Some mi)
  (Some ma) (o_referenced o) (o_children o) (o_arrayChildren o) (o_parent o) (o_margin o)
  (o_box o) (o_childBox o) (o_position o) (o_packing o) (o_widgetData o) (o_flags1 o) (o_scriptContext o).
Definition with_referenced r o := mkObj (o_data o) (o_enumData o) (o_isLocal o) (o_state o) (o_stampMinor o)
  (o_stampMajor o) r (o_children o) (o_arrayChildren o) (o_parent o) (o_margin o)
  (o_box o) (o_childBox o) (o_position o) (o_packing o) (o_widgetData o) (o_flags1 o) (o_scriptContext o).
Definition with_children c o := mkObj (o_data o) (o_enumData o) (o_isLocal o) (o_state o) (o_stampMinor o)
  (o_stampMajor o) (o_referenced o) c (o_arrayChildren o) (o_parent o) (o_margin o)
  (o_box o) (o_childBox o) (o_position o) (o_packing o) (o_widgetData o) (o_flags1 o) (o_scriptContext o).
Definition with_parent p o := mkObj (o_data o) (o_enumData o) (o_isLocal o) (o_state o) (o_stampMinor o)
  (o_stampMajor o) (o_referenced o) (o_children o) (o_arrayChildren o) p (o_margin o)
  (o_box o) (o_childBox o) (o_position o) (o_packing o) (o_widgetData o) (o_flags1 o) (o_scriptContext o).
Definition with_widgetData w o := mkObj (o_data o) (o_enumData o) (o_isLocal o) (o_state o) (o_stampMinor o)
  (o_stampMajor o) (o_referenced o) (o_children o) (o_arrayChildren o) (o_parent o) (o_margin o)
  (o_box o) (o_childBox o) (o_position o) (o_packing o) w (o_flags1 o) (o_scriptContext o).
Definition with_flags1 f o := mkObj (o_data o) (o_enumData o) (o_isLocal o) (o_state o) (o_stampMinor o)
  (o_stampMajor o) (o_referenced o) (o_children o) (o_arrayChildren o) (o_parent o) (o_margin o)
  (o_box o) (o_childBox o) (o_position o) (o_packing o) (o_widgetData o) f (o_scriptContext o).
Definition with_scriptContext s o := mkObj (o_data o) (o_enumData o) (o_isLocal o) (o_state o) (o_stampMinor o)
  (o_stampMajor o) (o_referenced o) (o_children o) (o_arrayChildren o) (o_parent o) (o_margin o)
  (o_box o) (o_childBox o) (o_position o) (o_packing o) (o_widgetData o) (o_flags1 o) s.
Definition with_arrayChildren c o := mkObj (o_data o) (o_enumData o) (o_isLocal o) (o_state o) (o_stampMinor o)
  (o_stampMajor o) (o_referenced o) (o_children o) c (o_parent o) (o_margin o)
  (o_box o) (o_childBox o) (o_position o) (o_packing o) (o_widgetData o) (o_flags1 o) (o_scriptContext o).
Definition with_margin m o := mkObj (o_data o) (o_enumData o) (o_isLocal o) (o_state o) (o_stampMinor o)
  (o_stampMajor o) (o_referenced o) (o_children o) (o_arrayChildren o) (o_parent o) m
  (o_box o) (o_childBox o) (o_position o) (o_packing o) (o_widgetData o) (o_flags1 o) (o_scriptContext o).
Definition with_box b o := mkObj (o_data o) (o_enumData o) (o_isLocal o) (o_state o) (o_stampMinor o)
  (o_stampMajor o) (o_referenced o) (o_children o) (o_arrayChildren o) (o_parent o) (o_margin o)
  b (o_childBox o) (o_position o) (o_packing o) (o_widgetData o) (o_flags1 o) (o_scriptContext o).
Definition with_childBox b o := mkObj (o_data o) (o_enumData o) (o_isLocal o) (o_state o) (o_stampMinor o)
  (o_stampMajor o) (o_referenced o) (o_children o) (o_arrayChildren o) (o_parent o) (o_margin o)
  (o_box o) b (o_position o) (o_packing o) (o_widgetData o) (o_flags1 o) (o_scriptContext o).

(** ** The heap of objects *)
Record world := mkWorld {
  w_objs : gmap oloc DataObject;
  w_brk : oloc;
  w_fields : fheap }.
Abbreviation DM := (M world).

Definition on_fields {B} (m : FM B) : DM B := λ w,
  match m (w_fields w) with
  | Ok (b, h) => Ok (b, mkWorld (w_objs w) (w_brk w) h)
  | Abort => Abort | Fault => Fault | NoFuel => NoFuel
  end.
Definition get_obj (d : oloc) : DM DataObject := λ w,
  match w_objs w !! d with Some o => Ok (o, w) | None => Fault end.
Definition upd_obj (d : oloc) (f : DataObject → DataObject) : DM () := λ w,
  match w_objs w !! d with
  | Some o => Ok ((), mkWorld (<[d := f o]> (w_objs w)) (w_brk w) (w_fields w))
  | None => Fault
  end.
Definition malloc_obj (o : DataObject) : DM oloc := λ w,
  Ok (w_brk w, mkWorld (<[w_brk w := o]> (w_objs w)) (Pos.succ (w_brk w)) (w_fields w)).
(** A bound for a walk that visits no object twice. *)
Definition walk_fuel (w : world) : nat := S (size (w_objs w)).

Definition empty_object : DataObject :=
  mkObj [] [] None DOS_OK None None [] [] [] None (rectangle_zero) (rectangle_zero) None None WP_VERTICAL None 0 None.
Definition dataobject_new : DM oloc := malloc_obj empty_object.

(** ** Flags and simple members *)
Definition dataobject_setRecordType (d : option oloc) (isRecord : bool) : DM () :=
  d ← emo_nonnull d; upd_obj d (λ o, with_flags1 (set_flag isRecord DO_FLAG_RECORD_TYPE (o_flags1 o)) o).
Definition dataobject_getRecordType (d : option oloc) : DM Z :=
  d ← emo_nonnull d; o ← get_obj d; mret (Z.land (o_flags1 o) DO_FLAG_RECORD_TYPE).
Definition dataobject_appendRecord (d r : option oloc) : DM () :=
  d ← emo_nonnull d; r ← emo_nonnull r; upd_obj d (λ o, with_children (o_children o ++ [r]) o).
Definition dataobject_getChildCount (d : option oloc) : DM Z :=
  d ← emo_nonnull d; o ← get_obj d; mret (int32 (Z.of_nat (length (o_children o)))).
Definition dataobject_isLocal (d : option oloc) : DM Z :=
  d ← emo_nonnull d; o ← get_obj d; deref (o_isLocal o).
Definition dataobject_getState (d : option oloc) : DM DataObjectState :=
  d ← emo_nonnull d; o ← get_obj d; mret (o_state o).
Definition dataobject_setState (d : option oloc) (s : DataObjectState) : DM () :=
  d ← emo_nonnull d; upd_obj d (with_state s).
Definition dataobject_getStamp (d : option oloc) : DM (Z * Z) :=
  d ← emo_nonnull d; o ← get_obj d;
  mi ← deref (o_stampMinor o); ma ← deref (o_stampMajor o); mret (mi, ma).
Definition dataobject_setStamp (d : option oloc) (stampMinor stampMajor : Z) : DM () :=
  d ← emo_nonnull d; upd_obj d (with_stamp stampMinor stampMajor).
Definition dataobject_isDirty (d : option oloc) : DM Z :=
  d ← emo_nonnull d; o ← get_obj d; mret (Z.land (o_flags1 o) DO_FLAG_DIRTY).
Definition dataobject_setDirty (d : option oloc) : DM () :=
  d ← emo_nonnull d; upd_obj d (λ o, with_flags1 (set_flag true DO_FLAG_DIRTY (o_flags1 o)) o).
Definition dataobject_setClean (d : option oloc) : DM () :=
  d ← emo_nonnull d; upd_obj d (λ o, with_flags1 (set_flag false DO_FLAG_DIRTY (o_flags1 o)) o).
Definition dataobject_isLayoutDirty (d : option oloc) (wh : Z) : DM Z :=
  d ← emo_nonnull d; o ← get_obj d; mret (Z.land (o_flags1 o) wh).
Definition dataobject_setLayoutDirty (d : option oloc) (wh : Z) : DM () :=
  d ← emo_nonnull d; upd_obj d (λ o, with_flags1 (set_flag true wh (o_flags1 o)) o).
Definition dataobject_setLayoutClean (d : option oloc) (wh : Z) : DM () :=
  d ← emo_nonnull d; upd_obj d (λ o, with_flags1 (set_flag false wh (o_flags1 o)) o).
Definition dataobject_forceSyncFlag (d : option oloc) (isFlag : bool) : DM () :=
  d ← emo_nonnull d; upd_obj d (λ o, with_flags1 (set_flag isFlag DO_FLAG_FORCE_SYNC (o_flags1 o)) o).
Definition dataobject_setScriptContext (d : option oloc) (ctx : option Z) : DM () :=
  d ← emo_nonnull d; upd_obj d (with_scriptContext ctx).
Definition dataobject_getScriptContext (d : option oloc) : DM (option Z) :=
  d ← emo_nonnull d; o ← get_obj d; mret (o_scriptContext o).

(** ** References to other objects (Widget.c) *)
Fixpoint widget_data_loop (fuel : nat) (d : oloc) : DM oloc :=
  match fuel with
  | O => no_fuel
  | S fuel =>
      o ← get_obj d;
      match o_widgetData o with Some d' => widget_data_loop fuel d' | None => mret d end
  end.
(** Terminates when the chain of references has no cycle. *)
Definition widget_getDataObject (d : option oloc) : DM oloc :=
  d ← emo_nonnull d; w ← get; widget_data_loop (walk_fuel w) d.
Fixpoint remove_first (d : oloc) (l : list oloc) : list oloc :=
  match l with [] => [] | c :: l => if decide (c = d) then l else c :: remove_first d l end.
Definition widget_setDataObject (d : option oloc) (dobj : option oloc) : DM () :=
  d ← emo_nonnull d; o ← get_obj d;
  (match o_widgetData o with
   | Some old => upd_obj old (λ r, with_referenced (remove_first d (o_referenced r)) r)
   | None => mret ()
   end);;
  upd_obj d (with_widgetData dobj);;
  match dobj with
  | Some n => upd_obj n (λ r, with_referenced (o_referenced r ++ [d]) r)
  | None => mret ()
  end.

(** ** Fields of objects *)
(** The tests of [map_find], [map_append] and [map_remove] on an integer key. *)
Definition enum_key (enu : Z) : DM () := emo_assert (negb (enu =? 0)).
Fixpoint al_replace (k : Z) (f : floc) (l : list (Z * floc)) : list (Z * floc) :=
  match l with
  | [] => []
  | (k', f') :: l => if decide (k' = k) then (k, f) :: l else (k', f') :: al_replace k f l
  end.

(** The value of a "type" field is made to point to the built-in name; the union is
    read as a string whatever its type. *)
Definition intern_type (v : floc) : FM () :=
  c ← get_field v;
  match f_value c with
  | DOF_STRING p =>
      if is_builtin p then mret () else
      s ← deref (str_content p);
      match emo_builtin_type s () with
      | Ok (Some off, _) => free_string p;; set_field v (mkField (DOF_STRING (SBuiltin off)) (f_flags c))
      | Ok (None, _) => mret ()
      | Abort => λ _, Abort | Fault => fault | NoFuel => no_fuel
      end
  | _ => fault
  end.
Definition dataobject_setEnum (d : option oloc) (enu : Z) (v : option floc) : DM () :=
  d ← emo_nonnull d; emo_assert (negb (enu =? -1));; v ← emo_nonnull v;
  enum_key enu;; o ← get_obj d;
  let old := al_find enu (o_enumData o) in
  if bool_decide (old = Some v) then mret () else
  (match old with Some f => on_fields (dataobjectfield_free (Some f)) | None => mret () end);;
  when (enu =? enum_value EMO_FIELD_TYPE) (on_fields (intern_type v));;
  match old with
  | Some _ => upd_obj d (λ o, with_enumData (al_replace enu v (o_enumData o)) o)
  | None => upd_obj d (λ o, with_enumData (al_append enu v (o_enumData o)) o)
  end.

(** A key that starts with "_" marks the field as naming a field of another object. *)
Definition strip_underscore (v : floc) (key : cstring) : DM cstring :=
  if decide (head key = Some 95) then
    c ← on_fields (get_field v);
    on_fields (set_field v (mkField (f_value c) (set_flag true DOFF_ARRAYSOURCE (f_flags c))));;
    mret (tail key)
  else mret key.
Definition dataobject_setValue (d : option oloc) (key : option cstring) (v : option floc) : DM () :=
  d ← emo_nonnull d; key ← emo_nonnull key; v ← emo_nonnull v; o ← get_obj d;
  let old := al_find key (o_data o) in
  if bool_decide (old = Some v) then mret () else
  (match old with
   | Some f =>
       upd_obj d (λ o, with_data (al_remove key (o_data o)) o);;
       on_fields (dataobjectfield_free (Some f))
   | None => mret ()
   end);;
  key ← strip_underscore v key;
  upd_obj d (λ o, with_data (al_append key v (o_data o)) o).

Definition dataobject_unsetValue (d : option oloc) (key : option cstring) : DM () :=
  d ← emo_nonnull d; key ← emo_nonnull key; o ← get_obj d;
  match al_find key (o_data o) with
  | Some f =>
      upd_obj d (λ o, with_data (al_remove key (o_data o)) o);;
      on_fields (dataobjectfield_free (Some f))
  | None => mret ()
  end.

(** A string field with the array-source flag names the field to take from the object
    referred to.  Each step follows one field, so a search without a cycle takes at
    most as many steps as there are fields. *)
Fixpoint get_value_loop (fuel : nat) (d : oloc) (key : cstring) : DM (option floc) :=
  match fuel with
  | O => no_fuel
  | S fuel =>
      o ← get_obj d;
      match al_find key (o_data o) with
      | None => mret None
      | Some f =>
          c ← on_fields (get_field f);
          match f_value c with
          | DOF_STRING p =>
              if has_flag DOFF_ARRAYSOURCE (f_flags c) then
                child ← widget_getDataObject (Some d);
                s ← deref (str_content p);
                get_value_loop fuel child s
              else mret (Some f)
          | _ => mret (Some f)
          end
      end
  end.
Definition field_fuel (w : world) : nat := S (S (size (fh (w_fields w)))).
Definition dataobject_getValue (d : option oloc) (key : option cstring) : DM (option floc) :=
  d ← emo_nonnull d; key ← emo_nonnull key; w ← get; get_value_loop (field_fuel w) d key.

Definition dataobject_getEnum (d : option oloc) (enu : Z) : DM (option floc) :=
  d ← emo_nonnull d; emo_assert (negb (enu =? -1));; o ← get_obj d;
  match al_find enu (o_enumData o) with
  | None => mret None
  | Some f =>
      c ← on_fields (get_field f);
      match f_value c with
      | DOF_STRING p =>
          if has_flag DOFF_ARRAYSOURCE (f_flags c) then
            child ← widget_getDataObject (Some d);
            s ← deref (str_content p);
            dataobject_getValue (Some child) (Some s)
          else mret (Some f)
      | _ => mret (Some f)
      end
  end.
Definition dataobject_getValueReal (d : option oloc) (key : option cstring) : DM (option floc) :=
  key ← emo_nonnull key;
  output ← dataobject_getValue d (Some key);
  match output with
  | Some f => mret (Some f)
  | None =>
      let enumInt := emo_field_to_int (Some key) in
      if enumInt =? enum_value EMO_FIELD_UNKNOWN_FIELD then mret None
      else dataobject_getEnum d enumInt
  end.
Definition dataobject_getEnumAsInt (d : option oloc) (enu : Z) : DM (option floc) :=
  f ← dataobject_getEnum d enu; on_fields (field_as_int f).
Definition dataobject_getValueAsInt (d : option oloc) (key : option cstring) : DM (option floc) :=
  f ← dataobject_getValue d key; on_fields (field_as_int f).

(** The new object gets copies of the fields and the members as they are; its lists
    are empty and it has no parent. *)
Definition dataobject_copy (d : option oloc) : DM oloc :=
  d ← emo_nonnull d;
  output ← dataobject_new; o ← get_obj d;
  upd_obj output (λ n, mkObj (o_data n) (o_enumData n) (o_isLocal o) (o_state o) (o_stampMinor o)
    (o_stampMajor o) (o_referenced n) (o_children n) (o_arrayChildren n) (o_parent n) (o_margin o)
    (o_box o) (o_childBox n) (o_position o) (o_packing o) (o_widgetData o) 0 (o_scriptContext o));;
  mfor (λ kf : cstring * floc,
    field ← on_fields (dataobjectfield_copy (Some kf.2));
    dataobject_setValue (Some output) (Some kf.1) (Some field)) (o_data o);;
  mfor (λ kf : Z * floc,
    field ← on_fields (dataobjectfield_copy (Some kf.2));
    dataobject_setEnum (Some output) kf.1 (Some field)) (o_enumData o);;
  mret output.

Definition find_field_step (rec : oloc → DM (option oloc)) (d : oloc) (str : cstring) : DM (option oloc) :=
  field ← dataobject_getValue (Some d) (Some str);
  match field with
  | Some _ => mret (Some d)
  | None => o ← get_obj d; match o_parent o with None => mret None | Some p => rec p end
  end.
Fixpoint find_field_loop (fuel : nat) (str : cstring) (d : oloc) : DM (option oloc) :=
  match fuel with
  | O => no_fuel
  | S fuel => find_field_step (find_field_loop fuel str) d str
  end.
Definition dataobject_findFieldParent (d : option oloc) (str : option cstring) : DM (option oloc) :=
  d ← emo_nonnull d; str ← emo_nonnull str; w ← get; find_field_loop (walk_fuel w) str d.

(** ** The tree *)
Definition dataobject_pack (parent child : option oloc) : DM () :=
  p ← emo_nonnull parent; c ← emo_nonnull child;
  upd_obj c (with_parent (Some p));;
  upd_obj p (λ o, with_children (o_children o ++ [c]) o).
Definition dataobject_packStart (parent child : option oloc) : DM () :=
  p ← emo_nonnull parent; c ← emo_nonnull child;
  upd_obj c (with_parent (Some p));;
  upd_obj p (λ o, with_children (c :: o_children o) o).
Definition widget_pack (w parent : option oloc) : DM () :=
  w ← emo_nonnull w; p ← emo_nonnull parent; dataobject_pack (Some p) (Some w).
Definition dataobject_parent (d : option oloc) : DM (option oloc) :=
  d ← emo_nonnull d; o ← get_obj d; mret (o_parent o).
(** As written: the object becomes its own parent. *)
Definition dataobject_setParent (d parent : option oloc) : DM () :=
  d ← emo_nonnull d; _ ← emo_nonnull parent; upd_obj d (with_parent (Some d)).

Fixpoint superparent_loop (fuel : nat) (d : oloc) : DM oloc :=
  match fuel with
  | O => no_fuel
  | S fuel =>
      o ← get_obj d;
      match o_parent o with Some p => superparent_loop fuel p | None => mret d end
  end.
Definition dataobject_superparent (d : option oloc) : DM oloc :=
  d ← emo_nonnull d; w ← get; superparent_loop (walk_fuel w) d.
Definition dataobject_findScriptContext (d : option oloc) : DM (option Z) :=
  d ← emo_nonnull d; p ← dataobject_superparent (Some d); dataobject_getScriptContext (Some p).

(** The iterators, as the sequence they walk through. *)
Definition dataobject_childIterator (d : option oloc) : DM (list oloc) :=
  d ← emo_nonnull d; o ← get_obj d;
  match o_children o with
  | [] => mret []
  | item :: _ =>
      ty ← dataobject_getEnum (Some item) (enum_value EMO_FIELD_TYPE);
      array ← on_fields (EMO_DOF_IS_TYPE ty EMO_TYPE_ARRAY);
      if array : bool then (i ← get_obj item; mret (o_arrayChildren i)) else mret (o_children o)
  end.
Definition dataobject_rchildIterator (d : option oloc) : DM (list oloc) :=
  d ← emo_nonnull d; o ← get_obj d;
  match reverse (o_children o) with
  | [] => mret []
  | item :: _ =>
      i ← get_obj item;
      match o_arrayChildren i with
      | [] => mret (reverse (o_children o))
      | ac => mret (reverse ac)
      end
  end.

(** A search through the children, threading the index the C code keeps behind a
    pointer; [step] is what happens to it before each child. *)
Fixpoint child_search {B} (step : Z → Z) (rec : oloc → Z → DM (option B * Z)) (l : list oloc)
    (index : Z) : DM (option B * Z) :=
  match l with
  | [] => mret (None, index)
  | c :: l =>
      '(r, index) ← rec c (step index);
      match r with Some _ => mret (r, index) | None => child_search step rec l index end
  end.
Fixpoint dataobject_getTreeR (fuel : nat) (d : oloc) (index : Z) : DM (option oloc * Z) :=
  match fuel with
  | O => no_fuel
  | S fuel =>
      if index =? 0 then mret (Some d, index) else
      o ← get_obj d;
      child_search (λ i, int32 (i - 1)) (dataobject_getTreeR fuel) (o_children o) index
  end.
Definition dataobject_getTree (d : option oloc) (index : Z) : DM (option oloc) :=
  d ← emo_nonnull d; w ← get; '(r, _) ← dataobject_getTreeR (walk_fuel w) d index; mret r.

Fixpoint getForcedObject_loop (fuel : nat) (d : oloc) (index : Z) : DM (option oloc * Z) :=
  match fuel with
  | O => no_fuel
  | S fuel =>
      o ← get_obj d;
      if has_flag DO_FLAG_FORCE_SYNC (o_flags1 o) then mret (Some d, index) else
      child_search (λ i, int32 (i + 1)) (getForcedObject_loop fuel) (o_children o) index
  end.
Definition dataobject_getForcedObject (d : option oloc) (index : Z) : DM (option oloc * Z) :=
  d ← emo_nonnull d; w ← get; getForcedObject_loop (walk_fuel w) d index.

(** A negative result is "not found". *)
Fixpoint dataobject_treeIndexR (fuel : nat) (target : oloc) (parent : oloc) (index : Z) :
    DM (option Z * Z) :=
  match fuel with
  | O => no_fuel
  | S fuel =>
      if decide (parent = target) then mret (if 0 <=? index then Some index else None, index) else
      o ← get_obj parent;
      child_search (λ i, int32 (i + 1)) (dataobject_treeIndexR fuel target) (o_children o) index
  end.
Definition dataobject_treeIndex (d : option oloc) : DM Z :=
  d ← emo_nonnull d; sp ← dataobject_superparent (Some d);
  if decide (sp = d) then mret 0 else
  w ← get; '(r, _) ← dataobject_treeIndexR (walk_fuel w) d sp 0; mret (default (-1) r).

(** The [next_iteration] loop: the part of the list behind [last], [None] when it is
    not in the list. *)
Fixpoint after (last : oloc) (l : list oloc) : option (list oloc) :=
  match l with
  | [] => None
  | c :: l => if decide (last = c) then Some l else after last l
  end.
Fixpoint next_op_loop (fuel : nat) (parent last : oloc) : DM (option Z) :=
  match fuel with
  | O => no_fuel
  | S fuel =>
      p ← get_obj parent;
      match after last (o_children p) with
      | None => mret None
      | Some (_ :: _) => i ← dataobject_treeIndex (Some parent); mret (Some i)
      | Some [] =>
          l ← get_obj last;
          match o_parent p, o_parent l with
          | Some parent', Some last' => next_op_loop fuel parent' last'
          | _, _ => mret None
          end
      end
  end.
(** The result 1 with what is stored in [*ischild], or [None] for the result 0. *)
Definition dataobject_getTreeNextOp (d : option oloc) : DM (option Z) :=
  d ← emo_nonnull d; o ← get_obj d;
  match o_children o, o_parent o with
  | _ :: _, _ => mret (Some (-1))
  | [], None => mret None
  | [], Some p => w ← get; next_op_loop (walk_fuel w) p d
  end.

Definition copy_children (rec : oloc → DM oloc) (output : oloc) : list oloc → DM () :=
  mfor (λ c, c' ← rec c; widget_pack (Some c') (Some output)).
Fixpoint copyTree_loop (fuel : nat) (d : oloc) : DM oloc :=
  match fuel with
  | O => no_fuel
  | S fuel =>
      output ← dataobject_copy (Some d);
      o ← get_obj d;
      copy_children (copyTree_loop fuel) output (o_children o);;
      mret output
  end.
Definition dataobject_copyTree (d : option oloc) : DM oloc :=
  d ← emo_nonnull d; w ← get; copyTree_loop (walk_fuel w) d.
