(* ===== verification/ObjectTrees.v ===== *)
(** * Properties of the tree of data objects

    [rep objs p t]: the heap holds the tree [t], whose root has the parent [p], with
    agreeing parent and child links.  The index of an object is its position in
    preorder. *)
From S2P Require Import Prelude CStrings FieldNames Fields DataObjects.

Inductive tree := Node (l : oloc) (ts : list tree).
Definition root (t : tree) : oloc := let 'Node l _ := t in l.
Fixpoint preorder (t : tree) : list oloc := let 'Node l ts := t in l :: concat (map preorder ts).
Definition forest (ts : list tree) : list oloc := concat (map preorder ts).

Lemma tree_ind' (P : tree → Prop) :
  (∀ l ts, Forall P ts → P (Node l ts)) → ∀ t, P t.
Proof.
  intros H. fix IH 1. intros [l ts]. apply H. induction ts as [|t ts IHts]; constructor; [apply IH|done].
Qed.

Inductive rep (objs : gmap oloc DataObject) : option oloc → tree → Prop :=
  | rep_node p l ts o :
      objs !! l = Some o → o_parent o = p → o_children o = map root ts →
      Forall (rep objs (Some l)) ts → rep objs p (Node l ts).
Definition tree_in (w : world) (t : tree) : Prop :=
  rep (w_objs w) None t ∧ NoDup (preorder t) ∧ Z.of_nat (length (preorder t)) < 2 ^ 31.

Lemma preorder_pos t : (0 < length (preorder t))%nat.
Proof. destruct t; simpl; lia. Qed.
Lemma root_in t : root t ∈ preorder t.
Proof. destruct t. apply list_elem_of_here. Qed.
Lemma rep_dom objs p t : rep objs p t → Forall (λ d, is_Some (objs !! d)) (preorder t).
Proof.
  revert p; induction t as [l ts IH] using tree_ind'; intros p H.
  inversion H as [? ? ? o Ho _ _ Hts]; subst. simpl. constructor; [by eexists|].
  clear H Ho. induction Hts as [|t ts Ht Hts IH2]; [constructor|]. simpl.
  apply Forall_cons in IH as [IH0 IH]. apply Forall_app. split; [by eapply IH0|by apply IH2].
Qed.
(** The fuel of the walks is enough for a tree without sharing. *)
Lemma preorder_fuel w t p :
  rep (w_objs w) p t → NoDup (preorder t) → (length (preorder t) < walk_fuel w)%nat.
Proof.
  intros H N. unfold walk_fuel. apply Nat.lt_succ_r.
  rewrite <-(size_list_to_set (C:=gset oloc) (preorder t)) by done.
  rewrite <-(size_dom (w_objs w) (D:=gset oloc)). apply subseteq_size.
  intros d. rewrite elem_of_list_to_set, elem_of_dom. intros Hd.
  pose proof (rep_dom _ _ _ H) as F. rewrite Forall_forall in F. by apply F.
Qed.

(** ** From an index to the object *)
Lemma getTreeR_ok w t p fuel i :
  rep (w_objs w) p t → (length (preorder t) ≤ fuel)%nat → 0 ≤ i < 2 ^ 31 →
  dataobject_getTreeR fuel (root t) i w =
    Ok (match preorder t !! Z.to_nat i with
        | Some d => (Some d, 0)
        | None => (None, i - Z.of_nat (length (preorder t)) + 1)
        end, w).
Proof.
  revert p fuel i; induction t as [l ts IH] using tree_ind'; intros p fuel i H Hf Hi.
  inversion H as [? ? ? o Ho _ Hc Hts]; subst. destruct fuel as [|fuel]; [simpl in Hf; lia|].
  cbn [dataobject_getTreeR root]. destruct (Z.eqb_spec i 0) as [->|Hi0]; [done|].
  unfold get_obj. erewrite bind_Ok by by rewrite Ho. rewrite Hc. clear Hc H Ho.
  cbn [preorder length] in *. fold (forest ts) in *.
  replace (Z.to_nat i) with (S (Z.to_nat (i - 1))) by lia. cbn [lookup list_lookup].
  enough (∀ i, 1 ≤ i < 2 ^ 31 →
    child_search (λ i, int32 (i - 1)) (dataobject_getTreeR fuel) (map root ts) i w =
    Ok (match forest ts !! Z.to_nat (i - 1) with
        | Some d => (Some d, 0) | None => (None, i - Z.of_nat (length (forest ts))) end, w)) as E.
  { rewrite E by lia. destruct (forest ts !! _); [done|]. do 3 f_equal. lia. }
  clear i Hi Hi0. apply le_S_n in Hf. induction Hts as [|t ts Ht Hts IH2]; intros i Hi.
  - simpl. by rewrite Z.sub_0_r.
  - apply Forall_cons in IH as [IH0 IH]. unfold forest in *. cbn [map concat] in *.
    rewrite length_app in Hf. cbn [child_search].
    erewrite bind_Ok; [|rewrite int32_small by lia; eapply IH0; [exact Ht|lia|lia]].
    pose proof (preorder_pos t). rewrite lookup_app.
    destruct (preorder t !! Z.to_nat (i - 1)) as [d|] eqn:E; [done|].
    apply lookup_ge_None in E. cbv beta iota. rewrite IH2 by (done || lia).
    replace (Z.to_nat (i - 1 - Z.of_nat (length (preorder t)) + 1 - 1)) with
      (Z.to_nat (i - 1) - length (preorder t))%nat by lia.
    destruct (_ !! _); [done|]. rewrite length_app. do 3 f_equal. lia.
Qed.

(** ** From the object to its index *)
Fixpoint position (d : oloc) (l : list oloc) : option nat :=
  match l with
  | [] => None
  | c :: l => if decide (c = d) then Some 0%nat else S <$> position d l
  end.
Lemma position_app d l1 l2 :
  position d (l1 ++ l2) = match position d l1 with
    | Some k => Some k | None => (λ k, length l1 + k)%nat <$> position d l2 end.
Proof.
  induction l1 as [|c l1 IH]; simpl; [by destruct (position d l2)|].
  case_decide; [done|]. rewrite IH. by destruct (position d l1), (position d l2).
Qed.
Lemma position_NoDup l i d : NoDup l → l !! i = Some d → position d l = Some i.
Proof.
  revert i; induction l as [|c l IH]; intros i N Hi; [done|].
  apply NoDup_cons in N as [Hc N]. destruct i as [|i]; simplify_eq/=.
  - by rewrite decide_True.
  - rewrite decide_False by (intros ->; by apply Hc, list_elem_of_lookup_2 with i).
    by rewrite (IH i).
Qed.

Lemma treeIndexR_ok w t p fuel d i :
  rep (w_objs w) p t → (length (preorder t) ≤ fuel)%nat →
  0 ≤ i → i + Z.of_nat (length (preorder t)) < 2 ^ 31 →
  dataobject_treeIndexR fuel d (root t) i w =
    Ok (match position d (preorder t) with
        | Some k => (Some (i + Z.of_nat k), i + Z.of_nat k)
        | None => (None, i + Z.of_nat (length (preorder t)) - 1)
        end, w).
Proof.
  revert p fuel i; induction t as [l ts IH] using tree_ind'; intros p fuel i H Hf Hi Hb.
  inversion H as [? ? ? o Ho _ Hc Hts]; subst. destruct fuel as [|fuel]; [simpl in Hf; lia|].
  cbn [dataobject_treeIndexR root preorder position]. destruct (decide (l = d)) as [->|Hne].
  { destruct (Z.leb_spec 0 i); [|lia]. by rewrite Z.add_0_r. }
  unfold get_obj. erewrite bind_Ok by by rewrite Ho. rewrite Hc. clear Hc H Ho.
  cbn [preorder length] in *. fold (forest ts) in *.
  enough (∀ i, 0 ≤ i → i + Z.of_nat (length (forest ts)) < 2 ^ 31 - 1 →
    child_search (λ i, int32 (i + 1)) (dataobject_treeIndexR fuel d) (map root ts) i w =
    Ok (match position d (forest ts) with
        | Some k => (Some (i + 1 + Z.of_nat k), i + 1 + Z.of_nat k)
        | None => (None, i + Z.of_nat (length (forest ts))) end, w)) as E.
  { rewrite E by lia. destruct (position d (forest ts)) as [k|]; cbn [fmap option_fmap option_map].
    - by replace (i + 1 + Z.of_nat k) with (i + Z.of_nat (S k)) by lia.
    - do 3 f_equal. lia. }
  clear i Hi Hb. apply le_S_n in Hf. induction Hts as [|t ts Ht Hts IH2]; intros i Hi Hb.
  - simpl. by rewrite Z.add_0_r.
  - apply Forall_cons in IH as [IH0 IH]. unfold forest in *. cbn [map concat] in *.
    rewrite length_app in Hf, Hb. cbn [child_search].
    erewrite bind_Ok; [|rewrite int32_small by lia; eapply IH0; [exact Ht|lia..]].
    pose proof (preorder_pos t). rewrite position_app.
    destruct (position d (preorder t)) as [k|]; [done|].
    cbv beta iota. rewrite IH2 by (done || lia).
    destruct (position d _) as [k|]; cbn [fmap option_fmap option_map]; rewrite ?length_app.
    + by replace (i + 1 + Z.of_nat (length (preorder t)) - 1 + 1 + Z.of_nat k) with
        (i + 1 + Z.of_nat (length (preorder t) + k)) by lia.
    + do 3 f_equal. lia.
Qed.

(** ** Positions in a tree

    A zipper: the path from a subtree up to the root, innermost frame first. *)
Record frame := mkFrame { fr_l : oloc; fr_left : list tree; fr_right : list tree }.
Definition plug1 (t : tree) (f : frame) : tree := Node (fr_l f) (fr_left f ++ t :: fr_right f).
Definition plug (ctx : list frame) (t : tree) : tree := foldl plug1 t ctx.
Definition parent_of (ctx : list frame) (p : option oloc) : option oloc :=
  match ctx with [] => p | f :: _ => Some (fr_l f) end.
(** The objects behind the subtree in preorder. *)
Definition behind (ctx : list frame) : list oloc := concat (map (forest ∘ fr_right) ctx).

(** The objects before it. *)
Fixpoint before (ctx : list frame) : list oloc :=
  match ctx with [] => [] | f :: ctx => before ctx ++ fr_l f :: forest (fr_left f) end.

Lemma forest_app ts1 ts2 : forest (ts1 ++ ts2) = forest ts1 ++ forest ts2.
Proof. unfold forest. by rewrite map_app, concat_app. Qed.
Lemma plug_snoc ctx f t : plug (ctx ++ [f]) t = plug1 (plug ctx t) f.
Proof. unfold plug. by rewrite foldl_app. Qed.
Lemma zipper t d : d ∈ preorder t → ∃ ctx ts, t = plug ctx (Node d ts).
Proof.
  induction t as [l ts IH] using tree_ind'. intros [->|Hd]%elem_of_cons; [by exists [], ts|].
  assert (∃ ts1 t ts2, ts = ts1 ++ t :: ts2 ∧ d ∈ preorder t) as (ts1 & t & ts2 & -> & Ht).
  { clear IH. induction ts as [|t ts IH]; simpl in Hd; [by apply not_elem_of_nil in Hd|].
    apply elem_of_app in Hd as [Hd|Hd]; [by exists [], t, ts|].
    destruct (IH Hd) as (ts1 & t' & ts2 & -> & ?). by exists (t :: ts1), t', ts2. }
  apply Forall_app in IH as [_ [IH _]%Forall_cons]. destruct (IH Ht) as (ctx & us & ->).
  exists (ctx ++ [mkFrame l ts1 ts2]), us. by rewrite plug_snoc.
Qed.
Lemma rep_plug objs ctx t p : rep objs p (plug ctx t) → rep objs (parent_of ctx p) t.
Proof.
  revert t; induction ctx as [|f ctx IH]; intros t H; [done|]. simpl in *.
  apply IH in H. inversion H as [? ? ? o _ _ _ Hts]; subst.
  by apply Forall_app in Hts as [_ [? _]%Forall_cons].
Qed.
Lemma preorder_plug_eq ctx t : preorder (plug ctx t) = before ctx ++ preorder t ++ behind ctx.
Proof.
  revert t; induction ctx as [|f ctx IH]; intros t; cbn [before].
  - unfold behind. simpl. by rewrite app_nil_r.
  - change (plug (f :: ctx) t) with (plug ctx (plug1 t f)). rewrite IH.
    unfold behind, compose, forest. cbn [plug1 preorder map concat].
    rewrite map_app, concat_app. cbn [map concat app]. by rewrite <-!app_assoc.
Qed.
Lemma preorder_plug ctx t : ∃ l, preorder (plug ctx t) = l ++ preorder t ++ behind ctx.
Proof. exists (before ctx). apply preorder_plug_eq. Qed.
Lemma plug_length ctx t : (length ctx + length (preorder t) ≤ length (preorder (plug ctx t)))%nat.
Proof.
  revert t; induction ctx as [|f ctx IH]; intros t; [done|]. simpl.
  specialize (IH (plug1 t f)). cbn [plug1 preorder length] in IH.
  rewrite map_app, concat_app, length_app in IH. simpl in IH. rewrite length_app in IH. lia.
Qed.
Lemma rep_obj objs p t : rep objs p t →
  ∃ o ts, t = Node (root t) ts ∧ objs !! root t = Some o ∧ o_parent o = p ∧ o_children o = map root ts.
Proof. inversion 1 as [? ? ts o]; subst. by exists o, ts. Qed.

Lemma superparent_ok w ctx t fuel :
  rep (w_objs w) None (plug ctx t) → (length ctx < fuel)%nat →
  superparent_loop fuel (root t) w = Ok (root (plug ctx t), w).
Proof.
  revert t fuel; induction ctx as [|f ctx IH]; intros t [|fuel] H Hf; try (simpl in Hf; lia).
  - cbn [plug foldl] in *. destruct (rep_obj _ _ _ H) as (o & ts & _ & Ho & Hp & _). cbn [superparent_loop].
    unfold get_obj. erewrite bind_Ok by by rewrite Ho. by rewrite Hp.
  - pose proof (rep_plug _ (f :: ctx) t _ H) as Ht.
    destruct (rep_obj _ _ _ Ht) as (o & ts & _ & Ho & Hp & _). cbn [superparent_loop].
    unfold get_obj. erewrite bind_Ok by by rewrite Ho. rewrite Hp. cbn [parent_of].
    apply (IH (plug1 t f)); [done|]. simpl in Hf. lia.
Qed.
Lemma treeIndex_ok w t d :
  tree_in w t → d ∈ preorder t →
  dataobject_treeIndex (Some d) w = Ok (Z.of_nat (default 0%nat (position d (preorder t))), w).
Proof.
  intros (H & N & Hb) Hd. destruct (zipper t d Hd) as (ctx & ts & ->).
  pose proof (preorder_fuel w _ _ H N) as Hfuel. pose proof (plug_length ctx (Node d ts)) as Hl.
  pose proof (preorder_pos (Node d ts)). unfold dataobject_treeIndex, dataobject_superparent.
  erewrite bind_Ok by reflexivity.
  erewrite (bind_Ok _ _ _ (root (plug ctx (Node d ts)))).
  2:{ erewrite bind_Ok by reflexivity. erewrite bind_Ok by reflexivity.
      apply (superparent_ok w ctx (Node d ts)); [done|lia]. }
  apply list_elem_of_lookup in Hd as [i Hi]. rewrite (position_NoDup _ i d N Hi).
  case_decide as Hroot.
  - assert (position d (preorder (plug ctx (Node d ts))) = Some 0%nat) as E.
    { destruct (plug ctx (Node d ts)). simpl in *. by rewrite decide_True. }
    rewrite (position_NoDup _ i d N Hi) in E. injection E as ->. done.
  - erewrite bind_Ok by reflexivity. erewrite bind_Ok by (eapply treeIndexR_ok; [done|lia|lia|lia]).
    by rewrite (position_NoDup _ i d N Hi).
Qed.

(** ** The next object in preorder *)
Definition parent_in (w : world) (d : oloc) : option oloc := w_objs w !! d ≫= o_parent.
Definition index_in (t : tree) (d : oloc) : Z := Z.of_nat (default 0%nat (position d (preorder t))).

Lemma after_ok d l1 l2 : d ∉ l1 → after d (l1 ++ d :: l2) = Some l2.
Proof.
  induction l1 as [|c l1 IH]; intros Hd; simpl; [by rewrite decide_True|].
  apply not_elem_of_cons in Hd as [? Hd]. by rewrite decide_False, IH.
Qed.
Lemma in_forest_root t ts : t ∈ ts → root t ∈ forest ts.
Proof.
  induction 1 as [t ts|t t' ts _ IH]; unfold forest; simpl; apply elem_of_app; [left; apply root_in|by right].
Qed.
Lemma plug1_NoDup ctx f t :
  NoDup (preorder (plug (f :: ctx) t)) → root t ∉ map root (fr_left f).
Proof.
  intros N. change (plug (f :: ctx) t) with (plug ctx (plug1 t f)) in N.
  destruct (preorder_plug ctx (plug1 t f)) as [l E]. rewrite E in N.
  apply NoDup_app in N as (_ & _ & (N & _ & _)%NoDup_app).
  cbn [plug1 preorder] in N. apply NoDup_cons in N as [_ N].
  fold (forest (fr_left f ++ t :: fr_right f)) in N. rewrite forest_app in N.
  apply NoDup_app in N as (_ & N & _). intros (t' & E' & Hin)%list_elem_of_fmap.
  apply (N (root t)); [rewrite E'; by apply in_forest_root|]. apply in_forest_root, list_elem_of_here.
Qed.

Lemma frame_facts objs ctx f t :
  rep objs None (plug (f :: ctx) t) → NoDup (preorder (plug (f :: ctx) t)) →
  ∃ o ot, objs !! fr_l f = Some o ∧ o_parent o = parent_of ctx None ∧
    after (root t) (o_children o) = Some (map root (fr_right f)) ∧
    objs !! root t = Some ot ∧ o_parent ot = Some (fr_l f) ∧
    Forall (rep objs (Some (fr_l f))) (fr_right f).
Proof.
  intros H N. pose proof (plug1_NoDup _ _ _ N) as Hleft.
  pose proof (rep_plug _ ctx (plug1 t f) _ H) as Hp.
  inversion Hp as [? ? ? o Ho Hpo Hc Hts]; subst.
  apply Forall_app in Hts as [_ [Ht Hts]%Forall_cons].
  destruct (rep_obj _ _ _ Ht) as (ot & ? & _ & Hot & Hpt & _).
  exists o, ot. split_and!; try done. rewrite Hc, map_app. by apply after_ok.
Qed.
Lemma next_sibling w ctx f t t2 right :
  tree_in w (plug (f :: ctx) t) → fr_right f = t2 :: right →
  (i ← dataobject_treeIndex (Some (fr_l f)); mret (Some i)) w =
    Ok (match behind (f :: ctx) with
        | [] => None
        | e :: _ => index_in (plug (f :: ctx) t) <$> parent_in w e
        end, w).
Proof.
  intros HT Er. pose proof HT as (H & N & _).
  destruct (frame_facts _ _ _ _ H N) as (_ & _ & _ & _ & _ & _ & _ & Hts).
  rewrite Er in Hts. apply Forall_cons in Hts as [Ht2 _].
  destruct (rep_obj _ _ _ Ht2) as (o2 & ts & E2 & Ho2 & Hp2 & _).
  erewrite bind_Ok.
  2:{ apply treeIndex_ok; [exact HT|]. change (plug (f :: ctx) t) with (plug ctx (plug1 t f)).
      destruct (preorder_plug ctx (plug1 t f)) as [l ->].
      apply elem_of_app. right. apply elem_of_app. left. apply list_elem_of_here. }
  unfold behind, parent_in. cbn [map concat]. unfold compose at 1, forest at 1. rewrite Er, E2.
  cbn [map concat preorder app root]. rewrite Ho2. cbn [mbind option_bind]. by rewrite Hp2.
Qed.
Lemma next_op_loop_ok w T ctx f t fuel :
  tree_in w T → T = plug (f :: ctx) t → (length ctx < fuel)%nat →
  next_op_loop fuel (fr_l f) (root t) w =
    Ok (match behind (f :: ctx) with [] => None | e :: _ => index_in T <$> parent_in w e end, w).
Proof.
  intros HT. revert f t fuel; induction ctx as [|g ctx IH]; intros f t [|fuel] E Hf;
    try (simpl in Hf; lia); pose proof HT as (H & N & _); rewrite E in H, N;
    destruct (frame_facts _ _ _ _ H N) as (o & ot & Ho & Hpo & Ha & Hot & Hpt & Hts);
    cbn [next_op_loop]; unfold get_obj; erewrite bind_Ok by (by rewrite Ho); rewrite Ha;
    (destruct (fr_right f) as [|t2 right] eqn:Er; cbn [map];
     [erewrite bind_Ok by (by rewrite Hot); rewrite Hpo, Hpt;
      unfold behind; cbn [map concat]; unfold compose at 1; rewrite Er|]).
  - reflexivity.
  - subst T. by apply next_sibling with t2 right.
  - apply (IH g (plug1 t f)); [done|simpl in Hf; lia].
  - subst T. by apply next_sibling with t2 right.
Qed.

Lemma NoDup_split_eq (l1 l2 l1' l2' : list oloc) d :
  NoDup (l1 ++ d :: l2) → l1 ++ d :: l2 = l1' ++ d :: l2' → l1 = l1' ∧ l2 = l2'.
Proof.
  revert l1'; induction l1 as [|c l1 IH]; intros [|c' l1'] N E; simplify_eq/=; [done| | |].
  - apply NoDup_cons in N as [N _]. destruct N. apply elem_of_app. right. apply list_elem_of_here.
  - apply NoDup_cons in N as [N _]. destruct N. apply elem_of_app. right. apply list_elem_of_here.
  - apply NoDup_cons in N as [_ N]. by destruct (IH l1' N) as [-> ->].
Qed.
Lemma parent_has_child w t e p :
  rep (w_objs w) None t → e ∈ preorder t → parent_in w e = Some p →
  ∃ o, w_objs w !! p = Some o ∧ e ∈ o_children o.
Proof.
  intros H He Hp. destruct (zipper t e He) as (ctx & us & ->).
  destruct (rep_obj _ _ _ (rep_plug _ ctx _ _ H)) as (oe & ? & _ & Hoe & Hpe & _).
  unfold parent_in in Hp. simpl in Hoe. rewrite Hoe in Hp. simpl in Hp. rewrite Hpe in Hp.
  destruct ctx as [|f ctx]; [done|]. injection Hp as <-.
  destruct (rep_obj _ _ _ (rep_plug _ ctx (plug1 (Node e us) f) _ H)) as (o & ts & [= <-] & Ho & _ & Hc).
  exists o. split; [done|]. rewrite Hc, map_app. apply elem_of_app. right. apply list_elem_of_here.
Qed.

Lemma getTree_ok w t :
  tree_in w t → ∀ i, 0 ≤ i < 2 ^ 31 →
  dataobject_getTree (Some (root t)) i w = Ok (preorder t !! Z.to_nat i, w).
Proof.
  intros (H & N & _) i Hi. pose proof (preorder_fuel w _ _ H N). unfold dataobject_getTree.
  do 2 erewrite bind_Ok by reflexivity. erewrite bind_Ok by (eapply getTreeR_ok; [done|lia|done]).
  by destruct (preorder t !! _).
Qed.

(** ** Worlds and objects

    Nothing is allocated beyond the break; an update that keeps the links keeps trees. *)
Record wf (w : world) : Prop := {
  wf_objs x : (w_brk w ≤ x)%positive → w_objs w !! x = None;
  wf_fields f : (fh_brk (w_fields w) ≤ f)%positive → fh (w_fields w) !! f = None }.
Definition same_links (o o' : DataObject) : Prop := o_children o' = o_children o ∧ o_parent o' = o_parent o.
Lemma rep_links w w' d o o' p t :
  rep (w_objs w) p t → w_objs w !! d = Some o → w_objs w' = <[d := o']> (w_objs w) →
  same_links o o' → rep (w_objs w') p t.
Proof.
  intros H Ho E [Hc Hp]. rewrite E. clear E. revert p H. induction t as [l ts IH] using tree_ind'.
  intros p H. inversion H as [? ? ? ol Hl Hpl Hcl Hts]; subst.
  assert (Forall (rep (<[d := o']> (w_objs w)) (Some l)) ts) as Hts'.
  { clear -IH Hts. induction Hts as [|t ts Ht Hts IH2]; [constructor|].
    apply Forall_cons in IH as [IH0 IH]. constructor; [by apply IH0|by apply IH2]. }
  destruct (decide (l = d)) as [->|Hne].
  - rewrite Ho in Hl. injection Hl as <-. by econstructor; [apply lookup_insert_eq|..|done]; try congruence.
  - econstructor; [by rewrite lookup_insert_ne by done|done..].
Qed.

(** ** Packing *)
Lemma rep_agree objs objs' q t :
  rep objs q t → (∀ d, d ∈ preorder t → objs' !! d = objs !! d) → rep objs' q t.
Proof.
  revert q; induction t as [l ts IH] using tree_ind'; intros q H Ha.
  inversion H as [? ? ? o Ho Hp Hc Hts]; subst. econstructor; [|done|done|].
  - rewrite Ha; [done|apply list_elem_of_here].
  - assert (∀ d, d ∈ forest ts → objs' !! d = objs !! d) as Hf
      by (intros d Hd; apply Ha; simpl; by apply list_elem_of_further).
    clear -IH Hts Hf. induction Hts as [|t ts Ht Hts IH2]; [constructor|].
    apply Forall_cons in IH as [IH0 IH]. unfold forest in *. simpl in Hf.
    constructor; [apply IH0; [done|]|apply IH2; [done|]]; intros d Hd; apply Hf, elem_of_app; auto.
Qed.
Lemma rep_plug_replace objs objs' ctx t t' :
  rep objs None (plug ctx t) → root t' = root t →
  (∀ d, d ∈ before ctx ++ behind ctx → objs' !! d = objs !! d) →
  rep objs' (parent_of ctx None) t' → rep objs' None (plug ctx t').
Proof.
  revert t t'; induction ctx as [|f ctx IH]; intros t t' H Hr Ha Ht'; [done|].
  pose proof (rep_plug _ ctx (plug1 t f) _ H) as Hp.
  inversion Hp as [? ? ? o Ho Hpo Hc Hts]; subst.
  apply Forall_app in Hts as [Hl [_ Hright]%Forall_cons].
  assert (∀ d, d ∈ fr_l f :: forest (fr_left f) ++ forest (fr_right f) → objs' !! d = objs !! d) as Hf.
  { intros d Hd. apply Ha. cbn [before]. unfold behind. cbn [map concat]. unfold compose at 1. set_solver. }
  assert (∀ ts, Forall (rep objs (Some (fr_l f))) ts → (∀ d, d ∈ forest ts → objs' !! d = objs !! d) →
    Forall (rep objs' (Some (fr_l f))) ts) as Hsub.
  { clear. intros ts Hts Hd. induction Hts as [|t ts Ht Hts IH]; [constructor|].
    unfold forest in *. simpl in Hd. constructor.
    - apply (rep_agree _ _ _ _ Ht). intros d ?. apply Hd, elem_of_app. by left.
    - apply IH. intros d ?. apply Hd, elem_of_app. by right. }
  apply (IH (plug1 t f)); [done|done| |].
  - intros d Hd. apply Ha. cbn [before]. unfold behind. cbn [map concat]. unfold behind in Hd. set_solver.
  - econstructor; [rewrite Hf; [done|apply list_elem_of_here]|done| |].
    + rewrite Hc, !map_app. simpl. by rewrite Hr.
    + apply Forall_app. split; [|constructor]; [|done|]; apply Hsub; try done; intros d ?; apply Hf; set_solver.
Qed.

Lemma in_forest d t ts : t ∈ ts → d ∈ preorder t → d ∈ forest ts.
Proof.
  induction 1 as [t ts|t t' ts _ IH]; unfold forest; simpl; intros Hd; apply elem_of_app; auto.
Qed.
(** Giving the object [p] of the tree the further child [root s]. *)
Lemma tree_adopt w ctx p ts s q cs os op :
  tree_in w (plug ctx (Node p ts)) → rep (w_objs w) q s →
  NoDup (preorder (plug ctx (Node p ts)) ++ preorder s) →
  Z.of_nat (length (preorder (plug ctx (Node p ts)) ++ preorder s)) < 2 ^ 31 →
  w_objs w !! root s = Some os → w_objs w !! p = Some op → cs ≡ₚ s :: ts →
  tree_in (mkWorld (<[p := with_children (map root cs) op]> (<[root s := with_parent (Some p) os]> (w_objs w)))
            (w_brk w) (w_fields w)) (plug ctx (Node p cs)).
Proof.
  intros (H & N & Hb) Hs Nall Hlen Hos Hop Hcs.
  assert (preorder (plug ctx (Node p cs)) ≡ₚ preorder (plug ctx (Node p ts)) ++ preorder s) as Hperm.
  { rewrite !preorder_plug_eq. cbn [preorder]. fold (forest cs) (forest ts).
    assert (forest cs ≡ₚ preorder s ++ forest ts) as -> by (unfold forest; by rewrite Hcs).
    solve_Permutation. }
  split_and!; cbn [w_objs]; [|by rewrite Hperm|by rewrite Hperm].
  rewrite preorder_plug_eq in Nall. cbn [preorder] in Nall. fold (forest ts) in Nall.
  apply NoDup_app in Nall as (N1 & Ndis & N2).
  assert (Hps : p ∉ preorder s) by (apply Ndis; set_solver).
  pose proof (root_in s) as Hrs. assert (root s ≠ p) as Hne by (intros E; apply Hps; by rewrite <-E).
  assert (∀ d, d ≠ p → d ≠ root s →
    <[p := with_children (map root cs) op]> (<[root s := with_parent (Some p) os]> (w_objs w)) !! d =
    w_objs w !! d) as Hother by (intros d ? ?; by rewrite !lookup_insert_ne).
  apply NoDup_app in N1 as (N1 & Nb & N3). cbn [app] in N3. apply NoDup_cons in N3 as [Np N3].
  apply (rep_plug_replace (w_objs w) _ ctx (Node p ts)); [done|done| |].
  - intros d Hd. apply Hother.
    + intros ->. apply elem_of_app in Hd as [Hd|Hd]; [apply (Nb _ Hd); set_solver|].
      apply Np, elem_of_app. by right.
    + intros ->. apply (Ndis (root s)); [set_solver|done].
  - pose proof (rep_plug _ _ _ _ H) as Hp. inversion Hp as [? ? ? o Ho Hpo Hc Hts]; subst.
    rewrite Hop in Ho. injection Ho as <-.
    econstructor; [apply lookup_insert_eq|done|done|].
    eapply Permutation_Forall; [by symmetry|]. constructor.
    + inversion Hs as [? l us o Ho _ Hc2 Hus]; subst. cbn [root preorder] in *.
      rewrite Hos in Ho. injection Ho as <-.
      apply NoDup_cons in N2 as [Nl _]. econstructor;
        [by rewrite lookup_insert_ne, lookup_insert_eq by done|done|done|].
      rewrite Forall_forall in Hus |- *. intros u Hu. apply (rep_agree _ _ _ _ (Hus u Hu)).
      intros d Hd. assert (d ∈ forest us) as Hdf by (by eapply in_forest).
      apply Hother; [intros ->; apply Hps; by apply list_elem_of_further|by intros ->].
    + rewrite Forall_forall in Hts |- *. intros u Hu. apply (rep_agree _ _ _ _ (Hts u Hu)).
      intros d Hd. assert (d ∈ forest ts) as Hdf by (by eapply in_forest).
      apply Hother; [intros ->; apply Np, elem_of_app; by left|].
      intros ->. apply (Ndis (root s)); [set_solver|done].
Qed.

(** ** Properties *)
(** C9: on a well-formed tree, [dataobject_treeIndex] and [dataobject_getTree]
    terminate and are inverse to each other: an object's index is its position in
    preorder, and an index behind the last object gives NULL. *)
Theorem tree_index_roundtrip w t :
  tree_in w t →
  (∀ i d, preorder t !! i = Some d →
     dataobject_treeIndex (Some d) w = Ok (Z.of_nat i, w) ∧
     dataobject_getTree (Some (root t)) (Z.of_nat i) w = Ok (Some d, w)) ∧
  (∀ i, Z.of_nat (length (preorder t)) ≤ i < 2 ^ 31 →
     dataobject_getTree (Some (root t)) i w = Ok (None, w)).
Proof.
  intros HT. pose proof HT as (H & N & Hb). pose proof (preorder_fuel w _ _ H N) as Hf.
  pose proof (getTree_ok w t HT) as E.
  split.
  - intros i d Hi. pose proof (lookup_lt_Some _ _ _ Hi) as Hlt. split.
    + rewrite (treeIndex_ok w t) by (done || by eapply list_elem_of_lookup_2).
      by rewrite (position_NoDup _ i d).
    + rewrite E, Nat2Z.id by lia. by rewrite Hi.
  - intros i Hi. rewrite E by lia. by rewrite lookup_ge_None_2 by lia.
Qed.

Lemma getTreeNextOp_ok w t l1 d l2 :
  tree_in w t → preorder t = l1 ++ d :: l2 →
  dataobject_getTreeNextOp (Some d) w =
    Ok (match l2 with
        | [] => None
        | e :: _ => (λ p, if decide (p = d) then -1 else index_in t p) <$> parent_in w e
        end, w).
Proof.
  intros HT El. pose proof HT as (H & N & Hb).
  assert (d ∈ preorder t) as Hd by (rewrite El; apply elem_of_app; right; apply list_elem_of_here).
  destruct (zipper t d Hd) as (ctx & ts & ->).
  pose proof (rep_plug _ ctx _ _ H) as Hr. destruct (rep_obj _ _ _ Hr) as (o & ts' & [= <-] & Ho & Hp & Hc).
  cbn [root] in Ho.
  assert (l2 = forest ts ++ behind ctx) as ->.
  { destruct (preorder_plug ctx (Node d ts)) as [l E]. rewrite El in E.
    cbn [preorder app] in E. fold (forest ts) in E.
    rewrite El in N. by destruct (NoDup_split_eq _ _ _ _ _ N E). }
  unfold dataobject_getTreeNextOp. erewrite bind_Ok by reflexivity.
  unfold get_obj at 1. erewrite bind_Ok by by rewrite Ho. rewrite Hc, Hp.
  destruct ts as [|t1 ts].
  - cbn [map forest concat app]. destruct ctx as [|f ctx]; [done|]. cbn [parent_of].
    erewrite bind_Ok by reflexivity. pose proof (plug_length (f :: ctx) (Node d [])) as Hl.
    pose proof (preorder_fuel w _ _ H N). simpl in Hl.
    rewrite (next_op_loop_ok w _ ctx f (Node d []) _ HT eq_refl) by (simpl in *; lia).
    destruct (behind (f :: ctx)) as [|e es] eqn:Eb; [done|]. do 2 f_equal.
    destruct (parent_in w e) as [p|] eqn:Ep; [|done]. simpl. rewrite decide_False; [done|].
    intros ->. destruct (parent_has_child w _ e d H) as (o' & Ho' & Hin); [|done|].
    + rewrite El. apply elem_of_app. right. apply list_elem_of_further. cbn [forest map concat app].
      apply list_elem_of_here.
    + rewrite Ho in Ho'. injection Ho' as <-. rewrite Hc in Hin. by apply not_elem_of_nil in Hin.
  - inversion Hr as [? ? ? o' _ _ _ Hts]; subst. apply Forall_cons in Hts as [Ht1 _].
    destruct (rep_obj _ _ _ Ht1) as (o1 & us & E1 & Ho1 & Hp1 & _). rewrite E1.
    cbn [map root forest concat preorder app]. unfold parent_in. rewrite Ho1.
    cbn [mbind option_bind]. rewrite Hp1. simpl. by rewrite decide_True.
Qed.

(** C14: [dataobject_getTreeNextOp] tells where the next object of the preorder has to
    be attached: -1 when it is the first child of the given object, otherwise the
    index of its parent; behind the last object there is nothing more to do.  The
    climb through the parents terminates. *)
Theorem getTreeNextOp_protocol w t l1 d l2 :
  tree_in w t → preorder t = l1 ++ d :: l2 →
  dataobject_getTreeNextOp (Some d) w =
    Ok (match l2 with
        | [] => None
        | e :: _ => (λ p, if decide (p = d) then -1 else index_in t p) <$> parent_in w e
        end, w).
Proof. apply getTreeNextOp_ok. Qed.

(** Packing a tree under an object of another tree gives one well-formed tree
    again: [dataobject_pack] makes it the last child of the object,
    [dataobject_packStart] the first. *)
Theorem dataobject_pack_tree w t p s q :
  tree_in w t → p ∈ preorder t → rep (w_objs w) q s → NoDup (preorder t ++ preorder s) →
  Z.of_nat (length (preorder t ++ preorder s)) < 2 ^ 31 →
  ∃ ctx ts w1 w2, t = plug ctx (Node p ts) ∧
    dataobject_pack (Some p) (Some (root s)) w = Ok ((), w1) ∧ tree_in w1 (plug ctx (Node p (ts ++ [s]))) ∧
    dataobject_packStart (Some p) (Some (root s)) w = Ok ((), w2) ∧ tree_in w2 (plug ctx (Node p (s :: ts))).
Proof.
  intros HT Hp Hs N Hlen. destruct (zipper t p Hp) as (ctx & ts & ->). exists ctx, ts.
  destruct (rep_obj _ _ _ Hs) as (os & us & _ & Hos & _ & _).
  pose proof HT as (H & _ & _).
  destruct (rep_obj _ _ _ (rep_plug _ ctx _ _ H)) as (op & ? & [= <-] & Hop & _ & Hc). cbn [root] in Hop.
  assert (root s ≠ p) as Hne.
  { intros E. apply NoDup_app in N as (_ & N & _). apply (N p Hp). rewrite <-E. apply root_in. }
  pose proof (λ cs, tree_adopt w ctx p ts s q cs os op HT Hs N Hlen Hos Hop) as HA.
  eexists _, _. split; [done|].
  unfold dataobject_pack, dataobject_packStart, upd_obj, emo_nonnull, mbind, M_bind.
  rewrite Hos. cbn [w_objs]. rewrite lookup_insert_ne, Hop, Hc by done.
  split; [done|]. split; [|split; [done|]].
  - specialize (HA (ts ++ [s])). rewrite map_app in HA. apply HA. by rewrite Permutation_app_comm.
  - by apply (HA (s :: ts)).
Qed.

(** [dataobject_setParent] makes an object its own parent, after which the search for
    the top of its tree never ends. *)
Theorem setParent_makes_a_loop w d p o fuel :
  w_objs w !! d = Some o →
  ∃ w', dataobject_setParent (Some d) (Some p) w = Ok ((), w') ∧ superparent_loop fuel d w' = NoFuel.
Proof.
  intros Ho. eexists. split.
  - unfold dataobject_setParent, upd_obj. erewrite bind_Ok by reflexivity.
    erewrite bind_Ok by reflexivity. by rewrite Ho.
  - induction fuel as [|fuel IH]; [done|]. cbn [superparent_loop]. unfold get_obj.
    by erewrite bind_Ok by (cbn [w_objs]; by rewrite lookup_insert_eq).
Qed.

(** ** Instances: a box with an entry and a label, and a further label *)
Definition demo_obj (cs : list oloc) (p : option oloc) : DataObject := with_parent p (with_children cs empty_object).
Definition demo_world : world :=
  mkWorld (list_to_map [(1%positive, demo_obj [2%positive; 4%positive] None);
                        (2%positive, demo_obj [3%positive] (Some 1%positive));
                        (3%positive, demo_obj [] (Some 2%positive));
                        (4%positive, demo_obj [] (Some 1%positive));
                        (5%positive, demo_obj [] None)]) 6 (mkFH ∅ 1).
Definition demo_tree : tree := Node 1 [Node 2 [Node 3 []]; Node 4 []].
Lemma demo_tree_in : tree_in demo_world demo_tree.
Proof.
  split_and!; [|apply (bool_decide_unpack _); reflexivity|vm_compute; reflexivity].
  repeat (econstructor; [reflexivity..|]; repeat constructor); repeat econstructor.
Qed.
Lemma tree_index_roundtrip_witness :
  dataobject_treeIndex (Some 4%positive) demo_world = Ok (3, demo_world) ∧
  dataobject_getTree (Some 1%positive) 3 demo_world = Ok (Some 4%positive, demo_world).
Proof. exact (proj1 (tree_index_roundtrip demo_world demo_tree demo_tree_in) 3%nat 4%positive eq_refl). Defined.
Lemma getTreeNextOp_protocol_witness :
  dataobject_getTreeNextOp (Some 3%positive) demo_world = Ok (Some 0, demo_world).
Proof.
  exact (getTreeNextOp_protocol demo_world demo_tree [1%positive; 2%positive] 3%positive [4%positive]
    demo_tree_in eq_refl).
Defined.
Lemma dataobject_pack_tree_witness :
  ∃ ctx ts w1 w2, demo_tree = plug ctx (Node 2 ts) ∧
    dataobject_pack (Some 2%positive) (Some 5%positive) demo_world = Ok ((), w1) ∧
    tree_in w1 (plug ctx (Node 2 (ts ++ [Node 5 []]))) ∧
    dataobject_packStart (Some 2%positive) (Some 5%positive) demo_world = Ok ((), w2) ∧
    tree_in w2 (plug ctx (Node 2 (Node 5 [] :: ts))).
Proof.
  apply (dataobject_pack_tree demo_world demo_tree 2%positive (Node 5 []) None demo_tree_in).
  - apply (bool_decide_unpack _). reflexivity.
  - by econstructor.
  - apply (bool_decide_unpack _). reflexivity.
  - reflexivity.
Defined.
