(* ===== verification/ObjectFields.v ===== *)
(** * Properties of the fields of data objects

    Setting and getting values and types, for the operations of DataObjects.v.  A
    field that is replaced has to be releasable ([replaceable]). *)
From S2P Require Import Prelude CStrings FieldNames Fields DataObjects.

(** A field whose string, if it has one, can be released. *)
Definition freeable (c : DataObjectField) : Prop :=
  match f_value c with
  | DOF_STRING (SBuiltin off) => EMO_TYPE_IS_BUILTIN off = true | DOF_STRING (SRaw _) => False | _ => True end.
Definition drop_field (f : floc) (h : fheap) : fheap := mkFH (delete f (fh h)) (fh_brk h).
Lemma free_ok f c h :
  fh h !! f = Some c → freeable c → dataobjectfield_free (Some f) h = Ok ((), drop_field f h).
Proof.
  intros Hf Hc. unfold dataobjectfield_free, get_field, free_field, drop_field.
  erewrite bind_Ok by reflexivity. erewrite bind_Ok by by rewrite Hf.
  unfold freeable in Hc. destruct (f_value c) as [[off|s|i]| | |]; try done; cbn [is_builtin]; rewrite ?Hc;
    erewrite bind_Ok by reflexivity; by rewrite Hf.
Qed.
Lemma on_fields_ok {B} (m : FM B) w b h :
  m (w_fields w) = Ok (b, h) → on_fields m w = Ok (b, mkWorld (w_objs w) (w_brk w) h).
Proof. unfold on_fields. by intros ->. Qed.
Lemma on_fields_pure {B} (m : FM B) w b :
  m (w_fields w) = Ok (b, w_fields w) → on_fields m w = Ok (b, w).
Proof. intros E. rewrite (on_fields_ok _ _ _ _ E). by destruct w. Qed.
Lemma get_obj_ok w d o : w_objs w !! d = Some o → get_obj d w = Ok (o, w).
Proof. unfold get_obj. by intros ->. Qed.
Lemma upd_obj_ok w d o f :
  w_objs w !! d = Some o →
  upd_obj d f w = Ok ((), mkWorld (<[d := f o]> (w_objs w)) (w_brk w) (w_fields w)).
Proof. unfold upd_obj. by intros ->. Qed.

(** What a lookup gives for a field that is not taken from another object. *)
Definition array_source (c : DataObjectField) : bool :=
  match f_value c with DOF_STRING _ => has_flag DOFF_ARRAYSOURCE (f_flags c) | _ => false end.
Lemma get_value_loop_plain w d o key f c fuel :
  w_objs w !! d = Some o → al_find key (o_data o) = Some f →
  fh (w_fields w) !! f = Some c → array_source c = false →
  get_value_loop (S fuel) d key w = Ok (Some f, w).
Proof.
  intros Ho Hk Hf Hc. cbn [get_value_loop]. run_with (get_obj_ok w d o Ho). rewrite Hk.
  erewrite bind_Ok by (apply on_fields_pure; unfold get_field; by rewrite Hf).
  unfold array_source in Hc. destruct (f_value c); [|done..]. by rewrite Hc.
Qed.
Lemma getEnum_plain w d o enu f c :
  w_objs w !! d = Some o → enu ≠ -1 → al_find enu (o_enumData o) = Some f →
  fh (w_fields w) !! f = Some c → array_source c = false →
  dataobject_getEnum (Some d) enu w = Ok (Some f, w).
Proof.
  intros Ho He Hk Hf Hc. unfold dataobject_getEnum. erewrite bind_Ok by reflexivity.
  destruct (Z.eqb_spec enu (-1)); [done|]. erewrite bind_Ok by reflexivity.
  run_with (get_obj_ok w d o Ho). rewrite Hk.
  erewrite bind_Ok by (apply on_fields_pure; unfold get_field; by rewrite Hf).
  unfold array_source in Hc. destruct (f_value c); [|done..]. by rewrite Hc.
Qed.

(** The world without the field [old] that a new value replaces. *)
Definition without (old : option floc) (h : fheap) : fheap :=
  match old with Some f => drop_field f h | None => h end.
Definition replaceable (old : option floc) (v : floc) (h : fheap) : Prop :=
  match old with Some f => f ≠ v ∧ ∃ c, fh h !! f = Some c ∧ freeable c | None => True end.
Lemma without_ne old v h : replaceable old v h → fh (without old h) !! v = fh h !! v.
Proof. destruct old as [f|]; [|done]. intros [? _]. simpl. by rewrite lookup_delete_ne. Qed.

(** The part of [dataobject_setValue] that releases the old value. *)
Lemma setValue_ok w d o key v c :
  w_objs w !! d = Some o → fh (w_fields w) !! v = Some c →
  replaceable (al_find key (o_data o)) v (w_fields w) →
  let h := without (al_find key (o_data o)) (w_fields w) in
  let src := bool_decide (head key = Some 95) in
  dataobject_setValue (Some d) (Some key) (Some v) w =
    Ok ((), mkWorld
      (<[d := with_data (al_append (if src then tail key else key) v (al_remove key (o_data o))) o]> (w_objs w))
      (w_brk w)
      (if src then mkFH (<[v := mkField (f_value c) (set_flag true DOFF_ARRAYSOURCE (f_flags c))]> (fh h)) (fh_brk h)
       else h)).
Proof.
  intros Ho Hv Hold h src. unfold dataobject_setValue. do 3 erewrite bind_Ok by reflexivity.
  run_with (get_obj_ok w d o Ho). cbv zeta.
  rewrite bool_decide_false by (intros E; rewrite E in Hold; by destruct Hold).
  pose proof (without_ne _ _ _ Hold) as Hvh. fold h in Hvh. rewrite Hv in Hvh.
  set (o1 := with_data (al_remove key (o_data o)) o).
  set (w1 := mkWorld (<[d := o1]> (w_objs w)) (w_brk w) h).
  erewrite (bind_Ok _ _ _ () w1).
  2:{ unfold w1, o1, h. destruct (al_find key (o_data o)) as [f|] eqn:Ef.
      - destruct Hold as (_ & cf & Hcf & Hfree). erewrite bind_Ok by by apply upd_obj_ok.
        by erewrite on_fields_ok by by apply free_ok with cf.
      - apply al_find_notin in Ef. rewrite al_remove_notin by done.
        replace (with_data (o_data o) o) with o by by destruct o.
        rewrite insert_id by done. by destruct w. }
  unfold strip_underscore. unfold src. destruct (decide (head key = Some 95)) as [Hk|Hk].
  - rewrite bool_decide_true by done.
    erewrite (bind_Ok _ _ _ (tail key)).
    2:{ erewrite bind_Ok by (apply on_fields_pure; change (w_fields w1) with h;
          unfold get_field; by rewrite Hvh).
        erewrite bind_Ok by (apply on_fields_ok; change (w_fields w1) with h;
          unfold set_field; by rewrite Hvh). reflexivity. }
    erewrite upd_obj_ok by apply lookup_insert_eq. cbn [w_objs]. unfold w1. cbn [w_objs].
    by rewrite insert_insert_eq.
  - rewrite bool_decide_false by done. erewrite bind_Ok by reflexivity.
    erewrite upd_obj_ok by apply lookup_insert_eq. cbn [w_objs]. unfold w1. cbn [w_objs].
    by rewrite insert_insert_eq.
Qed.

Lemma has_set_flag b fl : b ≠ 0 → has_flag b (set_flag true b fl) = true.
Proof.
  intros Hb. unfold has_flag, set_flag.
  replace (Z.land (Z.lor fl b) b) with b; [by destruct (Z.eqb_spec b 0)|].
  apply Z.bits_inj'. intros n _. rewrite Z.land_spec, Z.lor_spec.
  by destruct (Z.testbit fl n), (Z.testbit b n).
Qed.
(** Following references reads nothing but the references. *)
Lemma widget_data_loop_agree w w' fuel d r :
  (∀ x, o_widgetData <$> w_objs w' !! x = o_widgetData <$> w_objs w !! x) →
  widget_data_loop fuel d w = Ok (r, w) → widget_data_loop fuel d w' = Ok (r, w').
Proof.
  intros Ha. revert d; induction fuel as [|fuel IH]; intros d; [done|]. cbn [widget_data_loop].
  intros E. pose proof (Ha d) as Hd. destruct (w_objs w !! d) as [o|] eqn:Ho.
  - destruct (w_objs w' !! d) as [o'|] eqn:Ho'; [|done]. injection Hd as Hd.
    erewrite bind_Ok in E by by apply get_obj_ok. erewrite bind_Ok by by apply get_obj_ok.
    rewrite Hd. destruct (o_widgetData o); [by apply IH|]. injection E as ->. done.
  - unfold get_obj in E. erewrite bind_Fault in E; [done|by rewrite Ho].
Qed.
Lemma getDataObject_agree w w' d r :
  (∀ x, o_widgetData <$> w_objs w' !! x = o_widgetData <$> w_objs w !! x) →
  size (w_objs w') = size (w_objs w) →
  widget_getDataObject (Some d) w = Ok (r, w) → widget_getDataObject (Some d) w' = Ok (r, w').
Proof.
  intros Ha Hs. unfold widget_getDataObject. do 2 erewrite bind_Ok by reflexivity.
  intros E. do 2 erewrite bind_Ok by reflexivity. unfold walk_fuel. rewrite Hs.
  by apply (widget_data_loop_agree w).
Qed.


(** ** Types *)
Lemma al_find_replace k f k' l :
  al_find k' (al_replace k f l) = if decide (k' = k) then (λ _, f) <$> al_find k l else al_find k' l.
Proof.
  induction l as [|[k1 f1] l IH]; simpl; [by case_decide|].
  repeat (case_decide; simpl); subst; try done; rewrite IH; by case_decide.
Qed.
(** What interning makes of the text of a type. *)
Definition interned (s : cstring) : str_ptr :=
  match emo_builtin_type s () with Ok (Some off, _) => SBuiltin off | _ => SHeap s end.
Lemma intern_ok v s fl h :
  fh h !! v = Some (mkField (DOF_STRING (SHeap s)) fl) →
  intern_type v h = Ok ((), mkFH (<[v := mkField (DOF_STRING (interned s)) fl]> (fh h)) (fh_brk h)).
Proof.
  intros Hv. unfold intern_type, get_field, interned. erewrite bind_Ok by by rewrite Hv.
  cbn [f_value is_builtin str_content]. erewrite bind_Ok by reflexivity.
  destruct (decide (s ∈ builtin_types.*2)) as [Hs|Hs].
  - apply list_elem_of_fmap in Hs as ([off n] & -> & Hin).
    pose proof builtin_found as T. rewrite Forall_forall in T. destruct (T _ Hin) as (E & _).
    cbn [snd fst] in *. rewrite E. erewrite bind_Ok by reflexivity. unfold set_field. by rewrite Hv.
  - rewrite builtin_not_found by done. unfold mret, M_ret. do 2 f_equal.
    rewrite insert_id by done. by destruct h.
Qed.
Lemma interned_is s ty name :
  (ty, name) ∈ builtin_types → bool_decide (interned s = SBuiltin ty) = bool_decide (s = name).
Proof.
  intros Hin. pose proof builtin_found as T. rewrite Forall_forall in T.
  pose proof builtin_types_NoDup as [N1 N2]. unfold interned. apply bool_decide_ext.
  destruct (decide (s ∈ builtin_types.*2)) as [Hs|Hs].
  - apply list_elem_of_fmap in Hs as ([off n] & -> & Hin2). destruct (T _ Hin2) as (E & _ & E2).
    destruct (T _ Hin) as (E3 & _ & E4). cbn [fst snd] in *. rewrite E. split.
    + intros [= ->]. congruence.
    + intros ->. rewrite E in E3. by injection E3 as ->.
  - rewrite builtin_not_found by done. split; [done|]. intros ->. destruct Hs.
    apply list_elem_of_fmap. by exists (ty, name).
Qed.

(** C38: a "type" whose text is one of the built-in names is made to point to the
    built-in name when it is set, so that from then on the pointer comparison of
    [EMO_DOF_IS_TYPE] decides whether the type has that name; the old type is
    released and the other fields stay. *)
Theorem dataobject_setEnum_type w d o v s fl :
  let ty := enum_value EMO_FIELD_TYPE in
  w_objs w !! d = Some o → fh (w_fields w) !! v = Some (mkField (DOF_STRING (SHeap s)) fl) →
  has_flag DOFF_ARRAYSOURCE fl = false → replaceable (al_find ty (o_enumData o)) v (w_fields w) →
  ∃ w' o', dataobject_setEnum (Some d) ty (Some v) w = Ok ((), w') ∧ w_objs w' = <[d := o']> (w_objs w) ∧
    (∀ enu, enu ≠ ty → al_find enu (o_enumData o') = al_find enu (o_enumData o)) ∧
    (∀ f, f ≠ v → fh (w_fields w') !! f = fh (without (al_find ty (o_enumData o)) (w_fields w)) !! f) ∧
    dataobject_getEnum (Some d) ty w' = Ok (Some v, w') ∧
    (∀ b name, (b, name) ∈ builtin_types →
       on_fields (EMO_DOF_IS_TYPE (Some v) b) w' = Ok (bool_decide (s = name), w')).
Proof.
  intros ty Ho Hv Hfl Hold. unfold dataobject_setEnum. do 4 erewrite bind_Ok by reflexivity.
  run_with (get_obj_ok w d o Ho). cbv zeta. fold ty. set (old := al_find ty (o_enumData o)) in *.
  rewrite bool_decide_false by (intros E; rewrite E in Hold; by destruct Hold).
  set (h := without old (w_fields w)).
  pose proof (without_ne _ _ _ Hold) as Hvh. fold h in Hvh. rewrite Hv in Hvh.
  erewrite (bind_Ok _ _ _ () (mkWorld (w_objs w) (w_brk w) h)).
  2:{ unfold h. destruct old as [f|]; [|by destruct w]. destruct Hold as (_ & cf & Hcf & Hfree).
      by erewrite on_fields_ok by by apply free_ok with cf. }
  change (ty =? ty) with true. cbn [when].
  erewrite bind_Ok by (apply on_fields_ok; by apply intern_ok).
  set (h' := mkFH (<[v := mkField (DOF_STRING (interned s)) fl]> (fh h)) (fh_brk h)).
  set (o' := with_enumData (match old with Some _ => al_replace ty v (o_enumData o)
                            | None => al_append ty v (o_enumData o) end) o).
  exists (mkWorld (<[d := o']> (w_objs w)) (w_brk w) h'), o'.
  assert (∀ enu, al_find enu (o_enumData o') = if decide (enu = ty) then Some v else al_find enu (o_enumData o))
    as Hfind.
  { intros enu. unfold o'. destruct old as [f|] eqn:Eold; cbn [o_enumData with_enumData].
    - rewrite al_find_replace. case_decide; [|done]. unfold old in Eold. by rewrite Eold.
    - apply al_find_append. }
  split; [|split; [done|split; [|split; [|split]]]].
  - unfold o'. destruct old; by rewrite (upd_obj_ok _ d o).
  - intros enu He. by rewrite Hfind, decide_False.
  - intros f Hf. cbn [w_fields h' fh]. by rewrite lookup_insert_ne.
  - eapply getEnum_plain; [apply lookup_insert_eq|done|by rewrite Hfind, decide_True|apply lookup_insert_eq|].
    unfold array_source. cbn [f_value f_flags]. done.
  - intros b name Hb. apply on_fields_pure. unfold EMO_DOF_IS_TYPE, get_field. cbn [w_fields].
    erewrite bind_Ok by reflexivity. erewrite bind_Ok by by (cbn [h' fh]; rewrite lookup_insert_eq).
    cbn [f_value]. by rewrite (interned_is s b name Hb).
Qed.

(** ** Instances *)
Definition demo_fields : fheap :=
  mkFH (list_to_map [(1%positive, mkField (DOF_STRING (SHeap (lit "old"%string))) 0);
                     (2%positive, mkField (DOF_STRING (SHeap (lit "frame"%string))) 0);
                     (3%positive, mkField (DOF_INT 7) 0)]) 4.
Definition demo_object : DataObject :=
  with_widgetData (Some 2%positive) (with_data [(lit "title"%string, 1%positive)] empty_object).
Definition demo_source : DataObject := with_data [(lit "frame"%string, 3%positive)] empty_object.
Definition demo_objects : world :=
  mkWorld (list_to_map [(1%positive, demo_object); (2%positive, demo_source)]) 3 demo_fields.
Lemma dataobject_setEnum_type_witness :
  ∃ w', dataobject_setEnum (Some 1%positive) (enum_value EMO_FIELD_TYPE) (Some 2%positive) demo_objects = Ok ((), w') ∧
    on_fields (EMO_DOF_IS_TYPE (Some 2%positive) EMO_TYPE_FRAME) w' = Ok (true, w').
Proof.
  destruct (dataobject_setEnum_type demo_objects 1%positive demo_object 2%positive (lit "frame"%string) 0)
    as (w' & o' & E & _ & _ & _ & _ & Ht); [done..|].
  exists w'. split; [exact E|]. apply (Ht EMO_TYPE_FRAME (lit "frame"%string)).
  unfold builtin_types. repeat constructor.
Defined.
