(* ===== verification/Sync.v ===== *)
(** * ConnectionContext.c: receiving a synchronised object

    The other side sends operands; each is applied to the object at the current index
    of the tree that is being received.  The texts of an operand are the C strings in
    its buffers.  Decoding packets is the work of the ASN.1 runtime; the lookup of an
    application for a frame, which ApplicationManager.c does, is the parameter
    [frame_root]: the data object of the application that shows an object. *)
From S2P Require Import Prelude CStrings FieldNames Fields DataObjects.

(** The members of a [SyncRequest] that receiving uses. *)
Record SyncRequest := mkReq { sr_dobj : oloc; sr_objectIndex : Z }.
Record sync_state := mkSync { s_world : world; s_req : SyncRequest }.
Abbreviation SM := (M sync_state).

Inductive FieldNameP :=
  | fieldNameStringP (s : cstring)
  | fieldNameEnumP (e : Z).
Inductive nodeOperationP :=
  | nodeAddP (child : bool)
  | nodeGotoTreeP (index : Z)
  | nodeGotoNamedTreeP (name : cstring)
  | nodeOtherP.
Inductive syncP :=
  | syncSetP (text : cstring)
  | syncModifyP (bytes : list Z)
  | syncNodeP (op : nodeOperationP)
  | syncOtherP.
Record SyncOperandP := mkOp { op_field : FieldNameP; op_sync : syncP }.

Definition on_world {B} (m : DM B) : SM B := λ s,
  match m (s_world s) with
  | Ok (b, w) => Ok (b, mkSync w (s_req s))
  | Abort => Abort | Fault => Fault | NoFuel => NoFuel
  end.
Definition set_index (i : Z) : SM () := λ s,
  Ok ((), mkSync (s_world s) (mkReq (sr_dobj (s_req s)) i)).

Section Sync.
Variable frame_root : oloc → option oloc.

(** [dataobject_findByName]: the object itself, then what it frames or refers to, then
    its children. *)
Definition find_other (rec : oloc → DM (option oloc)) (d : oloc) (dtype : option floc) : DM (option oloc) :=
  frame ← on_fields (EMO_DOF_IS_TYPE dtype EMO_TYPE_FRAME);
  if frame : bool then
    (child ← widget_getDataObject (Some d);
     match frame_root child with Some r => rec r | None => mret None end)
  else
    (reference ← on_fields (EMO_DOF_IS_TYPE dtype EMO_TYPE_REFERENCE);
     if reference : bool then
       (child ← widget_getDataObject (Some d);
        if decide (child = d) then mret None else rec child)
     else mret None).
Fixpoint find_by_name (fuel : nat) (name : cstring) (d : oloc) : DM (option oloc) :=
  match fuel with
  | O => no_fuel
  | S fuel =>
      field ← dataobject_getEnum (Some d) (enum_value EMO_FIELD_NAME);
      found ← on_fields (isString_inline field name);
      if found : bool then mret (Some d) else
      dtype ← dataobject_getEnum (Some d) (enum_value EMO_FIELD_TYPE);
      other ← find_other (find_by_name fuel name) d dtype;
      match other with
      | Some r => mret (Some r)
      | None => o ← get_obj d; mfind (find_by_name fuel name) (o_children o)
      end
  end.
Definition dataobject_findByName (d : option oloc) (name : option cstring) : DM (option oloc) :=
  d ← emo_nonnull d; name ← emo_nonnull name; w ← get; find_by_name (walk_fuel w) name d.

Definition set_field_of (d : oloc) (name : FieldNameP) (dof : floc) : DM () :=
  match name with
  | fieldNameStringP s => dataobject_setValue (Some d) (Some s) (Some dof)
  | fieldNameEnumP e => if e =? -1 then dataobject_setValue (Some d) None (Some dof)
                        else dataobject_setEnum (Some d) e (Some dof)
  end.
(** The bytes are appended, whatever offset the operand gives. *)
Definition modify_field (d : oloc) (name : FieldNameP) (bytes : list Z) : DM () :=
  let size := int32 (Z.of_nat (length bytes)) in
  dof ← (match name with
         | fieldNameStringP s => dataobject_getValue (Some d) (Some s)
         | fieldNameEnumP e => dataobject_getEnum (Some d) e
         end);
  match dof with
  | None =>
      data ← on_fields (copy_data bytes size);
      dof ← on_fields (dataobjectfield_data (Some data) size);
      set_field_of d name dof
  | Some f =>
      c ← on_fields (get_field f);
      match f_value c with
      | DOF_DATA old sz =>
          emo_assert (bool_decide (0 < int32 (sz + size)));;
          on_fields (set_field f (mkField (DOF_DATA (take (Z.to_nat sz) old ++ bytes) (int32 (sz + size))) (f_flags c)))
      | _ => mret ()
      end
  end.

Definition node_operation (sobj : oloc) (op : nodeOperationP) : SM () :=
  match op with
  | nodeAddP true =>
      cobj ← on_world dataobject_new;
      on_world (dataobject_pack (Some sobj) (Some cobj));;
      i ← on_world (dataobject_treeIndex (Some cobj));
      set_index i
  | nodeAddP false => mret ()
  | nodeGotoTreeP i =>
      set_index i;;
      s ← get; _ ← on_world (dataobject_getTree (Some (sr_dobj (s_req s))) i);
      mret ()
  | nodeGotoNamedTreeP name =>
      s ← get;
      found ← on_world (dataobject_findByName (Some (sr_dobj (s_req s))) (Some name));
      match found with
      | None => mret ()
      | Some d => i ← on_world (dataobject_treeIndex (Some d)); set_index i
      end
  | nodeOtherP => mret ()
  end.
Definition connectionContext_processSyncOperand (sobj : option oloc) (op : SyncOperandP) : SM () :=
  sobj ← emo_nonnull sobj;
  match op_sync op with
  | syncSetP text =>
      dof ← on_world (on_fields (dataobjectfield_string (Some (SHeap text))));
      on_world (set_field_of sobj (op_field op) dof)
  | syncModifyP bytes => on_world (modify_field sobj (op_field op) bytes)
  | syncNodeP n => node_operation sobj n
  | syncOtherP => mret ()
  end.

(** Every operand goes to the object at the index the one before left. *)
Definition process_operand (op : SyncOperandP) : SM () :=
  s ← get;
  sobj ← on_world (dataobject_getTree (Some (sr_dobj (s_req s))) (sr_objectIndex (s_req s)));
  connectionContext_processSyncOperand sobj op.
Definition connectionContext_processBlockSyncList (sobj : option oloc) (ops : list SyncOperandP) : SM () :=
  _ ← emo_nonnull sobj; mfor process_operand ops.
(** The part of [connectionContext_processSync] for a request that was found. *)
Definition connectionContext_processSync (ops : list SyncOperandP) : SM () :=
  s ← get;
  sobj ← on_world (dataobject_getTree (Some (sr_dobj (s_req s))) (sr_objectIndex (s_req s)));
  match sobj with
  | None => mret ()
  | Some d => connectionContext_processBlockSyncList (Some d) ops
  end.
End Sync.

(** The operands the protocol makes (Protocol.c). *)
Definition protocol_goToTree (i : Z) : SyncOperandP := mkOp (fieldNameStringP []) (syncNodeP (nodeGotoTreeP i)).
Definition protocol_addChild : SyncOperandP := mkOp (fieldNameStringP []) (syncNodeP (nodeAddP true)).
