(* ===== verification/SyncTrees.v ===== *)
(** * Receiving a tree

    [enc] is the sequence of operands for a tree of texts, in preorder: the fields of
    an object, then for each child a jump back to the object (not needed before the
    first), the operand that adds a child, and the child.  It follows what
    [dataobject_getTreeNextOp] says.  Receiving it rebuilds the tree. *)
From S2P Require Import Prelude CStrings FieldNames Fields DataObjects ObjectTrees ObjectFields Sync.

Inductive stree := SNode (fields : list (FieldNameP * cstring)) (children : list stree).
Lemma stree_ind' (P : stree → Prop) :
  (∀ fs ts, Forall P ts → P (SNode fs ts)) → ∀ t, P t.
Proof.
  intros H. fix IH 1. intros [fs ts]. apply H. induction ts as [|t ts IHts]; constructor; [apply IH|done].
Qed.
Fixpoint ssize (t : stree) : nat := let 'SNode _ ts := t in S (sum_list (map ssize ts)).

Definition set_ops (fs : list (FieldNameP * cstring)) : list SyncOperandP :=
  (λ p, mkOp p.1 (syncSetP p.2)) <$> fs.
Fixpoint enc_children (enc : Z → stree → list SyncOperandP) (i j : Z) (first : bool)
    (ts : list stree) : list SyncOperandP :=
  match ts with
  | [] => []
  | c :: ts =>
      (if first then [] else [protocol_goToTree i]) ++ protocol_addChild :: enc j c ++
      enc_children enc i (j + Z.of_nat (ssize c)) false ts
  end.
Fixpoint enc (i : Z) (t : stree) : list SyncOperandP :=
  let 'SNode fs ts := t in set_ops fs ++ enc_children enc i (i + 1) true ts.

#[export] Instance FieldNameP_eq_dec : EqDecision FieldNameP.
Proof. solve_decision. Defined.
Definition name_ok (n : FieldNameP) : Prop :=
  match n with fieldNameStringP s => head s ≠ Some 95 | fieldNameEnumP e => 0 < e end.
(** Names are usable and not repeated within an object. *)
Inductive valid : stree → Prop :=
  | valid_node fs ts :
      NoDup fs.*1 → Forall name_ok fs.*1 → Forall valid ts → valid (SNode fs ts).

Definition field_named (n : FieldNameP) (o : DataObject) : option floc :=
  match n with fieldNameStringP s => al_find s (o_data o) | fieldNameEnumP e => al_find e (o_enumData o) end.
Definition field_text (c : DataObjectField) : option cstring :=
  match f_value c with DOF_STRING p => str_content p | _ => None end.
(** The object has the texts [fs] as its own fields. *)
Definition has_fields (h : fheap) (o : DataObject) (fs : list (FieldNameP * cstring)) : Prop :=
  Forall (λ p, ∃ f c, field_named p.1 o = Some f ∧ fh h !! f = Some c ∧ field_text c = Some p.2 ∧
                      f_flags c = 0) fs.
Inductive holds (w : world) : tree → stree → Prop :=
  | holds_node d ts' fs ts o :
      w_objs w !! d = Some o → has_fields (w_fields w) o fs → Forall2 (holds w) ts' ts →
      holds w (Node d ts') (SNode fs ts).

(** ** Setting new fields *)
Lemma str_content_interned s : str_content (interned s) = Some s.
Proof.
  unfold interned. destruct (decide (s ∈ builtin_types.*2)) as [Hs|Hs].
  - apply list_elem_of_fmap in Hs as ([off n] & -> & Hin).
    pose proof builtin_found as T. rewrite Forall_forall in T. destruct (T _ Hin) as (E & _ & E2).
    cbn [snd fst] in *. by rewrite E.
  - by rewrite builtin_not_found.
Qed.
Lemma setEnum_new w d o e v s fl :
  w_objs w !! d = Some o → 0 < e → al_find e (o_enumData o) = None →
  fh (w_fields w) !! v = Some (mkField (DOF_STRING (SHeap s)) fl) →
  dataobject_setEnum (Some d) e (Some v) w =
    Ok ((), mkWorld (<[d := with_enumData (al_append e v (o_enumData o)) o]> (w_objs w)) (w_brk w)
      (if decide (e = enum_value EMO_FIELD_TYPE)
       then mkFH (<[v := mkField (DOF_STRING (interned s)) fl]> (fh (w_fields w))) (fh_brk (w_fields w))
       else w_fields w)).
Proof.
  intros Ho He Hnone Hv. unfold dataobject_setEnum. erewrite bind_Ok by reflexivity.
  destruct (Z.eqb_spec e (-1)); [lia|]. do 2 erewrite bind_Ok by reflexivity. unfold enum_key.
  destruct (Z.eqb_spec e 0); [lia|]. erewrite bind_Ok by reflexivity.
  run_with (get_obj_ok w d o Ho). cbv zeta. rewrite Hnone. rewrite bool_decide_false by done.
  erewrite bind_Ok by reflexivity. case_decide as Hty.
  - rewrite Hty, Z.eqb_refl. cbn [when].
    erewrite bind_Ok by (apply on_fields_ok; by apply intern_ok). by rewrite (upd_obj_ok _ d o).
  - destruct (Z.eqb_spec e (enum_value EMO_FIELD_TYPE)); [done|]. cbn [when].
    erewrite bind_Ok by reflexivity. by rewrite (upd_obj_ok _ d o).
Qed.

(** A new text field from an operand. *)
Lemma set_field_of_new w d o n s :
  wf w → w_objs w !! d = Some o → name_ok n → field_named n o = None →
  ∃ w' o' f c,
    (dof ← on_fields (dataobjectfield_string (Some (SHeap s))); set_field_of d n dof) w = Ok ((), w') ∧
    w_objs w' = <[d := o']> (w_objs w) ∧ w_brk w' = w_brk w ∧ wf w' ∧ same_links o o' ∧
    fh (w_fields w) ⊆ fh (w_fields w') ∧
    fh (w_fields w') !! f = Some c ∧ field_text c = Some s ∧ f_flags c = 0 ∧
    (∀ n', name_ok n' → field_named n' o' = if decide (n' = n) then Some f else field_named n' o).
Proof.
  intros [Wo Wf] Ho Hn Hnone. set (v := fh_brk (w_fields w)).
  set (h1 := mkFH (<[v := mkField (DOF_STRING (SHeap s)) 0]> (fh (w_fields w))) (Pos.succ v)).
  set (w1 := mkWorld (w_objs w) (w_brk w) h1).
  assert (fh (w_fields w) !! v = None) as Hfresh by (apply Wf; unfold v; lia).
  assert (on_fields (dataobjectfield_string (Some (SHeap s))) w = Ok (v, w1)) as E1 by done.
  rewrite (bind_Ok _ _ _ _ _ E1).
  assert (wf_after : ∀ objs h x o0 o1 c, objs = <[x := o1]> (w_objs w) → w_objs w !! x = Some o0 →
    h = mkFH (<[v := c]> (fh (w_fields w))) (Pos.succ v) → wf (mkWorld objs (w_brk w) h)).
  { intros objs h x o0 o1 c -> Hx ->. split; cbn [w_objs w_brk w_fields fh fh_brk].
    - intros y Hy. rewrite lookup_insert_ne; [by apply Wo|]. intros ->. rewrite Wo in Hx; done.
    - intros g Hg. rewrite lookup_insert_ne by lia. apply Wf. unfold v in Hg. lia. }
  destruct n as [key|e]; cbn [name_ok field_named set_field_of] in *.
  - assert (w_objs w1 !! d = Some o) as Ho1 by done.
    pose proof (setValue_ok w1 d o key v (mkField (DOF_STRING (SHeap s)) 0) Ho1 (lookup_insert_eq _ _ _)) as E.
    rewrite Hnone in E. specialize (E I). rewrite bool_decide_false in E by done. cbn [without] in E.
    apply al_find_notin in Hnone. rewrite al_remove_notin in E by done.
    eexists _, _, v, _. split; [exact E|]. cbn [w_objs w_brk w_fields]. split_and!.
    + reflexivity.
    + done.
    + by eapply wf_after.
    + done.
    + by apply insert_subseteq.
    + apply lookup_insert_eq.
    + done.
    + done.
    + intros [key'|e'] _; cbn [field_named o_data o_enumData with_data]; [|by rewrite decide_False by done].
      rewrite al_find_append. destruct (decide (key' = key)) as [->|?].
      * by rewrite decide_True.
      * rewrite decide_False by congruence. done.
  - assert (w_objs w1 !! d = Some o) as Ho1 by done.
    pose proof (setEnum_new w1 d o e v s 0 Ho1 Hn Hnone (lookup_insert_eq _ _ _)) as E.
    destruct (Z.eqb_spec e (-1)); [lia|].
    set (cv := if decide (e = enum_value EMO_FIELD_TYPE) then mkField (DOF_STRING (interned s)) 0
               else mkField (DOF_STRING (SHeap s)) 0).
    eexists _, _, v, cv.
    split; [exact E|]. cbn [w_objs w_brk w_fields]. split_and!.
    + reflexivity.
    + done.
    + eapply (wf_after _ _ d o _ cv); [done|done|]. unfold cv.
      case_decide; cbn; [by rewrite insert_insert_eq|done].
    + done.
    + case_decide; cbn; rewrite ?insert_insert_eq; by apply insert_subseteq.
    + unfold cv. case_decide; apply lookup_insert_eq.
    + unfold cv. case_decide; [apply str_content_interned|done].
    + unfold cv. by case_decide.
    + intros [key'|e'] _; cbn [field_named o_data o_enumData with_enumData]; [by rewrite decide_False by done|].
      rewrite al_find_append. destruct (decide (e' = e)) as [->|?].
      * by rewrite decide_True.
      * rewrite decide_False by congruence. done.
Qed.

(** ** Processing operands *)
Section Receive.
Variable frame_root : oloc → option oloc.
Abbreviation process := (process_operand frame_root).

Lemma on_world_ok {B} (m : DM B) s b w :
  m (s_world s) = Ok (b, w) → on_world m s = Ok (b, mkSync w (s_req s)).
Proof. unfold on_world. by intros ->. Qed.
Lemma mfor_app_ok {A} (f : A → SM ()) l1 l2 s s1 :
  mfor f l1 s = Ok ((), s1) → mfor f (l1 ++ l2) s = mfor f l2 s1.
Proof.
  revert s; induction l1 as [|a l1 IH]; intros s E; simpl in *; [by injection E as ->|].
  apply bind_Ok_inv in E as ([] & s2 & E1 & E2). rewrite (bind_Ok _ _ _ _ _ E1). by apply IH.
Qed.
Lemma mfor_cons_ok {A} (f : A → SM ()) a l s s1 : f a s = Ok ((), s1) → mfor f (a :: l) s = mfor f l s1.
Proof. intros E. simpl. by rewrite (bind_Ok _ _ _ _ _ E). Qed.
(** The object an operand goes to. *)
Lemma process_at w T i d op :
  tree_in w T → preorder T !! i = Some d →
  process op (mkSync w (mkReq (root T) (Z.of_nat i))) =
    connectionContext_processSyncOperand frame_root (Some d) op (mkSync w (mkReq (root T) (Z.of_nat i))).
Proof.
  intros HT Hi. pose proof (lookup_lt_Some _ _ _ Hi). pose proof HT as (_ & _ & Hb).
  unfold process_operand. erewrite bind_Ok by reflexivity.
  erewrite bind_Ok by (apply on_world_ok; apply getTree_ok; [exact HT|cbn; lia]).
  cbn [s_req sr_objectIndex]. by rewrite Nat2Z.id, Hi.
Qed.

Lemma receive_fields fs : ∀ w T i d o done_fs,
  wf w → tree_in w T → preorder T !! i = Some d → w_objs w !! d = Some o →
  NoDup (done_fs ++ fs).*1 → Forall name_ok (done_fs ++ fs).*1 →
  (∀ n, name_ok n → n ∉ done_fs.*1 → field_named n o = None) → has_fields (w_fields w) o done_fs →
  ∃ w' o', mfor process (set_ops fs) (mkSync w (mkReq (root T) (Z.of_nat i))) =
      Ok ((), mkSync w' (mkReq (root T) (Z.of_nat i))) ∧
    w_objs w' = <[d := o']> (w_objs w) ∧ w_brk w' = w_brk w ∧ wf w' ∧ same_links o o' ∧ tree_in w' T ∧
    fh (w_fields w) ⊆ fh (w_fields w') ∧ has_fields (w_fields w') o' (done_fs ++ fs).
Proof.
  induction fs as [|[n s] fs IH]; intros w T i d o done_fs Hwf HT Hi Ho N Hok Hnew Hdone.
  - exists w, o. rewrite app_nil_r. split_and!; try done. by rewrite insert_id.
  - assert (n ∉ done_fs.*1 ∧ name_ok n) as [Hn Hnok].
    { rewrite fmap_app in N, Hok. apply NoDup_app in N as (_ & N & _).
      apply Forall_app in Hok as [_ [? _]%Forall_cons]. split; [|done].
      intros Hin. apply (N n Hin). apply list_elem_of_here. }
    destruct (set_field_of_new w d o n s Hwf Ho Hnok (Hnew n Hnok Hn))
      as (w1 & o1 & f & c & E & Eo & Eb & Hwf1 & Hl & Hsub & Hf & Htext & Hflags & Hnamed).
    assert (tree_in w1 T) as HT1.
    { destruct HT as (HR & ? & ?). split; [by eapply rep_links|done]. }
    assert (process (mkOp n (syncSetP s)) (mkSync w (mkReq (root T) (Z.of_nat i))) =
      Ok ((), mkSync w1 (mkReq (root T) (Z.of_nat i)))) as E1.
    { rewrite (process_at w T i d) by done. unfold connectionContext_processSyncOperand.
      erewrite bind_Ok by reflexivity. cbn [op_sync op_field].
      apply bind_Ok_inv in E as (dof & w0 & E0 & E). erewrite bind_Ok by by apply on_world_ok.
      by apply on_world_ok. }
    destruct (IH w1 T i d o1 (done_fs ++ [(n, s)])) as (w' & o' & E' & Eo' & Eb' & Hwf' & Hl' & HT' & Hsub' & Hall).
    + done.
    + done.
    + done.
    + rewrite Eo. apply lookup_insert_eq.
    + by rewrite <-(assoc_L app).
    + by rewrite <-(assoc_L app).
    + intros n' Hn' Hnot. rewrite fmap_app, elem_of_app in Hnot. rewrite Hnamed by done.
      rewrite decide_False; [apply Hnew; tauto|]. intros ->. apply Hnot. right. apply list_elem_of_here.
    + apply Forall_app. split.
      * rewrite fmap_app in Hok. apply Forall_app in Hok as [Hok _].
        unfold has_fields in Hdone. rewrite Forall_forall in Hdone |- *. intros p Hp.
        destruct (Hdone p Hp) as (g & cg & Hg & Hcg & Ht & Hfl). exists g, cg.
        assert (p.1 ∈ done_fs.*1) as Hp1 by (apply list_elem_of_fmap; by exists p).
        rewrite Hnamed, decide_False; [|by intros <-|]; last (by rewrite Forall_forall in Hok; apply Hok).
        split_and!; try done. by eapply lookup_weaken.
      * constructor; [|done]. exists f, c. cbn [fst snd]. rewrite Hnamed, decide_True by done. done.
    + exists w', o'. split_and!; try done.
      * unfold set_ops. rewrite fmap_cons. rewrite (mfor_cons_ok _ _ _ _ _ E1). exact E'.
      * rewrite Eo', Eo. by rewrite insert_insert_eq.
      * congruence.
      * destruct Hl, Hl'. split; congruence.
      * by etransitivity.
      * by rewrite <-(assoc_L app) in Hall.
Qed.

(** The position of the object a path leads to. *)
Definition pos (ctx : list frame) : nat := length (before ctx).
Lemma preorder_at ctx d ts : preorder (plug ctx (Node d ts)) !! pos ctx = Some d.
Proof. rewrite preorder_plug_eq, lookup_app_r, Nat.sub_diag by done. done. Qed.
Lemma rep_fresh w p t c : rep (w_objs w) p t → w_objs w !! c = None → c ∉ preorder t.
Proof.
  intros H Hc Hin. pose proof (rep_dom _ _ _ H) as F. rewrite Forall_forall in F.
  destruct (F c Hin) as [? E]. congruence.
Qed.

Lemma add_child_ok w ctx d ts o :
  wf w → tree_in w (plug ctx (Node d ts)) → w_objs w !! d = Some o →
  Z.of_nat (S (length (preorder (plug ctx (Node d ts))))) < 2 ^ 31 →
  let r := root (plug ctx (Node d ts)) in
  let c := w_brk w in
  ∃ w1 o1 oc, process protocol_addChild (mkSync w (mkReq r (Z.of_nat (pos ctx)))) =
      Ok ((), mkSync w1 (mkReq r (Z.of_nat (pos (mkFrame d ts [] :: ctx))))) ∧
    wf w1 ∧ tree_in w1 (plug ctx (Node d (ts ++ [Node c []]))) ∧
    w_objs w1 !! d = Some o1 ∧ o_data o1 = o_data o ∧ o_enumData o1 = o_enumData o ∧
    w_objs w1 !! c = Some oc ∧ o_data oc = [] ∧ o_enumData oc = [] ∧
    (∀ x, x ≠ d → x ≠ c → w_objs w1 !! x = w_objs w !! x) ∧ w_fields w1 = w_fields w ∧ w_objs w !! c = None.
Proof.
  intros [Wo Wf] HT Ho Hb r c. pose proof HT as (HR & N & _).
  assert (w_objs w !! c = None) as Hc by (apply Wo; unfold c; lia).
  assert (d ≠ c) as Hdc by (intros ->; congruence).
  pose proof (rep_fresh _ _ _ _ HR Hc) as Hcn.
  destruct (rep_obj _ _ _ (rep_plug _ ctx _ _ HR)) as (o' & ts' & [= <-] & Ho' & _ & Hch).
  cbn [root] in Ho'. rewrite Ho in Ho'. injection Ho' as <-.
  set (w0 := mkWorld (<[c := empty_object]> (w_objs w)) (Pos.succ c) (w_fields w)).
  assert (tree_in w0 (plug ctx (Node d ts))) as HT0.
  { split; [|by destruct HT]. apply (rep_agree (w_objs w)); [done|]. intros x Hx. cbn [w_objs w0].
    apply lookup_insert_ne. by intros ->. }
  assert (w_objs w0 !! c = Some empty_object) as Hc0 by apply lookup_insert_eq.
  assert (w_objs w0 !! d = Some o) as Hd0 by (cbn [w_objs w0]; by rewrite lookup_insert_ne).
  assert (NoDup (preorder (plug ctx (Node d ts)) ++ [c])) as N0.
  { apply NoDup_app. split; [done|]. split; [|apply NoDup_singleton].
    intros x Hx ->%list_elem_of_singleton. done. }
  pose proof (tree_adopt w0 ctx d ts (Node c []) None (ts ++ [Node c []]) empty_object o HT0) as HA.
  cbn [root preorder map concat] in HA.
  set (w1 := mkWorld (<[d := with_children (map root (ts ++ [Node c []])) o]>
    (<[c := with_parent (Some d) empty_object]> (w_objs w0))) (w_brk w0) (w_fields w0)) in *.
  assert (tree_in w1 (plug ctx (Node d (ts ++ [Node c []])))) as HT1.
  { apply HA; try done; [by econstructor|rewrite length_app; simpl; lia|].
    by rewrite Permutation_app_comm. }
  exists w1, (with_children (map root (ts ++ [Node c []])) o), (with_parent (Some d) empty_object).
  split; [|split; [|split; [exact HT1|]]].
  - unfold r. rewrite (process_at w (plug ctx (Node d ts)) (pos ctx) d) by (done || apply preorder_at).
    unfold connectionContext_processSyncOperand. erewrite bind_Ok by reflexivity.
    cbn [op_sync protocol_addChild node_operation].
    erewrite (bind_Ok _ _ _ c) by (apply on_world_ok; reflexivity). cbn [s_req s_world].
    erewrite (bind_Ok _ _ _ ()).
    2:{ apply (on_world_ok _ _ () w1). cbn [s_world]. unfold dataobject_pack.
        do 2 erewrite bind_Ok by reflexivity. fold c. fold w0.
        erewrite bind_Ok by by apply upd_obj_ok. erewrite upd_obj_ok.
        2:{ cbn [w_objs]. rewrite lookup_insert_ne by done. exact Hd0. }
        cbn [w_objs w_brk w_fields]. unfold w1. by rewrite Hch, map_app. }
    erewrite (bind_Ok _ _ _ (Z.of_nat (pos (mkFrame d ts [] :: ctx)))).
    2:{ apply (on_world_ok _ _ _ w1). cbn [s_world].
        destruct HT1 as (HR1 & N1 & Hb1).
        assert (preorder (plug ctx (Node d (ts ++ [Node c []]))) !! pos (mkFrame d ts [] :: ctx) = Some c) as Hat.
        { exact (preorder_at (mkFrame d ts [] :: ctx) c []). }
        rewrite (treeIndex_ok w1 _ c (conj HR1 (conj N1 Hb1)));
          [|by eapply list_elem_of_lookup_2].
        by rewrite (position_NoDup _ _ _ N1 Hat). }
    reflexivity.
  - split; cbn [w_objs w_brk w_fields w1 w0]; [|done]. intros x Hx.
    rewrite !lookup_insert_ne; [apply Wo; unfold c in Hx; lia|unfold c in *; lia..|].
    intros ->. rewrite Wo in Ho; [done|]. unfold c in Hx. lia.
  - cbn [w_objs w_fields w1 w0]. split_and!; try done.
    + apply lookup_insert_eq.
    + by rewrite lookup_insert_ne, lookup_insert_eq by done.
    + intros x ? ?. by rewrite !lookup_insert_ne by done.
Qed.

Lemma has_fields_mono h h' o o' fs :
  has_fields h o fs → fh h ⊆ fh h' → o_data o' = o_data o → o_enumData o' = o_enumData o →
  has_fields h' o' fs.
Proof.
  unfold has_fields. rewrite !Forall_forall. intros H Hsub Hd He p Hp.
  destruct (H p Hp) as (f & c & Hf & Hc & Ht & Hfl). exists f, c. split_and!; try done.
  - destruct p as [[n|e] s]; simpl in *; congruence.
  - by eapply lookup_weaken.
Qed.
Lemma holds_frame w w' t' t :
  holds w t' t → (∀ x o, x ∈ preorder t' → w_objs w !! x = Some o → w_objs w' !! x = Some o) →
  fh (w_fields w) ⊆ fh (w_fields w') → holds w' t' t.
Proof.
  intros H Ho Hsub. revert t H Ho. induction t' as [l ts' IH] using tree_ind'. intros t H Ho.
  inversion H as [? ? fs ts o Hl Hf Hts]; subst. econstructor.
  - apply Ho; [apply list_elem_of_here|exact Hl].
  - by eapply has_fields_mono.
  - assert (∀ x o, x ∈ forest ts' → w_objs w !! x = Some o → w_objs w' !! x = Some o) as Ho'
      by (intros x ox Hx; apply Ho; simpl; by apply list_elem_of_further).
    clear -IH Hts Ho'. induction Hts as [|t' t ts' ts Ht Hts IH2]; [constructor|].
    apply Forall_cons in IH as [IH0 IH]. unfold forest in *. simpl in Ho'. constructor.
    + apply IH0; [done|]. intros x ox Hx. apply Ho', elem_of_app. by left.
    + apply IH2; [done|]. intros x ox Hx. apply Ho', elem_of_app. by right.
Qed.
Lemma root_plug ctx t t' : root t = root t' → root (plug ctx t) = root (plug ctx t').
Proof. destruct ctx as [|f ctx]; [done|]. intros _. revert f t t'; induction ctx as [|g ctx IH]; intros f t t'; [done|]. apply (IH g). Qed.

Lemma goto_ok w ctx d ts k x :
  tree_in w (plug ctx (Node d ts)) → preorder (plug ctx (Node d ts)) !! k = Some x →
  let r := root (plug ctx (Node d ts)) in
  process (protocol_goToTree (Z.of_nat (pos ctx))) (mkSync w (mkReq r (Z.of_nat k))) =
    Ok ((), mkSync w (mkReq r (Z.of_nat (pos ctx)))).
Proof.
  intros HT Hk r. unfold r. rewrite (process_at w (plug ctx (Node d ts)) k x) by done.
  unfold connectionContext_processSyncOperand. erewrite bind_Ok by reflexivity.
  cbn [op_sync protocol_goToTree node_operation]. erewrite bind_Ok by reflexivity.
  erewrite bind_Ok by reflexivity. erewrite bind_Ok; [reflexivity|].
  apply on_world_ok. cbn [s_world s_req sr_dobj]. apply getTree_ok; [exact HT|].
  pose proof (lookup_lt_Some _ _ _ (preorder_at ctx d ts)). pose proof HT as (_ & _ & ?). lia.
Qed.

(** What receiving a tree at the object [d], so far empty, leaves behind. *)
Definition received (w w' : world) (ctx : list frame) (d : oloc) (ts' : list tree) (k : nat) : Prop :=
  wf w' ∧ tree_in w' (plug ctx (Node d ts')) ∧ is_Some (preorder (plug ctx (Node d ts')) !! k) ∧
  (∀ x ox, x ≠ d → w_objs w !! x = Some ox → w_objs w' !! x = Some ox) ∧
  fh (w_fields w) ⊆ fh (w_fields w').
Definition receives (t : stree) : Prop := ∀ w ctx d o,
  wf w → tree_in w (plug ctx (Node d [])) → w_objs w !! d = Some o → o_data o = [] → o_enumData o = [] →
  valid t → Z.of_nat (length (preorder (plug ctx (Node d []))) + ssize t) ≤ 2 ^ 31 →
  ∃ w' k ts', mfor process (enc (Z.of_nat (pos ctx)) t)
      (mkSync w (mkReq (root (plug ctx (Node d []))) (Z.of_nat (pos ctx)))) =
      Ok ((), mkSync w' (mkReq (root (plug ctx (Node d []))) (Z.of_nat k))) ∧
    received w w' ctx d ts' k ∧ S (length (forest ts')) = ssize t ∧ holds w' (Node d ts') t.

Lemma length_plug ctx d ts :
  length (preorder (plug ctx (Node d ts))) = (length (before ctx) + S (length (forest ts)) + length (behind ctx))%nat.
Proof. rewrite preorder_plug_eq. rewrite !length_app. cbn [preorder length]. unfold forest. lia. Qed.
Lemma length_forest_snoc ts c tc : length (forest (ts ++ [Node c tc])) = (length (forest ts) + S (length (forest tc)))%nat.
Proof. rewrite forest_app, length_app. unfold forest at 2. simpl. by rewrite app_nil_r. Qed.

Lemma receive_children ts : Forall receives ts → ∀ w ctx d o ts1 first k,
  wf w → tree_in w (plug ctx (Node d ts1)) → w_objs w !! d = Some o → Forall valid ts →
  Z.of_nat (length (preorder (plug ctx (Node d ts1))) + sum_list (map ssize ts)) < 2 ^ 31 →
  is_Some (preorder (plug ctx (Node d ts1)) !! k) → (first = true → k = pos ctx) →
  ∃ w' k' ts2 o', mfor process
      (enc_children enc (Z.of_nat (pos ctx)) (Z.of_nat (pos ctx + 1 + length (forest ts1))) first ts)
      (mkSync w (mkReq (root (plug ctx (Node d []))) (Z.of_nat k))) =
      Ok ((), mkSync w' (mkReq (root (plug ctx (Node d []))) (Z.of_nat k'))) ∧
    received w w' ctx d (ts1 ++ ts2) k' ∧ length (forest ts2) = sum_list (map ssize ts) ∧
    Forall2 (holds w') ts2 ts ∧ w_objs w' !! d = Some o' ∧ o_data o' = o_data o ∧
    o_enumData o' = o_enumData o.
Proof.
  induction 1 as [|t ts Ht Hts IH]; intros w ctx d o ts1 first k Hwf HT Ho Hv Hb Hk Hfirst.
  { exists w, k, [], o. rewrite app_nil_r. split_and!; try done. }
  apply Forall_cons in Hv as [Hvt Hv]. cbn [map sum_list] in Hb. change (id (ssize t)) with (ssize t) in Hb.
  set (r := root (plug ctx (Node d []))). assert (r = root (plug ctx (Node d ts1))) as Er by by apply root_plug.
  assert (mfor process (if first then [] else [protocol_goToTree (Z.of_nat (pos ctx))])
    (mkSync w (mkReq r (Z.of_nat k))) = Ok ((), mkSync w (mkReq r (Z.of_nat (pos ctx))))) as Egoto.
  { destruct first; [by rewrite Hfirst|]. destruct Hk as [x Hx]. simpl. rewrite Er.
    by rewrite (bind_Ok _ _ _ _ _ (goto_ok w ctx d ts1 k x HT Hx)). }
  assert (0 < ssize t)%nat as Hpos by (destruct t; simpl; lia).
  destruct (add_child_ok w ctx d ts1 o Hwf HT Ho ltac:(lia))
    as (w1 & o1 & oc & Eadd & Hwf1 & HT1 & Ho1 & Hd1 & He1 & Hoc & Hdc & Hec & Hsame & Hfl & Hfresh).
  set (c := w_brk w) in *. rewrite <-Er in Eadd. set (ctx1 := mkFrame d ts1 [] :: ctx) in *.
  assert (d ≠ c) as Hdne by (intros ->; congruence).
  assert (length (preorder (plug ctx1 (Node c []))) = S (length (preorder (plug ctx (Node d ts1))))) as Hlen1.
  { change (plug ctx1 (Node c [])) with (plug ctx (Node d (ts1 ++ [Node c []]))).
    rewrite !length_plug, length_forest_snoc. cbn. lia. }
  destruct (Ht w1 ctx1 c oc Hwf1 HT1 Hoc Hdc Hec Hvt ltac:(rewrite Hlen1; lia))
    as (w2 & k2 & tc & Eenc & (Hwf2 & HT2 & Hk2 & Hsame2 & Hsub2) & Hlen2 & Hholds).
  assert (root (plug ctx1 (Node c [])) = r) as Er1 by (unfold r; by apply (root_plug ctx)).
  rewrite Er1 in Eenc.
  change (plug ctx1 (Node c tc)) with (plug ctx (Node d (ts1 ++ [Node c tc]))) in *.
  assert (w_objs w2 !! d = Some o1) as Ho2 by by apply Hsame2.
  assert (length (preorder (plug ctx (Node d (ts1 ++ [Node c tc])))) =
    length (preorder (plug ctx (Node d ts1))) + ssize t)%nat as Hlen3.
  { rewrite !length_plug, length_forest_snoc. lia. }
  destruct (IH w2 ctx d o1 (ts1 ++ [Node c tc]) false k2 Hwf2 HT2 Ho2 Hv ltac:(lia) Hk2 ltac:(done))
    as (w3 & k3 & ts2 & o3 & Erest & (Hwf3 & HT3 & Hk3 & Hsame3 & Hsub3) & Hlen & Hholds3 & Ho3 & Hd3 & He3).
  exists w3, k3, (Node c tc :: ts2), o3. rewrite <-(assoc_L app) in HT3, Hk3. cbn [app] in HT3, Hk3.
  assert (Z.of_nat (pos ctx + 1 + length (forest ts1)) = Z.of_nat (pos ctx1)) as Ej
    by (unfold ctx1, pos; cbn [before fr_l fr_left]; rewrite length_app; simpl; lia).
  split; [|split; [|split; [|split; [|split; [done|split; congruence]]]]].
  - cbn [enc_children]. rewrite (mfor_app_ok _ _ _ _ _ Egoto), (mfor_cons_ok _ _ _ _ _ Eadd), Ej.
    rewrite (mfor_app_ok _ _ _ _ _ Eenc). etransitivity; [|exact Erest]. do 2 f_equal.
    rewrite length_forest_snoc. lia.
  - split_and!; try done.
    + intros x ox Hx Hox. apply Hsame3; [done|]. apply Hsame2; [intros ->; congruence|].
      rewrite Hsame; [done|done|intros ->; congruence].
    + rewrite <-Hfl. by etransitivity.
  - unfold forest in *. cbn [map concat preorder sum_list]. change (id (ssize t)) with (ssize t). rewrite length_app. cbn [length]. simpl. lia.
  - constructor; [|done]. apply (holds_frame w2); [done| |done]. intros x ox Hx Hox.
    apply Hsame3; [|done]. intros ->. destruct HT2 as (_ & N & _).
    rewrite preorder_plug_eq in N. apply NoDup_app in N as (_ & _ & N). apply NoDup_app in N as (N & _ & _).
    cbn [preorder] in N. apply NoDup_cons in N as [N _]. apply N.
    fold (forest (ts1 ++ [Node c tc])). rewrite forest_app. apply elem_of_app. right.
    unfold forest. cbn [map concat]. apply elem_of_app. by left.
Qed.

Lemma receive_ok t : receives t.
Proof.
  induction t as [fs ts IH] using stree_ind'. intros w ctx d o Hwf HT Ho Hd He Hv Hb.
  inversion Hv as [? ? Nfs Hok Hvts]; subst. cbn [ssize] in Hb.
  destruct (receive_fields fs w (plug ctx (Node d [])) (pos ctx) d o []) as
    (w1 & o1 & E1 & Eo & Eb & Hwf1 & _ & HT1 & Hsub1 & Hf1); try done.
  { apply preorder_at. }
  { intros [n|e] _ _; simpl; by rewrite ?Hd, ?He. }
  { constructor. }
  destruct (receive_children ts IH w1 ctx d o1 [] true (pos ctx) Hwf1 HT1) as
    (w2 & k & ts2 & o2 & E2 & Hrec & Hlen & Hh & Ho2 & Hd2 & He2); try done.
  { rewrite Eo. apply lookup_insert_eq. }
  { lia. }
  { rewrite preorder_at. by eexists. }
  exists w2, k, ts2. split; [|split; [|split]].
  - cbn [enc]. rewrite (mfor_app_ok _ _ _ _ _ E1). replace (Z.of_nat (pos ctx) + 1) with
      (Z.of_nat (pos ctx + 1 + length (forest []))) by (cbn; lia). exact E2.
  - destruct Hrec as (? & ? & ? & Hsame & ?). split_and!; try done; [|by etransitivity].
    intros x ox Hx Hox. apply Hsame; [done|]. rewrite Eo. by rewrite lookup_insert_ne.
  - cbn [ssize]. by rewrite Hlen.
  - econstructor; [exact Ho2| |exact Hh]. eapply has_fields_mono; [exact Hf1| |done|done].
    by destruct Hrec as (_ & _ & _ & _ & ?).
Qed.

(** C17: receiving the operands of a tree at a fresh object builds exactly that tree: the
    operands are processed without error, the object becomes the root of a
    well-formed tree of the same shape, every object of it has the texts that were
    sent as its fields, under their names, and the other objects stay as they were. *)
Theorem receive_tree_roundtrip w d o t :
  wf w → tree_in w (Node d []) → w_objs w !! d = Some o → o_data o = [] → o_enumData o = [] →
  valid t → Z.of_nat (ssize t) < 2 ^ 31 →
  ∃ w' i t', connectionContext_processSync frame_root (enc 0 t) (mkSync w (mkReq d 0)) =
      Ok ((), mkSync w' (mkReq d i)) ∧
    root t' = d ∧ tree_in w' t' ∧ holds w' t' t ∧
    (∀ x ox, x ≠ d → w_objs w !! x = Some ox → w_objs w' !! x = Some ox).
Proof.
  intros Hwf HT Ho Hd He Hv Hb.
  destruct (receive_ok t w [] d o Hwf HT Ho Hd He Hv) as (w' & k & ts' & E & (_ & HT' & _ & Hsame & _) & _ & Hh).
  { simpl. lia. }
  exists w', (Z.of_nat k), (Node d ts'). split; [|done].
  unfold connectionContext_processSync. erewrite bind_Ok by reflexivity.
  erewrite bind_Ok by (apply on_world_ok; apply (getTree_ok w (Node d []) HT 0); done).
  exact E.
Qed.
End Receive.

(** ** A tree of three objects, received *)
Definition small_tree : stree :=
  SNode [(fieldNameEnumP (enum_value EMO_FIELD_TYPE), lit "list"); (fieldNameStringP (lit "title"), lit "a")]
    [SNode [(fieldNameStringP (lit "x"), lit "1")] []; SNode [] []].
Definition bare_world : world := mkWorld {[1%positive := empty_object]} 2 (mkFH ∅ 1).
Lemma small_tree_valid : valid small_tree.
Proof.
  repeat (constructor; cbn); try by intros ?%list_elem_of_In; naive_solver. all: try done.
Qed.
Lemma bare_wf : wf bare_world.
Proof.
  split; [|done]. intros x Hx. cbn in *. rewrite lookup_singleton_ne; [done|lia].
Qed.
Lemma bare_tree : tree_in bare_world (Node 1%positive []).
Proof.
  split; [by econstructor|]. split; [apply NoDup_singleton|done].
Qed.
Lemma receive_tree_roundtrip_witness :
  ∃ w' i t', connectionContext_processSync (λ _, None) (enc 0 small_tree) (mkSync bare_world (mkReq 1 0)) =
      Ok ((), mkSync w' (mkReq 1 i)) ∧
    root t' = 1%positive ∧ tree_in w' t' ∧ holds w' t' small_tree ∧
    (∀ x ox, x ≠ 1%positive → w_objs bare_world !! x = Some ox → w_objs w' !! x = Some ox).
Proof.
  exact (receive_tree_roundtrip (λ _, None) bare_world 1%positive empty_object small_tree bare_wf bare_tree
    eq_refl eq_refl eq_refl small_tree_valid eq_refl).
Defined.
