(* ===== verification/Protocol.v ===== *)
(** * Protocol.c, ProtocolUtils.c: the packets of the synchronisation

    A packet is a value of the type the ASN.1 compiler made a struct for.  Building one
    from a field turns a number into its text. *)
From S2P Require Import Prelude CStrings FieldNames Fields DataObjects Sync.

(** ** emo_itoa, emo_uitoa *)
Definition itoa_alphabet : cstring :=
  lit "zyxwvutsrqponmlkjihgfedcba9876543210123456789abcdefghijklmnopqrstuvwxyz"%string.
(** The characters, the last one first, and the value [tmp_value] has at the end. *)
Fixpoint itoa_loop (fuel : nat) (value base : Z) : option (cstring * Z) :=
  match fuel with
  | O => None
  | S fuel =>
      let q := Z.quot value base in
      c ← itoa_alphabet !! Z.to_nat (35 + (value - q * base));
      if q =? 0 then Some ([c], value)
      else '(cs, t) ← itoa_loop fuel q base; Some (c :: cs, t)
  end.
Definition itoa_base_ok (base : Z) : bool := (2 <=? base) && (base <=? 36).
Definition emo_itoa (value base : Z) : option cstring :=
  if negb (itoa_base_ok base) then Some [] else
  '(cs, tmp_value) ← itoa_loop 33 value base;
  Some (reverse (cs ++ if tmp_value <? 0 then [45] else [])).
Definition emo_uitoa (value base : Z) : option cstring :=
  if negb (itoa_base_ok base) then Some [] else
  '(cs, _) ← itoa_loop 33 value base; Some (reverse cs).

(** ** Packets *)
Record RecordSyncListP := mkRecordSync {
  deleteRecordP : bool; recordIdMinorP : Z; recordIdMajorP : Z;
  recordFieldListP : option (list SyncOperandP) }.
Inductive SyncListP :=
  | blockSyncListP (ops : list SyncOperandP)
  | recordSyncListP (records : list RecordSyncListP).
Inductive RequestResponseP := responseOKP | responseExpiredP | responseOtherP (code : Z).
Record AuthUserPassP := mkUserPass {
  authUsernameP : cstring; authPasswordP : cstring; authExtrasP : list (cstring * cstring) }.
Inductive AuthTypeP := atImplicitP | atUsernamePasswordP | atOtherP (code : Z).
Inductive FRIPacketP :=
  | authRequestP (salt : cstring) (types : list AuthTypeP)
  | authUserPassP (p : AuthUserPassP)
  | authResponseP (r : RequestResponseP)
  | dataObjectSyncStartP (url : cstring) (minor major sequenceID : Z)
  | dataObjectSyncP (sequenceID : Z) (l : SyncListP)
  | dataObjectSyncFinishP (r : RequestResponseP) (sequenceID : Z)
  | otherPacketP (kind : Z).   (* handshakes and subscriptions, which are ignored *)

Definition protocol_syncStart (url : option cstring) (minor major sequenceID : Z) : DM FRIPacketP :=
  url ← emo_nonnull url; mret (dataObjectSyncStartP url minor major sequenceID).
Definition protocol_syncFinished (r : RequestResponseP) (sequenceID : Z) : FRIPacketP :=
  dataObjectSyncFinishP r sequenceID.
(** The text of a field, or its bytes. *)
Definition serialize (field : option floc) : DM syncP :=
  f ← deref field; c ← on_fields (get_field f);
  match f_value c with
  | DOF_STRING p => s ← deref (str_content p); mret (syncSetP s)
  | DOF_DATA bytes size => mret (syncModifyP (take (Z.to_nat size) bytes))
  | DOF_INT i => s ← deref (emo_itoa i 10); mret (syncSetP s)
  | DOF_UINT u => s ← deref (emo_uitoa u 10); mret (syncSetP s)
  end.
Definition protocol_serializeField (sobj : option oloc) (fieldName : option cstring) : DM SyncOperandP :=
  sobj ← emo_nonnull sobj; name ← emo_nonnull fieldName;
  field ← dataobject_getValue (Some sobj) (Some name);
  s ← serialize field; mret (mkOp (fieldNameStringP name) s).
Definition protocol_serializeFieldEnum (sobj : option oloc) (fieldEnum : Z) : DM SyncOperandP :=
  sobj ← emo_nonnull sobj;
  field ← dataobject_getEnum (Some sobj) fieldEnum;
  s ← serialize field; mret (mkOp (fieldNameEnumP fieldEnum) s).
Definition protocol_recordSync (isDelete : bool) (stampMinor stampMajor : Z) : RecordSyncListP :=
  mkRecordSync isDelete stampMinor stampMajor (if isDelete then None else Some []).
Definition protocol_authUserPass (username pass : option cstring) : DM AuthUserPassP :=
  u ← emo_nonnull username; p ← emo_nonnull pass; mret (mkUserPass u p []).
Definition protocol_autUserPassExtra (p : AuthUserPassP) (name value : option cstring) : DM AuthUserPassP :=
  n ← emo_nonnull name; v ← emo_nonnull value;
  mret (mkUserPass (authUsernameP p) (authPasswordP p) (authExtrasP p ++ [(n, v)])).

(** ** Numbers and their texts *)
Definition is_digit (c : Z) : bool := (48 <=? c) && (c <=? 57).
Lemma digit_char d : -10 < d < 10 → itoa_alphabet !! Z.to_nat (35 + d) = Some (48 + Z.abs d).
Proof.
  intros Hd. assert (∃ n, (n < 19)%nat ∧ d = Z.of_nat n - 9) as (n & Hn & ->) by (exists (Z.to_nat (d + 9)); lia).
  do 19 (destruct n as [|n]; [reflexivity|]). lia.
Qed.
Lemma dec_digits_app s t acc : Forall (λ c, is_digit c = true) s → dec_digits (s ++ t) acc = dec_digits t (dec_digits s acc).
Proof.
  intros Hs. revert acc; induction Hs as [|c s Hc Hs IH]; intros acc; [done|]. unfold is_digit in Hc. cbn [app dec_digits].
  by rewrite Hc, IH.
Qed.
Lemma itoa_loop_ok fuel v : Z.abs v < 10 ^ Z.of_nat fuel → (0 < fuel)%nat →
  ∃ cs t, itoa_loop fuel v 10 = Some (cs, t) ∧ (t <? 0) = (v <? 0) ∧ Forall (λ c, is_digit c = true) cs ∧ cs ≠ [] ∧
    dec_digits (reverse cs) 0 = Z.abs v ∧ (length cs ≤ fuel)%nat.
Proof.
  revert v; induction fuel as [|fuel IH]; intros v Hv Hf; [lia|]. cbn [itoa_loop].
  pose proof (Z.quot_rem' v 10). pose proof (Z.rem_bound_abs v 10).
  assert (v - Z.quot v 10 * 10 = Z.rem v 10) as -> by lia.
  rewrite digit_char by lia. cbn [mbind option_bind].
  assert (is_digit (48 + Z.abs (Z.rem v 10)) = true) as Hdig by (unfold is_digit; lia).
  destruct (Z.eqb_spec (Z.quot v 10) 0) as [Hq|Hq].
  - eexists _, _. split; [done|]. split_and!; [done|by constructor|done| |simpl; lia].
    unfold is_digit in Hdig. cbn [reverse rev_append dec_digits]. change (reverse [48 + Z.abs (Z.rem v 10)])
      with [48 + Z.abs (Z.rem v 10)]. cbn [dec_digits]. rewrite Hdig. lia.
  - assert (Z.abs (Z.quot v 10) < 10 ^ Z.of_nat fuel).
    { rewrite Nat2Z.inj_succ, Z.pow_succ_r in Hv by lia. Z.to_euclidean_division_equations. nia. }
    assert (0 < fuel)%nat by (destruct fuel; [simpl in *; lia|lia]).
    destruct (IH (Z.quot v 10)) as (cs & t & -> & Ht & Hcs & Hne & Hd & Hlen); [done..|].
    eexists _, _. split; [done|]. split_and!.
    + rewrite Ht. Z.to_euclidean_division_equations. lia.
    + by constructor.
    + done.
    + rewrite reverse_cons, dec_digits_app by (by apply Forall_reverse). rewrite Hd.
      unfold is_digit in Hdig. cbn [dec_digits]. rewrite Hdig. Z.to_euclidean_division_equations. lia.
    + simpl. lia.
Qed.
Lemma atoi_digits s : Forall (λ c, is_digit c = true) s → s ≠ [] → atoi s = int_or_none (dec_digits s 0).
Proof.
  intros Hs Hne. destruct Hs as [|c s Hc Hs]; [done|]. unfold is_digit in Hc. cbn [atoi].
  replace (c =? 32) with false by lia. replace ((9 <=? c) && (c <=? 13)) with false by lia.
  replace (c =? 43) with false by lia. by replace (c =? 45) with false by lia.
Qed.

(** The text that is sent for a number is read back as that number: [atoi] of
    [emo_itoa] is the identity on every [int], the smallest one included, and the
    digits of [emo_uitoa] are those of the unsigned number.  The texts fit the buffers. *)
Theorem number_text_roundtrip v u : -2 ^ 31 ≤ v < 2 ^ 31 → 0 ≤ u < 2 ^ 32 →
  (∃ s, emo_itoa v 10 = Some s ∧ atoi s = Some v ∧ (length s < 64)%nat) ∧
  (∃ s, emo_uitoa u 10 = Some s ∧ dec_digits s 0 = u ∧ (length s < 64)%nat).
Proof.
  intros Hv Hu. split.
  - destruct (itoa_loop_ok 33 v) as (cs & t & E & Ht & Hcs & Hne & Hd & Hlen); [lia|lia|].
    unfold emo_itoa. cbn [negb itoa_base_ok andb Z.leb Z.compare Pos.compare Pos.compare_cont]. rewrite E. cbn [mbind option_bind].
    eexists. split; [done|]. rewrite Ht. split; [|rewrite length_reverse, length_app; destruct (v <? 0); simpl; lia].
    destruct (Z.ltb_spec v 0).
    + rewrite reverse_app. change (reverse [45]) with [45]. cbn [app atoi]. cbn. rewrite Hd.
      unfold int_or_none. rewrite bool_decide_true by (rewrite int32_small; lia). f_equal. lia.
    + rewrite app_nil_r, atoi_digits, Hd; [|by apply Forall_reverse|].
      * unfold int_or_none. rewrite bool_decide_true by (rewrite int32_small; lia). f_equal. lia.
      * intros H'. apply Hne. by rewrite <-(reverse_involutive cs), H'.
  - destruct (itoa_loop_ok 33 u) as (cs & t & E & _ & _ & _ & Hd & Hlen); [lia|lia|].
    unfold emo_uitoa. cbn [negb itoa_base_ok andb Z.leb Z.compare Pos.compare Pos.compare_cont]. rewrite E. cbn [mbind option_bind].
    eexists. split; [done|]. split; [lia|]. rewrite length_reverse. lia.
Qed.
Lemma number_text_roundtrip_witness :
  (∃ s, emo_itoa (-2147483648) 10 = Some s ∧ atoi s = Some (-2147483648) ∧ (length s < 64)%nat) ∧
  (∃ s, emo_uitoa 4294967295 10 = Some s ∧ dec_digits s 0 = 4294967295 ∧ (length s < 64)%nat).
Proof. apply (number_text_roundtrip (-2147483648) 4294967295); lia. Defined.
