(* ===== verification/SyncSend.v ===== *)
(** * ConnectionContext.c: sending

    A request walks through sending a start packet, the fields of objects and a finish
    packet.  [connectionContext_syncOperand] makes the operands for the object at the
    current index; what comes next is kept in the request between two packets.  The
    packets that were sent are collected in the state.  [encodes] tells which packets
    the ASN.1 encoder can put into the send buffer; the others are dropped. *)
From S2P Require Import Prelude Lgui CStrings FieldNames Fields DataObjects Sync Protocol.

Record SendRequest := mkSend {
  ss_url : cstring; ss_dobj : oloc; ss_forcedObject : option oloc; ss_isClient : bool; ss_newObject : bool;
  ss_hasStarted : bool; ss_hasSentLocal : bool; ss_hasFinished : bool; ss_remoteFinished : bool; ss_finalize : bool;
  ss_completeFields : option (list cstring); ss_completeNodes : list oloc; ss_sequenceID : Z;
  ss_objectIndex : Z; ss_recordIndex : Z; ss_childOp : Z }.
Definition with_started b r := mkSend (ss_url r) (ss_dobj r) (ss_forcedObject r) (ss_isClient r) (ss_newObject r)
  b (ss_hasSentLocal r) (ss_hasFinished r) (ss_remoteFinished r) (ss_finalize r) (ss_completeFields r)
  (ss_completeNodes r) (ss_sequenceID r) (ss_objectIndex r) (ss_recordIndex r) (ss_childOp r).
Definition with_sentLocal b r := mkSend (ss_url r) (ss_dobj r) (ss_forcedObject r) (ss_isClient r) (ss_newObject r)
  (ss_hasStarted r) b (ss_hasFinished r) (ss_remoteFinished r) (ss_finalize r) (ss_completeFields r)
  (ss_completeNodes r) (ss_sequenceID r) (ss_objectIndex r) (ss_recordIndex r) (ss_childOp r).
Definition with_finished b r := mkSend (ss_url r) (ss_dobj r) (ss_forcedObject r) (ss_isClient r) (ss_newObject r)
  (ss_hasStarted r) (ss_hasSentLocal r) b (ss_remoteFinished r) (ss_finalize r) (ss_completeFields r)
  (ss_completeNodes r) (ss_sequenceID r) (ss_objectIndex r) (ss_recordIndex r) (ss_childOp r).
Definition with_remoteFinished b r := mkSend (ss_url r) (ss_dobj r) (ss_forcedObject r) (ss_isClient r) (ss_newObject r)
  (ss_hasStarted r) (ss_hasSentLocal r) (ss_hasFinished r) b (ss_finalize r) (ss_completeFields r)
  (ss_completeNodes r) (ss_sequenceID r) (ss_objectIndex r) (ss_recordIndex r) (ss_childOp r).
Definition with_finalize b r := mkSend (ss_url r) (ss_dobj r) (ss_forcedObject r) (ss_isClient r) (ss_newObject r)
  (ss_hasStarted r) (ss_hasSentLocal r) (ss_hasFinished r) (ss_remoteFinished r) b (ss_completeFields r)
  (ss_completeNodes r) (ss_sequenceID r) (ss_objectIndex r) (ss_recordIndex r) (ss_childOp r).
Definition with_completeFields f r := mkSend (ss_url r) (ss_dobj r) (ss_forcedObject r) (ss_isClient r) (ss_newObject r)
  (ss_hasStarted r) (ss_hasSentLocal r) (ss_hasFinished r) (ss_remoteFinished r) (ss_finalize r) f
  (ss_completeNodes r) (ss_sequenceID r) (ss_objectIndex r) (ss_recordIndex r) (ss_childOp r).
Definition with_completeNodes n r := mkSend (ss_url r) (ss_dobj r) (ss_forcedObject r) (ss_isClient r) (ss_newObject r)
  (ss_hasStarted r) (ss_hasSentLocal r) (ss_hasFinished r) (ss_remoteFinished r) (ss_finalize r) (ss_completeFields r)
  n (ss_sequenceID r) (ss_objectIndex r) (ss_recordIndex r) (ss_childOp r).
Definition with_objectIndex i r := mkSend (ss_url r) (ss_dobj r) (ss_forcedObject r) (ss_isClient r) (ss_newObject r)
  (ss_hasStarted r) (ss_hasSentLocal r) (ss_hasFinished r) (ss_remoteFinished r) (ss_finalize r) (ss_completeFields r)
  (ss_completeNodes r) (ss_sequenceID r) i (ss_recordIndex r) (ss_childOp r).
Definition with_recordIndex i r := mkSend (ss_url r) (ss_dobj r) (ss_forcedObject r) (ss_isClient r) (ss_newObject r)
  (ss_hasStarted r) (ss_hasSentLocal r) (ss_hasFinished r) (ss_remoteFinished r) (ss_finalize r) (ss_completeFields r)
  (ss_completeNodes r) (ss_sequenceID r) (ss_objectIndex r) i (ss_childOp r).
Definition with_childOp c r := mkSend (ss_url r) (ss_dobj r) (ss_forcedObject r) (ss_isClient r) (ss_newObject r)
  (ss_hasStarted r) (ss_hasSentLocal r) (ss_hasFinished r) (ss_remoteFinished r) (ss_finalize r) (ss_completeFields r)
  (ss_completeNodes r) (ss_sequenceID r) (ss_objectIndex r) (ss_recordIndex r) c.

(** The connection and the request that is worked on. *)
Inductive NeedAuth := NA_UNKNOWN | NA_NO | NA_YES.
#[export] Instance NeedAuth_eq_dec : EqDecision NeedAuth.
Proof. solve_decision. Defined.
Record sender := mkSender {
  x_world : world; x_req : SendRequest; x_sent : list FRIPacketP; x_inprogress : list cstring;
  x_needAuth : NeedAuth; x_hasAuth : bool }.
Abbreviation XM := (M sender).
Definition set_req (r : SendRequest) (x : sender) : sender :=
  mkSender (x_world x) r (x_sent x) (x_inprogress x) (x_needAuth x) (x_hasAuth x).
Definition upd_req (f : SendRequest → SendRequest) : XM () := λ x, Ok ((), set_req (f (x_req x)) x).
Definition req : XM SendRequest := gets x_req.
Definition sending {B} (m : DM B) : XM B := λ x,
  match m (x_world x) with
  | Ok (b, w) => Ok (b, mkSender w (x_req x) (x_sent x) (x_inprogress x) (x_needAuth x) (x_hasAuth x))
  | Abort => Abort | Fault => Fault | NoFuel => NoFuel
  end.
(** [(ctx->needAuth == NA_YES && ctx->hasAuth) || ctx->needAuth == NA_NO] *)
Definition authorized (x : sender) : bool :=
  match x_needAuth x with NA_YES => x_hasAuth x | NA_NO => true | NA_UNKNOWN => false end.

(** ** The operands of one object *)
Definition send_addChild (sobj : oloc) : XM () :=
  upd_req (with_childOp (-2));;
  cs ← sending (dataobject_childIterator (Some sobj)); r ← req;
  match List.find (λ c, bool_decide (c ∉ ss_completeNodes r)) cs with
  | Some c => i ← sending (dataobject_treeIndex (Some c)); upd_req (with_objectIndex i)
  | None => mret ()
  end.
(** The node operation, if one is due, and the object the fields are taken from. *)
Definition node_operands (sobj : oloc) : XM (list SyncOperandP * oloc) :=
  r ← req;
  if ss_childOp r <? -1 then mret ([], sobj) else
  if ss_childOp r =? -1 then send_addChild sobj;; mret ([protocol_addChild], sobj) else
  let goto := protocol_goToTree (ss_childOp r) in
  upd_req (with_objectIndex (ss_childOp r));;
  upd_req (with_childOp (-1));;
  target ← sending (dataobject_getTree (Some (ss_dobj r)) (ss_childOp r));
  target ← emo_nonnull target;
  if ss_newObject r then send_addChild target;; mret ([goto; protocol_addChild], target)
  else mret ([goto], target).
Fixpoint field_operands (sobj : oloc) (names : list cstring) : XM (list SyncOperandP) :=
  match names with
  | [] => mret []
  | name :: names =>
      r ← req; complete ← emo_nonnull (ss_completeFields r);
      if decide (name ∈ complete) then field_operands sobj names else
      op ← sending (protocol_serializeField (Some sobj) (Some name));
      upd_req (with_completeFields (Some (complete ++ [name])));;
      ops ← field_operands sobj names;
      mret (op :: ops)
  end.
(** The names are those of the object it is called with, also when the values come from
    the object it goes to. *)
Definition connectionContext_syncOperand (sobj : option oloc) : XM (list SyncOperandP) :=
  sobj ← emo_nonnull sobj; o ← sending (get_obj sobj);
  '(nodes, target) ← node_operands sobj;
  fields ← field_operands target (o_data o).*1;
  upd_req (λ r, with_completeFields None (with_completeNodes (ss_completeNodes r ++ [target]) r));;
  next ← sending (dataobject_getTreeNextOp (Some target));
  (match next with
   | Some childOp => upd_req (with_childOp childOp)
   | None => upd_req (λ r, if ss_forcedObject r then r else with_finished true r)
   end);;
  mret (nodes ++ fields).

Definition connectionContext_recordSync (d : option oloc) : XM RecordSyncListP :=
  d ← emo_nonnull d; '(stampMinor, stampMajor) ← sending (dataobject_getStamp (Some d));
  let p := protocol_recordSync false stampMinor stampMajor in
  ops ← connectionContext_syncOperand (Some d);
  mret (mkRecordSync (deleteRecordP p) (recordIdMinorP p) (recordIdMajorP p) ((λ l, l ++ ops) <$> recordFieldListP p)).
(** The record at the record index, if there is one. *)
Definition connectionContext_recordSyncList : XM (list RecordSyncListP) :=
  r ← req;
  cs ← sending (dataobject_childIterator (Some (ss_dobj r)));
  l ← (match (if 0 <=? ss_recordIndex r then cs !! Z.to_nat (ss_recordIndex r) else None) with
       | None => mret []
       | Some rec =>
           sobj ← sending (dataobject_getTree (Some rec) (ss_objectIndex r));
           rsync ← connectionContext_recordSync sobj;
           r ← req;
           when (ss_hasFinished r)
             (upd_req (λ r, with_completeNodes [] (with_recordIndex (int32 (ss_recordIndex r + 1))
                (with_objectIndex 0 (with_finished false r)))));;
           mret [rsync]
       end);
  n ← sending (dataobject_getChildCount (Some (ss_dobj r)));
  r ← req;
  when (ss_recordIndex r =? n) (upd_req (with_finished true));;
  mret l.

(** ** Packets out *)
Section Send.
Variable encodes : FRIPacketP → bool.
Definition connectionContext_packetSend (p : FRIPacketP) : XM () := λ x,
  Ok ((), mkSender (x_world x) (x_req x) (if encodes p then x_sent x ++ [p] else x_sent x)
            (x_inprogress x) (x_needAuth x) (x_hasAuth x)).
Definition start_completeFields : XM () :=
  upd_req (λ r, if ss_completeFields r then r else with_completeFields (Some []) r).
Definition connectionContext_outgoingSync : XM () :=
  start_completeFields;; r ← req;
  record ← sending (dataobject_getRecordType (Some (ss_dobj r)));
  if negb (record =? 0) then
    l ← connectionContext_recordSyncList;
    connectionContext_packetSend (dataObjectSyncP (ss_sequenceID r) (recordSyncListP l))
  else
    sobj ← sending (dataobject_getTree (Some (ss_dobj r)) (ss_objectIndex r));
    ops ← connectionContext_syncOperand sobj;
    connectionContext_packetSend (dataObjectSyncP (ss_sequenceID r) (blockSyncListP ops)).
Definition connectionContext_outgoingSyncForced : XM () :=
  start_completeFields;; r ← req;
  i ← sending (dataobject_treeIndex (ss_forcedObject r));
  upd_req (λ r, with_childOp i (with_objectIndex i r));;
  ops ← connectionContext_syncOperand (ss_forcedObject r);
  connectionContext_packetSend (dataObjectSyncP (ss_sequenceID r) (blockSyncListP ops)).

Definition add_inprogress (url : cstring) : XM () := λ x,
  Ok ((), mkSender (x_world x) (x_req x) (x_sent x) (x_inprogress x ++ [url]) (x_needAuth x) (x_hasAuth x)).
Definition connectionContext_processSyncRequest : XM () :=
  r ← req;
  if ss_isClient r then
    if negb (ss_hasStarted r) then
      p ← sending (protocol_syncStart (Some (ss_url r)) 0 0 (ss_sequenceID r));
      add_inprogress (ss_url r);;
      connectionContext_packetSend p;;
      sending (dataobject_setState (Some (ss_dobj r)) DOS_SYNC);;
      upd_req (with_started true)
    else
      when (negb (ss_hasSentLocal r))
        (when (negb (ss_newObject r) && bool_decide (is_Some (ss_forcedObject r))) connectionContext_outgoingSyncForced;;
         upd_req (with_sentLocal true));;
      r ← req;
      if negb (ss_hasFinished r) then
        connectionContext_packetSend (protocol_syncFinished responseExpiredP (ss_sequenceID r));;
        upd_req (with_finished true)
      else mret ()
  else
    x ← get;
    if ss_hasStarted r && ss_remoteFinished r && negb (ss_hasFinished r) && authorized x
    then connectionContext_outgoingSync else
    if ss_hasStarted r && ss_remoteFinished r && ss_hasFinished r then
      connectionContext_packetSend (protocol_syncFinished responseOKP (ss_sequenceID r));;
      upd_req (with_finalize true)
    else mret ().

(** ** Authentication *)
Definition set_auth (need : NeedAuth) (has : bool) : XM () := λ x,
  Ok ((), mkSender (x_world x) (x_req x) (x_sent x) (x_inprogress x) need has).
Definition connectionContext_requestAuth : XM () :=
  set_auth NA_YES false;; connectionContext_packetSend (authRequestP (lit "Hi!!") [atUsernamePasswordP]).
(** [imei] is what the device says its number is. *)
Definition connectionContext_authUserPass (imei : option cstring) : XM () :=
  p ← sending (protocol_authUserPass (Some (lit "peek")) (Some (lit "peek123")));
  p ← sending (protocol_autUserPassExtra p (Some (lit "IMEI")) imei);
  p ← sending (protocol_autUserPassExtra p (Some (lit "IP")) (Some (lit "192.168.1.1")));
  connectionContext_packetSend (authUserPassP p).
Definition connectionContext_processAuthRequest (imei : option cstring) (types : list AuthTypeP) : XM () :=
  x ← get;
  let need := match last types with
              | None => x_needAuth x
              | Some atImplicitP => NA_NO
              | Some _ => NA_YES
              end in
  set_auth need (x_hasAuth x);; connectionContext_authUserPass imei.
Definition connectionContext_processAuthUserPass (p : AuthUserPassP) : XM () :=
  x ← get; set_auth (x_needAuth x) true;; connectionContext_packetSend (authResponseP responseOKP).
Definition connectionContext_processAuthResponse (r : RequestResponseP) : XM () :=
  match r with responseOKP => x ← get; set_auth (x_needAuth x) true | _ => mret () end.
End Send.
