(* ===== verification/SyncForced.v ===== *)
(** * Properties of the exchange

    A form that was filled in is sent back: the object that is forced out, the operand
    that goes to it, and what the receiver makes of the packet.  Both sides have the
    same tree, so the index of the object on one side finds its counterpart on the other. *)
From S2P Require Import Prelude Lgui CStrings FieldNames Fields DataObjects ObjectTrees ObjectFields Sync SyncTrees.
From S2P Require Import Protocol SyncSend.

(** ** The sender *)
Definition sent_text (c : DataObjectField) : option cstring :=
  match f_value c with
  | DOF_STRING p => str_content p
  | DOF_INT i => emo_itoa i 10
  | DOF_UINT u => emo_uitoa u 10
  | DOF_DATA _ _ => None
  end.
(** The fields of [d] under their own names, and their texts. *)
Record sendable (w : world) (d : oloc) (fs : list (cstring * cstring)) : Prop := {
  se_obj : ∃ o, w_objs w !! d = Some o ∧ (o_data o).*1 = fs.*1;
  se_names : NoDup fs.*1;
  se_text k s : (k, s) ∈ fs → ∃ o f c, w_objs w !! d = Some o ∧ al_find k (o_data o) = Some f ∧
    fh (w_fields w) !! f = Some c ∧ array_source c = false ∧ sent_text c = Some s }.
Definition text_ops (fs : list (cstring * cstring)) : list SyncOperandP :=
  set_ops ((λ p, (fieldNameStringP p.1, p.2)) <$> fs).

Lemma sending_pure {B} (m : DM B) x b : m (x_world x) = Ok (b, x_world x) → sending m x = Ok (b, x).
Proof. intros E. unfold sending. rewrite E. by destruct x. Qed.
Lemma getValue_own w d o k f c :
  w_objs w !! d = Some o → al_find k (o_data o) = Some f → fh (w_fields w) !! f = Some c → array_source c = false →
  dataobject_getValue (Some d) (Some k) w = Ok (Some f, w).
Proof.
  intros Ho Hk Hf Ha. unfold dataobject_getValue. do 3 erewrite bind_Ok by reflexivity. unfold field_fuel.
  by apply (get_value_loop_plain w d o k f c).
Qed.
Lemma serializeField_ok w d fs k s : sendable w d fs → (k, s) ∈ fs →
  protocol_serializeField (Some d) (Some k) w = Ok (mkOp (fieldNameStringP k) (syncSetP s), w).
Proof.
  intros HS Hin. destruct (se_text _ _ _ HS k s Hin) as (o & f & c & Ho & Hk & Hf & Ha & Ht).
  unfold protocol_serializeField. do 2 erewrite bind_Ok by reflexivity.
  run_with (getValue_own w d o k f c Ho Hk Hf Ha). erewrite (bind_Ok _ _ _ (syncSetP s) w); [done|].
  unfold serialize. erewrite bind_Ok by reflexivity.
  erewrite bind_Ok by (apply on_fields_pure; unfold get_field; by rewrite Hf).
  unfold sent_text in Ht. destruct (f_value c); try done; rewrite Ht; by erewrite bind_Ok by reflexivity.
Qed.
Lemma field_operands_ok fs0 fs : ∀ x complete d, sendable (x_world x) d fs0 → fs ⊆ fs0 → NoDup (complete ++ fs.*1) →
  ss_completeFields (x_req x) = Some complete →
  field_operands d fs.*1 x = Ok (text_ops fs, set_req (with_completeFields (Some (complete ++ fs.*1)) (x_req x)) x).
Proof.
  induction fs as [|[k s] fs IH]; intros x complete d HS Hsub HN Hc.
  - rewrite app_nil_r. cbn [field_operands fmap list_fmap text_ops]. unfold mret, M_ret. do 2 f_equal.
    destruct x as [w r]. cbn in *. unfold set_req. cbn. f_equal. destruct r. cbn in *. by rewrite Hc.
  - cbn [field_operands fmap list_fmap fst]. erewrite bind_Ok by reflexivity. rewrite Hc.
    erewrite bind_Ok by reflexivity.
    rewrite decide_False by (cbn [fmap list_fmap fst] in HN; apply NoDup_app in HN as (_ & HN & _); intros Hk;
      by apply (HN k Hk), list_elem_of_here).
    assert ((k, s) ∈ fs0) as Hk by (apply Hsub, list_elem_of_here).
    rewrite (bind_Ok _ _ _ _ _ (sending_pure _ _ _ (serializeField_ok (x_world x) d fs0 k s HS Hk))).
    erewrite bind_Ok by reflexivity.
    erewrite bind_Ok by (apply (IH _ (complete ++ [k])); [exact HS|intros p Hp; by apply Hsub, list_elem_of_further|cbn [fmap list_fmap fst] in HN; by rewrite <-(assoc_L app)|done]).
    unfold mret, M_ret. by rewrite <-(assoc_L app).
Qed.
Lemma next_op_total w T d : tree_in w T → d ∈ preorder T → ∃ r, dataobject_getTreeNextOp (Some d) w = Ok (r, w).
Proof.
  intros HT (l1 & l2 & E)%list_elem_of_split. eexists. by apply (getTreeNextOp_ok w T l1 d l2).
Qed.
Lemma getTree_at w T i d : tree_in w T → preorder T !! i = Some d →
  dataobject_getTree (Some (root T)) (Z.of_nat i) w = Ok (Some d, w).
Proof.
  intros HT Hi. pose proof (lookup_lt_Some _ _ _ Hi). pose proof HT as (_ & _ & Hb).
  rewrite (getTree_ok w T HT) by lia. by rewrite Nat2Z.id, Hi.
Qed.
Lemma treeIndex_at w T i d : tree_in w T → preorder T !! i = Some d →
  dataobject_treeIndex (Some d) w = Ok (Z.of_nat i, w).
Proof.
  intros HT Hi. pose proof HT as (_ & N & _).
  rewrite (treeIndex_ok w T d HT) by (by eapply list_elem_of_lookup_2). by rewrite (position_NoDup _ i d N Hi).
Qed.

(** The operands of a forced object: the jump to it and its fields. *)
Lemma syncOperand_goto x T i d fs : tree_in (x_world x) T → preorder T !! i = Some d → sendable (x_world x) d fs →
  ss_dobj (x_req x) = root T → ss_newObject (x_req x) = false → ss_completeFields (x_req x) = Some [] →
  ss_childOp (x_req x) = Z.of_nat i → is_Some (ss_forcedObject (x_req x)) →
  ∃ x', connectionContext_syncOperand (Some d) x = Ok (protocol_goToTree (Z.of_nat i) :: text_ops fs, x') ∧
    x_world x' = x_world x ∧ x_sent x' = x_sent x ∧ ss_hasFinished (x_req x') = ss_hasFinished (x_req x) ∧
    ss_sequenceID (x_req x') = ss_sequenceID (x_req x).
Proof.
  intros HT Hi HS Hd Hnew Hcf Hop [fo Hfo]. destruct (se_obj _ _ _ HS) as (o & Ho & Hnames).
  unfold connectionContext_syncOperand. erewrite bind_Ok by reflexivity.
  rewrite (bind_Ok _ _ _ _ _ (sending_pure _ _ _ (get_obj_ok _ _ _ Ho))).
  set (x1 := set_req (with_childOp (-1) (with_objectIndex (Z.of_nat i) (x_req x))) x).
  erewrite (bind_Ok _ _ _ ([protocol_goToTree (Z.of_nat i)], d) x1).
  2:{ unfold node_operands. erewrite bind_Ok by reflexivity. rewrite Hop, Hnew, Hd.
      replace (Z.of_nat i <? -1) with false by lia. replace (Z.of_nat i =? -1) with false by lia.
      do 2 erewrite bind_Ok by reflexivity.
      rewrite (bind_Ok _ _ _ _ _ (sending_pure _ x1 _ (getTree_at _ _ _ _ HT Hi))).
      by erewrite bind_Ok by reflexivity. }
  rewrite Hnames. pose proof (field_operands_ok fs fs x1 [] d HS (reflexivity _) (se_names _ _ _ HS) Hcf) as E.
  run_with E. erewrite bind_Ok by reflexivity.
  destruct (next_op_total _ _ d HT ltac:(by eapply list_elem_of_lookup_2)) as (r & Er).
  erewrite bind_Ok by (apply sending_pure; exact Er).
  destruct r as [op|].
  - erewrite bind_Ok by reflexivity. by eexists.
  - erewrite bind_Ok by reflexivity. eexists. split; [reflexivity|]. cbn. by rewrite Hfo.
Qed.

(** A request of this side that was started and has the object [d] to send. *)
Record forced_request (x : sender) (T : tree) (d : oloc) : Prop := {
  fq_client : ss_isClient (x_req x) = true;
  fq_known : ss_newObject (x_req x) = false;
  fq_started : ss_hasStarted (x_req x) = true;
  fq_local : ss_hasSentLocal (x_req x) = false;
  fq_finished : ss_hasFinished (x_req x) = false;
  fq_dobj : ss_dobj (x_req x) = root T;
  fq_forced : ss_forcedObject (x_req x) = Some d;
  fq_fields : ss_completeFields (x_req x) = None }.
Lemma processSyncRequest_forced encodes x T i d fs :
  tree_in (x_world x) T → preorder T !! i = Some d → sendable (x_world x) d fs → forced_request x T d →
  (∀ p, encodes p = true) →
  ∃ x', connectionContext_processSyncRequest encodes x = Ok ((), x') ∧ x_world x' = x_world x ∧
    x_sent x' = x_sent x ++ [dataObjectSyncP (ss_sequenceID (x_req x))
                               (blockSyncListP (protocol_goToTree (Z.of_nat i) :: text_ops fs));
                             dataObjectSyncFinishP responseExpiredP (ss_sequenceID (x_req x))] ∧
    ss_hasFinished (x_req x') = true.
Proof.
  intros HT Hi HS [Hcl Hnew Hst Hlo Hfin Hd Hfo Hcf] Henc.
  unfold connectionContext_processSyncRequest. erewrite bind_Ok by reflexivity.
  rewrite Hcl, Hst, Hlo, Hnew, Hfo. cbn [negb]. unfold when at 1. rewrite bind_assoc.
  unfold when at 1. cbn [andb negb]. rewrite bool_decide_true by by eexists.
  assert (∃ x1, connectionContext_outgoingSyncForced encodes x = Ok ((), x1) ∧ x_world x1 = x_world x ∧
    x_sent x1 = x_sent x ++ [dataObjectSyncP (ss_sequenceID (x_req x))
      (blockSyncListP (protocol_goToTree (Z.of_nat i) :: text_ops fs))] ∧ ss_hasFinished (x_req x1) = false ∧
    ss_sequenceID (x_req x1) = ss_sequenceID (x_req x)) as (x1 & E1 & Hw1 & Hs1 & Hf1 & Hq1).
  { unfold connectionContext_outgoingSyncForced. set (x0 := set_req (with_completeFields (Some []) (x_req x)) x).
    erewrite (bind_Ok _ _ _ () x0) by (unfold start_completeFields, upd_req; by rewrite Hcf).
    erewrite (bind_Ok _ _ _ (x_req x0)) by reflexivity.
    change (ss_forcedObject (x_req x0)) with (ss_forcedObject (x_req x)). rewrite Hfo.
    rewrite (bind_Ok _ _ _ _ _ (sending_pure _ x0 _ (treeIndex_at _ _ _ _ HT Hi))).
    erewrite bind_Ok by reflexivity. set (x2 := set_req _ _).
    destruct (syncOperand_goto x2 T i d fs HT Hi HS Hd Hnew eq_refl eq_refl ltac:(by exists d)) as (x3 & E & Hw & Hs & Hf & Hq).
    run_with E. unfold connectionContext_packetSend. rewrite Henc. eexists. split; [reflexivity|]. cbn.
    rewrite Hw, Hs, Hf, Hq. done. }
  run_with E1. erewrite bind_Ok by reflexivity. erewrite bind_Ok by reflexivity. cbn [x_req set_req ss_hasFinished with_sentLocal].
  rewrite Hf1. cbn [negb]. erewrite bind_Ok by reflexivity. rewrite Henc. eexists. split; [reflexivity|]. cbn.
  rewrite Hw1, Hs1, Hq1, <-(assoc_L app). done.
Qed.

(** ** The receiver *)
(** The fields of an object are fields of its own that can be released. *)
Record owned (w : world) (o : DataObject) : Prop := {
  ow_keys : NoDup (o_data o).*1;
  ow_locs : NoDup (o_data o).*2;
  ow_free f : f ∈ (o_data o).*2 → ∃ c, fh (w_fields w) !! f = Some c ∧ freeable c }.
Definition text_of (w : world) (o : DataObject) (k : cstring) : option cstring :=
  f ← al_find k (o_data o); c ← fh (w_fields w) !! f; field_text c.
Lemma al_find_in_snd {V} (k : cstring) (v : V) l : al_find k l = Some v → v ∈ l.*2.
Proof. induction l as [|[k' v'] l IH]; [done|]. csimpl. case_decide; [intros [= ->]|]; set_solver. Qed.
Lemma al_remove_snd {V} (k : cstring) (l : list (cstring * V)) v : v ∈ (al_remove k l).*2 → v ∈ l.*2.
Proof. induction l as [|[k' v'] l IH]; [done|]. csimpl. case_decide; set_solver. Qed.
Lemma al_remove_NoDup_snd {V} (k : cstring) (l : list (cstring * V)) : NoDup l.*2 → NoDup (al_remove k l).*2.
Proof.
  induction l as [|[k' v'] l IH]; [done|]. csimpl. intros [H1 H2]%NoDup_cons. case_decide; [by apply IH|].
  csimpl. apply NoDup_cons. split; [|by apply IH]. intros Hin. apply H1. by eapply al_remove_snd.
Qed.
Lemma al_find_inj {V} (k k' : cstring) (v : V) l : NoDup l.*2 → al_find k l = Some v → al_find k' l = Some v → k = k'.
Proof.
  induction l as [|[k0 v0] l IH]; [done|]. csimpl. intros [H1 H2]%NoDup_cons.
  destruct (decide (k0 = k)), (decide (k0 = k')); [congruence| | |by apply IH].
  - intros [= ->] Hf%al_find_in_snd. done.
  - intros Hf%al_find_in_snd [= ->]. done.
Qed.
Lemma al_remove_drops {V} (k : cstring) (v : V) l : NoDup l.*2 → al_find k l = Some v → v ∉ (al_remove k l).*2.
Proof.
  induction l as [|[k0 v0] l IH]; [done|]. csimpl. intros [H1 H2]%NoDup_cons.
  destruct (decide (k0 = k)).
  - intros [= ->] Hin%al_remove_snd. done.
  - intros Hf. csimpl. rewrite not_elem_of_cons. split; [intros ->; apply H1; by eapply al_find_in_snd|by apply IH].
Qed.

(** A text for a field that the object may have already. *)
Lemma set_text_ok w d o k s :
  wf w → w_objs w !! d = Some o → owned w o → head k ≠ Some 95 →
  ∃ w' o', (dof ← on_fields (dataobjectfield_string (Some (SHeap s)));
            set_field_of d (fieldNameStringP k) dof) w = Ok ((), w') ∧
    w_objs w' = <[d := o']> (w_objs w) ∧ w_brk w' = w_brk w ∧ wf w' ∧ owned w' o' ∧ same_links o o' ∧
    text_of w' o' k = Some s ∧ (∀ k', k' ≠ k → text_of w' o' k' = text_of w o k').
Proof.
  intros [Wo Wf] Ho [Hk Hl Hf] Hund. set (v := fh_brk (w_fields w)).
  set (w1 := mkWorld (w_objs w) (w_brk w)
    (mkFH (<[v := mkField (DOF_STRING (SHeap s)) 0]> (fh (w_fields w))) (Pos.succ v))).
  assert (fh (w_fields w) !! v = None) as Hfresh by (apply Wf; unfold v; lia).
  assert (∀ f, f ∈ (o_data o).*2 → f ≠ v) as Hne.
  { intros f Hin ->. destruct (Hf v Hin) as (c & Hc & _). congruence. }
  set (old := al_find k (o_data o)).
  assert (∀ f, old = Some f → f ∈ (o_data o).*2) as Hold by (intros f; apply al_find_in_snd).
  assert (replaceable old v (w_fields w1)) as Hrep.
  { destruct old as [f|]; [|done]. specialize (Hold f eq_refl). split; [by apply Hne|].
    destruct (Hf f Hold) as (c & Hc & Hfr). exists c. split; [|done]. cbn. rewrite lookup_insert_ne; [done|].
    by apply not_eq_sym, Hne. }
  pose proof (setValue_ok w1 d o k v _ Ho (lookup_insert_eq _ _ _) Hrep) as E. fold old in E.
  rewrite bool_decide_false in E by done.
  cbv zeta in E. set (h := without old (w_fields w1)) in *.
  set (o' := with_data (al_append k v (al_remove k (o_data o))) o).
  exists (mkWorld (<[d := o']> (w_objs w1)) (w_brk w1) h), o'.
  assert (fh h !! v = Some (mkField (DOF_STRING (SHeap s)) 0)) as Hv.
  { unfold h. rewrite (without_ne _ _ _ Hrep). apply lookup_insert_eq. }
  assert (∀ g, g ≠ v → old ≠ Some g → fh h !! g = fh (w_fields w) !! g) as Hg.
  { intros g Hgv Hgo. unfold h. destruct old as [f|]; cbn; [rewrite lookup_delete_ne by congruence|];
      by rewrite lookup_insert_ne. }
  assert (fh_brk h = Pos.succ v) as Hbrk by (unfold h; by destruct old).
  split; [erewrite bind_Ok by reflexivity; exact E|]. cbn [w_objs w_brk w_fields]. split_and!; [done|done| | |done| |].
  - split; cbn [w_objs w_brk w_fields].
    + intros x Hx. rewrite lookup_insert_ne; [by apply Wo|]. intros ->. rewrite Wo in Ho; done.
    + intros g Hgb. rewrite Hbrk in Hgb. destruct (decide (old = Some g)) as [Eo|?].
      * unfold h. rewrite Eo. cbn. apply lookup_delete_eq.
      * rewrite Hg; [apply Wf; unfold v in Hgb; lia|lia|done].
  - split; cbn [o' o_data with_data w_fields].
    + apply al_append_NoDup, al_remove_NoDup, Hk.
    + unfold al_append. rewrite fmap_app. apply NoDup_app. split; [by apply al_remove_NoDup_snd, al_remove_NoDup_snd|].
      split; [|apply NoDup_singleton]. intros f Hin%al_remove_snd%al_remove_snd.
      intros ->%list_elem_of_singleton. by apply (Hne v).
    + intros f. unfold al_append. rewrite fmap_app, elem_of_app. intros [Hin| ->%list_elem_of_singleton].
      * destruct (decide (old = Some f)) as [Eo|Hno].
        { apply al_remove_snd in Hin. by apply (al_remove_drops k f _ Hl Eo) in Hin. }
        apply al_remove_snd, al_remove_snd in Hin. destruct (Hf f Hin) as (c & Hc & Hfr). exists c. split; [|done].
        rewrite Hg; [done|by apply Hne|done].
      * eexists. split; [exact Hv|done].
  - unfold text_of. cbn [o' o_data with_data w_fields]. rewrite al_find_append, decide_True by done.
    cbn [mbind option_bind]. by rewrite Hv.
  - intros k' Hk'. unfold text_of. cbn [o' o_data with_data w_fields].
    rewrite al_find_append, decide_False, al_find_remove, decide_False by done.
    destruct (al_find k' (o_data o)) as [g|] eqn:Eg; [|done]. cbn [mbind option_bind].
    rewrite Hg; [done|apply Hne; by eapply al_find_in_snd|]. unfold old. intros Eo.
    apply Hk'. by eapply al_find_inj.
Qed.

Section Receive.
Variable frame_root : oloc → option oloc.
Lemma receive_texts fs : ∀ w T i d o,
  wf w → tree_in w T → preorder T !! i = Some d → w_objs w !! d = Some o → owned w o →
  NoDup fs.*1 → Forall (λ k, head k ≠ Some 95) fs.*1 →
  ∃ w' o', mfor (process_operand frame_root) (text_ops fs) (mkSync w (mkReq (root T) (Z.of_nat i))) =
      Ok ((), mkSync w' (mkReq (root T) (Z.of_nat i))) ∧
    w_objs w' = <[d := o']> (w_objs w) ∧ tree_in w' T ∧
    (∀ k s, (k, s) ∈ fs → text_of w' o' k = Some s) ∧
    (∀ k, k ∉ fs.*1 → text_of w' o' k = text_of w o k).
Proof.
  induction fs as [|[k s] fs IH]; intros w T i d o Hwf HT Hi Ho Hown HN Hu.
  - exists w, o. split_and!; try done; [by rewrite insert_id|]. set_solver.
  - csimpl in HN. apply NoDup_cons in HN as [Hk HN]. csimpl in Hu. apply Forall_cons in Hu as [Hu1 Hu].
    destruct (set_text_ok w d o k s Hwf Ho Hown Hu1) as (w1 & o1 & E & Eo & _ & Hwf1 & Hown1 & Hl & Ht & Hother).
    assert (tree_in w1 T) as HT1.
    { destruct HT as (HR & ? & ?). split; [by eapply rep_links|done]. }
    assert (process_operand frame_root (mkOp (fieldNameStringP k) (syncSetP s)) (mkSync w (mkReq (root T) (Z.of_nat i))) =
      Ok ((), mkSync w1 (mkReq (root T) (Z.of_nat i)))) as E1.
    { rewrite (process_at frame_root w T i d) by done. unfold connectionContext_processSyncOperand.
      erewrite bind_Ok by reflexivity. cbn [op_sync op_field].
      apply bind_Ok_inv in E as (dof & w0 & E0 & E). erewrite bind_Ok by by apply on_world_ok.
      by apply on_world_ok. }
    destruct (IH w1 T i d o1) as (w' & o' & E' & Eo' & HT' & Hin & Hout); try done.
    { rewrite Eo. apply lookup_insert_eq. }
    exists w', o'. split_and!; [|by rewrite Eo', Eo, insert_insert_eq|done| |].
    + change (text_ops ((k, s) :: fs)) with (mkOp (fieldNameStringP k) (syncSetP s) :: text_ops fs).
      by rewrite (mfor_cons_ok _ _ _ _ _ E1).
    + intros k0 s0 [[= -> ->]|Hin0]%elem_of_cons; [|by apply Hin]. by rewrite Hout.
    + intros k0. csimpl. rewrite not_elem_of_cons. intros [Hne Hk0]. rewrite Hout by done. by apply Hother.
Qed.

End Receive.

(** ** A form with a name and a number, sent to a side that has an old name *)
Definition form_tree : tree := Node 1 [Node 2 []].
Definition form_world (data : list (cstring * floc)) (fields : list (floc * DataObjectField)) : world :=
  mkWorld (list_to_map [(1%positive, demo_obj [2%positive] None);
                        (2%positive, with_data data (demo_obj [] (Some 1%positive)))]) 3
    (mkFH (list_to_map fields) 3).
Definition filled_form : world :=
  form_world [(lit "name", 1%positive); (lit "age", 2%positive)]
    [(1%positive, mkField (DOF_STRING (SHeap (lit "Ann"))) 0); (2%positive, mkField (DOF_INT (-7)) 0)].
Definition old_form : world :=
  form_world [(lit "name", 1%positive)] [(1%positive, mkField (DOF_STRING (SHeap (lit "Bob"))) 0)].
Definition form_texts : list (cstring * cstring) := [(lit "name", lit "Ann"); (lit "age", lit "-7")].
Definition form_sender : sender :=
  mkSender filled_form (mkSend (lit "tcp://host/form") 1 (Some 2%positive) true false true false false false false
                          None [] 5 0 0 (-2)) [] [] NA_NO false.
Lemma form_tree_in data fields : tree_in (form_world data fields) form_tree.
Proof.
  split_and!; [|apply (bool_decide_unpack _); reflexivity|vm_compute; reflexivity].
  repeat (econstructor; [reflexivity..|]; repeat constructor); repeat econstructor.
Qed.
Lemma old_form_wf : wf old_form.
Proof. split; intros x Hx; apply not_elem_of_list_to_map_1; cbn; cbn in Hx; rewrite !elem_of_cons, elem_of_nil; naive_solver lia. Qed.
Lemma old_form_owned : owned old_form (with_data [(lit "name", 1%positive)] (demo_obj [] (Some 1%positive))).
Proof.
  split; [apply NoDup_singleton|apply NoDup_singleton|]. cbn. intros f ->%list_elem_of_singleton. by eexists.
Qed.
Lemma filled_form_sendable : sendable filled_form 2 form_texts.
Proof.
  split; [by eexists|apply (bool_decide_unpack _); reflexivity|].
  intros k s [[= -> ->]|[[= -> ->]|[]%elem_of_nil]%elem_of_cons]%elem_of_cons; by eexists _, _, _; split_and!.
Qed.
