(* ===== verification/SyncServer.v ===== *)
(** * Properties of answering a request

    The side that has the object sends it: what one step sends for an object without
    children, and what it sends for an object with children, where the fields of the
    parent follow the operand that adds a child. *)
From S2P Require Import Prelude Lgui CStrings FieldNames Fields DataObjects ObjectTrees ObjectFields Sync SyncTrees.
From S2P Require Import Protocol SyncSend SyncForced.

(** A request of the other side that waits for the object at place [i] of the tree. *)
Record answering (x : sender) (T : tree) (i : nat) : Prop := {
  aw_client : ss_isClient (x_req x) = false;
  aw_started : ss_hasStarted (x_req x) = true;
  aw_remote : ss_remoteFinished (x_req x) = true;
  aw_finished : ss_hasFinished (x_req x) = false;
  aw_auth : authorized x = true;
  aw_dobj : ss_dobj (x_req x) = root T;
  aw_index : ss_objectIndex (x_req x) = Z.of_nat i;
  aw_fields : ss_completeFields (x_req x) = None;
  aw_forced : ss_forcedObject (x_req x) = None;
  aw_tree : tree_in (x_world x) T;
  aw_plain : ∃ o, w_objs (x_world x) !! root T = Some o ∧ has_flag DO_FLAG_RECORD_TYPE (o_flags1 o) = false }.

(** What is left of an operand run: the fields, the node that is complete, what is next. *)
Lemma syncOperand_fields x nodes T d fs o x1 :
  tree_in (x_world x) T → d ∈ preorder T → sendable (x_world x) d fs → w_objs (x_world x) !! d = Some o →
  node_operands d x = Ok ((nodes, d), x1) → x_world x1 = x_world x → ss_completeFields (x_req x1) = Some [] →
  ss_forcedObject (x_req x1) = None →
  ∃ next x', dataobject_getTreeNextOp (Some d) (x_world x) = Ok (next, x_world x) ∧
    connectionContext_syncOperand (Some d) x = Ok (nodes ++ text_ops fs, x') ∧
    x_world x' = x_world x ∧ x_sent x' = x_sent x1 ∧ x_needAuth x' = x_needAuth x1 ∧ x_hasAuth x' = x_hasAuth x1 ∧
    x_req x' = let r := with_completeFields None (with_completeNodes (ss_completeNodes (x_req x1) ++ [d]) (x_req x1)) in
               match next with Some op => with_childOp op r | None => with_finished true r end.
Proof.
  intros HT Hd HS Ho En Hw Hcf Hfo. destruct (se_obj _ _ _ HS) as (o' & Ho' & Hnames). rewrite Ho in Ho'. injection Ho' as <-.
  unfold connectionContext_syncOperand. erewrite bind_Ok by reflexivity.
  rewrite (bind_Ok _ _ _ _ _ (sending_pure _ _ _ (get_obj_ok _ _ _ Ho))). run_with En. rewrite Hnames.
  rewrite <-Hw in HS. pose proof (field_operands_ok fs fs x1 [] d HS (reflexivity _) (se_names _ _ _ HS) Hcf) as E.
  run_with E. erewrite bind_Ok by reflexivity.
  destruct (next_op_total _ _ d HT Hd) as (r & Er). exists r.
  erewrite bind_Ok by (apply sending_pure; cbn; rewrite Hw; exact Er).
  destruct r as [op|].
  - erewrite bind_Ok by reflexivity. eexists. split; [exact Er|]. split; [reflexivity|]. by split_and!.
  - erewrite bind_Ok by reflexivity. eexists. split; [exact Er|]. split; [reflexivity|]. cbn. rewrite Hfo. by split_and!.
Qed.

Section Server.
Variable encodes : FRIPacketP → bool.
Hypothesis encodes_all : ∀ p, encodes p = true.

(** One step of the answer: the operands go out in one packet. *)
Lemma outgoing_step x T i d fs nodes x1 :
  answering x T i → preorder T !! i = Some d → sendable (x_world x) d fs →
  let x0 := set_req (with_completeFields (Some []) (x_req x)) x in
  node_operands d x0 = Ok ((nodes, d), x1) → x_world x1 = x_world x → x_sent x1 = x_sent x →
  x_needAuth x1 = x_needAuth x → x_hasAuth x1 = x_hasAuth x →
  ss_completeFields (x_req x1) = Some [] → ss_forcedObject (x_req x1) = None →
  ∃ next x', dataobject_getTreeNextOp (Some d) (x_world x) = Ok (next, x_world x) ∧
    connectionContext_processSyncRequest encodes x = Ok ((), x') ∧ x_world x' = x_world x ∧
    x_sent x' = x_sent x ++ [dataObjectSyncP (ss_sequenceID (x_req x)) (blockSyncListP (nodes ++ text_ops fs))] ∧
    authorized x' = true ∧
    x_req x' = let r := with_completeFields None (with_completeNodes (ss_completeNodes (x_req x1) ++ [d]) (x_req x1)) in
               match next with Some op => with_childOp op r | None => with_finished true r end.
Proof.
  intros [Hcl Hst Hrem Hfin Hau Hd Hix Hcf Hfo HT (ob & Hob & Hrec)] Hi HS x0 En Hw1 Hs1 Hn1 Hh1 Hcf1 Hfo1.
  assert (d ∈ preorder T) as Hin by (by eapply list_elem_of_lookup_2).
  destruct (se_obj _ _ _ HS) as (o & Ho & _).
  destruct (syncOperand_fields x0 nodes T d fs o x1 HT Hin HS Ho En Hw1 Hcf1 Hfo1)
    as (next & x2 & Enext & E2 & Hw2 & Hs2 & Hn2 & Hh2 & Hr2).
  exists next. unfold connectionContext_processSyncRequest. erewrite bind_Ok by reflexivity. rewrite Hcl.
  erewrite bind_Ok by reflexivity. rewrite Hst, Hrem, Hfin, Hau. cbn [negb andb].
  unfold connectionContext_outgoingSync.
  erewrite (bind_Ok _ _ _ () x0) by (unfold start_completeFields, upd_req; by rewrite Hcf).
  erewrite (bind_Ok _ _ _ (x_req x0)) by reflexivity. change (ss_dobj (x_req x0)) with (ss_dobj (x_req x)). rewrite Hd.
  erewrite (bind_Ok _ _ _ 0 x0).
  2:{ apply sending_pure. unfold dataobject_getRecordType. erewrite bind_Ok by reflexivity.
      rewrite (bind_Ok _ _ _ _ _ (get_obj_ok (x_world x0) _ _ Hob)). unfold has_flag in Hrec.
      apply negb_false_iff, Z.eqb_eq in Hrec. by rewrite Hrec. }
  cbn [negb Z.eqb]. change (ss_objectIndex (x_req x0)) with (ss_objectIndex (x_req x)). rewrite Hix.
  rewrite (bind_Ok _ _ _ _ _ (sending_pure _ x0 _ (getTree_at _ _ _ _ HT Hi))). run_with E2.
  unfold connectionContext_packetSend. rewrite encodes_all. eexists. split; [exact Enext|]. split; [reflexivity|].
  cbn [x_world x_sent x_req authorized x_needAuth x_hasAuth]. unfold authorized in *. cbn [x_needAuth x_hasAuth].
  rewrite Hs2, Hs1, Hn2, Hh2, Hn1, Hh1, Hw2. by split_and!.
Qed.
End Server.


Lemma send_addChild_ok x T d cs :
  tree_in (x_world x) T → dataobject_childIterator (Some d) (x_world x) = Ok (cs, x_world x) → cs ⊆ preorder T →
  ∃ x1, send_addChild d x = Ok ((), x1) ∧ x_world x1 = x_world x ∧ x_sent x1 = x_sent x ∧
    x_needAuth x1 = x_needAuth x ∧ x_hasAuth x1 = x_hasAuth x ∧
    ss_completeFields (x_req x1) = ss_completeFields (x_req x) ∧
    ss_forcedObject (x_req x1) = ss_forcedObject (x_req x).
Proof.
  intros HT Hcs Hsub. unfold send_addChild. erewrite bind_Ok by reflexivity.
  erewrite bind_Ok by (apply sending_pure; exact Hcs). erewrite bind_Ok by reflexivity.
  destruct (List.find _ cs) as [c|] eqn:Ec.
  - apply find_some in Ec as [Hc _]. apply list_elem_of_In, Hsub in Hc. apply list_elem_of_lookup in Hc as [k Hk].
    erewrite bind_Ok by (apply sending_pure; exact (treeIndex_at _ _ _ _ HT Hk)).
    eexists. split; [reflexivity|]. by split_and!.
  - eexists. split; [reflexivity|]. by split_and!.
Qed.
(** An object with a child.  Once the object itself was sent, the next packet has the
    operand that adds a child, and behind it the fields of the object again, not those of
    the child.  The receiver stores them in the child it has just made, so the first
    child of a received object has the texts of its parent. *)
Theorem child_gets_fields_of_parent encodes frame_root x T i d fs cs w2 ctx d2 o2 :
  (∀ p, encodes p = true) → answering x T i → preorder T !! i = Some d → sendable (x_world x) d fs →
  ss_childOp (x_req x) = -1 → dataobject_childIterator (Some d) (x_world x) = Ok (cs, x_world x) → cs ⊆ preorder T →
  let T2 := plug ctx (Node d2 []) in
  wf w2 → tree_in w2 T2 → w_objs w2 !! d2 = Some o2 → Forall name_ok (fieldNameStringP <$> fs.*1) →
  Z.of_nat (S (length (preorder T2))) < 2 ^ 31 →
  ∃ x' ops, connectionContext_processSyncRequest encodes x = Ok ((), x') ∧
    x_sent x' = x_sent x ++ [dataObjectSyncP (ss_sequenceID (x_req x)) (blockSyncListP ops)] ∧
    ∃ w' c oc i', connectionContext_processSync frame_root ops (mkSync w2 (mkReq (root T2) (Z.of_nat (pos ctx)))) =
        Ok ((), mkSync w' (mkReq (root T2) i')) ∧
      tree_in w' (plug ctx (Node d2 [Node c []])) ∧ w_objs w' !! c = Some oc ∧
      has_fields (w_fields w') oc ((λ p, (fieldNameStringP p.1, p.2)) <$> fs).
Proof.
  intros Henc HA Hi HS Hop Hcs Hsub T2 Hwf2 HT2 Ho2 Hnames Hb.
  pose proof HA as [Hcl Hst Hrem Hfin Hau Hd Hix Hcf Hfo HT _].
  set (x0 := set_req (with_completeFields (Some []) (x_req x)) x).
  assert (∃ x1, node_operands d x0 = Ok (([protocol_addChild], d), x1) ∧ x_world x1 = x_world x ∧ x_sent x1 = x_sent x ∧
    x_needAuth x1 = x_needAuth x ∧ x_hasAuth x1 = x_hasAuth x ∧ ss_completeFields (x_req x1) = Some [] ∧
    ss_forcedObject (x_req x1) = None) as (x1 & En & Hw1 & Hs1 & Hn1 & Hh1 & Hcf1 & Hfo1).
  { unfold node_operands. erewrite bind_Ok by reflexivity. cbn [x0 x_req set_req ss_childOp with_completeFields].
    rewrite Hop. destruct (send_addChild_ok x0 T d cs HT Hcs Hsub) as (x1 & E & HP). exists x1.
    change (-1 <? -1) with false. change (-1 =? -1) with true. cbv iota. run_with E. split; [done|].
    destruct HP as (? & ? & ? & ? & -> & ->). by split_and!. }
  destruct (outgoing_step encodes Henc x T i d fs _ x1 HA Hi HS En Hw1 Hs1 Hn1 Hh1 Hcf1 Hfo1)
    as (next & x2 & _ & E & _ & Hs & _).
  exists x2, ([protocol_addChild] ++ text_ops fs). split; [done|]. split; [done|].
  destruct (add_child_ok frame_root w2 ctx d2 [] o2 Hwf2 HT2 Ho2 Hb)
    as (w3 & o3 & oc & Eadd & Hwf3 & HT3 & _ & _ & _ & Hc & Hdata & Henum & _).
  set (c := w_brk w2) in *. set (i' := pos (mkFrame d2 [] [] :: ctx)) in *.
  set (T3 := plug ctx (Node d2 [Node c []])) in *.
  assert (preorder T3 !! i' = Some c) as Hi' by apply (preorder_at (mkFrame d2 [] [] :: ctx) c []).
  set (sfs := (λ p, (fieldNameStringP p.1, p.2)) <$> fs).
  assert (sfs.*1 = fieldNameStringP <$> fs.*1) as Hsfs by (unfold sfs; rewrite <-!list_fmap_compose; done).
  destruct (receive_fields frame_root sfs w3 T3 i' c oc []) as (w' & oc' & Erec & Ew' & _ & _ & Hl & HT' & _ & Hh); try done.
  { cbn [app]. rewrite Hsfs. apply NoDup_fmap_2; [by intros ? ? [= ->]|]. by apply (se_names _ _ _ HS). }
  { cbn [app]. by rewrite Hsfs. }
  { intros n _ _. destruct n as [s|e]; cbn; by rewrite ?Hdata, ?Henum. }
  { by constructor. }
  exists w', c, oc', (Z.of_nat i'). split; [|split; [exact HT'|split; [rewrite Ew'; apply lookup_insert_eq|exact Hh]]].
  unfold connectionContext_processSync. erewrite bind_Ok by reflexivity. cbn [s_req sr_dobj sr_objectIndex s_world].
  erewrite bind_Ok by (apply on_world_ok; exact (getTree_at w2 T2 _ d2 HT2 (preorder_at ctx d2 []))).
  unfold connectionContext_processBlockSyncList. erewrite bind_Ok by reflexivity.
  cbn [app]. rewrite (mfor_cons_ok _ _ _ _ _ Eadd). fold T3 in Erec.
  assert (root T3 = root T2) as Hroot by by apply (root_plug ctx). rewrite Hroot in Erec. exact Erec.
Qed.

(** ** Instances: a note, and a list with one entry *)
Definition note_world (cs : list oloc) : world :=
  mkWorld (list_to_map [(1%positive, with_data [(lit "title", 1%positive)] (demo_obj cs None));
                        (2%positive, with_enumData [(enum_value EMO_FIELD_TYPE, 2%positive)] (demo_obj [] (Some 1%positive)))]) 3
    (mkFH (list_to_map [(1%positive, mkField (DOF_STRING (SHeap (lit "hi"))) 0);
                        (2%positive, mkField (DOF_STRING (SBuiltin EMO_TYPE_LABEL)) 0)]) 3).
Definition note_texts : list (cstring * cstring) := [(lit "title", lit "hi")].
Definition note_sender (cs : list oloc) (childOp : Z) : sender :=
  mkSender (note_world cs) (mkSend (lit "tcp://host/note") 1 None false false true false false true false
                          None [] 9 0 0 childOp) [] [] NA_NO false.
Lemma note_sendable cs : sendable (note_world cs) 1 note_texts.
Proof.
  split; [by eexists|apply NoDup_singleton|].
  intros k s [= -> ->]%list_elem_of_singleton. by eexists _, _, _; split_and!.
Qed.
Lemma note_tree : tree_in (note_world []) (Node 1 []).
Proof. split_and!; [by econstructor|apply NoDup_singleton|done]. Qed.
Lemma list_tree : tree_in (note_world [2%positive]) (Node 1 [Node 2 []]).
Proof.
  split_and!; [|apply (bool_decide_unpack _); reflexivity|vm_compute; reflexivity].
  repeat (econstructor; [reflexivity..|]; repeat constructor); repeat econstructor.
Qed.
Lemma child_gets_fields_of_parent_witness :
  ∃ x' ops, connectionContext_processSyncRequest (λ _, true) (note_sender [2%positive] (-1)) = Ok ((), x') ∧
    x_sent x' = [] ++ [dataObjectSyncP 9 (blockSyncListP ops)] ∧
    ∃ w' c oc i', connectionContext_processSync (λ _, None) ops (mkSync bare_world (mkReq 1 0)) = Ok ((), mkSync w' (mkReq 1 i')) ∧
      tree_in w' (Node 1 [Node c []]) ∧ w_objs w' !! c = Some oc ∧
      has_fields (w_fields w') oc [(fieldNameStringP (lit "title"), lit "hi")].
Proof.
  apply (child_gets_fields_of_parent (λ _, true) (λ _, None) (note_sender [2%positive] (-1)) (Node 1 [Node 2 []]) 0 1%positive
    note_texts [2%positive] bare_world [] 1%positive empty_object).
  - done.
  - split; try reflexivity; [apply list_tree|by eexists].
  - reflexivity.
  - apply note_sendable.
  - reflexivity.
  - reflexivity.
  - apply (bool_decide_unpack _). reflexivity.
  - apply bare_wf.
  - apply bare_tree.
  - reflexivity.
  - by repeat constructor.
  - reflexivity.
Defined.
