(* ===== verification/Ui.v ===== *)
(** * The user interface: widgets over the object tree

    A widget is a data object.  This file has the state the widget code works on, the
    accessors of Widget.c, and the operations that mark objects as modified:
    setting a modification expands arrays (ArrayWidget.c), which deletes and copies
    objects and marks the copies.  The state holds the object world, the redraw queue
    of RenderManager.c, and what is used of ApplicationManager.c and Application.c. *)
From S2P Require Import Prelude Arrays RenderManager Lgui CStrings Url FieldNames Fields DataObjects.

Abbreviation aloc := positive.
(** The URL is not initialised before it is set. *)
Record Application_t := mkApp {
  app_dobj : oloc;
  app_currentScreen : option oloc;
  app_activeDialog : option cstring;
  app_currentStyle : option oloc;
  app_flags : Z;
  app_url : option URL }.
(** [u_applications], [u_focus], [u_style] and [u_window] are members of
    [ApplicationManager_t], after [manager_init]. *)
Record ui := mkUi {
  u_world : world;
  u_renderman : option RenderManager_t;
  u_apps : gmap aloc Application_t;
  u_applications : list aloc;
  u_focus : option aloc;
  u_style : oloc;
  u_window : option oloc }.
Abbreviation UM := (M ui).

Definition set_world (w : world) (u : ui) : ui :=
  mkUi w (u_renderman u) (u_apps u) (u_applications u) (u_focus u) (u_style u) (u_window u).
Definition set_renderman (r : option RenderManager_t) (u : ui) : ui :=
  mkUi (u_world u) r (u_apps u) (u_applications u) (u_focus u) (u_style u) (u_window u).
Definition in_world {B} (m : DM B) : UM B := λ u,
  match m (u_world u) with
  | Ok (b, w) => Ok (b, set_world w u)
  | Abort => Abort | Fault => Fault | NoFuel => NoFuel
  end.
Definition in_fields {B} (m : FM B) : UM B := in_world (on_fields m).
Definition in_renderman {B} (m : RM B) : UM B := λ u,
  match m (u_renderman u) with
  | Ok (b, r) => Ok (b, set_renderman r u)
  | Abort => Abort | Fault => Fault | NoFuel => NoFuel
  end.
(** The four bytes of the address of an object. *)
Definition pointer (d : oloc) : list byte_ :=
  let z := Zpos d in
  [Some (z mod 256); Some (z / 2 ^ 8 mod 256); Some (z / 2 ^ 16 mod 256); Some (z / 2 ^ 24 mod 256)].
(** A bound for walks over the object graph that visit no object twice. *)
Definition ui_fuel (u : ui) : nat := walk_fuel (u_world u).

(** ** Applications *)
Definition get_app (a : aloc) : UM Application_t := λ u,
  match u_apps u !! a with Some p => Ok (p, u) | None => Fault end.
Definition application_getDataObject (a : option aloc) : UM oloc :=
  a ← emo_nonnull a; p ← get_app a; mret (app_dobj p).
Definition application_getCurrentScreen (a : option aloc) : UM (option oloc) :=
  a ← emo_nonnull a; p ← get_app a; mret (app_currentScreen p).
Definition application_getCurrentStyle (a : option aloc) : UM (option oloc) :=
  a ← emo_nonnull a; p ← get_app a; mret (app_currentStyle p).
Definition manager_getRootStyle : UM oloc := gets u_style.
Definition manager_getFocusedApplication : UM (option aloc) := gets u_focus.
Definition manager_applicationForDataObject (d : option oloc) : UM (option aloc) :=
  d ← emo_nonnull d; u ← get;
  mfind (λ a, x ← application_getDataObject (Some a);
              mret (if decide (x = d) then Some a else None)) (u_applications u).

(** ** Fields *)
Definition getField (d : oloc) (f : EmoField) : UM (option floc) :=
  in_world (dataobject_getEnum (Some d) (enum_value f)).
Definition getFieldAsInt (d : oloc) (f : EmoField) : UM (option floc) :=
  in_world (dataobject_getEnumAsInt (Some d) (enum_value f)).
Definition setField (d : oloc) (f : EmoField) (v : floc) : UM () :=
  in_world (dataobject_setEnum (Some d) (enum_value f) (Some v)).
Definition new_int (i : Z) : UM floc := in_fields (dataobjectfield_int i).
Definition is_type (type : option floc) (ty : nat) : UM bool := in_fields (EMO_DOF_IS_TYPE type ty).
Definition obj (d : oloc) : UM DataObject := in_world (get_obj d).
Definition upd (d : oloc) (f : DataObject → DataObject) : UM () := in_world (upd_obj d f).
Definition data_of (w : oloc) : UM oloc := in_world (widget_getDataObject (Some w)).
Definition children_of (w : oloc) : UM (list oloc) := in_world (dataobject_childIterator (Some w)).
Definition rchildren_of (w : oloc) : UM (list oloc) := in_world (dataobject_rchildIterator (Some w)).

(** The object a frame shows, and the one a reference stands for. *)
Definition frame_screen (w : oloc) : UM (option (oloc * aloc)) :=
  child ← data_of w;
  if decide (child = w) then mret None else
  app ← manager_applicationForDataObject (Some child);
  match app with
  | None => mret None
  | Some a => screen ← application_getCurrentScreen (Some a); mret ((λ c, (c, a)) <$> screen)
  end.
Definition reference_target (w : oloc) : UM (option oloc) :=
  child ← data_of w; mret (if decide (child = w) then None else Some child).

(** ** Accessors of Widget.c *)
Definition widget_isArraySource (w : option oloc) : UM Z :=
  w ← emo_nonnull w; f ← getField w EMO_FIELD_ARRAYSOURCE; in_fields (dataobjectfield_isTrue f).
Fixpoint setDataObjectArray_loop (fuel : nat) (d w : oloc) : UM () :=
  match fuel with
  | O => no_fuel
  | S fuel =>
      source ← widget_isArraySource (Some w);
      when (negb (source =? 0)) (in_world (widget_setDataObject (Some w) (Some d)));;
      cs ← children_of w; mfor (setDataObjectArray_loop fuel d) cs
  end.
Definition widget_setDataObjectArray (w d : option oloc) : UM () :=
  w ← emo_nonnull w; d ← emo_nonnull d; u ← get; setDataObjectArray_loop (ui_fuel u) d w.

Definition WP_HORIZONTAL : Z := 0.
Definition WP_HGRID : Z := 2.
Definition WP_VGRID : Z := 3.
Definition WP_FIXED : Z := 4.
Definition WA_LEFT : Z := 0.
Definition WA_CENTER : Z := 1.
Definition WA_RIGHT : Z := 2.
(** Stores into the field whatever its type is. *)
Definition put_field (w : oloc) (f : EmoField) (i : Z) : UM () :=
  field ← getField w f;
  match field with
  | None => v ← new_int i; setField w f v
  | Some field => in_fields (set_integer field i)
  end.
Definition widget_setPacking (w : option oloc) (p : Z) : UM () :=
  w ← emo_nonnull w; put_field w EMO_FIELD_PACKING p.
Definition widget_setAlignment (w : option oloc) (a : Z) : UM () :=
  w ← emo_nonnull w; put_field w EMO_FIELD_ALIGNMENT a.
Definition widget_setCanFocus (w : option oloc) (canFocus : Z) : UM () :=
  w ← emo_nonnull w; put_field w EMO_FIELD_CANFOCUS canFocus.

Definition isdigit (c : Z) : bool := (48 <=? c) && (c <=? 57).
(** [strcmp] against each name in turn. *)
Fixpoint keyword (names : list (string * Z)) (dflt : Z) (s : cstring) : Z :=
  match names with
  | [] => dflt
  | (n, v) :: names => if bool_decide (s = lit n) then v else keyword names dflt s
  end.
Definition number_or_keyword (names : list (string * Z)) (dflt : Z) (s : cstring) : option Z :=
  if isdigit (default nul (head s)) then atoi s else Some (keyword names dflt s).
Definition packing_names : list (string * Z) :=
  [("horizontal", WP_HORIZONTAL); ("vertical", WP_VERTICAL); ("hgrid", WP_HGRID); ("vgrid", WP_VGRID);
   ("fixed", WP_FIXED)]%string.
Definition alignment_names : list (string * Z) :=
  [("left", WA_LEFT); ("top", WA_LEFT); ("center", WA_CENTER); ("right", WA_RIGHT); ("bottom", WA_RIGHT)]%string.
(** A text is replaced by the number it stands for. *)
Definition enum_field (names : list (string * Z)) (dflt : Z) (f : EmoField) (w : oloc) : UM Z :=
  field ← getField w f;
  match field with
  | None => mret dflt
  | Some field =>
      text ← in_fields (is_string field);
      if text : bool then
        p ← in_fields (get_string field);
        s ← deref (str_content p);
        i ← deref (number_or_keyword names dflt s);
        v ← new_int i;
        setField w f v;;
        mret i
      else in_fields (get_integer field)
  end.
Definition widget_getPacking (w : option oloc) : UM Z :=
  w ← emo_nonnull w; enum_field packing_names WP_VERTICAL EMO_FIELD_PACKING w.
Definition widget_getAlignment (w : option oloc) : UM Z :=
  w ← emo_nonnull w; enum_field alignment_names WA_LEFT EMO_FIELD_ALIGNMENT w.

Definition widget_getID (w : option oloc) : UM (option str_ptr) :=
  w ← emo_nonnull w; f ← getField w EMO_FIELD_ID;
  match f with None => mret None | Some f => p ← in_fields (get_string f); mret (Some p) end.
Definition widget_canFocus (w : option oloc) : UM Z :=
  w ← emo_nonnull w; f ← getField w EMO_FIELD_CANFOCUS; in_fields (dataobjectfield_isTrue f).
Definition widget_hasFocus (w : option oloc) : UM Z :=
  w ← emo_nonnull w; f ← getFieldAsInt w EMO_FIELD_HASFOCUS;
  match f with None => mret 0 | Some f => in_fields (get_integer f) end.
Fixpoint hasFocusOrParent_loop (fuel : nat) (w : oloc) : UM bool :=
  match fuel with
  | O => no_fuel
  | S fuel =>
      hasFocus ← widget_hasFocus (Some w);
      if negb (hasFocus =? 0) then mret true else
      o ← obj w;
      match o_parent o with Some p => hasFocusOrParent_loop fuel p | None => mret false end
  end.
Definition widget_hasFocusOrParent (w : option oloc) : UM bool :=
  w ← emo_nonnull w; u ← get; hasFocusOrParent_loop (ui_fuel u) w.
Fixpoint isParent_loop (fuel : nat) (wParent w : oloc) : UM bool :=
  match fuel with
  | O => no_fuel
  | S fuel =>
      o ← obj w;
      match o_parent o with
      | None => mret false
      | Some p => if decide (wParent = w) then mret true else isParent_loop fuel wParent p
      end
  end.
Definition widget_isParent (wParent w : option oloc) : UM bool :=
  w ← emo_nonnull w; p ← emo_nonnull wParent; u ← get; isParent_loop (ui_fuel u) p w.
Definition widget_getMargin (w : option oloc) : UM Rectangle :=
  w ← emo_nonnull w; o ← obj w; mret (o_margin o).
Definition widget_getBox (w : option oloc) : UM Rectangle :=
  w ← emo_nonnull w; o ← obj w; mret (o_box o).
(** Width and height; a box that was never measured is not initialised. *)
Definition widget_getChildBox (w : option oloc) : UM (option (Z * Z)) :=
  w ← emo_nonnull w; o ← obj w; mret (o_childBox o).
Definition widget_getClipRectangle (w : option oloc) : UM Rectangle :=
  w ← emo_nonnull w; o ← obj w;
  mret (mkRect (int32 (rx (o_box o) + rx (o_margin o))) (int32 (ry (o_box o) + ry (o_margin o)))
          (rwidth (o_box o)) (rheight (o_box o))).
