(* ===== verification/Modify.v ===== *)
(** * Marking objects: dirty flags, modification, arrays, scrolled widgets

    [dataobject_setIsModified] (DataObject.c) queues an object for redrawing, expands
    it when it is an array, and goes on to the objects that refer to it.
    [array_expand] (ArrayWidget.c) deletes the old copies of its template and makes a
    copy for each record, each of which is marked as modified in turn, so the three
    functions [dataobject_setIsModified], [array_expand] and [dataobject_delete] are
    mutually recursive.  The fuel bounds the chain of references. *)
From S2P Require Import Prelude RenderManager Lgui CStrings FieldNames Fields DataObjects Ui.

(** ** Searching upwards *)
Fixpoint findStringFieldParent_loop (fuel : nat) (key : Z) (value : str_ptr) (w : oloc) : UM (option oloc) :=
  match fuel with
  | O => no_fuel
  | S fuel =>
      field ← in_world (dataobject_getEnum (Some w) key);
      found ← (match value with
               | SBuiltin off => if (key =? enum_value EMO_FIELD_TYPE) && EMO_TYPE_IS_BUILTIN off
                                 then is_type field off
                                 else s ← deref (str_content value); in_fields (dataobjectfield_isString field (Some s))
               | _ => s ← deref (str_content value); in_fields (dataobjectfield_isString field (Some s))
               end);
      if found : bool then mret (Some w) else
      o ← obj w;
      match o_parent o with Some p => findStringFieldParent_loop fuel key value p | None => mret None end
  end.
Definition widget_findStringFieldParent (w : option oloc) (key : Z) (value : option str_ptr) : UM (option oloc) :=
  w ← emo_nonnull w; value ← emo_nonnull value; u ← get; findStringFieldParent_loop (ui_fuel u) key value w.

(** ** Dirty flags *)
(** What a walk over the widgets visits below [w]: the screen of a frame, the target of
    a reference, otherwise the children. *)
Definition below (w : oloc) (type : option floc) : UM (list oloc) :=
  frame ← is_type type EMO_TYPE_FRAME;
  if frame : bool then (t ← frame_screen w; mret (match t with Some (c, _) => [c] | None => [] end)) else
  reference ← is_type type EMO_TYPE_REFERENCE;
  if reference : bool then (t ← reference_target w; mret (match t with Some c => [c] | None => [] end)) else
  children_of w.
Fixpoint markDirtyChild_loop (fuel : nat) (w : oloc) : UM () :=
  match fuel with
  | O => no_fuel
  | S fuel =>
      in_world (dataobject_setDirty (Some w));;
      type ← getField w EMO_FIELD_TYPE;
      cs ← below w type; mfor (markDirtyChild_loop fuel) cs
  end.
Definition widget_markDirtyChild (w : option oloc) : UM () :=
  w ← emo_nonnull w; u ← get; markDirtyChild_loop (ui_fuel u) w.
Fixpoint markDirtyParents_loop (fuel : nat) (w : oloc) : UM () :=
  match fuel with
  | O => no_fuel
  | S fuel =>
      o ← obj w;
      match o_parent o with
      | Some p => in_world (dataobject_setDirty (Some p));; markDirtyParents_loop fuel p
      | None => mret ()
      end
  end.
Definition widget_markDirty (w : option oloc) : UM () :=
  w ← emo_nonnull w; widget_markDirtyChild (Some w);; u ← get; markDirtyParents_loop (ui_fuel u) w.

Fixpoint setLayoutDirtyAll_loop (fuel : nat) (d : oloc) : UM () :=
  match fuel with
  | O => no_fuel
  | S fuel =>
      upd d (λ o, with_flags1 (Z.lor (Z.lor (o_flags1 o) DO_FLAG_LAYOUT_DIRTY_WIDTH) DO_FLAG_LAYOUT_DIRTY_HEIGHT) o);;
      type ← getField d EMO_FIELD_TYPE;
      cs ← below d type; mfor (setLayoutDirtyAll_loop fuel) cs
  end.
Definition dataobject_setLayoutDirtyAll (d : option oloc) : UM () :=
  d ← emo_nonnull d; u ← get; setLayoutDirtyAll_loop (ui_fuel u) d.

(** ** Deleting, expanding, modifying *)
Definition free_obj (d : oloc) : DM () := λ w,
  match w_objs w !! d with
  | Some _ => Ok ((), mkWorld (delete d (w_objs w)) (w_brk w) (w_fields w))
  | None => Fault
  end.
Section Modify.
(** [dataobject_setIsModified] with one step of fuel less. *)
Variable setIsModified : oloc → bool → UM ().

(** The integer key of an enum field is freed as if it were a string
    ([Maps.mapIterator_remove_by_type]), so only an object without such fields can be
    deleted. *)
Definition dataobject_delete_ (d : option oloc) : UM () :=
  d ← emo_nonnull d; o ← obj d;
  mfor (λ kf : cstring * floc, in_fields (dataobjectfield_free (Some kf.2));;
                              upd d (λ o, with_data (tail (o_data o)) o)) (o_data o);;
  match o_enumData o with
  | [] => mret ()
  | (_, f) :: _ => in_fields (dataobjectfield_free (Some f));; fault
  end;;
  o ← obj d;
  mfor (λ cw, upd cw (with_widgetData None);; setIsModified cw true) (o_referenced o);;
  in_world (free_obj d).

Definition filtered_field (rec : oloc) (filterfield : floc) : UM (option floc) :=
  c ← in_fields (get_field filterfield);
  match f_value c with
  | DOF_STRING p => s ← deref (str_content p); in_world (dataobject_getValue (Some rec) (Some s))
  | DOF_INT i => in_world (dataobject_getEnum (Some rec) i)
  | _ => λ _, Abort
  end.
Definition record_selected (filter : option (floc * floc)) (rec : oloc) : UM bool :=
  match filter with
  | None => mret true
  | Some (filterfield, filtervalue) =>
      f ← filtered_field rec filterfield;
      p ← in_fields (get_string filtervalue); s ← deref (str_content p);
      in_fields (dataobjectfield_isString f (Some s))
  end.
(** A copy of the template for one record. *)
Definition expand_record (w arrtemplate rec : oloc) : UM () :=
  shim ← in_world (dataobject_copyTree (Some arrtemplate));
  widget_setDataObjectArray (Some shim) (Some rec);;
  upd w (λ o, with_arrayChildren (o_arrayChildren o ++ [shim]) o);;
  o ← obj w;
  upd shim (with_parent (o_parent o));;
  setIsModified shim true;;
  widget_markDirty (Some shim).
Fixpoint expand_records (w arrtemplate : oloc) (filter : option (floc * floc)) (startNumber : Z)
    (recordIdx : Z) (recs : list oloc) : UM () :=
  match recs with
  | [] => mret ()
  | rec :: recs =>
      selected ← record_selected filter rec;
      when selected (expand_record w arrtemplate rec);;
      if startNumber <=? recordIdx + 1 then mret ()
      else expand_records w arrtemplate filter startNumber (recordIdx + 1) recs
  end.
(** [list_clear] leaves the header of a list that was not empty pointing at freed
    nodes ([Lists.list_clear_then_use_faults]); the array children are used again. *)
Definition clear_arrayChildren (w : oloc) : UM () :=
  o ← obj w; match o_arrayChildren o with [] => mret () | _ => fault end.
Definition array_expand_ (w : option oloc) : UM () :=
  w ← emo_nonnull w;
  childCount ← in_world (dataobject_getChildCount (Some w));
  if negb (childCount =? 1) then mret () else
  dobj ← data_of w;
  if decide (dobj = w) then mret () else
  filterfield ← getField w EMO_FIELD_FILTERFIELD;
  filtervalue ← getField w EMO_FIELD_FILTERVALUE;
  filter ← (match filterfield, filtervalue with
            | Some ff, Some fv => text ← in_fields (is_string fv); mret (if text : bool then Some (ff, fv) else None)
            | _, _ => mret None
            end);
  o ← obj w;
  mfor (λ c, dataobject_delete_ (Some c)) (o_arrayChildren o);;
  clear_arrayChildren w;;
  arrtemplate ← deref (head (o_children o));
  direction ← getField w EMO_FIELD_DIRECTION;
  startfield ← getFieldAsInt w EMO_FIELD_STARTCOUNT;
  startNumber ← (match startfield with
                 | None => mret 30
                 | Some f => c ← in_fields (get_field f); mret (match f_value c with DOF_INT i => i | _ => 30 end)
                 end);
  prepend ← in_fields (dataobjectfield_isString direction (Some (lit "prepend")));
  d ← obj dobj;
  expand_records w arrtemplate filter startNumber 0
    (if prepend : bool then reverse (o_children d) else o_children d).

Definition setIsModified_step (d : oloc) (isModified : bool) : UM () :=
  o ← obj d;
  match o_state o with
  | DOS_OK =>
      (if isModified
       then in_renderman (renderman_queue (Some (pointer d)));;
            upd d (λ o, with_flags1 (set_flag true DO_FLAG_CHANGED (o_flags1 o)) o)
       else in_renderman (renderman_dequeue (Some (pointer d)));;
            upd d (λ o, with_flags1 (set_flag false DO_FLAG_CHANGED (o_flags1 o)) o));;
      type ← getField d EMO_FIELD_TYPE;
      array ← is_type type EMO_TYPE_ARRAY;
      when array (array_expand_ (Some d);;
                  in_renderman renderman_clearQueue;;
                  sp ← in_world (dataobject_superparent (Some d));
                  widget_markDirty (Some sp));;
      o ← obj d;
      mfor (λ r, setIsModified r isModified) (o_referenced o)
  | _ => mret ()
  end.
End Modify.

Fixpoint setIsModified_loop (fuel : nat) (d : oloc) (isModified : bool) : UM () :=
  match fuel with
  | O => no_fuel
  | S fuel => setIsModified_step (setIsModified_loop fuel) d isModified
  end.
Definition dataobject_setIsModified (d : option oloc) (isModified : bool) : UM () :=
  d ← emo_nonnull d; u ← get; setIsModified_loop (ui_fuel u) d isModified.
Definition dataobject_delete (d : option oloc) : UM () :=
  u ← get; dataobject_delete_ (setIsModified_loop (ui_fuel u)) d.
Definition array_expand (w : option oloc) : UM () :=
  u ← get; array_expand_ (setIsModified_loop (ui_fuel u)) w.
Fixpoint setIsModifiedTree_loop (fuel : nat) (isModified : bool) (d : oloc) : UM () :=
  match fuel with
  | O => no_fuel
  | S fuel =>
      dataobject_setIsModified (Some d) isModified;;
      o ← obj d; mfor (setIsModifiedTree_loop fuel isModified) (o_children o)
  end.
Definition dataobject_setIsModifiedTree (d : option oloc) (isModified : bool) : UM () :=
  d ← emo_nonnull d; u ← get; setIsModifiedTree_loop (ui_fuel u) isModified d.
