(* ===== verification/Focus.v ===== *)
(** * Focus: stacks, sets, scrolled widgets and the focus walks of Widget.c

    One definition per function of StackWidget.c, SetWidget.c, the offsets of
    ScrolledWidget.c and the focus part of Widget.c.  The walks descend through
    frames, references and the focused page of a stack ([focus_below]). *)
From S2P Require Import Prelude RenderManager Lgui CStrings FieldNames Fields DataObjects Ui Modify.

(** ** StackWidget.c, SetWidget.c *)
Definition stackwidget_focusStack (w : oloc) : UM Z :=
  f ← getFieldAsInt w EMO_FIELD_FOCUSSTACK;
  match f with None => mret (-1) | Some f => in_fields (get_integer f) end.
Definition stackwidget_focusStackObject (w : oloc) : UM (option oloc) :=
  focus ← stackwidget_focusStack w;
  len ← in_world (dataobject_getChildCount (Some w));
  if (focus <? 0) || (len <=? focus) then mret None else
  cs ← children_of w; mret (cs !! Z.to_nat focus).

Definition setwidget_fieldCompare (lhs rhs : option floc) : UM bool :=
  match lhs, rhs with
  | Some l, Some r =>
      a ← in_fields (get_field l); b ← in_fields (get_field r);
      match f_value a, f_value b with
      | DOF_STRING p, DOF_STRING q =>
          s ← deref (str_content p); t ← deref (str_content q); mret (bool_decide (s = t))
      | DOF_INT i, DOF_INT j | DOF_UINT i, DOF_UINT j => mret (i =? j)
      | _, _ => mret false
      end
  | _, _ => mret false
  end.
Definition setwidget_activeItem (w : option oloc) : UM (option oloc) :=
  w ← emo_nonnull w; dobj ← data_of w;
  fieldname ← getField w EMO_FIELD_FIELDNAME;
  match fieldname with
  | None => mret None
  | Some fieldname =>
      text ← in_fields (is_string fieldname);
      if negb text then mret None else
      p ← in_fields (get_string fieldname); s ← deref (str_content p);
      let fieldEnum := emo_field_to_int (Some s) in
      fieldvalue ← (if negb (fieldEnum =? enum_value EMO_FIELD_UNKNOWN_FIELD)
                    then in_world (dataobject_getEnum (Some dobj) fieldEnum)
                    else in_world (dataobject_getValueReal (Some dobj) (Some s)));
      match fieldvalue with
      | None => mret None
      | Some _ =>
          cs ← children_of w;
          item ← mfind (λ itemobj,
            itemvalue ← getField itemobj EMO_FIELD_FIELDVALUE;
            same ← (match itemvalue with None => mret true | Some _ => setwidget_fieldCompare itemvalue fieldvalue end);
            mret (if same : bool then Some itemobj else None)) cs;
          match item with
          | None => mret None
          | Some itemobj => items ← children_of itemobj; mret (head items)
          end
      end
  end.

(** ** ScrolledWidget.c *)
(** An offset field, made when it is missing, and its value. *)
Definition offset_field (w : oloc) (f : EmoField) : UM (floc * Z) :=
  field ← getFieldAsInt w f;
  match field with
  | Some field => i ← in_fields (get_integer field); mret (field, i)
  | None => field ← new_int 0; setField w f field;; mret (field, 0)
  end.
Definition scrolled_boxes (w : oloc) : UM (Rectangle * option (Z * Z)) :=
  box ← widget_getBox (Some w); childBox ← widget_getChildBox (Some w); mret (box, childBox).
(** Whether the widget took the key itself, moving its content by a third of its height. *)
Definition scrolled_focusNext (w : option oloc) : UM bool :=
  w ← emo_nonnull w; '(box, childBox) ← scrolled_boxes w;
  _ ← offset_field w EMO_FIELD_XOFFSET;
  '(ytransField, ytrans) ← offset_field w EMO_FIELD_YOFFSET;
  '(_, ch) ← deref childBox;
  let h := rheight box in
  if ch <=? h then mret false else
  if ch <=? int32 (ytrans + h) then mret false else
  let y := int32 (ytrans + Z.quot h 3) in
  let y := if int32 (ch - h) <? y then int32 (ch - h) else y in
  in_fields (set_integer ytransField y);; mret true.
Definition scrolled_focusPrev (w : option oloc) : UM bool :=
  w ← emo_nonnull w; '(box, childBox) ← scrolled_boxes w;
  _ ← offset_field w EMO_FIELD_XOFFSET;
  '(ytransField, ytrans) ← offset_field w EMO_FIELD_YOFFSET;
  '(_, ch) ← deref childBox;
  let h := rheight box in
  if ch <=? h then mret false else
  if ytrans <=? 0 then mret false else
  let y := int32 (ytrans - Z.quot h 3) in
  in_fields (set_integer ytransField (if y <? 0 then 0 else y));; mret true.
(** Scrolls the enclosing scrolled widget until [w] is inside its box. *)
Definition visible_offset (box widgetBox : Rectangle) (ytrans : Z) : option Z :=
  if ry widgetBox <? int32 (ytrans + ry box) then Some (int32 (ry widgetBox - ry box))
  else if int32 (ytrans + ry box + rheight box) <? int32 (ry widgetBox + rheight widgetBox)
  then Some (int32 (ry widgetBox + rheight widgetBox - (ry box + rheight box)))
  else None.
Definition scrolled_forceVisible (w : option oloc) : UM () :=
  w ← emo_nonnull w;
  scrolled ← widget_findStringFieldParent (Some w) (enum_value EMO_FIELD_TYPE) (Some (SBuiltin EMO_TYPE_SCROLLED));
  match scrolled with
  | None => mret ()
  | Some scrolled =>
      box ← widget_getBox (Some scrolled); widgetBox ← widget_getBox (Some w);
      _ ← offset_field scrolled EMO_FIELD_XOFFSET;
      '(ytransField, ytrans) ← offset_field scrolled EMO_FIELD_YOFFSET;
      match visible_offset box widgetBox ytrans with
      | Some y => in_fields (set_integer ytransField y);; dataobject_setIsModified (Some scrolled) true
      | None => mret ()
      end
  end.
Definition scrolled_autoscroll (w : option oloc) : UM () :=
  w ← emo_nonnull w; '(box, childBox) ← scrolled_boxes w;
  autoscroll ← getField w EMO_FIELD_AUTOSCROLL;
  bottom ← in_fields (dataobjectfield_isString autoscroll (Some (lit "bottom")));
  if bottom : bool then
    '(_, ch) ← deref childBox;
    v ← new_int (if ch <=? rheight box then 0 else int32 (ch - rheight box));
    setField w EMO_FIELD_YOFFSET v
  else match autoscroll with
       | Some _ => v ← new_int 0; setField w EMO_FIELD_YOFFSET v
       | None => mret ()
       end.

(** ** Setting the focus *)
Definition widget_setFocus (w : option oloc) (isFocus : bool) : UM () :=
  w ← emo_nonnull w;
  put_field w EMO_FIELD_HASFOCUS (if isFocus then 1 else 0);;
  when isFocus (scrolled_forceVisible (Some w)).
Definition can_focus (w : oloc) : UM bool := i ← widget_canFocus (Some w); mret (negb (i =? 0)).
Definition has_focus (w : oloc) : UM bool := i ← widget_hasFocus (Some w); mret (negb (i =? 0)).

(** What the focus walks visit below [w]. *)
Definition focus_below (w : oloc) (type : option floc) : UM (list oloc) :=
  frame ← is_type type EMO_TYPE_FRAME;
  if frame : bool then (t ← frame_screen w; mret (match t with Some (c, _) => [c] | None => [] end)) else
  reference ← is_type type EMO_TYPE_REFERENCE;
  if reference : bool then (t ← reference_target w; mret (match t with Some c => [c] | None => [] end)) else
  stack ← is_type type EMO_TYPE_STACK;
  if stack : bool then
    (c ← stackwidget_focusStackObject w; match c with Some c => mret [c] | None => children_of w end)
  else children_of w.
(** The same backwards; here a frame without an application is an assertion. *)
Definition frame_screen_strict (w : oloc) : UM (option oloc) :=
  child ← data_of w;
  if decide (child = w) then mret None else
  app ← manager_applicationForDataObject (Some child); application_getCurrentScreen app.
Definition focus_rbelow (w : oloc) (type : option floc) : UM (list oloc) :=
  frame ← is_type type EMO_TYPE_FRAME;
  if frame : bool then (t ← frame_screen_strict w; mret (match t with Some c => [c] | None => [] end)) else
  reference ← is_type type EMO_TYPE_REFERENCE;
  if reference : bool then (t ← reference_target w; mret (match t with Some c => [c] | None => [] end)) else
  stack ← is_type type EMO_TYPE_STACK;
  if stack : bool then
    (c ← stackwidget_focusStackObject w; match c with Some c => mret [c] | None => rchildren_of w end)
  else rchildren_of w.

(** The widget that got the focus, which is also what is appended to the list of
    widgets to redraw. *)
Fixpoint focusFirst_loop (fuel : nat) (w : oloc) : UM (option oloc) :=
  match fuel with
  | O => no_fuel
  | S fuel =>
      can ← can_focus w;
      if can : bool then widget_setFocus (Some w) true;; mret (Some w) else
      type ← getField w EMO_FIELD_TYPE;
      cs ← focus_below w type; mfind (focusFirst_loop fuel) cs
  end.
Definition widget_focusFirst (w : option oloc) (l : list oloc) : UM (bool * list oloc) :=
  w ← emo_nonnull w; u ← get; r ← focusFirst_loop (ui_fuel u) w;
  mret (match r with Some x => (true, l ++ [x]) | None => (false, l) end).

(** The list of widgets to redraw and whether the old focus was found. *)
Record next_state := mkNext { n_list : list oloc; n_unset : bool }.
Fixpoint find_threaded (rec : oloc → next_state → UM (bool * next_state)) (l : list oloc) (st : next_state) :
    UM (bool * next_state) :=
  match l with
  | [] => mret (false, st)
  | c :: l => '(found, st) ← rec c st; if found : bool then mret (true, st) else find_threaded rec l st
  end.
(** [true] for the result 2.  [parentRedraw] and [alreadySet] are only passed on. *)
Fixpoint focusNextR_loop (fuel : nat) (w : oloc) (st : next_state) : UM (bool * next_state) :=
  match fuel with
  | O => no_fuel
  | S fuel =>
      type ← getField w EMO_FIELD_TYPE;
      focused ← (if n_unset st then mret false else has_focus w);
      took ← (if focused : bool then
                (scrolled ← is_type type EMO_TYPE_SCROLLED;
                 if scrolled : bool then scrolled_focusNext (Some w) else mret false)
              else mret false);
      if took : bool then mret (true, mkNext (n_list st ++ [w]) true) else
      when focused (widget_setFocus (Some w) false);;
      let st' := if (focused : bool) then mkNext (n_list st ++ [w]) true else st in
      can ← (if negb (focused : bool) && n_unset st' then can_focus w else mret false);
      if can : bool then widget_setFocus (Some w) true;; mret (true, mkNext (n_list st' ++ [w]) true) else
      cs ← focus_below w type; find_threaded (focusNextR_loop fuel) cs st'
  end.
Definition widget_focusNextR (w : option oloc) (st : next_state) : UM (bool * next_state) :=
  w ← emo_nonnull w; u ← get; focusNextR_loop (ui_fuel u) w st.
Definition widget_focusNext (tree s : option oloc) : UM () :=
  t ← emo_nonnull tree; _ ← emo_nonnull s;
  '(found, st) ← widget_focusNextR (Some t) (mkNext [] false);
  '(_, l) ← (if found : bool then mret (true, n_list st) else widget_focusFirst (Some t) (n_list st));
  mfor (λ w1, dataobject_setIsModified (Some w1) true) l.

Fixpoint focusPrevD_loop (fuel : nat) (w : oloc) : UM (option oloc) :=
  match fuel with
  | O => no_fuel
  | S fuel =>
      type ← getField w EMO_FIELD_TYPE;
      found ← (match type with
               | None => mret None
               | Some _ => cs ← focus_rbelow w type; mfind (focusPrevD_loop fuel) cs
               end);
      match found with
      | Some x => mret (Some x)
      | None =>
          can ← can_focus w;
          if can : bool then widget_setFocus (Some w) true;; mret (Some w) else mret None
      end
  end.
Definition widget_focusPrevD (w : option oloc) : UM (option oloc) :=
  w ← emo_nonnull w; u ← get; focusPrevD_loop (ui_fuel u) w.
Definition focus_if_can (w : oloc) : UM (option oloc) :=
  can ← can_focus w; if can : bool then widget_setFocus (Some w) true;; mret (Some w) else mret None.
Fixpoint focusPrevR_loop (fuel : nat) (old : oloc) : UM (option oloc) :=
  match fuel with
  | O => no_fuel
  | S fuel =>
      o ← obj old;
      match o_parent o with
      | None => mret None
      | Some w =>
          cs ← rchildren_of w;
          match after old cs with
          | None => focusPrevR_loop fuel w
          | Some rest =>
              found ← mfind (λ cw, iw ← widget_focusPrevD (Some cw);
                                   match iw with Some x => mret (Some x) | None => focus_if_can cw end) rest;
              match found with
              | Some x => mret (Some x)
              | None =>
                  here ← focus_if_can w;
                  match here with Some x => mret (Some x) | None => focusPrevR_loop fuel w end
              end
          end
      end
  end.
Definition widget_focusPrevR (old : option oloc) : UM (option oloc) :=
  old ← emo_nonnull old; u ← get; focusPrevR_loop (ui_fuel u) old.
Fixpoint focusLast_loop (fuel : nat) (w : oloc) : UM (option oloc) :=
  match fuel with
  | O => no_fuel
  | S fuel =>
      type ← getField w EMO_FIELD_TYPE;
      cs ← focus_rbelow w type;
      found ← mfind (focusLast_loop fuel) cs;
      match found with Some x => mret (Some x) | None => focus_if_can w end
  end.
Definition widget_focusLast (w : option oloc) : UM (option oloc) :=
  w ← emo_nonnull w; u ← get; focusLast_loop (ui_fuel u) w.

(** The widget with the focus; [unset] takes it away. *)
Fixpoint focused_loop (unset : bool) (fuel : nat) (w : oloc) : UM (option oloc) :=
  match fuel with
  | O => no_fuel
  | S fuel =>
      focused ← has_focus w;
      if focused : bool then when unset (widget_setFocus (Some w) false);; mret (Some w) else
      type ← getField w EMO_FIELD_TYPE;
      cs ← focus_below w type; mfind (focused_loop unset fuel) cs
  end.
Definition widget_focusNoneR (w : option oloc) : UM (option oloc) :=
  w ← emo_nonnull w; u ← get; focused_loop true (ui_fuel u) w.
Definition widget_focusWhichOne (w : option oloc) : UM (option oloc) :=
  w ← emo_nonnull w; u ← get; focused_loop true (ui_fuel u) w.
Definition widget_focusWhichOneNF (w : option oloc) : UM (option oloc) :=
  w ← emo_nonnull w; u ← get; focused_loop false (ui_fuel u) w.
Definition widget_focusNone (w s : option oloc) (doRender : bool) : UM () :=
  w ← emo_nonnull w; _ ← emo_nonnull s;
  dw ← widget_focusNoneR (Some w);
  match dw with Some d => when doRender (dataobject_setIsModified (Some d) true) | None => mret () end.

Definition widget_focusPrev (tree s : option oloc) : UM () :=
  t ← emo_nonnull tree;
  oldW ← widget_focusWhichOne (Some t);
  match oldW with
  | None =>
      newW ← widget_focusLast (Some t);
      match newW with Some n => dataobject_setIsModified (Some n) true | None => mret () end
  | Some old =>
      type ← getField old EMO_FIELD_TYPE;
      scrolled ← is_type type EMO_TYPE_SCROLLED;
      took ← (if scrolled : bool then scrolled_focusPrev (Some old) else mret false);
      if took : bool then
        widget_setFocus (Some old) true;; dataobject_setIsModified (Some old) true
      else
      widget_setFocus (Some old) false;;
      newW ← widget_focusPrevR (Some old);
      newW ← (match newW with Some n => mret (Some n) | None => widget_focusLast (Some t) end);
      dataobject_setIsModified (Some old) true;;
      match newW with Some n => dataobject_setIsModified (Some n) true | None => mret () end
  end.
Definition widget_forceFocus (tree node s : option oloc) : UM () :=
  t ← emo_nonnull tree; n ← emo_nonnull node; _ ← emo_nonnull s;
  widget_focusNone (Some t) s true;;
  widget_setFocus (Some n) true;;
  dataobject_setIsModified (Some n) true.

Fixpoint findStringField_loop (fuel : nat) (key : Z) (value : cstring) (w : oloc) : UM (option oloc) :=
  match fuel with
  | O => no_fuel
  | S fuel =>
      field ← in_world (dataobject_getEnum (Some w) key);
      found ← in_fields (dataobjectfield_isString field (Some value));
      if found : bool then mret (Some w) else
      type ← getField w EMO_FIELD_TYPE;
      cs ← below w type; mfind (findStringField_loop fuel key value) cs
  end.
Definition widget_findStringField (w : option oloc) (key : Z) (value : option cstring) : UM (option oloc) :=
  w ← emo_nonnull w; value ← emo_nonnull value; u ← get; findStringField_loop (ui_fuel u) key value w.
