(* ===== verification/FocusTrees.v ===== *)
(** * Properties of the focus walks

    On a tree of plain widgets (no frames, references, stacks, scrolled widgets or
    arrays) the recursive walks of Focus are walks over the list of the widgets in
    preorder.  From that: what the next and the previous focus are, that at most one
    widget has the focus, and that going forward reaches every widget. *)
From S2P Require Import Prelude Arrays RenderManager Lgui CStrings FieldNames Fields DataObjects ObjectTrees.
From S2P Require Import ObjectFields Ui Modify Focus.

(** ** Plain widgets *)
Definition special_types : list nat :=
  [EMO_TYPE_ARRAY; EMO_TYPE_FRAME; EMO_TYPE_REFERENCE; EMO_TYPE_STACK; EMO_TYPE_SCROLLED].
Definition plain_type (p : str_ptr) : Prop := Forall (λ ty, p ≠ SBuiltin ty) special_types.
Definition locate (w : world) (d : oloc) (e : Z) : option floc :=
  o ← w_objs w !! d; al_find e (o_enumData o).
Abbreviation TYPE := (enum_value EMO_FIELD_TYPE).
Abbreviation CANFOCUS := (enum_value EMO_FIELD_CANFOCUS).
Abbreviation HASFOCUS := (enum_value EMO_FIELD_HASFOCUS).
Definition content (w : world) (f : floc) : option DataObjectField := fh (w_fields w) !! f.
Definition truth (c : DataObjectField) : option Z :=
  match f_value c with
  | DOF_STRING p => (λ s, if bool_decide (s = lit "true"%string ∨ s = lit "1"%string) then 1 else 0) <$> str_content p
  | DOF_INT i => Some i
  | DOF_UINT u => Some (int32 u)
  | DOF_DATA _ _ => Some 0
  end.
Definition type_field (w : world) (d : oloc) : Prop :=
  ∃ f p fl, locate w d TYPE = Some f ∧ content w f = Some (mkField (DOF_STRING p) fl) ∧
    has_flag DOFF_ARRAYSOURCE fl = false ∧ plain_type p.
Definition can_field (w : world) (d : oloc) (b : bool) : Prop :=
  match locate w d CANFOCUS with
  | None => b = false
  | Some f => ∃ c z, content w f = Some c ∧ array_source c = false ∧ truth c = Some z ∧ b = negb (z =? 0)
  end.
Definition focus_field (w : world) (d : oloc) (b : bool) : Prop :=
  match locate w d HASFOCUS with
  | None => b = false
  | Some f => ∃ i fl, content w f = Some (mkField (DOF_INT i) fl) ∧ b = negb (i =? 0)
  end.
Record widget (w : world) (can foc : oloc → bool) (d : oloc) : Prop := {
  wd_obj : ∃ o, w_objs w !! d = Some o ∧ o_arrayChildren o = [] ∧ o_referenced o = [];
  wd_type : type_field w d;
  wd_can : can_field w d (can d);
  wd_foc : focus_field w d (foc d) }.
Record widgets (w : world) (T : tree) (can foc : oloc → bool) : Prop := {
  ws_tree : tree_in w T;
  ws_wf : wf w;
  ws_all : ∀ d, d ∈ preorder T → widget w can foc d;
  (* the focus field of a widget is no other field *)
  ws_own : ∀ d f x e, d ∈ preorder T → x ∈ preorder T → locate w d HASFOCUS = Some f →
    locate w x e = Some f → x = d ∧ e = HASFOCUS;
  ws_alloc : ∀ x e f, x ∈ preorder T → locate w x e = Some f → is_Some (content w f) }.

(** ** Reading *)
Lemma in_world_ok {B} (m : DM B) u b w : m (u_world u) = Ok (b, w) → in_world m u = Ok (b, set_world w u).
Proof. unfold in_world. by intros ->. Qed.
Lemma set_world_same u : set_world (u_world u) u = u.
Proof. by destruct u. Qed.
Lemma in_world_pure {B} (m : DM B) u b : m (u_world u) = Ok (b, u_world u) → in_world m u = Ok (b, u).
Proof. intros E. by rewrite (in_world_ok _ _ _ _ E), set_world_same. Qed.
Lemma obj_ok u d o : w_objs (u_world u) !! d = Some o → obj d u = Ok (o, u).
Proof. intros Ho. by apply in_world_pure, get_obj_ok. Qed.
Lemma in_fields_pure {B} (m : FM B) u b :
  m (w_fields (u_world u)) = Ok (b, w_fields (u_world u)) → in_fields m u = Ok (b, u).
Proof. intros E. by apply in_world_pure, on_fields_pure. Qed.
Lemma locate_obj w d e f : locate w d e = Some f → ∃ o, w_objs w !! d = Some o ∧ al_find e (o_enumData o) = Some f.
Proof. unfold locate. intros H. destruct (w_objs w !! d) as [o|]; [by exists o|done]. Qed.
Lemma getField_some u d e f c :
  enum_value e ≠ -1 → locate (u_world u) d (enum_value e) = Some f → content (u_world u) f = Some c → array_source c = false →
  getField d e u = Ok (Some f, u).
Proof.
  intros He Hl Hc Hs. destruct (locate_obj _ _ _ _ Hl) as (o & Ho & Hf).
  by apply in_world_pure, (getEnum_plain _ d o _ f c).
Qed.
Lemma getField_none u d o e :
  enum_value e ≠ -1 → w_objs (u_world u) !! d = Some o → locate (u_world u) d (enum_value e) = None →
  getField d e u = Ok (None, u).
Proof.
  intros He Ho Hl. apply in_world_pure. unfold dataobject_getEnum. erewrite bind_Ok by reflexivity.
  destruct (Z.eqb_spec (enum_value e) (-1)); [done|]. erewrite bind_Ok by reflexivity.
  run_with (get_obj_ok (u_world u) d o Ho). unfold locate in Hl. rewrite Ho in Hl. simpl in Hl. by rewrite Hl.
Qed.
Lemma get_field_ok u f c : content (u_world u) f = Some c → in_fields (get_field f) u = Ok (c, u).
Proof. intros Hc. apply in_fields_pure. unfold get_field. unfold content in Hc. by rewrite Hc. Qed.
Lemma is_type_ok u f p fl ty :
  content (u_world u) f = Some (mkField (DOF_STRING p) fl) →
  is_type (Some f) ty u = Ok (bool_decide (p = SBuiltin ty), u).
Proof.
  intros Hc. apply in_fields_pure. unfold EMO_DOF_IS_TYPE. erewrite bind_Ok by reflexivity.
  unfold get_field. unfold content in Hc. by erewrite bind_Ok by by rewrite Hc.
Qed.
Lemma isTrue_ok u f c z :
  content (u_world u) f = Some c → truth c = Some z → in_fields (dataobjectfield_isTrue (Some f)) u = Ok (z, u).
Proof.
  intros Hc Ht. apply in_fields_pure. unfold dataobjectfield_isTrue, get_field. unfold content in Hc.
  erewrite bind_Ok by by rewrite Hc. unfold truth in Ht. destruct (f_value c) as [p| |i|u']; try by injection Ht as <-.
  destruct (str_content p); [|done]. injection Ht as <-. by erewrite bind_Ok by reflexivity.
Qed.
Lemma can_focus_ok u d can foc : widget (u_world u) can foc d → can_focus d u = Ok (can d, u).
Proof.
  intros [(o & Ho & _) _ Hc _]. unfold can_focus, widget_canFocus, can_field in *.
  destruct (locate _ _ _) as [f|] eqn:Hl.
  - destruct Hc as (c & z & Hc & Hs & Ht & ->).
    erewrite (bind_Ok _ _ _ z); [reflexivity|]. erewrite bind_Ok by reflexivity.
    rewrite (bind_Ok _ _ _ _ _ (getField_some u d EMO_FIELD_CANFOCUS f c ltac:(done) Hl Hc Hs)). by eapply isTrue_ok.
  - rewrite Hc. erewrite (bind_Ok _ _ _ 0); [reflexivity|]. erewrite bind_Ok by reflexivity.
    rewrite (bind_Ok _ _ _ _ _ (getField_none u d o EMO_FIELD_CANFOCUS ltac:(done) Ho Hl)). by apply in_fields_pure.
Qed.
Lemma getFieldAsInt_ok u d e r : getField d e u = Ok (r, u) →
  (match r with Some f => ∃ i fl, content (u_world u) f = Some (mkField (DOF_INT i) fl) | None => True end) →
  getFieldAsInt d e u = Ok (r, u).
Proof.
  intros E Hr. unfold getFieldAsInt. apply in_world_pure. unfold dataobject_getEnumAsInt.
  unfold getField, in_world in E. destruct (dataobject_getEnum _ _ _) as [[r' w']| | |] eqn:E'; try done.
  injection E as -> E. erewrite bind_Ok by exact E'.
  assert (w' = u_world u) as -> by (by destruct u; injection E).
  apply on_fields_pure. destruct r as [f|]; [|done]. destruct Hr as (i & fl & Hi). unfold content in Hi.
  unfold field_as_int, get_field. by erewrite bind_Ok by by rewrite Hi.
Qed.
Lemma has_focus_ok u d can foc : widget (u_world u) can foc d → has_focus d u = Ok (foc d, u).
Proof.
  intros [(o & Ho & _) _ _ Hc]. unfold has_focus, widget_hasFocus, focus_field in *.
  destruct (locate _ _ _) as [f|] eqn:Hl.
  - destruct Hc as (i & fl & Hc & ->). erewrite (bind_Ok _ _ _ i); [reflexivity|].
    erewrite bind_Ok by reflexivity. erewrite bind_Ok.
    2:{ apply getFieldAsInt_ok; [exact (getField_some u d EMO_FIELD_HASFOCUS f _ ltac:(done) Hl Hc eq_refl)|]. by exists i, fl. }
    apply in_fields_pure. unfold get_integer, get_field. unfold content in Hc. by erewrite bind_Ok by by rewrite Hc.
  - rewrite Hc. erewrite (bind_Ok _ _ _ 0); [reflexivity|]. erewrite bind_Ok by reflexivity.
    erewrite bind_Ok; [|apply getFieldAsInt_ok; [by eapply getField_none|done]]. done.
Qed.

(** What lies below a plain widget is its children. *)
Lemma type_ok u d can foc : widget (u_world u) can foc d →
  ∃ f p, getField d EMO_FIELD_TYPE u = Ok (Some f, u) ∧ locate (u_world u) d TYPE = Some f ∧ plain_type p ∧
    ∀ ty, is_type (Some f) ty u = Ok (bool_decide (p = SBuiltin ty), u).
Proof.
  intros [_ (f & p & fl & Hl & Hc & Hfl & Hp) _ _]. exists f, p.
  split; [exact (getField_some u d EMO_FIELD_TYPE f _ ltac:(done) Hl Hc Hfl)|]. split; [done|]. split; [done|]. intros ty. by eapply is_type_ok.
Qed.
Lemma plain_ne p ty : plain_type p → ty ∈ special_types → bool_decide (p = SBuiltin ty) = false.
Proof. intros H Hty. apply bool_decide_false. unfold plain_type in H. rewrite Forall_forall in H. by apply H. Qed.
Ltac plain := erewrite plain_ne by first [eassumption | unfold special_types; set_solver].

(** ** Setting the focus *)
Definition focus_set (foc : oloc → bool) (d : oloc) (b : bool) : oloc → bool :=
  λ x, if decide (x = d) then b else foc x.
(** The other fields stay where they are. *)
Definition kept (T : tree) (w w' : world) : Prop :=
  ∀ x e, x ∈ preorder T → e ≠ HASFOCUS → locate w' x e = locate w x e.
Lemma widgets_changed w w' T can foc d fd i fl :
  widgets w T can foc → d ∈ preorder T → tree_in w' T → wf w' →
  (∀ x o, x ∈ preorder T → w_objs w !! x = Some o → ∃ o', w_objs w' !! x = Some o' ∧
     o_arrayChildren o' = o_arrayChildren o ∧ o_referenced o' = o_referenced o) →
  (∀ x e, x ∈ preorder T → locate w' x e = if decide (x = d ∧ e = HASFOCUS) then Some fd else locate w x e) →
  (∀ g, content w' g = if decide (g = fd) then Some (mkField (DOF_INT i) fl) else content w g) →
  (∀ x e, x ∈ preorder T → locate w x e = Some fd → x = d ∧ e = HASFOCUS) →
  widgets w' T can (focus_set foc d (negb (i =? 0))) ∧ kept T w w'.
Proof.
  intros [HT _ Hall Hown Halloc] Hd HT' Hwf' Hobj HL HC HF.
  assert (∀ x e f, x ∈ preorder T → e ≠ HASFOCUS → locate w x e = Some f → content w' f = content w f) as Hsame.
  { intros x e f Hx He Hf. rewrite HC, decide_False; [done|]. intros ->. by destruct (HF x e Hx Hf). }
  split.
  2:{ intros x e Hx He. rewrite HL by done. rewrite decide_False; [done|]. by intros [_ ?]. }
  split; [done|done| | |].
  - intros x Hx. destruct (Hall x Hx) as [(o & Ho & Ha & Hr) (f & p & ofl & Hl & Hc & Hfl & Hp) Hcan Hfoc]. split.
    + destruct (Hobj x o Hx Ho) as (o' & ? & ? & ?). exists o'. split_and!; congruence.
    + exists f, p, ofl. rewrite HL, decide_False by (done || (intros [_ E]; vm_compute in E; discriminate E)). rewrite (Hsame x TYPE f) by done. done.
    + unfold can_field in *. rewrite HL, decide_False by (done || (intros [_ E]; vm_compute in E; discriminate E)).
      destruct (locate w x CANFOCUS) as [g|] eqn:Hg; [|done]. by rewrite (Hsame x CANFOCUS g).
    + unfold focus_field, focus_set in *. rewrite HL by done. destruct (decide (x = d)) as [->|Hne].
      * rewrite decide_True by done. exists i, fl. by rewrite HC, decide_True.
      * rewrite decide_False by tauto. destruct (locate w x HASFOCUS) as [g|] eqn:Hg; [|done].
        rewrite HC, decide_False; [done|]. intros ->. by destruct (HF x _ Hx Hg).
  - intros a f x e Ha Hx Hf He. rewrite HL in Hf, He by done.
    destruct (decide (a = d ∧ _)) as [[-> _]|Hna]; destruct (decide (x = d ∧ e = _)) as [[-> ->]|Hnx]; simplify_eq; try done.
    + by apply HF.
    + exfalso. destruct (HF a HASFOCUS Ha Hf) as [-> _]. by apply Hna.
    + by apply (Hown a f).
  - intros x e f Hx He. rewrite HL in He by done. rewrite HC. destruct (decide (f = fd)) as [|Hne]; [by eexists|].
    destruct (decide (x = d ∧ e = _)); [by injection He as <-|]. by eapply Halloc.
Qed.

Lemma setEnum_append w d o e v :
  w_objs w !! d = Some o → 0 < e → e ≠ TYPE → al_find e (o_enumData o) = None →
  dataobject_setEnum (Some d) e (Some v) w =
    Ok ((), mkWorld (<[d := with_enumData (al_append e v (o_enumData o)) o]> (w_objs w)) (w_brk w) (w_fields w)).
Proof.
  intros Ho He Hty Hnone. unfold dataobject_setEnum. erewrite bind_Ok by reflexivity.
  destruct (Z.eqb_spec e (-1)); [lia|]. do 2 erewrite bind_Ok by reflexivity. unfold enum_key.
  destruct (Z.eqb_spec e 0); [lia|]. erewrite bind_Ok by reflexivity.
  run_with (get_obj_ok w d o Ho). cbv zeta. rewrite Hnone. rewrite bool_decide_false by done.
  erewrite bind_Ok by reflexivity. destruct (Z.eqb_spec e TYPE); [done|]. cbn [when].
  erewrite bind_Ok by reflexivity. by rewrite (upd_obj_ok _ d o).
Qed.
Lemma put_focus_ok u T can foc d i :
  widgets (u_world u) T can foc → d ∈ preorder T →
  ∃ w', put_field d EMO_FIELD_HASFOCUS i u = Ok ((), set_world w' u) ∧
    widgets w' T can (focus_set foc d (negb (i =? 0))) ∧ kept T (u_world u) w'.
Proof.
  intros HW Hd. pose proof HW as [HT [Wo Wf] Hall Hown Halloc]. destruct (Hall d Hd) as [(o & Ho & Ha & Hr) _ _ Hfoc].
  unfold put_field. unfold focus_field in Hfoc. destruct (locate (u_world u) d HASFOCUS) as [f|] eqn:Hl.
  - destruct Hfoc as (i0 & fl & Hc & _).
    rewrite (bind_Ok _ _ _ _ _ (getField_some u d EMO_FIELD_HASFOCUS f _ ltac:(done) Hl Hc eq_refl)).
    set (h := w_fields (u_world u)) in *.
    exists (mkWorld (w_objs (u_world u)) (w_brk (u_world u)) (mkFH (<[f := mkField (DOF_INT i) fl]> (fh h)) (fh_brk h))).
    split.
    + apply in_world_ok, on_fields_ok. unfold set_integer, get_field. fold h. unfold content in Hc. fold h in Hc.
      erewrite bind_Ok by by rewrite Hc. cbn [f_value f_flags]. erewrite bind_Ok by reflexivity.
      unfold set_field. by rewrite Hc.
    + apply (widgets_changed (u_world u) _ T can foc d f i fl); try done.
      * split; [done|]. cbn [w_fields fh fh_brk]. intros g Hg. rewrite lookup_insert_ne; [by apply Wf|].
        intros <-. unfold content in Hc. fold h in Hc. by rewrite (Wf f Hg) in Hc.
      * intros x ox Hx Hox. by exists ox.
      * intros x e Hx. case_decide as Hxe; [|done]. destruct Hxe as [-> ->]. exact Hl.
      * intros g. unfold content. cbn [w_fields fh]. case_decide as Hg; [by rewrite Hg, lookup_insert_eq|].
        by rewrite lookup_insert_ne.
      * intros x e Hx He. by apply (Hown d f).
  - rewrite (bind_Ok _ _ _ _ _ (getField_none u d o EMO_FIELD_HASFOCUS ltac:(done) Ho Hl)).
    unfold locate in Hl. rewrite Ho in Hl. cbn in Hl.
    set (h := w_fields (u_world u)) in *. set (v := fh_brk h).
    set (w1 := mkWorld (w_objs (u_world u)) (w_brk (u_world u))
      (mkFH (<[v := mkField (DOF_INT i) 0]> (fh h)) (Pos.succ v))).
    erewrite (bind_Ok _ _ _ v (set_world w1 u)) by (apply in_world_ok; reflexivity).
    eexists. split; [unfold setField; erewrite in_world_ok by (by apply setEnum_append); by destruct u|].
    assert (fh h !! v = None) as Hv by (apply Wf; unfold v; lia).
    assert (∀ x e, x ∈ preorder T → locate (u_world u) x e = Some v → False) as Hfresh.
    { intros x e Hx He. destruct (Halloc x e v Hx He) as [c Hc]. unfold content in Hc. fold h in Hc. congruence. }
    apply (widgets_changed (u_world u) _ T can foc d v i 0); try done.
    + destruct HT as (HR & ? & ?). split; [|done]. by eapply rep_links.
    + split; cbn [w_objs w_brk w_fields fh fh_brk w1 set_world u_world].
      * intros x Hx. rewrite lookup_insert_ne; [by apply Wo|]. intros ->. rewrite Wo in Ho; done.
      * intros g Hg. rewrite lookup_insert_ne by lia. apply Wf. unfold v in *. fold h. lia.
    + intros x ox Hx Hox. cbn [w_objs w1 set_world u_world]. destruct (decide (x = d)) as [->|?].
      * rewrite lookup_insert_eq. eexists. split; [done|]. by simplify_eq.
      * rewrite lookup_insert_ne by done. by exists ox.
    + intros x e Hx. unfold locate. cbn [w_objs w1 set_world u_world]. destruct (decide (x = d)) as [->|?].
      * rewrite lookup_insert_eq, Ho. cbn. rewrite al_find_append. repeat case_decide; naive_solver.
      * rewrite lookup_insert_ne by done. by rewrite decide_False by tauto.
    + intros g. unfold content. cbn [w_fields fh w1 set_world u_world]. case_decide as Hg; [by rewrite Hg, lookup_insert_eq|].
      by rewrite lookup_insert_ne.
    + intros x e Hx He. by destruct (Hfresh x e Hx He).
Qed.

(** Nothing above a plain widget scrolls. *)
Lemma no_scrolled_above u can foc ctx t fuel :
  rep (w_objs (u_world u)) None (plug ctx t) →
  (∀ d, d ∈ preorder (plug ctx t) → widget (u_world u) can foc d) → (length ctx < fuel)%nat →
  findStringFieldParent_loop fuel TYPE (SBuiltin EMO_TYPE_SCROLLED) (root t) u = Ok (None, u).
Proof.
  revert t fuel; induction ctx as [|f ctx IH]; intros t [|fuel] HR Hall Hf; try (simpl in Hf; lia).
  - destruct (rep_obj _ _ _ HR) as (o & ts & _ & Ho & Hp & _).
    destruct (type_ok u (root t) can foc) as (tf & p & E & _ & Hpl & Hty); [apply Hall, root_in|].
    cbn [findStringFieldParent_loop]. run_with E. cbn [andb Z.eqb]. rewrite Z.eqb_refl. cbn [andb].
    rewrite (bind_Ok _ _ _ _ _ (Hty EMO_TYPE_SCROLLED)). plain.
    run_with (obj_ok u _ _ Ho). by rewrite Hp.
  - pose proof (rep_plug _ (f :: ctx) t _ HR) as Ht. destruct (rep_obj _ _ _ Ht) as (o & ts & _ & Ho & Hp & _).
    destruct (type_ok u (root t) can foc) as (tf & p & E & _ & Hpl & Hty).
    { apply Hall. rewrite preorder_plug_eq. apply elem_of_app. right. apply elem_of_app. left. apply root_in. }
    cbn [findStringFieldParent_loop]. run_with E. rewrite Z.eqb_refl. cbn [andb].
    rewrite (bind_Ok _ _ _ _ _ (Hty EMO_TYPE_SCROLLED)). plain.
    run_with (obj_ok u _ _ Ho). rewrite Hp. cbn [parent_of]. apply (IH (plug1 t f)); [done|done|simpl in Hf; lia].
Qed.
Lemma setFocus_ok u T can foc d b :
  widgets (u_world u) T can foc → d ∈ preorder T →
  ∃ w', widget_setFocus (Some d) b u = Ok ((), set_world w' u) ∧ widgets w' T can (focus_set foc d b) ∧
    kept T (u_world u) w'.
Proof.
  intros HW Hd. destruct (put_focus_ok u T can foc d (if b then 1 else 0) HW Hd) as (w' & E & HW' & HK).
  exists w'. replace (negb ((if b then 1 else 0) =? 0)) with b in HW' by by destruct b.
  split; [|done]. unfold widget_setFocus. erewrite bind_Ok by reflexivity. run_with E.
  destruct b; [|done]. cbn [when]. unfold scrolled_forceVisible, widget_findStringFieldParent.
  erewrite bind_Ok by reflexivity.
  destruct (zipper T d Hd) as (ctx & ts & ->). pose proof HW' as [(HR & N & _) _ Hall _ _].
  pose proof (preorder_fuel w' _ _ HR N). pose proof (plug_length ctx (Node d ts)). pose proof (preorder_pos (Node d ts)).
  erewrite (bind_Ok _ _ _ None); [reflexivity|]. do 3 erewrite bind_Ok by reflexivity.
  eapply (no_scrolled_above (set_world w' u) can _ ctx (Node d ts)); [done|done|].
  unfold ui_fuel. cbn [u_world set_world]. lia.
Qed.
Lemma focus_if_can_ok u T can foc d :
  widgets (u_world u) T can foc → d ∈ preorder T →
  if can d then ∃ w', focus_if_can d u = Ok (Some d, set_world w' u) ∧ widgets w' T can (focus_set foc d true)
  else focus_if_can d u = Ok (None, u).
Proof.
  intros HW Hd. unfold focus_if_can. rewrite (bind_Ok _ _ _ _ _ (can_focus_ok u d can foc (ws_all _ _ _ _ HW d Hd))).
  destruct (can d); [|done]. destruct (setFocus_ok u T can foc d true HW Hd) as (w' & E & HW' & _).
  exists w'. split; [by run_with E|done].
Qed.

(** ** Walks over a tree are walks over its preorder *)
Lemma forest_length t ts : t ∈ ts → (length (preorder t) ≤ length (forest ts))%nat.
Proof. induction 1 as [t ts|t t' ts _ IH]; unfold forest in *; simpl; rewrite length_app; lia. Qed.
Section Walk.
Context (u : ui) (f : oloc → UM (option oloc)) (p : oloc → bool) (rec : nat → oloc → UM (option oloc)).
Definition first_of (L : list oloc) : outcome (option oloc * ui) :=
  match List.find p L with Some x => f x u | None => Ok (None, u) end.
Context (L : list oloc) (Hhit : ∀ d, d ∈ L → p d = true → ∃ r u', f d u = Ok (Some r, u')).

Lemma find_app L1 L2 : List.find p (L1 ++ L2) = match List.find p L1 with Some x => Some x | None => List.find p L2 end.
Proof. induction L1 as [|x L1 IH]; [done|]. simpl. by destruct (p x). Qed.
Lemma find_in L1 x : List.find p L1 = Some x → x ∈ L1 ∧ p x = true.
Proof. intros H. apply find_some in H as [Hx ?]. split; [by apply list_elem_of_In|done]. Qed.
Lemma mfind_first_of ts fuel :
  Forall (λ t, rec fuel (root t) u = first_of (preorder t)) ts → forest ts ⊆ L →
  mfind (rec fuel) (map root ts) u = first_of (forest ts).
Proof.
  induction 1 as [|t ts Ht Hts IH]; intros Hsub; [done|]. unfold forest in *. simpl in *.
  assert (preorder t ⊆ L) as Ht' by set_solver. unfold first_of in *. rewrite find_app.
  destruct (List.find p (preorder t)) as [x|] eqn:Hx.
  - destruct (find_in _ _ Hx) as [Hin Hp]. destruct (Hhit x (Ht' x Hin) Hp) as (r & u' & E).
    rewrite E. rewrite E in Ht. by rewrite (bind_Ok _ _ _ _ _ Ht).
  - rewrite (bind_Ok _ _ _ _ _ Ht). apply IH. set_solver.
Qed.
Lemma mfind_first_of_rev ts fuel :
  Forall (λ t, rec fuel (root t) u = first_of (reverse (preorder t))) ts → forest ts ⊆ L →
  mfind (rec fuel) (reverse (map root ts)) u = first_of (reverse (forest ts)).
Proof.
  induction ts as [|t ts IH] using rev_ind; intros HF Hsub; [done|].
  apply Forall_app in HF as [HF [Ht _]%Forall_cons]. rewrite forest_app in *.
  rewrite map_app, !reverse_app. unfold forest at 1. cbn [map concat reverse]. simpl. rewrite app_nil_r.
  assert (preorder t ⊆ L) as Ht' by (unfold forest in Hsub; simpl in Hsub; set_solver).
  unfold first_of in *. rewrite find_app.
  destruct (List.find p (reverse (preorder t))) as [x|] eqn:Hx.
  - destruct (find_in _ _ Hx) as [Hin Hp]. rewrite elem_of_reverse in Hin. destruct (Hhit x (Ht' x Hin) Hp) as (r & u' & E).
    rewrite E. rewrite E in Ht. by rewrite (bind_Ok _ _ _ _ _ Ht).
  - rewrite (bind_Ok _ _ _ _ _ Ht). apply IH; [done|set_solver].
Qed.
Context (kids : oloc → list oloc) (Hkids : ∀ d o, w_objs (u_world u) !! d = Some o → kids d = o_children o).
Lemma walk_preorder q t fuel :
  (∀ n d, d ∈ L → rec (S n) d u = if p d then f d u else mfind (rec n) (kids d) u) →
  rep (w_objs (u_world u)) q t → preorder t ⊆ L → (length (preorder t) ≤ fuel)%nat →
  rec fuel (root t) u = first_of (preorder t).
Proof.
  intros Hstep. revert q fuel. induction t as [l ts IH] using tree_ind'. intros q fuel HR Hsub Hf.
  inversion HR as [? ? ? o Ho _ Hc Hts]; subst. destruct fuel as [|fuel]; [simpl in Hf; lia|].
  cbn [root preorder] in *. fold (forest ts) in *. rewrite Hstep by set_solver.
  unfold first_of. cbn [List.find]. destruct (p l) eqn:Hp; [done|]. fold (first_of (forest ts)).
  rewrite (Hkids l o Ho), Hc. apply mfind_first_of; [|set_solver].
  apply Forall_forall. intros t Ht. rewrite Forall_forall in IH, Hts.
  assert (preorder t ⊆ forest ts) by (intros x Hx; by eapply in_forest).
  eapply IH; [done|by apply Hts|set_solver|]. cbn [length] in Hf.
  pose proof (forest_length _ _ Ht). lia.
Qed.
Lemma walk_rpreorder q t fuel :
  (∀ n d, d ∈ L → rec (S n) d u = (r ← mfind (rec n) (reverse (kids d)); match r with Some x => mret (Some x) | None => f d end) u) →
  (∀ d, d ∈ L → p d = false → f d u = Ok (None, u)) →
  rep (w_objs (u_world u)) q t → preorder t ⊆ L → (length (preorder t) ≤ fuel)%nat →
  rec fuel (root t) u = first_of (reverse (preorder t)).
Proof.
  intros Hstep Hmiss. revert q fuel. induction t as [l ts IH] using tree_ind'. intros q fuel HR Hsub Hf.
  inversion HR as [? ? ? o Ho _ Hc Hts]; subst. destruct fuel as [|fuel]; [simpl in Hf; lia|].
  cbn [root preorder] in *. fold (forest ts) in *. rewrite Hstep by set_solver.
  rewrite reverse_cons. unfold first_of. rewrite find_app. rewrite (Hkids l o Ho), Hc.
  assert (mfind (rec fuel) (reverse (map root ts)) u = first_of (reverse (forest ts))) as E.
  { apply mfind_first_of_rev; [|set_solver]. apply Forall_forall. intros t Ht. rewrite Forall_forall in IH, Hts.
    assert (preorder t ⊆ forest ts) by (intros x Hx; by eapply in_forest).
    eapply IH; [done|by apply Hts|set_solver|]. cbn [length] in Hf.
    pose proof (forest_length _ _ Ht). lia. }
  unfold first_of in E. destruct (List.find p (reverse (forest ts))) as [x|] eqn:Hx.
  - destruct (find_in _ _ Hx) as [Hin Hp]. rewrite elem_of_reverse in Hin. destruct (Hhit x ltac:(set_solver) Hp) as (r & u' & E').
    rewrite E' in E |- *. by rewrite (bind_Ok _ _ _ _ _ E).
  - rewrite (bind_Ok _ _ _ _ _ E). cbn [List.find]. destruct (p l) eqn:Hp; [done|]. apply Hmiss; [set_solver|done].
Qed.
End Walk.

(** ** What lies below a plain widget *)
Definition kids (w : world) (d : oloc) : list oloc := default [] (o_children <$> w_objs w !! d).
Lemma kids_obj w d o : w_objs w !! d = Some o → kids w d = o_children o.
Proof. unfold kids. by intros ->. Qed.
Lemma kids_in w T d : tree_in w T → d ∈ preorder T → kids w d ⊆ preorder T.
Proof.
  intros (HR & _ & _) Hd. destruct (zipper T d Hd) as (ctx & ts & ->).
  destruct (rep_obj _ _ _ (rep_plug _ ctx _ _ HR)) as (o & ts' & [= <-] & Ho & _ & Hc). cbn [root] in Ho.
  rewrite (kids_obj w d o Ho), Hc. intros x (t & -> & Ht)%list_elem_of_fmap.
  rewrite preorder_plug_eq. apply elem_of_app. right. apply elem_of_app. left. cbn [preorder].
  apply list_elem_of_further. by apply (in_forest_root t ts).
Qed.
Section Below.
Context (u : ui) (T : tree) (can foc : oloc → bool) (HW : widgets (u_world u) T can foc).

Lemma children_ok d : d ∈ preorder T → children_of d u = Ok (kids (u_world u) d, u).
Proof.
  intros Hd. pose proof (kids_in _ _ d (ws_tree _ _ _ _ HW) Hd) as Hin.
  destruct (ws_all _ _ _ _ HW d Hd) as [(o & Ho & _) _ _ _]. rewrite (kids_obj _ d o Ho) in *.
  unfold children_of. apply in_world_pure. unfold dataobject_childIterator. erewrite bind_Ok by reflexivity.
  run_with (get_obj_ok (u_world u) d o Ho). destruct (o_children o) as [|c cs]; [done|].
  destruct (type_ok u c can foc) as (f & p & E & _ & Hp & Hty); [apply (ws_all _ _ _ _ HW); set_solver|].
  unfold getField, in_world in E. destruct (dataobject_getEnum _ _ _) as [[r w]| | |] eqn:E'; try done.
  injection E as -> E. assert (w = u_world u) as -> by (by destruct u; injection E).
  erewrite bind_Ok by exact E'. specialize (Hty EMO_TYPE_ARRAY). erewrite plain_ne in Hty; [|done|unfold special_types; set_solver].
  unfold is_type, in_fields, in_world in Hty. destruct (on_fields _ _) as [[b w]| | |] eqn:E2; try done.
  injection Hty as -> E3. assert (w = u_world u) as -> by (by destruct u; injection E3).
  by erewrite bind_Ok by exact E2.
Qed.
Lemma rchildren_ok d : d ∈ preorder T → rchildren_of d u = Ok (reverse (kids (u_world u) d), u).
Proof.
  intros Hd. pose proof (kids_in _ _ d (ws_tree _ _ _ _ HW) Hd) as Hin.
  destruct (ws_all _ _ _ _ HW d Hd) as [(o & Ho & _) _ _ _]. rewrite (kids_obj _ d o Ho) in *.
  unfold rchildren_of. apply in_world_pure. unfold dataobject_rchildIterator. erewrite bind_Ok by reflexivity.
  run_with (get_obj_ok (u_world u) d o Ho). destruct (reverse (o_children o)) as [|c cs] eqn:Er; [done|].
  assert (c ∈ preorder T) as Hc.
  { apply Hin. rewrite <-elem_of_reverse, Er. apply list_elem_of_here. }
  destruct (ws_all _ _ _ _ HW c Hc) as [(oc & Hoc & Ha & _) _ _ _].
  run_with (get_obj_ok (u_world u) c oc Hoc). by rewrite Ha.
Qed.
Lemma focus_below_ok d : d ∈ preorder T →
  ∃ f, getField d EMO_FIELD_TYPE u = Ok (Some f, u) ∧ locate (u_world u) d TYPE = Some f ∧
    (∀ ty, ty ∈ special_types → is_type (Some f) ty u = Ok (false, u)) ∧
    focus_below d (Some f) u = Ok (kids (u_world u) d, u) ∧
    focus_rbelow d (Some f) u = Ok (reverse (kids (u_world u) d), u) ∧
    below d (Some f) u = Ok (kids (u_world u) d, u).
Proof.
  intros Hd. destruct (type_ok u d can foc (ws_all _ _ _ _ HW d Hd)) as (f & p & E & Hl & Hp & Hty).
  assert (∀ ty, ty ∈ special_types → is_type (Some f) ty u = Ok (false, u)) as Hno.
  { intros ty Hin. by rewrite Hty, (plain_ne p ty Hp Hin). }
  exists f. do 3 (split; [done|]).
  unfold focus_below, focus_rbelow, below.
  split; [|split];
    rewrite (bind_Ok _ _ _ _ _ (Hno EMO_TYPE_FRAME ltac:(unfold special_types; set_solver)));
    rewrite (bind_Ok _ _ _ _ _ (Hno EMO_TYPE_REFERENCE ltac:(unfold special_types; set_solver)));
    rewrite ?(bind_Ok _ _ _ _ _ (Hno EMO_TYPE_STACK ltac:(unfold special_types; set_solver)));
    first [by apply children_ok | by apply rchildren_ok].
Qed.

Lemma tree_fuel : (length (preorder T) ≤ ui_fuel u)%nat.
Proof. pose proof (ws_tree _ _ _ _ HW) as (HR & N & _). pose proof (preorder_fuel _ _ _ HR N). unfold ui_fuel. lia. Qed.
Lemma can_hit d : d ∈ preorder T → can d = true → ∃ r u', focus_if_can d u = Ok (Some r, u').
Proof.
  intros Hd Hc. pose proof (focus_if_can_ok u T can foc d HW Hd) as H. rewrite Hc in H.
  destruct H as (w' & E & _). by eexists _, _.
Qed.
Lemma can_miss d : d ∈ preorder T → can d = false → focus_if_can d u = Ok (None, u).
Proof. intros Hd Hc. pose proof (focus_if_can_ok u T can foc d HW Hd) as H. by rewrite Hc in H. Qed.

(** The walks, on the whole tree or a part of it. *)
Lemma focusFirst_walk q t : rep (w_objs (u_world u)) q t → preorder t ⊆ preorder T →
  (length (preorder t) ≤ ui_fuel u)%nat →
  focusFirst_loop (ui_fuel u) (root t) u = first_of u focus_if_can can (preorder t).
Proof.
  intros HR Hsub Hf. apply (walk_preorder u focus_if_can can focusFirst_loop (preorder T) can_hit (kids (u_world u))
    (kids_obj (u_world u)) q t); [|done..].
  intros n d Hd. destruct (focus_below_ok d Hd) as (f & E & _ & _ & Hb & _). cbn [focusFirst_loop]. unfold focus_if_can.
  rewrite !(bind_Ok _ _ _ _ _ (can_focus_ok u d can foc (ws_all _ _ _ _ HW d Hd))).
  destruct (can d); [done|]. run_with E. by run_with Hb.
Qed.
Lemma focusLast_walk q t : rep (w_objs (u_world u)) q t → preorder t ⊆ preorder T →
  (length (preorder t) ≤ ui_fuel u)%nat →
  focusLast_loop (ui_fuel u) (root t) u = first_of u focus_if_can can (reverse (preorder t)) ∧
  focusPrevD_loop (ui_fuel u) (root t) u = first_of u focus_if_can can (reverse (preorder t)).
Proof.
  intros HR Hsub Hf.
  split; [apply (walk_rpreorder u focus_if_can can focusLast_loop (preorder T) can_hit (kids (u_world u))
    (kids_obj (u_world u)) q t)|apply (walk_rpreorder u focus_if_can can focusPrevD_loop (preorder T) can_hit (kids (u_world u))
    (kids_obj (u_world u)) q t)]; try done; try exact can_miss; intros n d Hd;
    destruct (focus_below_ok d Hd) as (f & E & _ & _ & _ & Hb & _); cbn [focusLast_loop focusPrevD_loop]; run_with E.
  - by run_with Hb.
  - cbv beta iota. rewrite bind_assoc. by run_with Hb.
Qed.
Definition take_focus (unset : bool) (d : oloc) : UM (option oloc) :=
  focused ← has_focus d;
  if focused : bool then when unset (widget_setFocus (Some d) false);; mret (Some d) else mret None.
Lemma take_focus_ok unset d : d ∈ preorder T →
  if foc d then ∃ w', take_focus unset d u = Ok (Some d, set_world w' u) ∧
    widgets w' T can (if unset then focus_set foc d false else foc)
  else take_focus unset d u = Ok (None, u).
Proof.
  intros Hd. unfold take_focus. rewrite (bind_Ok _ _ _ _ _ (has_focus_ok u d can foc (ws_all _ _ _ _ HW d Hd))).
  destruct (foc d); [|done]. destruct unset.
  - destruct (setFocus_ok u T can foc d false HW Hd) as (w' & E & HW' & _). exists w'. by run_with E.
  - exists (u_world u). by rewrite set_world_same.
Qed.
Lemma focused_walk unset q t : rep (w_objs (u_world u)) q t → preorder t ⊆ preorder T →
  (length (preorder t) ≤ ui_fuel u)%nat →
  focused_loop unset (ui_fuel u) (root t) u = first_of u (take_focus unset) foc (preorder t).
Proof.
  intros HR Hsub Hf. apply (walk_preorder u (take_focus unset) foc (focused_loop unset) (preorder T)) with (kids (u_world u)) q; try done.
  - intros d Hd Hp. pose proof (take_focus_ok unset d Hd) as H. rewrite Hp in H. destruct H as (w' & E & _). by eexists _, _.
  - apply kids_obj.
  - intros n d Hd. destruct (focus_below_ok d Hd) as (f & E & _ & _ & Hb & _). cbn [focused_loop]. unfold take_focus.
    rewrite !(bind_Ok _ _ _ _ _ (has_focus_ok u d can foc (ws_all _ _ _ _ HW d Hd))).
    destruct (foc d); [done|]. run_with E. by run_with Hb.
Qed.
End Below.

(** ** The walk to the next focus *)
Definition set_next (can : oloc → bool) (L : list oloc) (st : next_state) (u : ui) : outcome (bool * next_state * ui) :=
  match List.find can L with
  | Some x => (widget_setFocus (Some x) true;; mret (true, mkNext (n_list st ++ [x]) true)) u
  | None => Ok ((false, st), u)
  end.
Lemma set_next_forest u T can foc st ts fuel :
  widgets (u_world u) T can foc →
  Forall (λ t, focusNextR_loop fuel (root t) st u = set_next can (preorder t) st u) ts → forest ts ⊆ preorder T →
  find_threaded (focusNextR_loop fuel) (map root ts) st u = set_next can (forest ts) st u.
Proof.
  intros HW. induction 1 as [|t ts Ht Hts IH]; intros Hsub; [done|]. unfold forest in *.
  cbn [map concat find_threaded] in *. unfold set_next at 1. rewrite find_app. unfold set_next in Ht.
  destruct (List.find can (preorder t)) as [x|] eqn:Hx.
  - destruct (find_in _ _ _ Hx) as [Hin _].
    destruct (setFocus_ok u T can foc x true HW ltac:(set_solver)) as (w' & Es & _).
    rewrite (bind_Ok _ _ _ _ _ Es) in Ht |- *. by rewrite (bind_Ok _ _ _ _ _ Ht).
  - rewrite (bind_Ok _ _ _ _ _ Ht). apply IH. set_solver.
Qed.
Lemma set_next_walk u T can foc q t st fuel :
  widgets (u_world u) T can foc → n_unset st = true → rep (w_objs (u_world u)) q t → preorder t ⊆ preorder T →
  (length (preorder t) ≤ fuel)%nat →
  focusNextR_loop fuel (root t) st u = set_next can (preorder t) st u.
Proof.
  intros HW Hst. revert q fuel. induction t as [d ts IH] using tree_ind'. intros q fuel HR Hsub Hf.
  inversion HR as [? ? ? o Ho _ Hc Hts]; subst. destruct fuel as [|fuel]; [simpl in Hf; lia|].
  cbn [root preorder] in *. fold (forest ts) in *. assert (d ∈ preorder T) as Hd by set_solver.
  destruct (focus_below_ok u T can foc HW d Hd) as (f & E & _ & _ & Hb & _). cbn [focusNextR_loop]. run_with E.
  rewrite Hst. do 2 (erewrite bind_Ok by reflexivity; cbv iota). cbn [when].
  erewrite bind_Ok by reflexivity. cbv beta iota zeta. rewrite Hst. cbn [negb andb].
  rewrite (bind_Ok _ _ _ _ _ (can_focus_ok u d can foc (ws_all _ _ _ _ HW d Hd))).
  unfold set_next at 1. cbn [List.find]. destruct (can d); [done|]. run_with Hb. rewrite (kids_obj _ d o Ho), Hc.
  apply (set_next_forest u T can foc); [done| |set_solver]. apply Forall_forall. intros t Ht. rewrite Forall_forall in IH, Hts.
  assert (preorder t ⊆ forest ts) by (intros x Hx; by eapply in_forest).
  pose proof (forest_length t ts Ht). eapply IH; [done|by apply Hts|set_solver|]. cbn [length] in Hf. lia.
Qed.
(** The same for a list of children in a tree. *)
Lemma set_next_children u T can foc ctx d ts1 ts st fuel :
  widgets (u_world u) T can foc → n_unset st = true → T = plug ctx (Node d (ts1 ++ ts)) → (length (forest ts) ≤ fuel)%nat →
  find_threaded (focusNextR_loop fuel) (map root ts) st u = set_next can (forest ts) st u.
Proof.
  intros HW Hst ET Hf. pose proof (ws_tree _ _ _ _ HW) as (HR & _). rewrite ET in HR. apply rep_plug in HR.
  inversion HR as [? ? ? o _ _ _ Hr]; subst. apply Forall_app in Hr as [_ Hr].
  assert (forest ts ⊆ preorder (plug ctx (Node d (ts1 ++ ts)))) as Hsub.
  { rewrite preorder_plug_eq. cbn [preorder]. fold (forest (ts1 ++ ts)). rewrite forest_app. set_solver. }
  eapply set_next_forest; [exact HW| |done]. apply Forall_forall. intros t Ht. rewrite Forall_forall in Hr.
  pose proof (forest_length t ts Ht). assert (preorder t ⊆ forest ts) by (intros x Hx; by eapply in_forest).
  eapply set_next_walk; [exact HW|done|by apply Hr|set_solver|lia].
Qed.

Section Next.
Context (u : ui) (T : tree) (can foc : oloc → bool) (HW : widgets (u_world u) T can foc).
(** The old focus is the first in [L] that has it, the new one the first behind it
    that can have it. *)
Definition next_result (run : outcome (bool * next_state * ui)) (L l : list oloc) : Prop :=
  (Forall (λ y, foc y = false) L ∧ run = Ok ((false, mkNext l false), u)) ∨
  ∃ l1 x l2 w1, L = l1 ++ x :: l2 ∧ Forall (λ y, foc y = false) l1 ∧ foc x = true ∧
    widgets w1 T can (focus_set foc x false) ∧
    run = set_next can l2 (mkNext (l ++ [x]) true) (set_world w1 u).

Lemma next_forest ctx d ts1 ts l fuel :
  T = plug ctx (Node d (ts1 ++ ts)) →
  Forall (λ t, ∀ ctx, T = plug ctx t → next_result (focusNextR_loop fuel (root t) (mkNext l false) u) (preorder t) l) ts →
  (length (forest ts) ≤ fuel)%nat →
  next_result (find_threaded (focusNextR_loop fuel) (map root ts) (mkNext l false) u) (forest ts) l.
Proof.
  revert ts1. induction ts as [|t ts IH]; intros ts1 ET Hall Hf; [left; split; [constructor|done]|].
  apply Forall_cons in Hall as [Ht Hts]. assert (T = plug (mkFrame d ts1 ts :: ctx) t) as ETt by done.
  assert (T = plug ctx (Node d ((ts1 ++ [t]) ++ ts))) as ET' by by rewrite <-(assoc_L app).
  change (forest (t :: ts)) with (preorder t ++ forest ts) in *. cbn [map find_threaded]. rewrite length_app in Hf.
  destruct (Ht _ ETt) as [[Hno E]|(l1 & x & l2 & w1 & EL & Hl1 & Hx & HW1 & E)].
  - rewrite (bind_Ok _ _ _ _ _ E).
    destruct (IH (ts1 ++ [t]) ET' Hts ltac:(lia)) as [[Hno' E']|(l1 & x & l2 & w1 & EL & Hl1 & Hx & HW1 & E')].
    + left. split; [by apply Forall_app|done].
    + right. exists (preorder t ++ l1), x, l2, w1. rewrite EL, <-(assoc_L app). split_and!; try done. by apply Forall_app.
  - right. exists l1, x, (l2 ++ forest ts), w1. rewrite EL, <-(assoc_L app). split_and!; try done.
    unfold set_next in E |- *. rewrite find_app. destruct (List.find can l2) as [y|] eqn:Hy.
    + destruct (find_in _ _ _ Hy) as [Hin _].
      destruct (setFocus_ok (set_world w1 u) T can _ y true HW1) as (w' & Es & _).
      { rewrite ETt, preorder_plug_eq, EL. set_solver. }
      rewrite (bind_Ok _ _ _ _ _ Es) in E |- *. by rewrite (bind_Ok _ _ _ _ _ E).
    + rewrite (bind_Ok _ _ _ _ _ E).
      eapply (set_next_children (set_world w1 u) T can _ ctx d (ts1 ++ [t])); [done|done|done|lia].
Qed.
Lemma next_walk t : ∀ ctx l fuel, T = plug ctx t → (length (preorder t) ≤ fuel)%nat →
  next_result (focusNextR_loop fuel (root t) (mkNext l false) u) (preorder t) l.
Proof.
  induction t as [d ts IH] using tree_ind'. intros ctx l fuel ET Hf. destruct fuel as [|fuel]; [simpl in Hf; lia|].
  assert (d ∈ preorder T) as Hd by (rewrite ET, preorder_plug_eq; set_solver).
  destruct (focus_below_ok u T can foc HW d Hd) as (f & E & Hlf & Hno & Hb & _).
  pose proof (ws_tree _ _ _ _ HW) as (HR & _). rewrite ET in HR.
  destruct (rep_obj _ _ _ (rep_plug _ ctx _ _ HR)) as (o & ts' & [= <-] & Ho & _ & Hc). cbn [root] in Ho.
  cbn [root preorder focusNextR_loop n_unset n_list length] in *. fold (forest ts) in *. run_with E.
  rewrite (bind_Ok _ _ _ _ _ (has_focus_ok u d can foc (ws_all _ _ _ _ HW d Hd))).
  destruct (foc d) eqn:Hfoc.
  - cbv iota. rewrite bind_assoc. rewrite (bind_Ok _ _ _ _ _ (Hno EMO_TYPE_SCROLLED ltac:(unfold special_types; set_solver))).
    erewrite bind_Ok by reflexivity. cbv iota.
    destruct (setFocus_ok u T can foc d false HW Hd) as (w1 & Es & HW1 & HK). cbn [when]. run_with Es.
    cbn [negb andb]. erewrite bind_Ok by reflexivity. cbv iota.
    destruct (focus_below_ok (set_world w1 u) T can _ HW1 d Hd) as (f1 & _ & Hl1 & _ & Hb1 & _).
    assert (f1 = f) as ->. { cbn [u_world set_world] in Hl1. rewrite HK in Hl1 by done. congruence. }
    run_with Hb1. right. exists [], d, (forest ts), w1. split_and!; try done.
    pose proof (ws_tree _ _ _ _ HW1) as (HR1 & _). rewrite ET in HR1.
    destruct (rep_obj _ _ _ (rep_plug _ ctx _ _ HR1)) as (o1 & ts' & [= <-] & Ho1 & _ & Hc1). cbn [root u_world set_world] in *.
    rewrite (kids_obj _ d o1 Ho1), Hc1.
    eapply (set_next_children (set_world w1 u) T can _ ctx d []); [done|done|done|lia].
  - do 2 (erewrite bind_Ok by reflexivity; cbv iota). cbn [when]. 
    cbn [negb andb n_unset]. do 1 (erewrite bind_Ok by reflexivity; cbv beta iota zeta). run_with Hb.
    rewrite (kids_obj _ d o Ho), Hc.
    destruct (next_forest ctx d [] ts l fuel ET) as [[Hn E']|(l1 & x & l2 & w1 & EL & Hl1 & Hx & HW1 & E')].
    + apply Forall_forall. intros t Ht ctx' ET'. rewrite Forall_forall in IH.
      pose proof (forest_length t ts Ht). eapply IH; [done|done|lia].
    + lia.
    + left. split; [by constructor|done].
    + right. exists (d :: l1), x, l2, w1. rewrite EL. split_and!; try done. by constructor.
Qed.
End Next.

(** ** Walking back *)
Lemma walk_parts w T can foc ctx f t :
  widgets w T can foc → T = plug (f :: ctx) t →
  ∃ o, w_objs w !! root t = Some o ∧ o_parent o = Some (fr_l f) ∧ fr_l f ∈ preorder T ∧
    after (root t) (reverse (kids w (fr_l f))) = Some (reverse (map root (fr_left f))) ∧
    Forall (rep (w_objs w) (Some (fr_l f))) (fr_left f) ∧ forest (fr_left f) ⊆ preorder T.
Proof.
  intros [(HR & N & _) _ _ _ _] ->. destruct (frame_facts _ _ _ _ HR N) as (_ & o & _ & _ & _ & Ho & Hp & _).
  pose proof (rep_plug _ ctx (plug1 t f) _ HR) as Hpl. inversion Hpl as [? ? ? ofr Hof _ Hc Hts]; subst.
  apply Forall_app in Hts as [Hl _]. change (plug (f :: ctx) t) with (plug ctx (plug1 t f)) in *.
  exists o. split_and!; try done.
  - rewrite preorder_plug_eq. cbn [plug1 preorder]. set_solver.
  - rewrite (kids_obj _ _ ofr Hof), Hc, map_app, reverse_app. cbn [map]. rewrite reverse_cons, <-(assoc_L app).
    apply after_ok. rewrite elem_of_reverse. rewrite preorder_plug_eq in N.
    apply NoDup_app in N as (_ & _ & (N & _ & _)%NoDup_app). cbn [plug1 preorder] in N.
    apply NoDup_cons in N as [_ N]. fold (forest (fr_left f ++ t :: fr_right f)) in N. rewrite forest_app in N.
    apply NoDup_app in N as (_ & _ & N). unfold forest in N. cbn [map concat] in N. apply NoDup_app in N as (_ & N & _).
    intros (t' & E & Hin)%list_elem_of_fmap. apply (N (root t)); [apply root_in|]. rewrite E. by apply (in_forest_root t').
  - rewrite preorder_plug_eq. cbn [plug1 preorder]. fold (forest (fr_left f ++ t :: fr_right f)). rewrite forest_app. set_solver.
Qed.
Lemma find_none (p : oloc → bool) L : (∀ x : oloc, x ∈ L → p x = false) → List.find p L = None.
Proof. induction L as [|y L IH]; intros H; [done|]. simpl. rewrite H by set_solver. apply IH. set_solver. Qed.
Lemma find_none_inv (p : oloc → bool) L x : List.find p L = None → x ∈ L → p x = false.
Proof. intros H Hx. apply (List.find_none p L H). by apply list_elem_of_In. Qed.
Section Back.
Context (u : ui) (T : tree) (can foc : oloc → bool) (HW : widgets (u_world u) T can foc).
Definition focus_back (cw : oloc) : UM (option oloc) :=
  iw ← widget_focusPrevD (Some cw); match iw with Some x => mret (Some x) | None => focus_if_can cw end.
Lemma focus_back_ok q t : rep (w_objs (u_world u)) q t → preorder t ⊆ preorder T →
  (length (preorder t) ≤ ui_fuel u)%nat →
  focus_back (root t) u = first_of u focus_if_can can (reverse (preorder t)).
Proof.
  intros HR Hsub Hf. destruct (focusLast_walk u T can foc HW q t HR Hsub Hf) as [_ E].
  unfold focus_back, widget_focusPrevD. erewrite !bind_assoc, bind_Ok by reflexivity. cbv beta.
  rewrite bind_assoc. erewrite bind_Ok by reflexivity. cbv beta. unfold first_of in E |- *.
  destruct (List.find can _) as [x|] eqn:Hx.
  - destruct (find_in _ _ _ Hx) as [Hin Hc]. rewrite elem_of_reverse in Hin.
    destruct (can_hit u T can foc HW x (Hsub _ Hin) Hc) as (r & u' & E'). rewrite E' in E |- *.
    by rewrite (bind_Ok _ _ _ _ _ E).
  - rewrite (bind_Ok _ _ _ _ _ E). apply (can_miss u T can foc HW); [apply Hsub, root_in|].
    eapply find_none_inv; [exact Hx|]. rewrite elem_of_reverse. apply root_in.
Qed.
Lemma focusPrevR_walk ctx t fuel : T = plug ctx t → (length ctx < fuel)%nat →
  focusPrevR_loop fuel (root t) u = first_of u focus_if_can can (reverse (before ctx)).
Proof.
  revert t fuel; induction ctx as [|f ctx IH]; intros t [|fuel] ET Hf; try (simpl in Hf; lia); cbn [focusPrevR_loop].
  - pose proof (ws_tree _ _ _ _ HW) as (HR & _). rewrite ET in HR. destruct (rep_obj _ _ _ HR) as (o & ts & _ & Ho & Hp & _).
    run_with (obj_ok u _ _ Ho). by rewrite Hp.
  - destruct (walk_parts _ _ can foc ctx f t HW ET) as (o & Ho & Hp & Hin & Ha & Hreps & Hsub).
    run_with (obj_ok u _ _ Ho). rewrite Hp. rewrite (bind_Ok _ _ _ _ _ (rchildren_ok u T can foc HW _ Hin)), Ha.
    fold focus_back.
    assert (mfind focus_back (reverse (map root (fr_left f))) u = first_of u focus_if_can can (reverse (forest (fr_left f)))) as E.
    { apply (mfind_first_of_rev u focus_if_can can (λ _, focus_back) (preorder T) (can_hit u T can foc HW) (fr_left f) 0);
        [|done]. apply Forall_forall. intros t' Ht'. rewrite Forall_forall in Hreps.
      assert (preorder t' ⊆ forest (fr_left f)) by (intros x Hx; by eapply in_forest).
      eapply focus_back_ok; [by apply Hreps|set_solver|]. etransitivity; [|exact (tree_fuel u T can foc HW)].
      pose proof (forest_length t' _ Ht'). rewrite ET. change (plug (f :: ctx) t) with (plug ctx (plug1 t f)).
      rewrite preorder_plug_eq, !length_app. cbn [plug1 preorder length]. fold (forest (fr_left f ++ t :: fr_right f)).
      rewrite forest_app, length_app. lia. }
    cbn [before]. rewrite reverse_app, reverse_cons, <-(assoc_L app). unfold first_of in E |- *. rewrite find_app.
    destruct (List.find can (reverse (forest _))) as [x|] eqn:Hx.
    + destruct (find_in _ _ _ Hx) as [Hx' Hc]. rewrite elem_of_reverse in Hx'.
      destruct (can_hit u T can foc HW x (Hsub _ Hx') Hc) as (r & u' & E'). rewrite E' in E |- *.
      by rewrite (bind_Ok _ _ _ _ _ E).
    + rewrite (bind_Ok _ _ _ _ _ E). cbn [app List.find].
      destruct (can (fr_l f)) eqn:Hc.
      * destruct (can_hit u T can foc HW _ Hin Hc) as (r & u' & E'). rewrite (bind_Ok _ _ _ _ _ E'). by rewrite E'.
      * rewrite (bind_Ok _ _ _ _ _ (can_miss u T can foc HW _ Hin Hc)). apply (IH (plug1 t f)); [done|simpl in Hf; lia].
Qed.
End Back.

(** ** Marking as modified *)
(** The redraw queue takes [n] more widgets. *)
Fixpoint accepts (n : nat) (r : option RenderManager_t) : Prop :=
  match n with
  | O => True
  | S n => accepts n r ∧ ∀ d, ∃ r', renderman_queue (Some (pointer d)) r = Ok ((), r') ∧ accepts n r'
  end.
Lemma accepts_pending r n : has_flag RM_COMPLETE_REDRAW (rm_flags r) = true → accepts n (Some r).
Proof.
  intros Hf. induction n as [|n IH]; [done|]. split; [done|]. intros d. exists (Some r). split; [|done].
  unfold renderman_queue. do 2 erewrite bind_Ok by reflexivity. unfold has_flag in Hf. by rewrite Hf.
Qed.
Lemma accepts_le n m r : accepts m r → (n ≤ m)%nat → accepts n r.
Proof. intros H Hle. induction Hle as [|m Hle IH]; [done|]. apply IH. by destruct H. Qed.

Lemma same_enum_widgets w w' T can foc :
  widgets w T can foc → tree_in w' T → wf w' → w_fields w' = w_fields w →
  (∀ x o, x ∈ preorder T → w_objs w !! x = Some o → ∃ o', w_objs w' !! x = Some o' ∧
     o_arrayChildren o' = o_arrayChildren o ∧ o_referenced o' = o_referenced o ∧ o_enumData o' = o_enumData o) →
  widgets w' T can foc.
Proof.
  intros [HT _ Hall Hown Halloc] HT' Hwf' Hf Hobj.
  assert (∀ x e, x ∈ preorder T → locate w' x e = locate w x e) as HL.
  { intros x e Hx. destruct (Hall x Hx) as [(o & Ho & _) _ _ _]. destruct (Hobj x o Hx Ho) as (o' & Ho' & _ & _ & E).
    unfold locate. rewrite Ho, Ho'. cbn. by rewrite E. }
  assert (∀ g, content w' g = content w g) as HC by (intros g; unfold content; by rewrite Hf).
  split; [done|done| | |].
  - intros x Hx. destruct (Hall x Hx) as [(o & Ho & Ha & Hr) Hty Hcan Hfoc]. split.
    + destruct (Hobj x o Hx Ho) as (o' & ? & ? & ? & ?). exists o'. split_and!; congruence.
    + unfold type_field in *. destruct Hty as (f & p & fl & ? & ? & ? & ?). exists f, p, fl. by rewrite HL, HC by done.
    + unfold can_field in *. rewrite HL by done. destruct (locate w x CANFOCUS); [|done].
      destruct Hcan as (c & z & ? & ? & ? & ?). exists c, z. by rewrite HC.
    + unfold focus_field in *. rewrite HL by done. destruct (locate w x HASFOCUS); [|done].
      destruct Hfoc as (i & fl & ? & ?). exists i, fl. by rewrite HC.
  - intros a f x e Ha Hx. rewrite !HL by done. by apply Hown.
  - intros x e f Hx. rewrite HL, HC by done. by apply Halloc.
Qed.
Lemma upd_widgets u T can foc d f :
  widgets (u_world u) T can foc → d ∈ preorder T →
  (∀ o, same_links o (f o) ∧ o_arrayChildren (f o) = o_arrayChildren o ∧ o_referenced (f o) = o_referenced o ∧
        o_enumData (f o) = o_enumData o) →
  ∃ w', upd d f u = Ok ((), set_world w' u) ∧ widgets w' T can foc.
Proof.
  intros HW Hd Hf. pose proof HW as [HT [Wo Wf] Hall _ _]. destruct (Hall d Hd) as [(o & Ho & _) _ _ _].
  eexists. split; [by apply in_world_ok, (upd_obj_ok _ d o)|].
  apply (same_enum_widgets (u_world u)); [done| | |done|].
  - destruct HT as (HR & ? & ?). split; [|done]. eapply rep_links; [exact HR|exact Ho|done|apply Hf].
  - split; [|exact Wf]. cbn [w_objs w_brk]. intros x Hx. rewrite lookup_insert_ne; [by apply Wo|].
    intros ->. by rewrite Wo in Ho.
  - intros x ox Hx Hox. cbn [w_objs]. destruct (decide (x = d)) as [->|?].
    + rewrite lookup_insert_eq. exists (f o). rewrite Ho in Hox. injection Hox as <-. by destruct (Hf o) as (_ & ? & ? & ?).
    + rewrite lookup_insert_ne by done. by exists ox.
Qed.
Lemma setIsModified_ok u T can foc d n :
  widgets (u_world u) T can foc → d ∈ preorder T → accepts (S n) (u_renderman u) →
  ∃ u', dataobject_setIsModified (Some d) true u = Ok ((), u') ∧ widgets (u_world u') T can foc ∧
    accepts n (u_renderman u').
Proof.
  intros HW Hd [Hacc Hq]. destruct (ws_all _ _ _ _ HW d Hd) as [(o & Ho & Ha & Hr) _ _ _].
  unfold dataobject_setIsModified. do 2 erewrite bind_Ok by reflexivity. unfold ui_fuel, walk_fuel.
  cbn [setIsModified_loop]. unfold setIsModified_step. run_with (obj_ok u _ _ Ho).
  destruct (o_state o) eqn:Hs; [by exists u|by exists u| |by exists u].
  destruct (Hq d) as (r' & Eq & Hacc'). rewrite bind_assoc.
  erewrite (bind_Ok _ _ _ () (set_renderman r' u)) by (unfold in_renderman; by rewrite Eq).
  destruct (upd_widgets (set_renderman r' u) T can foc d (λ o, with_flags1 (set_flag true DO_FLAG_CHANGED (o_flags1 o)) o) HW Hd)
    as (w1 & E1 & HW1); [done|]. run_with E1.
  set (u1 := set_world w1 (set_renderman r' u)).
  destruct (focus_below_ok u1 T can foc HW1 d Hd) as (f & E & _ & Hno & _). run_with E.
  rewrite (bind_Ok _ _ _ _ _ (Hno EMO_TYPE_ARRAY ltac:(unfold special_types; set_solver))). cbn [when].
  erewrite bind_Ok by reflexivity. destruct (ws_all _ _ _ _ HW1 d Hd) as [(o1 & Ho1 & _ & Hr1) _ _ _].
  run_with (obj_ok u1 _ _ Ho1). rewrite Hr1. by exists u1.
Qed.

(** ** The next and the previous focus *)
Definition focus_is (x : option oloc) : oloc → bool := λ d, bool_decide (x = Some d).
Definition from (old : option oloc) (L : list oloc) : list oloc :=
  match old with Some x => default [] (after x L) | None => [] end.
(** Behind the old focus, and if there is nothing, from the start. *)
Definition focus_next (can : oloc → bool) (L : list oloc) (old : option oloc) : option oloc :=
  List.find can (from old L ++ L).
Definition focus_prev (can : oloc → bool) (L : list oloc) (old : option oloc) : option oloc :=
  focus_next can (reverse L) old.

Lemma widgets_ext w T can foc foc' :
  widgets w T can foc → (∀ d, d ∈ preorder T → foc' d = foc d) → widgets w T can foc'.
Proof.
  intros [HT Hwf Hall Hown Halloc] Hext. split; [done|done| |done|done]. intros d Hd.
  destruct (Hall d Hd) as [? ? ? Hf]. split; [done..|]. by rewrite Hext.
Qed.
Lemma focus_set_is x d : (λ y, focus_set (focus_is None) d true y) x = focus_is (Some d) x.
Proof. unfold focus_set, focus_is. case_decide as H; [by rewrite bool_decide_true by congruence|]. by rewrite !bool_decide_false by congruence. Qed.
Lemma focus_unset_is x y : focus_set (focus_is (Some x)) x false y = focus_is None y.
Proof. unfold focus_set, focus_is. case_decide as H; [done|]. by rewrite !bool_decide_false by congruence. Qed.
Lemma split_focus T (L : list oloc) l1 x l2 old :
  NoDup L → L = l1 ++ x :: l2 → Forall (λ y, focus_is old y = false) l1 → focus_is old x = true →
  preorder T = L → old = Some x ∧ from old L = l2 ∧ from old (reverse L) = reverse l1.
Proof.
  intros N -> Hl1 Hx _. unfold focus_is in Hx. apply bool_decide_true in Hx || apply bool_decide_eq_true in Hx. subst old.
  apply NoDup_app in N as (N1 & N2 & N3). split; [done|]. unfold from. split.
  - rewrite after_ok; [done|]. intros Hin. apply (N2 x Hin). set_solver.
  - rewrite reverse_app, reverse_cons, <-(assoc_L app). cbn [app]. rewrite after_ok; [done|].
    rewrite elem_of_reverse. by apply NoDup_cons in N3 as [? _].
Qed.

Lemma after_in x (L l : list oloc) y : after x L = Some l → y ∈ l → y ∈ L.
Proof.
  revert l; induction L as [|z L IH]; intros l; [done|]. simpl. case_decide; [intros [= ->]; set_solver|].
  intros Ha Hy. apply list_elem_of_further. by eapply IH.
Qed.
Section Moves.
Context (T : tree) (can : oloc → bool).
Lemma first_focus u L : widgets (u_world u) T can (focus_is None) → L ⊆ preorder T →
  match List.find can L with
  | Some y => ∃ w', first_of u focus_if_can can L = Ok (Some y, set_world w' u) ∧
      widgets w' T can (focus_is (Some y)) ∧ y ∈ preorder T
  | None => first_of u focus_if_can can L = Ok (None, u)
  end.
Proof.
  intros HW Hsub. unfold first_of. destruct (List.find can _) as [y|] eqn:Hy; [|done].
  destruct (find_in _ _ _ Hy) as [Hin Hc]. apply Hsub in Hin.
  pose proof (focus_if_can_ok u T can _ y HW Hin) as H. rewrite Hc in H.
  destruct H as (w' & E & HW'). exists w'. split; [done|]. split; [|done]. eapply widgets_ext; [done|].
  intros d _. by rewrite <-focus_set_is.
Qed.
Lemma unfocused w old : widgets w T can (focus_is old) → (∀ d, d ∈ preorder T → focus_is old d = false) →
  widgets w T can (focus_is None) ∧ from old (preorder T) = [] ∧ from old (reverse (preorder T)) = [].
Proof.
  intros HW Hno. split.
  - eapply widgets_ext; [done|]. intros d Hd. by rewrite Hno.
  - destruct old as [x|]; [|done]. assert (x ∉ preorder T) as Hx.
    { intros Hx. specialize (Hno x Hx). unfold focus_is in Hno. by rewrite bool_decide_true in Hno. }
    assert (∀ L, x ∉ L → after x L = None) as Ha.
    { clear. intros L. induction L as [|y L IH]; intros Hx; [done|]. simpl. rewrite decide_False by set_solver.
      apply IH. set_solver. }
    unfold from. by rewrite !Ha by (rewrite ?elem_of_reverse; done).
Qed.
Lemma mark_ok l u n foc : widgets (u_world u) T can foc → l ⊆ preorder T → accepts (length l + n) (u_renderman u) →
  ∃ u', mfor (λ w1, dataobject_setIsModified (Some w1) true) l u = Ok ((), u') ∧
    widgets (u_world u') T can foc ∧ accepts n (u_renderman u').
Proof.
  revert u. induction l as [|x l IH]; intros u HW Hsub Hacc; [by exists u|]. cbn [mfor length] in *.
  destruct (setIsModified_ok u T can foc x (length l + n) HW ltac:(set_solver) Hacc) as (u1 & E & HW1 & Hacc1).
  run_with E. apply IH; [done|set_solver|done].
Qed.
Lemma focusNext_ok u s old n :
  widgets (u_world u) T can (focus_is old) → accepts (2 + n) (u_renderman u) →
  ∃ u', widget_focusNext (Some (root T)) (Some s) u = Ok ((), u') ∧
    widgets (u_world u') T can (focus_is (focus_next can (preorder T) old)) ∧ accepts n (u_renderman u').
Proof.
  intros HW Hacc. pose proof (ws_tree _ _ _ _ HW) as (HR & N & _).
  unfold widget_focusNext, widget_focusNextR. do 2 erewrite bind_Ok by reflexivity.
  assert (∀ st, focusNextR_loop (ui_fuel u) (root T) (mkNext [] false) u = st →
    (w ← emo_nonnull (Some (root T)); u ← get; focusNextR_loop (ui_fuel u) w (mkNext [] false)) u = st) as Hrun by done.
  assert (∀ u1 l, widgets (u_world u1) T can (focus_is None) → l ⊆ preorder T → (length l ≤ 1)%nat →
    accepts (2 + n) (u_renderman u1) →
    ∃ u', ('(_, l) ← widget_focusFirst (Some (root T)) l; mfor (λ w1, dataobject_setIsModified (Some w1) true) l) u1 = Ok ((), u') ∧
      widgets (u_world u') T can (focus_is (List.find can (preorder T))) ∧ accepts n (u_renderman u')) as Hfirst.
  { intros u1 l HW1 Hl Hlen Hacc1. pose proof (ws_tree _ _ _ _ HW1) as (HR1 & _).
    pose proof (focusFirst_walk u1 T can _ HW1 None T HR1 ltac:(done) (tree_fuel u1 T can _ HW1)) as E.
    pose proof (first_focus u1 _ HW1 (reflexivity _)) as H. unfold widget_focusFirst.
    destruct (List.find can (preorder T)) as [y|].
    - destruct H as (w' & E' & HW' & Hin). rewrite E' in E.
      erewrite (bind_Ok _ _ _ (true, l ++ [y]) (set_world w' u1)).
      2:{ do 2 erewrite bind_Ok by reflexivity. by rewrite (bind_Ok _ _ _ _ _ E). }
      apply mark_ok; [done|set_solver|]. eapply accepts_le; [done|]. rewrite length_app. simpl. lia.
    - rewrite H in E. erewrite (bind_Ok _ _ _ (false, l) u1).
      2:{ do 2 erewrite bind_Ok by reflexivity. by rewrite (bind_Ok _ _ _ _ _ E). }
      apply mark_ok; [done|done|]. eapply accepts_le; [done|lia]. }
  destruct (next_walk u T can _ HW T [] [] (ui_fuel u) eq_refl (tree_fuel u T can _ HW))
    as [[Hno E]|(l1 & x & l2 & w1 & EL & Hl1 & Hx & HW1 & E)].
  - rewrite (bind_Ok _ _ _ _ _ (Hrun _ E)). cbn [n_list].
    assert (∀ d, d ∈ preorder T → focus_is old d = false) as Hno' by (intros d Hd; by rewrite Forall_forall in Hno; apply Hno).
    destruct (unfocused _ _ HW Hno') as (HW0 & Hfrom & _).
    destruct (Hfirst u [] HW0 ltac:(set_solver) ltac:(simpl; lia) Hacc) as (u' & E' & HW' & Hacc').
    exists u'. split; [exact E'|]. split; [|done]. unfold focus_next. by rewrite Hfrom.
  - destruct (split_focus T _ l1 x l2 old N EL Hl1 Hx eq_refl) as (-> & Hfrom & _).
    assert (widgets w1 T can (focus_is None)) as HW0.
    { eapply widgets_ext; [done|]. intros d _. by rewrite focus_unset_is. }
    unfold focus_next. rewrite Hfrom, find_app. unfold set_next in E. cbn [n_list app] in E.
    destruct (List.find can l2) as [y|] eqn:Hy.
    + destruct (find_in _ _ _ Hy) as [Hin _].
      destruct (setFocus_ok (set_world w1 u) T can _ y true HW0) as (w2 & Es & HW2 & _); [rewrite EL; set_solver|].
      rewrite (bind_Ok _ _ _ _ _ Es) in E. rewrite (bind_Ok _ _ _ _ _ (Hrun _ E)). erewrite bind_Ok by reflexivity.
      apply (mark_ok [x; y]); [|rewrite EL; set_solver|done]. eapply widgets_ext; [done|]. intros d _. by rewrite <-focus_set_is.
    + rewrite (bind_Ok _ _ _ _ _ (Hrun _ E)). cbn [n_list app].
      apply (Hfirst (set_world w1 u) [x]); [done|rewrite EL; set_solver|done|done].
Qed.

Lemma focusLast_ok u : widgets (u_world u) T can (focus_is None) →
  ∃ u', widget_focusLast (Some (root T)) u = Ok (List.find can (reverse (preorder T)), u') ∧
    widgets (u_world u') T can (focus_is (List.find can (reverse (preorder T)))) ∧ u_renderman u' = u_renderman u.
Proof.
  intros HW. pose proof (ws_tree _ _ _ _ HW) as (HR & _).
  destruct (focusLast_walk u T can _ HW None T HR (reflexivity _) (tree_fuel u T can _ HW)) as [E _].
  unfold widget_focusLast. do 2 erewrite bind_Ok by reflexivity. rewrite E.
  pose proof (first_focus u (reverse (preorder T)) HW) as H.
  destruct (List.find can (reverse (preorder T))) as [y|].
  - destruct H as (w' & -> & HW' & _); [intros d Hd; by rewrite elem_of_reverse in Hd|]. by exists (set_world w' u).
  - rewrite H; [by exists u|]. intros d Hd. by rewrite elem_of_reverse in Hd.
Qed.
Lemma focusPrevR_ok u x : widgets (u_world u) T can (focus_is None) → x ∈ preorder T →
  let y := List.find can (from (Some x) (reverse (preorder T))) in
  ∃ u', widget_focusPrevR (Some x) u = Ok (y, u') ∧ widgets (u_world u') T can (focus_is y) ∧
    u_renderman u' = u_renderman u.
Proof.
  intros HW Hx. destruct (zipper T x Hx) as (ctx & ts & ET). pose proof (ws_tree _ _ _ _ HW) as (_ & N & _).
  assert (preorder T = before ctx ++ x :: (forest ts ++ behind ctx)) as EL by (by rewrite ET, preorder_plug_eq).
  destruct (split_focus T _ (before ctx) x _ (Some x) N EL) as (_ & _ & ->); [|by unfold focus_is; rewrite bool_decide_true|done|].
  { rewrite EL in N. apply NoDup_app in N as (_ & N & _). apply Forall_forall. intros y Hy. unfold focus_is.
    rewrite bool_decide_false; [done|]. intros [= ->]. by apply (N y Hy), list_elem_of_here. }
  cbv zeta. unfold widget_focusPrevR. do 2 erewrite bind_Ok by reflexivity.
  pose proof (focusPrevR_walk u T can _ HW ctx (Node x ts) (ui_fuel u) ET) as E. cbn [root] in E. rewrite E.
  2:{ pose proof (tree_fuel u T can _ HW). pose proof (plug_length ctx (Node x ts)). rewrite <-ET in *.
      pose proof (preorder_pos (Node x ts)). lia. }
  pose proof (first_focus u (reverse (before ctx)) HW) as H.
  assert (reverse (before ctx) ⊆ preorder T) as Hsub by (intros d Hd; rewrite elem_of_reverse in Hd; rewrite EL; set_solver).
  destruct (List.find can (reverse (before ctx))) as [y|].
  - destruct (H Hsub) as (w' & -> & HW' & _). by exists (set_world w' u).
  - rewrite H by done. by exists u.
Qed.
Lemma focusPrev_ok u s old n :
  widgets (u_world u) T can (focus_is old) → accepts (2 + n) (u_renderman u) →
  ∃ u', widget_focusPrev (Some (root T)) s u = Ok ((), u') ∧
    widgets (u_world u') T can (focus_is (focus_prev can (preorder T) old)) ∧ accepts n (u_renderman u').
Proof.
  intros HW Hacc. pose proof (ws_tree _ _ _ _ HW) as (HR & N & _).
  unfold widget_focusPrev, widget_focusWhichOne. erewrite bind_Ok by reflexivity. cbv beta.
  do 2 (rewrite bind_assoc; erewrite bind_Ok by reflexivity; cbv beta).
  pose proof (focused_walk u T can _ HW true None T HR (reflexivity _) (tree_fuel u T can _ HW)) as E.
  unfold first_of in E. destruct (List.find (focus_is old) (preorder T)) as [x|] eqn:Hx.
  - destruct (find_in _ _ _ Hx) as [Hin Hold].
    assert (old = Some x) as -> by (unfold focus_is in Hold; by apply bool_decide_eq_true in Hold).
    pose proof (take_focus_ok u T can _ HW true x Hin) as H. rewrite Hold in H. destruct H as (w1 & E1 & HW1).
    rewrite E1 in E. run_with E.
    assert (widgets w1 T can (focus_is None)) as HW1' by (eapply widgets_ext; [done|]; intros d _; by rewrite focus_unset_is).
    destruct (focus_below_ok (set_world w1 u) T can _ HW1' x Hin) as (f & Ef & _ & Hno & _).
    run_with Ef. rewrite (bind_Ok _ _ _ _ _ (Hno EMO_TYPE_SCROLLED ltac:(unfold special_types; set_solver))).
    erewrite bind_Ok by reflexivity. cbv iota.
    destruct (setFocus_ok (set_world w1 u) T can _ x false HW1' Hin) as (w2 & E2 & HW2 & _). run_with E2.
    assert (widgets w2 T can (focus_is None)) as HW2'.
    { eapply widgets_ext; [done|]. intros d _. unfold focus_set, focus_is. by case_decide. }
    set (u2 := set_world w2 (set_world w1 u)).
    destruct (focusPrevR_ok u2 x HW2' Hin) as (u3 & E3 & HW3 & Er3). run_with E3.
    assert (∃ u4, (match List.find can (from (Some x) (reverse (preorder T))) with
      Some n0 => mret (Some n0) | None => widget_focusLast (Some (root T)) end : UM _) u3 =
      Ok (focus_prev can (preorder T) (Some x), u4) ∧
      widgets (u_world u4) T can (focus_is (focus_prev can (preorder T) (Some x))) ∧ u_renderman u4 = u_renderman u) as
      (u4 & E4 & HW4 & Er4).
    { unfold focus_prev, focus_next. rewrite find_app.
      destruct (List.find can (from (Some x) (reverse (preorder T)))) as [y|].
      - by exists u3.
      - destruct (focusLast_ok u3 HW3) as (u4 & E4 & HW4 & Er4). exists u4. by rewrite Er4, Er3. }
    run_with E4.
    destruct (setIsModified_ok u4 T can _ x (1 + n) HW4 Hin) as (u5 & E5 & HW5 & Hacc5); [by rewrite Er4|]. run_with E5.
    destruct (focus_prev can (preorder T) (Some x)) as [y|] eqn:Hy.
    + apply (setIsModified_ok u5 T can _ y n HW5); [|done].
      destruct (find_in _ _ _ Hy) as [Hy' _]. apply elem_of_app in Hy' as [Hy'|Hy']; [|by rewrite elem_of_reverse in Hy'].
      rewrite <-elem_of_reverse. unfold from in Hy'. destruct (after x (reverse (preorder T))) as [l|] eqn:Ha; [|set_solver].
      by eapply after_in.
    + exists u5. split; [done|]. split; [done|]. eapply accepts_le; [exact Hacc5|lia].
  - run_with E. destruct (unfocused _ _ HW) as (HW0 & _ & Hfrom); [by intros; eapply find_none_inv|].
    destruct (focusLast_ok u HW0) as (u1 & E1 & HW1 & Er1). run_with E1. unfold focus_prev, focus_next. rewrite Hfrom.
    cbn [app]. rewrite <-Er1 in Hacc. destruct (List.find can (reverse (preorder T))) as [y|] eqn:Hy.
    + destruct (find_in _ _ _ Hy) as [Hy' _]. rewrite elem_of_reverse in Hy'.
      apply (setIsModified_ok u1 T can _ y n HW1); [done|]. eapply accepts_le; [exact Hacc|lia].
    + exists u1. split; [done|]. split; [done|]. eapply accepts_le; [exact Hacc|lia].
Qed.
End Moves.

(** ** The order of the focus *)
Section Order.
Context (can : oloc → bool) (L : list oloc) (HN : NoDup L).
Lemma find_head l : List.find can l = head (List.filter can l).
Proof. induction l as [|x l IH]; [done|]. simpl. by destruct (can x). Qed.
Lemma filter_none (l : list oloc) : List.filter can l = [] → ∀ x, x ∈ l → can x = false.
Proof.
  intros Hf x Hx. destruct (can x) eqn:Hc; [|done]. apply list_elem_of_In in Hx.
  assert (In x (List.filter can l)) as H by (by apply filter_In). by rewrite Hf in H.
Qed.
Lemma filter_rev (l : list oloc) : List.filter can (reverse l) = reverse (List.filter can l).
Proof.
  induction l as [|x l IH]; [done|]. rewrite reverse_cons, List.filter_app, IH. simpl.
  destruct (can x); [by rewrite reverse_cons|by rewrite app_nil_r].
Qed.
Lemma from_split x : x ∈ L → ∃ l1 l2, L = l1 ++ x :: l2 ∧ from (Some x) L = l2 ∧ from (Some x) (reverse L) = reverse l1.
Proof.
  intros (l1 & l2 & E)%list_elem_of_split. exists l1, l2. split; [done|]. rewrite E in HN |- *.
  apply NoDup_app in HN as (N1 & N2 & N3%NoDup_cons). destruct N3 as [N3 _]. unfold from. split.
  - rewrite after_ok; [done|]. intros Hin. apply (N2 x Hin). set_solver.
  - rewrite reverse_app, reverse_cons, <-(assoc_L app). cbn [app]. rewrite after_ok; [done|]. by rewrite elem_of_reverse.
Qed.
Lemma head_stop (l r : list oloc) x : head (l ++ x :: r) = head (l ++ [x]).
Proof. by destruct l. Qed.
(** The focusable widgets, split at one of them. *)
Lemma next_in_filter x : x ∈ L → can x = true → ∃ A B, List.filter can L = A ++ x :: B ∧
  focus_next can L (Some x) = head (B ++ A ++ [x]) ∧ focus_prev can L (Some x) = head (reverse A ++ reverse B ++ [x]).
Proof.
  intros Hx Hc. destruct (from_split x Hx) as (l1 & l2 & E & F & R).
  exists (List.filter can l1), (List.filter can l2). unfold focus_prev, focus_next.
  rewrite !find_head, !List.filter_app, F, R, !filter_rev.
  assert (List.filter can L = List.filter can l1 ++ x :: List.filter can l2) as ->.
  { rewrite E, List.filter_app. cbn [List.filter]. by rewrite Hc. }
  split; [done|]. rewrite reverse_app, reverse_cons, <-!(assoc_L app).
  split; [by rewrite !(assoc_L app), head_stop|]. cbn [app]. by rewrite !(assoc_L app), head_stop.
Qed.
Lemma head_cycle (A B : list oloc) x : head (reverse A ++ reverse B ++ [x]) = head (reverse (x :: B ++ A)).
Proof. by rewrite reverse_cons, reverse_app, (assoc_L app). Qed.
Lemma filter_NoDup : NoDup (List.filter can L).
Proof. apply NoDup_ListNoDup, List.NoDup_filter, NoDup_ListNoDup, HN. Qed.
Lemma filter_split_unique (A B A' B' : list oloc) x :
  List.filter can L = A ++ x :: B → List.filter can L = A' ++ x :: B' → A = A' ∧ B = B'.
Proof.
  intros E1 E2. pose proof filter_NoDup as N. rewrite E1 in E2.
  rewrite E1 in N. clear E1. revert A' E2 N. induction A as [|a A IH]; intros [|a' A']; cbn [app].
  - intros [= <-]. done.
  - intros [= <- ->] N. apply NoDup_cons in N as [N _]. set_solver.
  - intros [= -> <-] N. apply NoDup_cons in N as [N _]. set_solver.
  - intros [= <- E] [_ N]%NoDup_cons. destruct (IH A' E N) as [-> ->]. done.
Qed.
Lemma in_filter x : x ∈ List.filter can L ↔ x ∈ L ∧ can x = true.
Proof. rewrite !list_elem_of_In. apply filter_In. Qed.
Lemma prev_next x : x ∈ L → can x = true →
  ∃ y, focus_next can L (Some x) = Some y ∧ focus_prev can L (Some y) = Some x.
Proof.
  intros Hx Hc. destruct (next_in_filter x Hx Hc) as (A & B & E & -> & _).
  assert (∀ y, head (B ++ A ++ [x]) = Some y → focus_prev can L (Some y) = Some x) as H.
  2:{ destruct (head (B ++ A ++ [x])) as [y|] eqn:Hy; [by eauto|]. by destruct B, A. }
  intros y Hy. assert (y ∈ List.filter can L) as [Hy1 Hy2]%in_filter.
  { rewrite E. destruct B as [|b B]; [destruct A as [|a A]|]; injection Hy as ->; set_solver. }
  destruct (next_in_filter y Hy1 Hy2) as (A' & B' & E' & _ & ->).
  destruct B as [|b B]; [destruct A as [|a A]|]; injection Hy as ->.
  - destruct (filter_split_unique _ _ _ _ _ E E') as [<- <-]. done.
  - destruct (filter_split_unique [] (A ++ [x]) _ _ y E E') as [<- <-]. by rewrite reverse_app.
  - assert (A ++ x :: y :: B = (A ++ [x]) ++ y :: B) as R by by rewrite <-(assoc_L app). rewrite R in E.
    destruct (filter_split_unique _ _ _ _ _ E E') as [<- <-]. by rewrite reverse_app.
Qed.

Lemma next_steps B : ∀ A x j y, List.filter can L = A ++ x :: B → B !! j = Some y →
  Nat.iter (S j) (focus_next can L) (Some x) = Some y.
Proof.
  induction B as [|b B IH]; intros A x j y E Hj; [done|].
  assert (focus_next can L (Some x) = Some b) as Hb.
  { assert (x ∈ List.filter can L) as [Hx Hc]%in_filter by (rewrite E; set_solver).
    destruct (next_in_filter x Hx Hc) as (A' & B' & E' & -> & _).
    destruct (filter_split_unique _ _ _ _ _ E E') as [<- <-]. done. }
  destruct j as [|j]; [simpl in Hj |- *; congruence|]. rewrite Nat.iter_succ_r, Hb.
  apply (IH (A ++ [x])); [by rewrite <-(assoc_L app)|done].
Qed.
Lemma next_wraps A B x : List.filter can L = A ++ x :: B →
  Nat.iter (S (length B)) (focus_next can L) (Some x) = head (List.filter can L).
Proof.
  intros E. destruct (decide (B = [])) as [->|HB].
  - assert (x ∈ List.filter can L) as [Hx Hc]%in_filter by (rewrite E; set_solver).
    destruct (next_in_filter x Hx Hc) as (A' & B' & E' & H & _).
    destruct (filter_split_unique _ _ _ _ _ E E') as [<- <-]. simpl. rewrite H, E. by destruct A.
  - destruct (exists_last HB) as (B0 & b & ->). rewrite length_app. cbn [length]. rewrite Nat.add_1_r.
    rewrite Nat.iter_succ, (next_steps _ A x (length B0) b E) by (by rewrite list_lookup_middle).
    assert (b ∈ List.filter can L) as [Hx Hc]%in_filter by (rewrite E; set_solver).
    destruct (next_in_filter b Hx Hc) as (A' & B' & E' & H & _).
    assert (List.filter can L = (A ++ x :: B0) ++ b :: []) as E2 by by rewrite E, <-(assoc_L app).
    destruct (filter_split_unique _ _ _ _ _ E2 E') as [<- <-]. rewrite H, E. by destruct A.
Qed.
(** Every focusable widget, at most once around the focusable widgets. *)
Lemma next_reaches old y : y ∈ L → can y = true →
  ∃ k, (k ≤ length L)%nat ∧ Nat.iter k (focus_next can L) old = Some y.
Proof.
  intros Hy Hc. assert (y ∈ List.filter can L) as HyF by (by apply in_filter).
  assert (length (List.filter can L) ≤ length L)%nat as HF by apply filter_length_le.
  destruct (focus_next can L old) as [x|] eqn:Hx.
  2:{ unfold focus_next in Hx. rewrite find_app in Hx. destruct (List.find can (from old L)); [done|].
      rewrite (find_none_inv _ _ _ Hx Hy) in Hc. done. }
  assert (x ∈ List.filter can L) as HxF.
  { unfold focus_next in Hx. destruct (find_in _ _ _ Hx) as [Hin Hcx]. apply in_filter. split; [|done].
    apply elem_of_app in Hin as [Hin|Hin]; [|done]. unfold from in Hin. destruct old as [o|]; [|set_solver].
    destruct (after o L) eqn:Ha; [|set_solver]. by eapply after_in. }
  apply list_elem_of_split in HxF as (A & B & E). rewrite E in HyF, HF. rewrite length_app in HF. cbn [length] in HF.
  assert (∀ k, Nat.iter (S k) (focus_next can L) old = Nat.iter k (focus_next can L) (Some x)) as Hfst.
  { intros k. by rewrite Nat.iter_succ_r, Hx. }
  apply elem_of_app in HyF as [HyA|[->|HyB]%elem_of_cons].
  - apply list_elem_of_lookup in HyA as [j Hj]. pose proof (lookup_lt_Some _ _ _ Hj).
    destruct A as [|a A]; [done|]. destruct j as [|j].
    + exists (S (S (length B))). split; [simpl in *; lia|]. rewrite Hfst, (next_wraps _ _ _ E), E. simpl in *. congruence.
    + exists (S j + S (S (length B)))%nat. split; [simpl in *; lia|]. rewrite Nat.iter_add, Hfst, (next_wraps _ _ _ E), E. cbn [app head]. apply (next_steps (A ++ x :: B) []); [done|]. by apply lookup_app_l_Some.
  - exists 1%nat. split; [lia|]. by rewrite Hfst.
  - apply list_elem_of_lookup in HyB as [j Hj]. pose proof (lookup_lt_Some _ _ _ Hj).
    exists (S (S j)). split; [lia|]. rewrite Hfst. by apply (next_steps B A x).
Qed.
End Order.


(** From a focusable widget with the focus, the key for the next widget followed by
    the key for the previous one gives the focus back to it. *)
Theorem focus_next_then_prev T can x u s :
  widgets (u_world u) T can (focus_is (Some x)) → x ∈ preorder T → can x = true → accepts 4 (u_renderman u) →
  ∃ u', (widget_focusNext (Some (root T)) (Some s);; widget_focusPrev (Some (root T)) (Some s)) u = Ok ((), u') ∧
    widgets (u_world u') T can (focus_is (Some x)).
Proof.
  intros HW Hx Hc Hacc. pose proof (ws_tree _ _ _ _ HW) as (_ & N & _).
  destruct (focusNext_ok T can u s (Some x) 2 HW Hacc) as (u1 & E1 & HW1 & Hacc1). run_with E1.
  destruct (focusPrev_ok T can u1 (Some s) _ 0 HW1 Hacc1) as (u2 & E2 & HW2 & _). exists u2. split; [exact E2|].
  destruct (prev_next can _ N x Hx Hc) as (y & Hy & Hp). by rewrite Hy, Hp in HW2.
Qed.

Fixpoint focusNext_times (k : nat) (tree s : oloc) : UM () :=
  match k with O => mret () | S k => widget_focusNext (Some tree) (Some s);; focusNext_times k tree s end.
Lemma focusNext_times_ok T can s k u old n :
  widgets (u_world u) T can (focus_is old) → accepts (2 * k + n) (u_renderman u) →
  ∃ u', focusNext_times k (root T) s u = Ok ((), u') ∧
    widgets (u_world u') T can (focus_is (Nat.iter k (focus_next can (preorder T)) old)) ∧ accepts n (u_renderman u').
Proof.
  revert u old; induction k as [|k IH]; intros u old HW Hacc; [by exists u|].
  replace (2 * S k + n)%nat with (2 + (2 * k + n))%nat in Hacc by lia.
  destruct (focusNext_ok T can u s old _ HW Hacc) as (u1 & E1 & HW1 & Hacc1). cbn [focusNext_times]. run_with E1.
  rewrite Nat.iter_succ_r. by apply IH.
Qed.

(** ** Instances: a box with two entries, the first with the focus *)
Definition focus_obj (cs : list oloc) (p : option oloc) (e : list (Z * floc)) : DataObject :=
  with_enumData e (with_parent p (with_children cs empty_object)).
Definition focus_world : world :=
  mkWorld (list_to_map [(1%positive, focus_obj [2%positive; 3%positive] None [(TYPE, 1%positive)]);
                        (2%positive, focus_obj [] (Some 1%positive)
                           [(TYPE, 2%positive); (CANFOCUS, 3%positive); (HASFOCUS, 4%positive)]);
                        (3%positive, focus_obj [] (Some 1%positive) [(TYPE, 2%positive); (CANFOCUS, 3%positive)])]) 4
    (mkFH (list_to_map [(1%positive, mkField (DOF_STRING (SBuiltin EMO_TYPE_BOX)) 0);
                        (2%positive, mkField (DOF_STRING (SBuiltin EMO_TYPE_ENTRY)) 0);
                        (3%positive, mkField (DOF_INT 1) 0); (4%positive, mkField (DOF_INT 1) 0)]) 5).
Definition focus_ui : ui :=
  mkUi focus_world (Some (mkRM demo_array demo_array RM_COMPLETE_REDRAW)) ∅ [] None 1 None.
Definition focus_tree : tree := Node 1 [Node 2 []; Node 3 []].
Definition focus_can : oloc → bool := λ d, bool_decide (d ≠ 1%positive).
Ltac three Hd := cbn in Hd; rewrite !elem_of_cons, elem_of_nil in Hd; destruct Hd as [->|[->|[->|[]]]].
Lemma al_find_in {K} `{EqDecision K} {V} (k : K) (v : V) l : al_find k l = Some v → (k, v) ∈ l.
Proof. induction l as [|[k' v'] l IH]; [done|]. simpl. case_decide; [intros [= ->]; subst; set_solver|]. set_solver. Qed.
Definition focus_fields (d : oloc) : list (Z * floc) := default [] (o_enumData <$> w_objs focus_world !! d).
Lemma locate_focus_world d e f : d ∈ preorder focus_tree → locate focus_world d e = Some f → (e, f) ∈ focus_fields d.
Proof. unfold locate, focus_fields. destruct (w_objs focus_world !! d); [|done]. intros _. apply al_find_in. Qed.
Lemma focus_widgets : widgets focus_world focus_tree focus_can (focus_is (Some 2%positive)).
Proof.
  split.
  - split_and!; [|apply (bool_decide_unpack _); reflexivity|vm_compute; reflexivity].
    repeat (econstructor; [reflexivity..|]; repeat constructor); repeat econstructor.
  - split; intros x Hx; apply not_elem_of_list_to_map_1; cbn; cbn in Hx; rewrite !elem_of_cons, elem_of_nil; naive_solver lia.
  - intros d Hd. three Hd; split; first
      [ by eexists; split_and!; reflexivity
      | eexists _, _, _; split_and!; [reflexivity|reflexivity|reflexivity|by repeat constructor]
      | reflexivity
      | by eexists _, _; split_and!; reflexivity ].
  - intros d f x e Hd Hx Hf%(locate_focus_world d) He%(locate_focus_world x); [|done..]. revert Hf He.
    three Hd; three Hx; vm_compute focus_fields; rewrite ?elem_of_cons, ?elem_of_nil; naive_solver.
  - intros x e f Hx He%(locate_focus_world x); [|done]. revert He.
    three Hx; vm_compute focus_fields; rewrite ?elem_of_cons, ?elem_of_nil; naive_solver.
Qed.
Lemma focus_next_then_prev_witness :
  ∃ u', (widget_focusNext (Some 1%positive) (Some 1%positive);; widget_focusPrev (Some 1%positive) (Some 1%positive)) focus_ui
      = Ok ((), u') ∧ widgets (u_world u') focus_tree focus_can (focus_is (Some 2%positive)).
Proof.
  apply (focus_next_then_prev focus_tree focus_can 2%positive focus_ui 1%positive focus_widgets).
  - apply (bool_decide_unpack _). reflexivity.
  - reflexivity.
  - apply (accepts_pending _ 4). reflexivity.
Defined.
