(* ===== verification/Styles.v ===== *)
(** * Style.c: styles

    A style is a data object: its children are the styles for types and ids, its fields
    are the properties.  A lookup goes from the style to its parents and then to the
    root style.  Where the C code writes 1 to [*wentUp], the functions return it. *)
From S2P Require Import Prelude Lgui CStrings FieldNames Fields DataObjects Ui.

(** The selector of a style child is its type field: a built-in type is compared as a
    pointer, any other as a text. *)
Definition style_matches (child : oloc) (id : option str_ptr) : UM bool :=
  type ← getField child EMO_FIELD_TYPE;
  f ← deref type; c ← in_fields (get_field f);
  match f_value c with
  | DOF_STRING p =>
      if is_builtin p then mret (bool_decide (id = Some p)) else
      id ← emo_nonnull id; s ← deref (str_content id); in_fields (isString_inline type s)
  | _ => _ ← emo_nonnull id; mret false
  end.
(** The first match with the wanted focus, otherwise the first match. *)
Definition int_of_bool (b : bool) : Z := if b then 1 else 0.
Fixpoint style_level (id : option str_ptr) (isFocused : Z) (cs : list oloc) (output : option oloc) : UM (option oloc) :=
  match cs with
  | [] => mret output
  | child :: cs =>
      matches ← style_matches child id;
      if negb (matches : bool) then style_level id isFocused cs output else
      focus ← widget_hasFocusOrParent (Some child);
      if int_of_bool focus =? isFocused then mret (Some child) else
      style_level id isFocused cs (match output with None => Some child | _ => output end)
  end.
Fixpoint style_getID_loop (fuel : nat) (id : option str_ptr) (isFocused : Z) (styleRoot : oloc) (wentUp : bool) :
    UM (oloc * bool) :=
  match fuel with
  | O => no_fuel
  | S fuel =>
      cs ← children_of styleRoot;
      output ← style_level id isFocused cs None;
      match output with
      | Some s => mret (s, wentUp)
      | None =>
          o ← obj styleRoot;
          match o_parent o with
          | Some p => style_getID_loop fuel id isFocused p true
          | None =>
              root ← manager_getRootStyle;
              if decide (styleRoot = root) then mret (styleRoot, wentUp)
              else style_getID_loop fuel id isFocused root true
          end
      end
  end.
(** A chain of parents up to its end, and then the root style with its own. *)
Definition style_fuel (u : ui) : nat := ui_fuel u + ui_fuel u.
Definition style_getID (styleRoot : option oloc) (otype oid : option str_ptr) (isFocused : Z) : UM (oloc * bool) :=
  s ← emo_nonnull styleRoot; u ← get;
  style_getID_loop (style_fuel u) (match oid with None => otype | _ => oid end) isFocused s false.

(** ** Properties *)
Section Property.
(** How a field is read. *)
Variable read : oloc → UM (option floc).
Fixpoint property_up (fuel : nat) (s : oloc) : UM (option floc) :=
  match fuel with
  | O => no_fuel
  | S fuel =>
      output ← read s;
      match output with
      | Some f => mret (Some f)
      | None => o ← obj s; match o_parent o with Some p => property_up fuel p | None => mret None end
      end
  end.
Definition property_from (os dobj : oloc) : UM (option floc) :=
  output ← read dobj;
  match output with Some f => mret (Some f) | None => u ← get; property_up (ui_fuel u) os end.
Definition style_property (os dobj : oloc) : UM (option floc) :=
  output ← property_from os dobj;
  match output with
  | Some f => mret (Some f)
  | None =>
      root ← manager_getRootStyle;
      if decide (os = root) then mret None else property_from root dobj
  end.
End Property.
Definition style_getProperty (os dobj : option oloc) (key : EmoField) : UM (option floc) :=
  s ← emo_nonnull os; d ← emo_nonnull dobj; style_property (λ x, getField x key) s d.
Definition style_getPropertyAsInt (os dobj : option oloc) (key : EmoField) : UM (option floc) :=
  s ← emo_nonnull os; d ← emo_nonnull dobj; style_property (λ x, getFieldAsInt x key) s d.
(** The color, when the property is a number. *)
Definition style_getColor (s dobj : option oloc) (key : EmoField) : UM (option Z) :=
  output ← style_getPropertyAsInt s dobj key;
  match output with
  | None => mret None
  | Some f =>
      c ← in_fields (get_field f);
      mret (match f_value c with DOF_UINT u => Some u | DOF_INT i => Some (uint32 i) | _ => None end)
  end.

(** The renderers of WidgetRenderer.c; buttons are drawn by the one for boxes. *)
Inductive renderer := R_box | R_image | R_label | R_text | R_entry | R_scrolled | R_scrollbar | R_checkbox.
#[export] Instance renderer_eq_dec : EqDecision renderer.
Proof. solve_decision. Defined.
Definition renderer_names : list (string * renderer) :=
  [("box", R_box); ("button", R_box); ("image", R_image); ("label", R_label); ("text", R_text); ("entry", R_entry);
   ("scrolled", R_scrolled); ("scrollbar", R_scrollbar); ("checkbox", R_checkbox)]%string.
Definition widgetRenderer_fromString (s : cstring) : option renderer :=
  snd <$> List.find (λ p, bool_decide (s = lit p.1)) renderer_names.
Definition style_getRenderer (s dobj : option oloc) (key : EmoField) : UM (option renderer) :=
  output ← style_getProperty s dobj key;
  match output with
  | None => mret None
  | Some f =>
      c ← in_fields (get_field f);
      match f_value c with
      | DOF_STRING p => t ← deref (str_content p); mret (widgetRenderer_fromString t)
      | _ => mret None
      end
  end.

(** The stops of a gradient: positions in percent and colors. *)
Definition stop_number (unsigned : bool) (f : option floc) : UM Z :=
  match f with
  | None => mret 0
  | Some f => c ← in_fields (get_field f); i ← deref (field_integer c); mret (if unsigned then uint32 i else i)
  end.
Fixpoint gradient_stops_of (cs : list oloc) : UM (list (Z * Z)) :=
  match cs with
  | [] => mret []
  | child :: cs =>
      pos ← getFieldAsInt child EMO_FIELD_POSITION; position ← stop_number false pos;
      colorF ← getFieldAsInt child EMO_FIELD_COLOR; color ← stop_number true colorF;
      l ← gradient_stops_of cs; mret ((position, color) :: l)
  end.
Definition style_getGradient (s : option oloc) : UM (option (list (Z * Z))) :=
  s ← emo_nonnull s; type ← getField s EMO_FIELD_TYPE;
  gradient ← is_type type EMO_TYPE_GRADIENT;
  if negb (gradient : bool) then mret None else
  cs ← children_of s; l ← gradient_stops_of cs; mret (Some l).
