(* ===== verification/StyleRules.v ===== *)
(** * Properties of the style lookups

    Both lookups end and give the first hit in an order that the theorems spell out:
    the object, then the style and its parents, then the root style. *)
From S2P Require Import Prelude Lgui CStrings FieldNames Fields DataObjects ObjectTrees ObjectFields Ui Modify Focus.
From S2P Require Import FocusTrees Styles.

(** The parents of an object, itself first. *)
Inductive chain (objs : gmap oloc DataObject) : oloc → list oloc → Prop :=
  | chain_top s o : objs !! s = Some o → o_parent o = None → chain objs s [s]
  | chain_up s o p l : objs !! s = Some o → o_parent o = Some p → chain objs p l → chain objs s (s :: l).
Lemma chain_det objs s l l' : chain objs s l → chain objs s l' → l = l'.
Proof.
  intros H. revert l'. induction H as [s o Ho Hp|s o p l Ho Hp H IH]; intros l'; inversion 1; simplify_eq; [done|].
  f_equal. by apply IH.
Qed.
Lemma chain_suffix objs s l x : chain objs s l → x ∈ l → ∃ l', chain objs x l' ∧ (length l' ≤ length l)%nat.
Proof.
  induction 1 as [s o Ho Hp|s o p l Ho Hp H IH]; intros Hx.
  - apply list_elem_of_singleton in Hx as ->. eexists. split; [by eapply chain_top|done].
  - apply elem_of_cons in Hx as [->|Hx].
    + eexists. split; [by eapply chain_up|done].
    + destruct (IH Hx) as (l' & ? & ?). exists l'. split; [done|simpl; lia].
Qed.
Lemma chain_NoDup objs s l : chain objs s l → NoDup l.
Proof.
  induction 1 as [s o Ho Hp|s o p l Ho Hp H IH]; [apply NoDup_singleton|]. apply NoDup_cons. split; [|done].
  intros Hs. destruct (chain_suffix _ _ _ _ H Hs) as (l' & H' & Hle).
  pose proof (chain_det _ _ _ _ H' (chain_up _ _ _ _ _ Ho Hp H)) as ->. simpl in Hle. lia.
Qed.
Lemma chain_dom objs s l x : chain objs s l → x ∈ l → is_Some (objs !! x).
Proof. induction 1; [intros ->%list_elem_of_singleton|intros [->|?]%elem_of_cons]; eauto. Qed.
Lemma chain_fuel objs s l : chain objs s l → (length l ≤ size objs)%nat.
Proof.
  intros H. pose proof (chain_NoDup _ _ _ H) as N. rewrite <-(size_dom (D := gset oloc)).
  rewrite <-(size_list_to_set (C := gset oloc) l N). apply subseteq_size. intros x Hx.
  apply elem_of_list_to_set in Hx. apply elem_of_dom. by eapply chain_dom.
Qed.
Lemma chain_head objs s l : chain objs s l → ∃ l', l = s :: l'.
Proof. destruct 1; eauto. Qed.

Section Lookup.
Context (u : ui).
Abbreviation objs := (w_objs (u_world u)).

(** ** Properties *)
Section Read.
Context (read : oloc → UM (option floc)) (value : oloc → option floc).
Lemma property_up_ok s l fuel : chain objs s l → (∀ d, d ∈ l → read d u = Ok (value d, u)) → (length l ≤ fuel)%nat →
  property_up read fuel s u = Ok (head (omap value l), u).
Proof.
  intros H. revert fuel. induction H as [s o Ho Hp|s o p l Ho Hp H IH]; intros [|fuel] Hr Hf; try (simpl in Hf; lia);
    cbn [property_up]; (erewrite bind_Ok by (apply Hr, list_elem_of_here)); csimpl; destruct (value s); try done;
    run_with (obj_ok u _ _ Ho); rewrite Hp; [done|].
  apply IH; [intros d Hd; apply Hr; set_solver|simpl in Hf; lia].
Qed.
Lemma style_property_ok os dobj l lr : chain objs os l → chain objs (u_style u) lr →
  (∀ d, d ∈ dobj :: l ++ lr → read d u = Ok (value d, u)) →
  style_property read os dobj u =
    Ok (head (omap value (dobj :: l ++ if decide (os = u_style u) then [] else lr)), u).
Proof.
  intros H Hr Hread. pose proof (chain_fuel _ _ _ H). pose proof (chain_fuel _ _ _ Hr).
  assert (∀ s l', chain objs s l' → l' ⊆ l ++ lr →
    property_from read s dobj u = Ok (head (omap value (dobj :: l')), u)) as Hfrom.
  { intros s l' Hs Hsub. unfold property_from. erewrite bind_Ok by (apply Hread, list_elem_of_here). csimpl.
    destruct (value dobj); [done|]. erewrite bind_Ok by reflexivity. apply (property_up_ok s l' (ui_fuel u)); [done|set_solver|].
    unfold ui_fuel, walk_fuel. pose proof (chain_fuel _ _ _ Hs). lia. }
  unfold style_property. rewrite (bind_Ok _ _ _ _ _ (Hfrom os l H ltac:(set_solver))). csimpl.
  destruct (value dobj) eqn:Hd; [done|]. rewrite omap_app.
  destruct (omap value l) as [|f fs]; cbn [head app]; [|done]. erewrite bind_Ok by reflexivity.
  destruct (decide _); [done|]. rewrite (Hfrom _ lr Hr) by set_solver. csimpl. by rewrite Hd.
Qed.
End Read.

(** C22: the properties cascade.  The value that counts is that of the widget itself, then
    of the style, then of the style's parents from the nearest to the top, and when
    none of them has the property that of the root style and its parents.  The lookup
    always ends. *)
Theorem style_property_cascades key value os dobj l lr : chain objs os l → chain objs (u_style u) lr →
  (∀ d, d ∈ dobj :: l ++ lr → getField d key u = Ok (value d, u)) →
  style_getProperty (Some os) (Some dobj) key u =
    Ok (head (omap value (dobj :: l ++ if decide (os = u_style u) then [] else lr)), u).
Proof.
  intros H Hr Hread. unfold style_getProperty. do 2 erewrite bind_Ok by reflexivity.
  by apply (style_property_ok (λ x, getField x key)).
Qed.

(** ** The style of a widget *)
Section Levels.
Context (id : option str_ptr) (isFocused : Z) (kids : oloc → list oloc) (matches foc : oloc → bool).
(** What is read at a style of the chain. *)
Definition level_reads (s : oloc) : Prop :=
  children_of s u = Ok (kids s, u) ∧
  ∀ c, c ∈ kids s → style_matches c id u = Ok (matches c, u) ∧
    (matches c = true → widget_hasFocusOrParent (Some c) u = Ok (foc c, u)).
Definition pick (cs : list oloc) : option oloc :=
  match List.find (λ c, matches c && (int_of_bool (foc c) =? isFocused)) cs with
  | Some c => Some c
  | None => List.find matches cs
  end.
Lemma style_level_ok cs output :
  (∀ c, c ∈ cs → style_matches c id u = Ok (matches c, u) ∧
    (matches c = true → widget_hasFocusOrParent (Some c) u = Ok (foc c, u))) →
  style_level id isFocused cs output u =
    Ok (match List.find (λ c, matches c && (int_of_bool (foc c) =? isFocused)) cs with
        | Some c => Some c
        | None => match output with Some x => Some x | None => List.find matches cs end
        end, u).
Proof.
  revert output. induction cs as [|c cs IH]; intros output Hc; cbn [style_level List.find].
  - by destruct output.
  - destruct (Hc c (list_elem_of_here _ _)) as [Hm Hf]. run_with Hm.
    destruct (matches c) eqn:Em; cbn [negb andb].
    + erewrite bind_Ok by by apply Hf. destruct (int_of_bool (foc c) =? isFocused); [done|]. rewrite IH by set_solver. by destruct output.
    + rewrite IH by set_solver. by destruct output.
Qed.
Lemma style_level_pick s : level_reads s → style_level id isFocused (kids s) None u = Ok (pick (kids s), u).
Proof. intros [_ Hc]. by rewrite style_level_ok. Qed.
Fixpoint level_search (levels : list oloc) (up : bool) : oloc * bool :=
  match levels with
  | [] => (u_style u, up)
  | s :: rest =>
      match pick (kids s) with
      | Some c => (c, up)
      | None => match rest with [] => (s, up) | _ => level_search rest true end
      end
  end.
Definition levels_of (s : oloc) (l : list oloc) : list oloc :=
  l ++ if decide (last l = Some (u_style u)) then [] else [u_style u].
Lemma style_getID_loop_ok s l up fuel orr : chain objs s l → objs !! u_style u = Some orr → o_parent orr = None →
  (∀ x, x ∈ levels_of s l → level_reads x) → (length (levels_of s l) ≤ fuel)%nat →
  style_getID_loop fuel id isFocused s up u = Ok (level_search (levels_of s l) up, u).
Proof.
  intros H Hor Hpr. revert up fuel.
  induction H as [s o Ho Hp|s o p l Ho Hp H IH]; intros up [|fuel] Hr Hf; try (unfold levels_of in Hf; simpl in Hf; lia).
  - assert (level_reads s) as Hs by (apply Hr; unfold levels_of; set_solver). destruct (Hs) as [Hk _].
    cbn [style_getID_loop]. run_with Hk. rewrite (bind_Ok _ _ _ _ _ (style_level_pick s Hs)). unfold levels_of in *. cbn [last] in *.
    destruct (decide (Some s = Some (u_style u))) as [[= ->]|Hne]; cbn [app level_search].
    + destruct (pick _); [done|]. run_with (obj_ok u _ _ Ho). rewrite Hp. erewrite bind_Ok by reflexivity.
      by rewrite decide_True.
    + destruct (pick (kids s)); [done|]. run_with (obj_ok u _ _ Ho). rewrite Hp. erewrite bind_Ok by reflexivity.
      rewrite decide_False by congruence. destruct fuel as [|fuel]; [simpl in Hf; lia|].
      assert (level_reads (u_style u)) as Hu by (apply Hr; set_solver). destruct (Hu) as [Hk' _].
      cbn [style_getID_loop]. run_with Hk'. rewrite (bind_Ok _ _ _ _ _ (style_level_pick _ Hu)). destruct (pick _); [done|].
      run_with (obj_ok u _ _ Hor). rewrite Hpr. erewrite bind_Ok by reflexivity. by rewrite decide_True.
  - destruct (chain_head _ _ _ H) as [l' El].
    assert (levels_of s (s :: l) = s :: levels_of p l) as EL by (unfold levels_of; by rewrite El).
    rewrite EL in *. assert (level_reads s) as Hs by (apply Hr; set_solver). destruct (Hs) as [Hk _].
    cbn [style_getID_loop level_search]. run_with Hk. rewrite (bind_Ok _ _ _ _ _ (style_level_pick s Hs)). destruct (pick (kids s)); [done|].
    run_with (obj_ok u _ _ Ho). rewrite Hp. rewrite IH; [|intros x Hx; apply Hr; set_solver|simpl in Hf; lia].
    by destruct (levels_of p l) eqn:E; [unfold levels_of in E; rewrite El in E|].
Qed.
Lemma level_search_hit l1 s l2 c up : (∀ x, x ∈ l1 → pick (kids x) = None) → pick (kids s) = Some c →
  level_search (l1 ++ s :: l2) up = (c, match l1 with [] => up | _ => true end).
Proof.
  revert up; induction l1 as [|x l1 IH]; intros up Hn Hc; cbn [app level_search]; [by rewrite Hc|].
  rewrite Hn by set_solver. replace (match l1 ++ s :: l2 with [] => (x, up) | _ => level_search (l1 ++ s :: l2) true end)
    with (level_search (l1 ++ s :: l2) true) by by destruct l1.
  rewrite IH; [by destruct l1|set_solver|done].
Qed.
Lemma level_search_miss l x up : (∀ y, y ∈ l ++ [x] → pick (kids y) = None) →
  level_search (l ++ [x]) up = (x, match l with [] => up | _ => true end).
Proof.
  revert up; induction l as [|y l IH]; intros up Hn; cbn [app level_search]; rewrite Hn by set_solver; [done|].
  replace (match l ++ [x] with [] => (y, up) | _ => level_search (l ++ [x]) true end)
    with (level_search (l ++ [x]) true) by by destruct l.
  rewrite IH; [by destruct l|set_solver].
Qed.
End Levels.

(** C18: the style for a type or an id.  The styles searched are the given one, its parents
    from the nearest to the top and, behind them, the root style.  The first of them
    that has a child for the selector decides: its first such child with the wanted
    focus, otherwise its first such child; [wentUp] tells whether it is not the given
    style.  When none has one, the root style itself is the result.  An id
    replaces the type: a widget whose id has no style gets the root style, not the style
    of its type.  The search always ends. *)
Theorem style_getID_nearest os otype oid isFocused kids matches foc l orr : chain objs os l →
  objs !! u_style u = Some orr → o_parent orr = None →
  let id := match oid with None => otype | _ => oid end in
  (∀ x, x ∈ levels_of os l → level_reads id kids matches foc x) →
  (∀ l1 s l2 c, levels_of os l = l1 ++ s :: l2 → (∀ x, x ∈ l1 → pick isFocused matches foc (kids x) = None) →
     pick isFocused matches foc (kids s) = Some c →
     style_getID (Some os) otype oid isFocused u = Ok ((c, negb (bool_decide (l1 = []))), u)) ∧
  ((∀ x, x ∈ levels_of os l → pick isFocused matches foc (kids x) = None) →
     style_getID (Some os) otype oid isFocused u = Ok ((u_style u, negb (bool_decide (os = u_style u))), u)).
Proof.
  intros H Hor Hpr id Hr.
  assert (style_getID (Some os) otype oid isFocused u =
    Ok (level_search isFocused kids matches foc (levels_of os l) false, u)) as E.
  { unfold style_getID. do 2 erewrite bind_Ok by reflexivity.
    apply (style_getID_loop_ok _ _ _ _ _ os l _ _ orr); try done.
    pose proof (chain_fuel _ _ _ H). unfold levels_of, style_fuel, ui_fuel, walk_fuel. rewrite length_app.
    destruct (decide _); simpl; lia. }
  rewrite E. split.
  - intros l1 s l2 c EL Hn Hc. rewrite EL, (level_search_hit _ _ _ _ _ _ _ c) by done. by destruct l1.
  - intros Hn. destruct (chain_head _ _ _ H) as [l' El].
    assert (∃ l1, levels_of os l = l1 ++ [u_style u] ∧ (l1 = [] ↔ os = u_style u)) as (l1 & EL & Hiff).
    { unfold levels_of in *. destruct (decide (last l = Some (u_style u))) as [Hl|Hl].
      - apply last_Some in Hl as [l1 ->]. exists l1. split; [by rewrite app_nil_r|]. split.
        + intros ->. by injection El.
        + intros ->. destruct l1 as [|x l1]; [done|]. exfalso. injection El as -> _.
          inversion H as [|? ? ? ? Ho Hp]; simplify_eq; by destruct l1.
      - exists l. split; [done|]. split; [by intros ->|]. intros ->. exfalso. apply Hl.
        inversion H as [|? ? ? ? Ho Hp]; simplify_eq; done. }
    rewrite EL in *. rewrite level_search_miss by done. f_equal. f_equal. f_equal.
    destruct l1; [by rewrite bool_decide_true by (by apply Hiff)|].
    rewrite bool_decide_false; [done|]. intros Hos%Hiff. done.
Qed.
End Lookup.

(** ** Instances: a root style for labels and boxes *)
Definition style_world : world :=
  mkWorld (list_to_map [(1%positive, focus_obj [2%positive; 3%positive] None [(enum_value EMO_FIELD_RENDERER, 3%positive)]);
                        (2%positive, focus_obj [] (Some 1%positive) [(TYPE, 1%positive)]);
                        (3%positive, focus_obj [] (Some 1%positive) [(TYPE, 2%positive)]);
                        (4%positive, focus_obj [] None [])]) 5
    (mkFH (list_to_map [(1%positive, mkField (DOF_STRING (SBuiltin EMO_TYPE_LABEL)) 0);
                        (2%positive, mkField (DOF_STRING (SBuiltin EMO_TYPE_BOX)) 0);
                        (3%positive, mkField (DOF_STRING (SHeap (lit "box"))) 0)]) 4).
Definition style_ui : ui := mkUi style_world None ∅ [] None 1 None.
Lemma style_chain : chain (w_objs style_world) 3 [3%positive; 1%positive].
Proof. eapply chain_up; [reflexivity|reflexivity|]. by eapply chain_top. Qed.
Lemma style_root_chain : chain (w_objs style_world) 1 [1%positive].
Proof. by eapply chain_top. Qed.
Lemma style_property_cascades_witness :
  style_getProperty (Some 3%positive) (Some 4%positive) EMO_FIELD_RENDERER style_ui = Ok (Some 3%positive, style_ui).
Proof.
  refine (style_property_cascades style_ui EMO_FIELD_RENDERER
    (λ d, if decide (d = 1%positive) then Some 3%positive else None) 3 4 _ _ style_chain style_root_chain _).
  intros d Hd. cbn in Hd. rewrite !elem_of_cons, elem_of_nil in Hd. destruct Hd as [->|[->|[->|[->|[]]]]]; reflexivity.
Defined.
Definition style_kids (d : oloc) : list oloc := if decide (d = 1%positive) then [2%positive; 3%positive] else [].
Definition is_label (d : oloc) : bool := bool_decide (d = 2%positive).
Lemma style_getID_nearest_witness :
  style_getID (Some 3%positive) (Some (SBuiltin EMO_TYPE_LABEL)) None 0 style_ui = Ok ((2%positive, true), style_ui).
Proof.
  refine (proj1 (style_getID_nearest style_ui 3 (Some (SBuiltin EMO_TYPE_LABEL)) None 0 style_kids is_label (λ _, false)
    _ _ style_chain eq_refl eq_refl _) [3%positive] 1%positive [] 2%positive eq_refl _ eq_refl).
  - intros x Hx. cbn in Hx. rewrite !elem_of_cons, elem_of_nil in Hx. destruct Hx as [->|[->|[]]].
    + split; [reflexivity|]. intros c Hc. by apply elem_of_nil in Hc.
    + split; [reflexivity|]. intros c Hc. change (style_kids 1) with [2%positive; 3%positive] in Hc.
      rewrite !elem_of_cons, elem_of_nil in Hc. destruct Hc as [->|[->|[]]]; split; reflexivity || done.
  - intros x ->%list_elem_of_singleton. reflexivity.
Defined.
