(* ===== verification/Layout.v ===== *)
(** * Layout: the measuring and placing of Widget.c

    The layout runs over the tree several times: margins, measures that do not depend on
    other widgets, measures that depend on children or parents, texts whose width is
    known, the second of these again, and positions.  [measure_font] and [measure_text]
    give what lgui_measure_font and lgui_measure_font_complex compute (Text.v), and
    [junk] is the value of a member of a local variable that a renderer leaves unset. *)
From S2P Require Import Prelude Arrays Lgui CStrings FieldNames Fields DataObjects Ui Modify Focus Styles.

Class Fonts := {
  measure_font : cstring → bool → UM (Z * Z);
  measure_text : cstring → Z → UM (Z * Z) }.

(** ** Boxes *)
Definition set_width (i : Z) (r : Rectangle) : Rectangle := mkRect (rx r) (ry r) i (rheight r).
Definition set_height (i : Z) (r : Rectangle) : Rectangle := mkRect (rx r) (ry r) (rwidth r) i.
Definition set_x (i : Z) (r : Rectangle) : Rectangle := mkRect i (ry r) (rwidth r) (rheight r).
Definition set_y (i : Z) (r : Rectangle) : Rectangle := mkRect (rx r) i (rwidth r) (rheight r).
Definition upd_box (w : oloc) (f : Rectangle → Rectangle) : UM () := upd w (λ o, with_box (f (o_box o)) o).
Definition upd_margin (w : oloc) (f : Rectangle → Rectangle) : UM () := upd w (λ o, with_margin (f (o_margin o)) o).
(** Width or height. *)
Inductive dimension := Width | Height.
Definition dim_flag (d : dimension) : Z :=
  match d with Width => DO_FLAG_LAYOUT_DIRTY_WIDTH | Height => DO_FLAG_LAYOUT_DIRTY_HEIGHT end.
Definition dim_field (d : dimension) : EmoField := match d with Width => EMO_FIELD_WIDTH | Height => EMO_FIELD_HEIGHT end.
Definition dim_size (d : dimension) (r : Rectangle) : Z := match d with Width => rwidth r | Height => rheight r end.
Definition dim_set (d : dimension) : Z → Rectangle → Rectangle := match d with Width => set_width | Height => set_height end.
(** The two margins along a dimension. *)
Definition dim_margin (d : dimension) (m : Rectangle) : Z :=
  match d with Width => rx m + rwidth m | Height => ry m + rheight m end.
Definition layout_dirty (w : oloc) (d : dimension) : UM bool :=
  i ← in_world (dataobject_isLayoutDirty (Some w) (dim_flag d)); mret (negb (i =? 0)).
Definition layout_clean (w : oloc) (d : dimension) : UM () :=
  in_world (dataobject_setLayoutClean (Some w) (dim_flag d)).

(** ** Renderers: margins and measures *)
Definition renderer_margin (r : renderer) : Rectangle :=
  match r with R_label => mkRect 3 2 3 2 | _ => rectangle_zero end.
Definition has_measure (r : renderer) : bool := match r with R_box | R_scrolled => false | _ => true end.
(** The text up to the terminator; without one it is read past the end. *)
Fixpoint until_nul (bytes : list Z) : option cstring :=
  match bytes with [] => None | b :: l => if b =? 0 then Some [] else cons b <$> until_nul l end.
(** The characters behind the pointer in a payload, which texts and bytes have. *)
Definition field_string_of (f : floc) : UM cstring :=
  c ← in_fields (get_field f);
  match f_value c with
  | DOF_STRING p => deref (str_content p)
  | DOF_DATA bytes _ => deref (until_nul bytes)
  | _ => fault
  end.
(** The field a label shows: a text field by its name, otherwise the data. *)
Definition label_field (w dobj : oloc) : UM (option floc) :=
  sourceField ← getField w EMO_FIELD_DATAFIELD;
  named ← (match sourceField with Some f => in_fields (is_string f) | None => mret false end);
  match sourceField, named with
  | Some f, true => s ← field_string_of f; in_world (dataobject_getValueReal (Some dobj) (Some s))
  | _, _ => getField dobj EMO_FIELD_DATA
  end.
(** What string_measure measures, and whether it is bold. *)
Definition label_text (w dobj : oloc) : UM (option (cstring * bool)) :=
  field ← label_field w dobj;
  boldField ← getField w EMO_FIELD_WEIGHT;
  isBold ← in_fields (dataobjectfield_isString boldField (Some (lit "bold")));
  match field with
  | None => mret None
  | Some f => str ← field_string_of f; mret (Some (str, isBold))
  end.
(** The text a text widget shows. *)
Definition text_text (w dobj : oloc) : UM cstring :=
  sourceField ← getField w EMO_FIELD_DATAFIELD;
  field ← (match sourceField with
           | None => getField dobj EMO_FIELD_DATA
           | Some f =>
               c ← in_fields (get_field f);
               match f_value c with
               | DOF_STRING p => s ← deref (str_content p); in_world (dataobject_getValue (Some dobj) (Some s))
               | DOF_INT i => in_world (dataobject_getEnum (Some dobj) i)
               | _ => getField dobj EMO_FIELD_DATA
               end
           end);
  match field with Some f => field_string_of f | None => mret [] end.
Section Renderers.
Context `{Fonts}.
Variable junk : Z.
(** string_measure *)
Definition string_measure (w dobj : oloc) : UM (Z * Z) :=
  t ← label_text w dobj;
  match t with None => mret (0, 0) | Some (str, isBold) => measure_font str isBold end.
(** text_measure, in the given width *)
Definition text_measure (w dobj : oloc) (x : Z) : UM (Z * Z) :=
  str ← text_text w dobj; '(x, y) ← measure_text str x; mret (x, int32 (y + 4)).
(** entry_measure: the field is made when it is missing *)
Definition entry_measure (dobj : oloc) : UM (Z * Z) :=
  field ← getField dobj EMO_FIELD_DATA;
  field ← (match field with
           | Some f => mret f
           | None => f ← in_fields (dataobjectfield_string (Some (SHeap []))); setField dobj EMO_FIELD_DATA f;; mret f
           end);
  str ← field_string_of field; '(x, y) ← measure_font str false; mret (x, int32 (y + 4)).
(** image_measure *)
Definition int_field (d : oloc) (f : EmoField) : UM (option Z) :=
  field ← getField d f;
  match field with
  | None => mret None
  | Some f => c ← in_fields (get_field f); mret (match f_value c with DOF_INT i => Some i | _ => None end)
  end.
Definition as_int_or (d : oloc) (f : EmoField) (dflt : Z) : UM Z :=
  field ← getFieldAsInt d f;
  match field with None => mret dflt | Some f => in_fields (get_integer f) end.
Definition image_measure (w dobj : oloc) : UM (Z * Z) :=
  width ← int_field dobj EMO_FIELD_WIDTH;
  match width with
  | None => mret (0, 0)
  | Some width =>
      height ← int_field dobj EMO_FIELD_HEIGHT;
      match height with
      | None => mret (0, 0)
      | Some height =>
          x ← as_int_or w EMO_FIELD_IMGWIDTH width; y ← as_int_or w EMO_FIELD_IMGHEIGHT height; mret (x, y)
      end
  end.
(** [wr->measure (wr, s, w, dobj, &p)] with [p.x = x]. *)
Definition renderer_measure (r : renderer) (w dobj : oloc) (x : Z) : UM (Z * Z) :=
  match r with
  | R_label => string_measure w dobj
  | R_text => text_measure w dobj x
  | R_entry => entry_measure dobj
  | R_image => image_measure w dobj
  | R_checkbox => mret (12, 12)
  | R_scrollbar => mret (8, junk)
  | R_box | R_scrolled => fault
  end.

(** ** What every pass does first: the style of a widget *)
Definition type_pointer (type : option floc) : UM (option str_ptr) :=
  match type with
  | None => mret None
  | Some f => c ← in_fields (get_field f);
              match f_value c with DOF_STRING p => mret (Some p) | _ => fault end
  end.
Definition widget_style (w s : oloc) (type : option floc) : UM (oloc * bool) :=
  id ← widget_getID (Some w);
  tp ← type_pointer type; hasFocus ← widget_hasFocus (Some w);
  style_getID (Some s) tp id hasFocus.
(** The style the screen of an application is shown with. *)
Definition app_style (a : aloc) : UM oloc :=
  style ← application_getCurrentStyle (Some a);
  match style with Some s => mret s | None => manager_getRootStyle end.
(** How a pass goes on below [w]: the screen of a frame with the application's style,
    the target of a reference with the style of [w], the children with [childStyle]. *)
Definition descend (rec : oloc → oloc → UM ()) (w : oloc) (type : option floc) (style childStyle : oloc) : UM () :=
  frame ← is_type type EMO_TYPE_FRAME;
  if frame : bool then
    (t ← frame_screen w; match t with Some (c, a) => s ← app_style a; rec c s | None => mret () end) else
  reference ← is_type type EMO_TYPE_REFERENCE;
  if reference : bool then
    (t ← reference_target w; match t with Some c => rec c style | None => mret () end) else
  cs ← children_of w; mfor (λ c, rec c childStyle) cs.

(** ** Margins *)
Definition margin_fields : list (EmoField * (Z → Rectangle → Rectangle)) :=
  [(EMO_FIELD_MARGINLEFT, set_x); (EMO_FIELD_MARGINRIGHT, set_width);
   (EMO_FIELD_MARGINTOP, set_y); (EMO_FIELD_MARGINBOTTOM, set_height)].
Definition own_margin (w style : oloc) : UM () :=
  field ← style_getPropertyAsInt (Some style) (Some w) EMO_FIELD_MARGIN;
  match field with
  | Some f => i ← in_fields (get_integer f); upd_margin w (λ _, mkRect i i i i)
  | None =>
      mfor (λ p : EmoField * (Z → Rectangle → Rectangle),
        field ← style_getPropertyAsInt (Some style) (Some w) p.1;
        match field with
        | Some f => i ← in_fields (get_integer f); upd_margin w (p.2 i)
        | None => mret ()
        end) margin_fields
  end.
(** The children get the style the widget was given, not their parent's. *)
Fixpoint resolveMargin_loop (fuel : nat) (w s : oloc) : UM () :=
  match fuel with
  | O => no_fuel
  | S fuel =>
      dobj ← data_of w; type ← getField w EMO_FIELD_TYPE;
      '(style, _) ← widget_style w s type;
      wr ← style_getRenderer (Some style) (Some w) EMO_FIELD_RENDERER;
      (match wr with Some r => upd_margin w (λ _, renderer_margin r) | None => mret () end);;
      own_margin w style;;
      descend (resolveMargin_loop fuel) w type style s
  end.
Definition widget_resolveMargin (w s : option oloc) : UM () :=
  w ← emo_nonnull w; s ← emo_nonnull s; u ← get; resolveMargin_loop (ui_fuel u) w s.

(** ** Measures that depend on nothing else *)
Definition ends_with_percent (s : cstring) : UM bool :=
  match last s with Some c => mret (c =? 37) | None => fault end.
Definition absolute_field (w : oloc) (d : dimension) : UM () :=
  sField ← getField w (dim_field d);
  match sField with
  | None => mret ()
  | Some f =>
      c ← in_fields (get_field f);
      match f_value c with
      | DOF_INT i => upd_box w (dim_set d i);; layout_clean w d
      | _ =>
          s ← field_string_of f; i ← deref (atoi s); percent ← ends_with_percent s;
          if percent : bool then mret () else upd_box w (dim_set d i);; layout_clean w d
      end
  end.
Fixpoint layoutMeasureAbsolute_loop (fuel : nat) (w s : oloc) : UM () :=
  match fuel with
  | O => no_fuel
  | S fuel =>
      dobj ← data_of w; type ← getField w EMO_FIELD_TYPE;
      '(style, wentUp) ← widget_style w s type;
      wr ← style_getRenderer (Some style) (Some w) EMO_FIELD_RENDERER;
      (match wr with
       | Some r =>
           if has_measure r then
             (text ← is_type type EMO_TYPE_TEXT;
              if text : bool then mret () else
              '(x, y) ← renderer_measure r w dobj junk;
              upd_box w (λ b, set_height y (set_width x b));; layout_clean w Width;; layout_clean w Height)
           else mret ()
       | None => mret ()
       end);;
      absolute_field w Width;; absolute_field w Height;;
      descend (layoutMeasureAbsolute_loop fuel) w type style (if wentUp : bool then s else style)
  end.
Definition widget_layoutMeasureAbsolute (w s : option oloc) : UM () :=
  w ← emo_nonnull w; s ← emo_nonnull s; u ← get; layoutMeasureAbsolute_loop (ui_fuel u) w s.

(** ** Texts, whose width is known now *)
Fixpoint layoutMeasureFinal_loop (fuel : nat) (w s : oloc) : UM () :=
  match fuel with
  | O => no_fuel
  | S fuel =>
      dobj ← data_of w; id ← widget_getID (Some w);
      type ← getField w EMO_FIELD_TYPE;
      match type with
      | None => mret ()
      | Some t =>
          '(style, wentUp) ← widget_style w s type;
          wr ← style_getRenderer (Some style) (Some w) EMO_FIELD_RENDERER;
          (match wr with
           | Some r =>
               if has_measure r then
                 (str ← field_string_of t;
                  if bool_decide (str = lit "text") then
                    (o ← obj w; '(_, y) ← renderer_measure r w dobj (rwidth (o_box o));
                     upd_box w (set_height y);; layout_clean w Height)
                  else mret ())
               else mret ()
           | None => mret ()
           end);;
          descend (layoutMeasureFinal_loop fuel) w type style (if wentUp : bool then s else style)
      end
  end.
Definition widget_layoutMeasureFinal (w s : option oloc) : UM () :=
  w ← emo_nonnull w; s ← emo_nonnull s; u ← get; layoutMeasureFinal_loop (ui_fuel u) w s.
End Renderers.
