(* ===== verification/Placing.v ===== *)
(** * Layout: relative measures and positions (Widget.c)

    What depends on other widgets: sizes in percent of the parent, the size of a
    container, which is that of its packed children, and the places of the children.
    The arithmetic of a row of children is kept in functions of its own
    ([measure_step], [place_step]) that the passes over the tree apply to each child. *)
From S2P Require Import Prelude Arrays Lgui CStrings FieldNames Fields DataObjects Ui Modify Focus Styles Layout.

(** ** Sizes in percent *)
(** [(int)(size * ((float)percent) / 100.0)]: the product is rounded to a [float], the
    quotient, a [double], is exact enough not to reach the next integer. *)
Definition percent_of (size percent : Z) : option Z :=
  let p := f32_mul (f32_of_Z (Z.abs size)) (f32_of_Z (Z.abs percent)) in
  let q := f_m p * 2 ^ f_e p / 100 in
  int_or_none (Z.sgn size * Z.sgn percent * q).
Definition parent_of_widget (w : oloc) : UM oloc := o ← obj w; deref (o_parent o).
(** Sizes above [w] from the top down. *)
Fixpoint forceResolveParent_loop (fuel : nat) (d : dimension) (w : oloc) : UM () :=
  match fuel with
  | O => no_fuel
  | S fuel =>
      o ← obj w;
      match o_parent o with
      | None => mret ()
      | Some p =>
          field ← getField w EMO_FIELD_TYPE; view ← is_type field EMO_TYPE_VIEW;
          if view : bool then mret () else
          dirty ← layout_dirty p d;
          when dirty (forceResolveParent_loop fuel d p);;
          po ← obj p; o ← obj w;
          upd_box w (dim_set d (int32 (dim_size d (o_box po) - dim_margin d (o_margin o))));;
          layout_clean w d
      end
  end.
Definition widget_layoutForceResolveParent (w : option oloc) (d : dimension) : UM () :=
  w ← emo_nonnull w; u ← get; forceResolveParent_loop (ui_fuel u) d w.
Definition relative_field (w : oloc) (d : dimension) : UM () :=
  sField ← getField w (dim_field d);
  match sField with
  | None => mret ()
  | Some f =>
      text ← in_fields (is_string f);
      if negb (text : bool) then mret () else
      s ← field_string_of f; i ← deref (atoi s); percent ← ends_with_percent s;
      if negb (percent : bool) then mret () else
      p ← parent_of_widget w; dirty ← layout_dirty p d;
      when dirty (widget_layoutForceResolveParent (Some p) d);;
      po ← obj p; size ← deref (percent_of (dim_size d (o_box po)) i);
      o ← obj w; upd_box w (dim_set d (int32 (size - dim_margin d (o_margin o))));;
      layout_clean w d
  end.

(** ** The size of a container *)
Record measure := mkMeasure {
  m_sumWidth : Z; m_sumHeight : Z; m_rowWidth : Z; m_rowHeight : Z; m_dirtyWidth : bool; m_dirtyHeight : bool }.
Definition outer (d : dimension) (box margin : Rectangle) : Z := int32 (dim_size d box + dim_margin d margin).
Definition imax (a b : Z) : Z := if b <? a then a else b.
(** One child, with the size the container has so far. *)
Definition measure_step (pack : Z) (width height : Z) (box margin : Rectangle) (dirtyW dirtyH : bool) (m : measure) : measure :=
  let ow := outer Width box margin in
  let oh := outer Height box margin in
  let dw := dirtyW || m_dirtyWidth m in
  let dh := dirtyH || m_dirtyHeight m in
  if pack =? WP_HGRID then
    let wrap := width <? int32 (m_rowWidth m + ow) in
    mkMeasure (if wrap then imax (m_rowWidth m) (m_sumWidth m) else m_sumWidth m)
      (if wrap then int32 (m_sumHeight m + m_rowHeight m) else m_sumHeight m)
      (int32 ((if wrap then 0 else m_rowWidth m) + ow)) (imax oh (if wrap then 0 else m_rowHeight m)) dw dh
  else if pack =? WP_VGRID then
    let wrap := height <? int32 (m_rowHeight m + oh) in
    mkMeasure (if wrap then int32 (m_sumWidth m + m_rowWidth m) else m_sumWidth m)
      (if wrap then imax (m_rowHeight m) (m_sumHeight m) else m_sumHeight m)
      (imax ow (if wrap then 0 else m_rowWidth m)) (int32 ((if wrap then 0 else m_rowHeight m) + oh)) dw dh
  else if pack =? WP_HORIZONTAL then
    mkMeasure (int32 (m_sumWidth m + ow)) (imax oh (m_sumHeight m)) (m_rowWidth m) (m_rowHeight m) dw dh
  else
    mkMeasure (imax ow (m_sumWidth m)) (int32 (m_sumHeight m + oh)) (m_rowWidth m) (m_rowHeight m) dw dh.
(** The last row. *)
Definition measure_end (pack : Z) (m : measure) : Z * Z :=
  if (0 <? m_rowHeight m) || (0 <? m_rowWidth m) then
    if pack =? WP_HGRID then (imax (m_rowWidth m) (m_sumWidth m), int32 (m_sumHeight m + m_rowHeight m))
    else (int32 (m_sumWidth m + m_rowWidth m), imax (m_rowHeight m) (m_sumHeight m))
  else (m_sumWidth m, m_sumHeight m).
Definition measure_zero : measure := mkMeasure 0 0 0 0 false false.
(** The widgets that count, of a set only the active one. *)
Definition measured_children (w : oloc) (type : option floc) : UM (list oloc) :=
  let own :=
    cs ← children_of w; set ← is_type type EMO_TYPE_SET;
    match cs, set with
    | _ :: _, true => c ← setwidget_activeItem (Some w); mret (match c with Some c => [c] | None => [] end)
    | _, _ => mret cs
    end in
  frame ← is_type type EMO_TYPE_FRAME;
  if frame : bool then (t ← frame_screen w; match t with Some (c, _) => mret [c] | None => own end) else
  reference ← is_type type EMO_TYPE_REFERENCE;
  if reference : bool then (t ← reference_target w; match t with Some c => mret [c] | None => own end) else own.
Section Measure.
Variable rec : oloc → UM ().
Fixpoint measure_children (w : oloc) (pack : Z) (cs : list oloc) (m : measure) : UM measure :=
  match cs with
  | [] => mret m
  | c :: cs =>
      rec c;;
      dirtyW ← layout_dirty c Width; dirtyH ← layout_dirty c Height;
      o ← obj w; co ← obj c;
      measure_children w pack cs
        (measure_step pack (rwidth (o_box o)) (rheight (o_box o)) (o_box co) (o_margin co) dirtyW dirtyH m)
  end.
Definition resolveMeasureRelative_step (w : oloc) : UM () :=
  relative_field w Width;; relative_field w Height;;
  type ← getField w EMO_FIELD_TYPE; pack ← widget_getPacking (Some w);
  cs ← measured_children w type;
  m ← measure_children w pack cs measure_zero;
  let '(sumWidth, sumHeight) := measure_end pack m in
  dirty ← layout_dirty w Width;
  when (negb (m_dirtyWidth m) && dirty) (upd_box w (set_width sumWidth);; layout_clean w Width);;
  dirty ← layout_dirty w Height;
  when (negb (m_dirtyHeight m) && dirty)
    (type ← getField w EMO_FIELD_TYPE; text ← is_type type EMO_TYPE_TEXT;
     when (negb text) (upd_box w (set_height sumHeight);; layout_clean w Height));;
  upd w (with_childBox (Some (sumWidth, sumHeight))).
End Measure.
Fixpoint resolveMeasureRelative_loop (fuel : nat) (w : oloc) : UM () :=
  match fuel with O => no_fuel | S fuel => resolveMeasureRelative_step (resolveMeasureRelative_loop fuel) w end.
Definition widget_resolveMeasureRelative (w : option oloc) : UM () :=
  w ← emo_nonnull w; u ← get; resolveMeasureRelative_loop (ui_fuel u) w.

(** ** Positions *)
(** Where the next child goes, and the size of the largest one of a row of a grid. *)
Record place := mkPlace { p_x : Z; p_y : Z; p_rowMax : Z }.
(** Where a child goes, and the next one.  [boxx], [boxy], [width], [height] and the start
    [ox], [oy] are those of the container. *)
Definition place_step (pack alignment : Z) (static : bool) (boxx boxy ox oy width height : Z) (box margin : Rectangle)
    (p : place) : Z * Z * place :=
  let ow := outer Width box margin in
  let oh := outer Height box margin in
  if pack =? WP_HGRID then
    let p := if width <? int32 (p_x p + ow - boxx) then mkPlace ox (int32 (p_y p + p_rowMax p)) 0 else p in
    (p_x p, p_y p, mkPlace (int32 (p_x p + ow)) (p_y p) (imax oh (p_rowMax p)))
  else if pack =? WP_VGRID then
    let p := if height <? int32 (p_y p + oh - boxy) then mkPlace (int32 (p_x p + p_rowMax p)) oy 0 else p in
    (p_x p, p_y p, mkPlace (p_x p) (int32 (p_y p + oh)) (imax ow (p_rowMax p)))
  else
    let horizontal := pack =? WP_HORIZONTAL in
    let next := if static then p else
                if horizontal then mkPlace (int32 (p_x p + ow)) (p_y p) (p_rowMax p)
                else mkPlace (p_x p) (int32 (p_y p + oh)) (p_rowMax p) in
    let shift :=
      if alignment =? WA_RIGHT then
        if horizontal then int32 (height - rheight box - ry margin) else int32 (width - rwidth box - rwidth margin)
      else if alignment =? WA_CENTER then
        if horizontal then Z.quot (int32 (height - oh)) 2 else Z.quot (int32 (width - ow)) 2
      else 0 in
    ((if horizontal then p_x p else int32 (p_x p + shift)),
     (if horizontal then int32 (p_y p + shift) else p_y p), next).
Definition placed_children (w : oloc) (type : option floc) : UM (list oloc * bool) :=
  let own := cs ← children_of w; mret (cs, false) in
  frame ← is_type type EMO_TYPE_FRAME;
  if frame : bool then (t ← frame_screen w; match t with Some (c, _) => mret ([c], true) | None => own end) else
  reference ← is_type type EMO_TYPE_REFERENCE;
  if reference : bool then (t ← reference_target w; match t with Some c => mret ([c], true) | None => own end) else own.
Definition own_position (w : oloc) (f : EmoField) (set : Z → Rectangle → Rectangle) : UM () :=
  field ← getFieldAsInt w f;
  match field with Some f => i ← in_fields (get_integer f); upd_box w (set i) | None => mret () end.
Section Position.
Variable rec : oloc → UM ().
Fixpoint place_children (w : oloc) (pack : Z) (static : bool) (ox oy width height : Z) (cs : list oloc) (p : place) : UM () :=
  match cs with
  | [] => mret ()
  | c :: cs =>
      alignment ← widget_getAlignment (Some c);
      o ← obj w; co ← obj c;
      let '(x, y, next) := place_step pack alignment static (rx (o_box o)) (ry (o_box o)) ox oy width height
                             (o_box co) (o_margin co) p in
      upd_box c (λ b, set_y y (set_x x b));;
      rec c;;
      place_children w pack static ox oy width height cs next
  end.
Definition resolvePosition_step (w : oloc) : UM () :=
  own_position w EMO_FIELD_X set_x;; own_position w EMO_FIELD_Y set_y;;
  o ← obj w;
  let xpos := int32 (rx (o_box o) + rx (o_margin o)) in
  let ypos := int32 (ry (o_box o) + ry (o_margin o)) in
  packing ← widget_getPacking (Some w);
  field ← getField w EMO_FIELD_TYPE;
  stack ← is_type field EMO_TYPE_STACK; set ← is_type field EMO_TYPE_SET;
  '(cs, single) ← placed_children w field;
  place_children w packing (stack || set) xpos ypos (rwidth (o_box o)) (rheight (o_box o)) cs (mkPlace xpos ypos 0);;
  if single : bool then mret () else
  scrolled ← is_type field EMO_TYPE_SCROLLED;
  when scrolled (scrolled_autoscroll (Some w)).
End Position.
Fixpoint resolvePosition_loop (fuel : nat) (w : oloc) : UM () :=
  match fuel with O => no_fuel | S fuel => resolvePosition_step (resolvePosition_loop fuel) w end.
Definition widget_resolvePosition (w : option oloc) : UM () :=
  w ← emo_nonnull w; u ← get; resolvePosition_loop (ui_fuel u) w.

(** ** The layout of a screen *)
Definition widget_resolveLayoutRoot `{Fonts} (junk : Z) (w s : option oloc) (resizeRoot : bool) : UM () :=
  w ← emo_nonnull w; s ← emo_nonnull s;
  dataobject_setLayoutDirtyAll (Some w);;
  widget_resolveMargin (Some w) (Some s);;
  when resizeRoot (upd_box w (λ _, mkRect 0 0 320 240);; upd_margin w (λ _, rectangle_zero));;
  cs ← children_of w; mfor (λ c, widget_layoutMeasureAbsolute junk (Some c) (Some s)) cs;;
  cs ← children_of w; mfor (λ c, widget_resolveMeasureRelative (Some c)) cs;;
  cs ← children_of w; mfor (λ c, widget_layoutMeasureFinal junk (Some c) (Some s)) cs;;
  cs ← children_of w; mfor (λ c, widget_resolveMeasureRelative (Some c)) cs;;
  widget_resolvePosition (Some w).
