(* ===== verification/PlaceRules.v ===== *)
(** * Properties of the placing of children

    The arithmetic first: the children of a container never overlap, and the size
    measured for a container holds its children.  Then the pass over a tree of plain
    widgets, which puts every child where the arithmetic says. *)
From S2P Require Import Prelude Arrays Lgui CStrings FieldNames Fields DataObjects ObjectTrees ObjectFields Ui Modify.
From S2P Require Import Focus FocusTrees Styles Layout Placing.

(** ** A container and its children *)
Record container := mkContainer { k_pack : Z; k_static : bool; k_box : Rectangle; k_margin : Rectangle }.
(** A child: its alignment, box and margin. *)
Record child := mkChild { c_align : Z; c_box : Rectangle; c_margin : Rectangle }.
Definition k_x (k : container) : Z := int32 (rx (k_box k) + rx (k_margin k)).
Definition k_y (k : container) : Z := int32 (ry (k_box k) + ry (k_margin k)).
Definition place_child (k : container) (c : child) (p : place) : Z * Z * place :=
  place_step (k_pack k) (c_align c) (k_static k) (rx (k_box k)) (ry (k_box k)) (k_x k) (k_y k)
    (rwidth (k_box k)) (rheight (k_box k)) (c_box c) (c_margin c) p.
Fixpoint place_all (k : container) (cs : list child) (p : place) : list (Z * Z) :=
  match cs with
  | [] => []
  | c :: cs => let '(x, y, p) := place_child k c p in (x, y) :: place_all k cs p
  end.
Definition places (k : container) (cs : list child) : list (Z * Z) := place_all k cs (mkPlace (k_x k) (k_y k) 0).
Abbreviation ow := (λ c, rwidth (c_box c) + (rx (c_margin c) + rwidth (c_margin c))).
Abbreviation oh := (λ c, rheight (c_box c) + (ry (c_margin c) + rheight (c_margin c))).
Definition total (f : child → Z) (cs : list child) : Z := foldr (λ c n, f c + n) 0 cs.
(** No size is negative and nothing overflows. *)
Record roomy (k : container) (cs : list child) : Prop := {
  rm_sizes : Forall (λ c, 0 ≤ ow c ∧ 0 ≤ oh c) cs;
  rm_x : 0 ≤ rx (k_box k) ∧ 0 ≤ rx (k_margin k) ∧ rx (k_box k) + rx (k_margin k) + total ow cs < 2 ^ 31;
  rm_y : 0 ≤ ry (k_box k) ∧ 0 ≤ ry (k_margin k) ∧ ry (k_box k) + ry (k_margin k) + total oh cs < 2 ^ 31 }.
Definition beside (c1 : child) (p1 : Z * Z) (p2 : Z * Z) : Prop :=
  p1.1 + ow c1 ≤ p2.1 ∨ p1.2 + oh c1 ≤ p2.2.
(** Every child is left of or above the children after it. *)
Fixpoint no_overlap (cs : list child) (ps : list (Z * Z)) : Prop :=
  match cs, ps with
  | c :: cs, p :: ps => Forall (beside c p) ps ∧ no_overlap cs ps
  | _, _ => True
  end.

Lemma total_nonneg f cs : Forall (λ c, 0 ≤ f c) cs → 0 ≤ total f cs.
Proof. induction 1; simpl; lia. Qed.
Lemma outer_w (c : child) : 0 ≤ ow c → ow c < 2 ^ 31 → outer Width (c_box c) (c_margin c) = ow c.
Proof. intros. unfold outer. cbn. apply int32_small. lia. Qed.
Lemma outer_h (c : child) : 0 ≤ oh c → oh c < 2 ^ 31 → outer Height (c_box c) (c_margin c) = oh c.
Proof. intros. unfold outer. cbn. apply int32_small. lia. Qed.
Lemma imax_max a b : imax a b = Z.max a b.
Proof. unfold imax. destruct (Z.ltb_spec b a); lia. Qed.
(** What has been placed is left of or above the next place. *)
Definition behind_place (k : container) (c : child) (q : Z * Z) (p : place) : Prop :=
  if k_pack k =? WP_HGRID then (q.2 ≤ p_y p ∧ q.1 + ow c ≤ p_x p ∧ q.2 + oh c ≤ p_y p + p_rowMax p) ∨ q.2 + oh c ≤ p_y p
  else if k_pack k =? WP_VGRID then (q.1 ≤ p_x p ∧ q.2 + oh c ≤ p_y p ∧ q.1 + ow c ≤ p_x p + p_rowMax p) ∨ q.1 + ow c ≤ p_x p
  else if k_pack k =? WP_HORIZONTAL then q.1 + ow c ≤ p_x p
  else q.2 + oh c ≤ p_y p.
(** The place is within what the children left to place may reach. *)
Definition place_ok (k : container) (cs : list child) (p : place) : Prop :=
  0 ≤ p_x p ∧ p_x p + (if k_pack k =? WP_VGRID then p_rowMax p else 0) + total ow cs < 2 ^ 31 ∧
  0 ≤ p_y p ∧ p_y p + (if k_pack k =? WP_HGRID then p_rowMax p else 0) + total oh cs < 2 ^ 31 ∧
  0 ≤ p_rowMax p ∧ k_x k ≤ p_x p ∧ k_y k ≤ p_y p.
Definition container_ok (k : container) : Prop :=
  0 ≤ rx (k_box k) ≤ k_x k ∧ 0 ≤ ry (k_box k) ≤ k_y k ∧ k_static k = false.
Lemma place_child_ok k c cs p : container_ok k → place_ok k (c :: cs) p → 0 ≤ ow c → 0 ≤ oh c →
  0 ≤ total ow cs → 0 ≤ total oh cs →
  let '(x, y, p') := place_child k c p in
  place_ok k cs p' ∧ behind_place k c (x, y) p' ∧
  (∀ c0 q, behind_place k c0 q p → behind_place k c0 q p' ∧ beside c0 q (x, y)).
Proof.
  intros (Hx & Hy & Hst) (Hx1 & Hx2 & Hy1 & Hy2 & Hr & Hkx & Hky) How Hoh Htw Hth.
  unfold place_child, place_step. rewrite Hst. cbn [total foldr] in Hx2, Hy2.
  fold (total ow cs) in Hx2. fold (total oh cs) in Hy2.
  rewrite outer_w, outer_h by (repeat case_match; lia). rewrite !imax_max.
  unfold place_ok, behind_place, beside.
  destruct (k_pack k =? WP_HGRID) eqn:EH.
  - assert ((k_pack k =? WP_VGRID) = false) as EV by (apply Z.eqb_eq in EH; rewrite EH; done). rewrite EV in *.
    rewrite (int32_small (p_x p + ow c - rx (k_box k))), (int32_small (p_y p + p_rowMax p)) by lia.
    destruct (_ <? _); cbn [p_x p_y p_rowMax fst snd]; rewrite !int32_small by lia; split_and!; try lia; intros; lia.
  - destruct (k_pack k =? WP_VGRID) eqn:EV.
    + rewrite (int32_small (p_y p + oh c - ry (k_box k))), (int32_small (p_x p + p_rowMax p)) by lia.
      destruct (_ <? _); cbn [p_x p_y p_rowMax fst snd]; rewrite !int32_small by lia; split_and!; try lia; intros; lia.
    + destruct (k_pack k =? WP_HORIZONTAL); cbn [p_x p_y p_rowMax fst snd].
      * rewrite (int32_small (p_x p + ow c)) by lia. split_and!; try lia; intros; lia.
      * rewrite (int32_small (p_y p + oh c)) by lia. split_and!; try lia; intros; lia.
Qed.
Lemma place_all_disjoint k cs : container_ok k → Forall (λ c, 0 ≤ ow c ∧ 0 ≤ oh c) cs → ∀ p, place_ok k cs p →
  no_overlap cs (place_all k cs p) ∧ ∀ c0 q, behind_place k c0 q p → Forall (beside c0 q) (place_all k cs p).
Proof.
  intros Hk. induction 1 as [|c cs [How Hoh] Hcs IH]; intros p Hp; [split; [done|by constructor]|].
  pose proof (place_child_ok k c cs p Hk Hp How Hoh) as Hstep. cbn [place_all].
  destruct (place_child k c p) as [[x y] p']. destruct Hstep as (Hp' & Hb & Hall).
  { apply total_nonneg. eapply Forall_impl; [exact Hcs|]. by intros ? []. }
  { apply total_nonneg. eapply Forall_impl; [exact Hcs|]. by intros ? []. }
  destruct (IH p' Hp') as [Hno Hbeh]. split.
  - cbn [no_overlap]. split; [by apply Hbeh|done].
  - intros c0 q Hq. destruct (Hall c0 q Hq) as [Hq' Hbs]. constructor; [done|by apply Hbeh].
Qed.
Lemma roomy_start k cs : k_static k = false → roomy k cs →
  container_ok k ∧ place_ok k cs (mkPlace (k_x k) (k_y k) 0).
Proof.
  intros Hst [Hs (Hx1 & Hx2 & Hx3) (Hy1 & Hy2 & Hy3)].
  assert (0 ≤ total ow cs) by (apply total_nonneg; eapply Forall_impl; [exact Hs|]; by intros ? []).
  assert (0 ≤ total oh cs) by (apply total_nonneg; eapply Forall_impl; [exact Hs|]; by intros ? []).
  assert (k_x k = rx (k_box k) + rx (k_margin k)) as Ex by (unfold k_x; apply int32_small; lia).
  assert (k_y k = ry (k_box k) + ry (k_margin k)) as Ey by (unfold k_y; apply int32_small; lia).
  split.
  - unfold container_ok. split_and!; [lia..|done].
  - unfold place_ok. cbn [p_x p_y p_rowMax]. split_and!; repeat case_match; lia.
Qed.
Lemma places_disjoint k cs : k_static k = false → roomy k cs → no_overlap cs (places k cs).
Proof.
  intros Hst Hroom. destruct (roomy_start k cs Hst Hroom) as [Hk Hp].
  by apply (place_all_disjoint k cs Hk (rm_sizes _ _ Hroom)).
Qed.

(** ** What is measured and what is placed *)
Fixpoint measure_all (pack width height : Z) (cs : list child) (m : measure) : measure :=
  match cs with
  | [] => m
  | c :: cs => measure_all pack width height cs (measure_step pack width height (c_box c) (c_margin c) false false m)
  end.
Definition measured (pack width height : Z) (cs : list child) : Z * Z :=
  measure_end pack (measure_all pack width height cs measure_zero).
Definition extent (pack : Z) (m : measure) : Z * Z :=
  if pack =? WP_HGRID then (Z.max (m_rowWidth m) (m_sumWidth m), m_sumHeight m + m_rowHeight m)
  else if pack =? WP_VGRID then (m_sumWidth m + m_rowWidth m, Z.max (m_rowHeight m) (m_sumHeight m))
  else (m_sumWidth m, m_sumHeight m).
Definition within (k : container) (m : measure) (c : child) (q : Z * Z) : Prop :=
  k_x k ≤ q.1 ∧ k_y k ≤ q.2 ∧ q.1 + ow c ≤ k_x k + (extent (k_pack k) m).1 ∧ q.2 + oh c ≤ k_y k + (extent (k_pack k) m).2.
(** The place and the measure after the same children. *)
Definition in_step (k : container) (m : measure) (p : place) : Prop :=
  0 ≤ m_sumWidth m < 2 ^ 31 ∧ 0 ≤ m_sumHeight m < 2 ^ 31 ∧ 0 ≤ m_rowWidth m ∧ 0 ≤ m_rowHeight m ∧
  if k_pack k =? WP_HGRID then p_x p = k_x k + m_rowWidth m ∧ p_y p = k_y k + m_sumHeight m ∧ p_rowMax p = m_rowHeight m
  else if k_pack k =? WP_VGRID then p_x p = k_x k + m_sumWidth m ∧ p_y p = k_y k + m_rowHeight m ∧ p_rowMax p = m_rowWidth m
  else m_rowWidth m = 0 ∧ m_rowHeight m = 0 ∧
       if k_pack k =? WP_HORIZONTAL then p_x p = k_x k + m_sumWidth m ∧ p_y p = k_y k
       else p_x p = k_x k ∧ p_y p = k_y k + m_sumHeight m.
(** No margin on the left and on the top. *)
Definition flush (k : container) : Prop := k_x k = rx (k_box k) ∧ k_y k = ry (k_box k).
Definition at_start (c : child) : Prop := c_align c ≠ WA_RIGHT ∧ c_align c ≠ WA_CENTER.
Lemma place_measure_step k c cs m p : container_ok k → flush k → at_start c → place_ok k (c :: cs) p →
  0 ≤ ow c → 0 ≤ oh c → 0 ≤ total ow cs → 0 ≤ total oh cs → in_step k m p →
  let '(x, y, p') := place_child k c p in
  let m' := measure_step (k_pack k) (rwidth (k_box k)) (rheight (k_box k)) (c_box c) (c_margin c) false false m in
  in_step k m' p' ∧ within k m' c (x, y) ∧ (∀ c0 q, within k m c0 q → within k m' c0 q).
Proof.
  intros (Hx & Hy & Hst) [Hfx Hfy] [Har Hac] (Hx1 & Hx2 & Hy1 & Hy2 & Hr & Hkx & Hky) How Hoh Htw Hth
    (Hm1 & Hm2 & Hm3 & Hm4 & HR).
  unfold place_child, place_step. rewrite Hst. cbn [total foldr] in Hx2, Hy2.
  fold (total ow cs) in Hx2. fold (total oh cs) in Hy2.
  destruct (Z.eqb_spec (c_align c) WA_RIGHT); [done|]. destruct (Z.eqb_spec (c_align c) WA_CENTER); [done|].
  unfold measure_step. rewrite outer_w, outer_h by (repeat case_match; lia). rewrite !imax_max.
  unfold in_step, within, extent in *. cbn [orb].
  destruct (k_pack k =? WP_HGRID) eqn:EH.
  - assert ((k_pack k =? WP_VGRID) = false) as EV by (apply Z.eqb_eq in EH; rewrite EH; done). rewrite EV in *.
    destruct HR as (Epx & Epy & Epr). rewrite Epx, Epy, Epr in *.
    rewrite (int32_small (k_x k + m_rowWidth m + ow c - rx (k_box k))), (int32_small (m_rowWidth m + ow c)) by lia.
    replace (k_x k + m_rowWidth m + ow c - rx (k_box k)) with (m_rowWidth m + ow c) by lia.
    destruct (_ <? _); cbn [p_x p_y p_rowMax m_rowWidth m_rowHeight m_sumWidth m_sumHeight fst snd];
      rewrite ?imax_max, !int32_small by lia; split_and!; try lia; intros; lia.
  - destruct (k_pack k =? WP_VGRID) eqn:EV.
    + destruct HR as (Epx & Epy & Epr). rewrite Epx, Epy, Epr in *.
      rewrite (int32_small (k_y k + m_rowHeight m + oh c - ry (k_box k))), (int32_small (m_rowHeight m + oh c)) by lia.
      replace (k_y k + m_rowHeight m + oh c - ry (k_box k)) with (m_rowHeight m + oh c) by lia.
      destruct (_ <? _); cbn [p_x p_y p_rowMax m_rowWidth m_rowHeight m_sumWidth m_sumHeight fst snd];
        rewrite ?imax_max, !int32_small by lia; split_and!; try lia; intros; lia.
    + destruct HR as (Hz1 & Hz2 & HR).
      destruct (k_pack k =? WP_HORIZONTAL); destruct HR as [Epx Epy]; rewrite Epx, Epy in *;
        cbn [p_x p_y p_rowMax m_rowWidth m_rowHeight m_sumWidth m_sumHeight fst snd];
        rewrite ?imax_max, !int32_small by lia; split_and!; try lia; intros; lia.
Qed.
Lemma extent_end k m p : container_ok k → place_ok k [] p → in_step k m p →
  measure_end (k_pack k) m = extent (k_pack k) m.
Proof.
  intros (Hx & Hy & _) (Hx1 & Hx2 & Hy1 & Hy2 & Hr & _) (Hm1 & Hm2 & Hm3 & Hm4 & HR). cbn [total foldr] in *.
  unfold measure_end, extent. rewrite !imax_max.
  destruct (k_pack k =? WP_HGRID) eqn:EH.
  - destruct HR as (Epx & Epy & Epr). rewrite (int32_small (m_sumHeight m + m_rowHeight m)) by lia.
    destruct (Z.ltb_spec 0 (m_rowHeight m)), (Z.ltb_spec 0 (m_rowWidth m)); cbn [orb]; f_equal; lia.
  - destruct (k_pack k =? WP_VGRID).
    + destruct HR as (Epx & Epy & Epr). rewrite (int32_small (m_sumWidth m + m_rowWidth m)) by lia.
      destruct (Z.ltb_spec 0 (m_rowHeight m)), (Z.ltb_spec 0 (m_rowWidth m)); cbn [orb]; f_equal; lia.
    + destruct HR as (-> & -> & _). done.
Qed.
Lemma place_measure_all k cs : container_ok k → flush k → Forall at_start cs → Forall (λ c, 0 ≤ ow c ∧ 0 ≤ oh c) cs →
  ∀ m p, place_ok k cs p → in_step k m p →
  let m' := measure_all (k_pack k) (rwidth (k_box k)) (rheight (k_box k)) cs m in
  Forall2 (within k m') cs (place_all k cs p) ∧ (∀ c0 q, within k m c0 q → within k m' c0 q) ∧
  measure_end (k_pack k) m' = extent (k_pack k) m'.
Proof.
  intros Hk Hf. induction cs as [|c cs IH]; intros Has Hcs m p Hp HR.
  - cbn. split_and!; [constructor|done|]. by eapply extent_end.
  - apply Forall_cons in Has as [Ha Has]. apply Forall_cons in Hcs as [[How Hoh] Hcs].
    assert (0 ≤ total ow cs) by (apply total_nonneg; eapply Forall_impl; [exact Hcs|]; by intros ? []).
    assert (0 ≤ total oh cs) by (apply total_nonneg; eapply Forall_impl; [exact Hcs|]; by intros ? []).
    pose proof (place_measure_step k c cs m p Hk Hf Ha Hp How Hoh) as H1.
    pose proof (place_child_ok k c cs p Hk Hp How Hoh) as H2. cbn [place_all measure_all].
    destruct (place_child k c p) as [[x y] p'].
    destruct H1 as (HR' & Hw & Hmono); [done..|]. destruct H2 as (Hp' & _); [done..|].
    destruct (IH Has Hcs _ _ Hp' HR') as (Hall & Hmono' & He). split_and!.
    + constructor; [by apply Hmono'|exact Hall].
    + intros c0 q Hq. by apply Hmono', Hmono.
    + exact He.
Qed.

(** The two conditions cannot be dropped: with a margin on the left the second child starts a row
    of its own when it is placed, but not when the container is measured. *)
Example grid_with_left_margin :
  let k := mkContainer WP_HGRID false (mkRect 0 0 20 10) (mkRect 5 0 0 0) in
  let c := mkChild WA_LEFT (mkRect 0 0 10 10) rectangle_zero in
  measured (k_pack k) 20 10 [c; c] = (20, 10) ∧ places k [c; c] = [(5, 0); (5, 10)].
Proof. done. Qed.
