(* ===== verification/PlaceTrees.v ===== *)
(** * Properties of the pass that places widgets

    On a tree of plain widgets with sizes, [widget_resolvePosition] changes only places,
    and puts the children of every widget where PlaceRules.v says. *)
From S2P Require Import Prelude Arrays Lgui CStrings FieldNames Fields DataObjects ObjectTrees ObjectFields Ui Modify.
From S2P Require Import Focus FocusTrees Styles Layout Placing PlaceRules.

(** A number, or a missing field that stands for [dflt]. *)
Definition number_field (w : world) (d : oloc) (e : EmoField) (dflt i : Z) : Prop :=
  match locate w d (enum_value e) with
  | None => i = dflt
  | Some f => ∃ fl, content w f = Some (mkField (DOF_INT i) fl)
  end.
Record packed (w : world) (pack align : oloc → Z) (d : oloc) : Prop := {
  pk_obj : is_Some (w_objs w !! d);
  pk_type : ∃ f p fl, locate w d TYPE = Some f ∧ content w f = Some (mkField (DOF_STRING p) fl) ∧
    has_flag DOFF_ARRAYSOURCE fl = false ∧ plain_type p ∧ p ≠ SBuiltin EMO_TYPE_SET;
  pk_x : locate w d (enum_value EMO_FIELD_X) = None;
  pk_y : locate w d (enum_value EMO_FIELD_Y) = None;
  pk_pack : number_field w d EMO_FIELD_PACKING WP_VERTICAL (pack d);
  pk_align : number_field w d EMO_FIELD_ALIGNMENT WA_LEFT (align d) }.

(** ** Only places change, and only those in [S] *)
Definition moved (S : list oloc) (w w' : world) : Prop :=
  w_fields w' = w_fields w ∧ w_brk w' = w_brk w ∧
  (∀ x, w_objs w !! x = None → w_objs w' !! x = None) ∧
  ∀ x o, w_objs w !! x = Some o → ∃ b, w_objs w' !! x = Some (with_box b o) ∧
    rwidth b = rwidth (o_box o) ∧ rheight b = rheight (o_box o) ∧ (x ∉ S → b = o_box o).
Lemma moved_refl S w : moved S w w.
Proof. split_and!; [done..|]. intros x o Ho. exists (o_box o). split; [by destruct o|done]. Qed.
Lemma moved_trans S1 S2 S w1 w2 w3 : moved S1 w1 w2 → moved S2 w2 w3 → S1 ⊆ S → S2 ⊆ S → moved S w1 w3.
Proof.
  intros (F1 & B1 & N1 & H1) (F2 & B2 & N2 & H2) Hs1 Hs2. split_and!; [congruence..|naive_solver|].
  intros x o Ho. destruct (H1 x o Ho) as (b1 & Ho1 & Hw1 & Hh1 & Hx1). destruct (H2 _ _ Ho1) as (b2 & Ho2 & Hw2 & Hh2 & Hx2).
  cbn [o_box with_box] in *. exists b2. split; [done|]. split_and!; [congruence..|]. intros Hx.
  rewrite Hx2 by set_solver. apply Hx1. set_solver.
Qed.
Lemma moved_one w d o x y : w_objs w !! d = Some o →
  moved [d] w (mkWorld (<[d := with_box (set_y y (set_x x (o_box o))) o]> (w_objs w)) (w_brk w) (w_fields w)).
Proof.
  intros Ho. split_and!; [done..| |]; cbn [w_objs]; intros z.
  - intros Hz. rewrite lookup_insert_ne; [done|]. intros ->. congruence.
  - intros oz Hz. destruct (decide (z = d)) as [->|Hne].
    + rewrite lookup_insert_eq. simplify_eq. eexists. split; [done|]. split_and!; [done..|]. set_solver.
    + rewrite lookup_insert_ne by done. exists (o_box oz). split; [by destruct oz|done].
Qed.
Section Moved.
Context (S : list oloc) (w w' : world) (HM : moved S w w').
Lemma locate_moved d e : locate w' d e = locate w d e.
Proof.
  destruct HM as (_ & _ & N & H). unfold locate. destruct (w_objs w !! d) as [o|] eqn:Ho.
  - by destruct (H d o Ho) as (b & -> & _).
  - by rewrite (N d Ho).
Qed.
Lemma content_moved f : content w' f = content w f.
Proof. destruct HM as (F & _). unfold content. by rewrite F. Qed.
Lemma number_moved d e dflt i : number_field w d e dflt i → number_field w' d e dflt i.
Proof. unfold number_field. rewrite locate_moved. destruct (locate _ _ _); [|done]. by setoid_rewrite content_moved. Qed.
Lemma packed_moved pack align d : packed w pack align d → packed w' pack align d.
Proof.
  intros [[o Ho] (f & p & fl & Hl & Hc & Hr) Hx Hy Hp Ha]. split.
  - destruct HM as (_ & _ & _ & H). destruct (H d o Ho) as (b & -> & _). by eexists.
  - exists f, p, fl. by rewrite locate_moved, content_moved.
  - by rewrite locate_moved.
  - by rewrite locate_moved.
  - by apply number_moved.
  - by apply number_moved.
Qed.
Lemma rep_moved q t : rep (w_objs w) q t → rep (w_objs w') q t.
Proof.
  revert q. induction t as [l ts IH] using tree_ind'. intros q Hr. inversion Hr as [? ? ? o Ho Hp Hc Hts]; subst.
  destruct HM as (_ & _ & _ & H). destruct (H l o Ho) as (b & Ho' & _).
  econstructor; [exact Ho'|done|done|]. rewrite Forall_forall in IH, Hts |- *. intros t Ht. apply IH; [done|by apply Hts].
Qed.
Lemma kids_moved d : kids w' d = kids w d.
Proof.
  destruct HM as (_ & _ & N & H). unfold kids. destruct (w_objs w !! d) as [o|] eqn:Ho.
  - by destruct (H d o Ho) as (b & -> & _).
  - by rewrite (N d Ho).
Qed.
End Moved.

(** ** A widget and its children as a container *)
Definition box_of (w : world) (d : oloc) : Rectangle := default rectangle_zero (o_box <$> w_objs w !! d).
Definition margin_of (w : world) (d : oloc) : Rectangle := default rectangle_zero (o_margin <$> w_objs w !! d).
Definition at_place (w : world) (d : oloc) : Z * Z := (rx (box_of w d), ry (box_of w d)).
Lemma kids_below w t q d c : rep (w_objs w) q t → d ∈ preorder t → c ∈ kids w d → c ∈ preorder t.
Proof.
  revert q. induction t as [l ts IH] using tree_ind'. intros q Hr Hd Hc. inversion Hr as [? ? ? o Ho Hp Hch Hts]; subst.
  cbn [preorder] in *. fold (forest ts) in *. apply elem_of_cons in Hd as [->|Hd].
  - rewrite (kids_obj w l o Ho), Hch in Hc. apply list_elem_of_further.
    apply list_elem_of_fmap in Hc as (t & -> & Ht). by apply in_forest_root.
  - apply list_elem_of_further. unfold forest in Hd. apply list_elem_of_In, in_concat in Hd as (l' & Hl & Hd).
    apply in_map_iff in Hl as (t & <- & Ht). apply list_elem_of_In in Ht, Hd. rewrite Forall_forall in IH, Hts.
    eapply in_forest; [exact Ht|]. by eapply IH; [|apply Hts| |].
Qed.
Section Tree.
Context (pack align : oloc → Z).
Definition as_container (w : world) (d : oloc) : container :=
  mkContainer (pack d) false (box_of w d) (margin_of w d).
Definition as_child (w : world) (c : oloc) : child :=
  mkChild (align c) (mkRect 0 0 (rwidth (box_of w c)) (rheight (box_of w c))) (margin_of w c).
Definition placed (w : world) (d : oloc) : Prop :=
  map (at_place w) (kids w d) = places (as_container w d) (map (as_child w) (kids w d)).

Lemma moved_box S w w' d : moved S w w' → d ∉ S → box_of w' d = box_of w d.
Proof.
  intros (_ & _ & N & H) Hd. unfold box_of. destruct (w_objs w !! d) as [o|] eqn:Ho.
  - destruct (H d o Ho) as (b & -> & _ & _ & Hb). simpl. by apply Hb.
  - by rewrite (N d Ho).
Qed.
Lemma moved_margin S w w' d : moved S w w' → margin_of w' d = margin_of w d.
Proof.
  intros (_ & _ & N & H). unfold margin_of. destruct (w_objs w !! d) as [o|] eqn:Ho.
  - by destruct (H d o Ho) as (b & -> & _).
  - by rewrite (N d Ho).
Qed.
Lemma moved_child S w w' c : moved S w w' → as_child w' c = as_child w c.
Proof.
  intros HM. unfold as_child. rewrite (moved_margin S w w' c HM). destruct HM as (_ & _ & N & H).
  unfold box_of. destruct (w_objs w !! c) as [o|] eqn:Ho.
  - destruct (H c o Ho) as (b & -> & Hw & Hh & _). cbn. by rewrite Hw, Hh.
  - by rewrite (N c Ho).
Qed.
Lemma placed_moved S w w' d : moved S w w' → d ∉ S → (∀ c, c ∈ kids w d → c ∉ S) → placed w d → placed w' d.
Proof.
  intros HM Hd Hc. unfold placed. rewrite (kids_moved S w w' HM). intros Hp.
  replace (as_container w' d) with (as_container w d).
  2:{ unfold as_container. by rewrite (moved_box S w w' d), (moved_margin S w w' d). }
  replace (map (as_child w') (kids w d)) with (map (as_child w) (kids w d)).
  2:{ apply map_ext. intros c. symmetry. by eapply moved_child. }
  rewrite <-Hp. apply map_ext_in. intros c Hin%list_elem_of_In. unfold at_place. by rewrite (moved_box S w w' c) by auto.
Qed.

(** ** Reading a plain widget *)
Lemma number_ok u d o e dflt i (names : list (string * Z)) : enum_value e ≠ -1 → w_objs (u_world u) !! d = Some o →
  number_field (u_world u) d e dflt i → enum_field names dflt e d u = Ok (i, u).
Proof.
  intros He Ho Hn. unfold enum_field, number_field in *. destruct (locate _ _ _) as [f|] eqn:Hl.
  - destruct Hn as [fl Hc]. rewrite (bind_Ok _ _ _ _ _ (getField_some u d e f _ He Hl Hc eq_refl)).
    unfold content in Hc.
    erewrite (bind_Ok _ _ _ false).
    2:{ apply in_fields_pure. unfold is_string, get_field. by erewrite bind_Ok by by rewrite Hc. }
    apply in_fields_pure. unfold get_integer, get_field. by erewrite bind_Ok by by rewrite Hc.
  - rewrite (bind_Ok _ _ _ _ _ (getField_none u d o e He Ho Hl)). by rewrite Hn.
Qed.
Lemma no_field_ok u d o e (set : Z → Rectangle → Rectangle) : enum_value e ≠ -1 → w_objs (u_world u) !! d = Some o →
  locate (u_world u) d (enum_value e) = None → own_position d e set u = Ok ((), u).
Proof.
  intros He Ho Hl. unfold own_position, getFieldAsInt. erewrite (bind_Ok _ _ _ None); [done|].
  by apply (getFieldAsInt_ok u d e None); [exact (getField_none u d o e He Ho Hl)|].
Qed.
Lemma plain_type_ok u d : packed (u_world u) pack align d →
  ∃ f, getField d EMO_FIELD_TYPE u = Ok (Some f, u) ∧
    (∀ ty, ty ∈ EMO_TYPE_SET :: special_types → is_type (Some f) ty u = Ok (false, u)).
Proof.
  intros [_ (f & p & fl & Hl & Hc & Hfl & Hp & Hset) _ _ _ _]. exists f.
  split; [exact (getField_some u d EMO_FIELD_TYPE f _ ltac:(done) Hl Hc Hfl)|]. intros ty Hty.
  rewrite (is_type_ok u f p fl ty Hc). f_equal. f_equal. apply elem_of_cons in Hty as [->|Hty].
  - by apply bool_decide_false.
  - by apply plain_ne.
Qed.
Lemma kids_plain u d o : w_objs (u_world u) !! d = Some o → Forall (packed (u_world u) pack align) (o_children o) →
  children_of d u = Ok (o_children o, u).
Proof.
  intros Ho Hall. apply in_world_pure. unfold dataobject_childIterator. erewrite bind_Ok by reflexivity.
  run_with (get_obj_ok (u_world u) d o Ho). destruct (o_children o) as [|c cs]; [done|].
  apply Forall_cons in Hall as [Hc _]. destruct (plain_type_ok u c Hc) as (f & E & Hno).
  unfold getField, in_world in E. destruct (dataobject_getEnum _ _ _) as [[r w']| | |] eqn:E'; try done.
  injection E as -> E. erewrite bind_Ok by exact E'. assert (w' = u_world u) as -> by (by destruct u; injection E).
  specialize (Hno EMO_TYPE_ARRAY ltac:(unfold special_types; set_solver)).
  unfold is_type, in_fields, in_world in Hno. destruct (on_fields _ _) as [[b w']| | |] eqn:E2; try done.
  injection Hno as -> Hw. erewrite bind_Ok by exact E2. by assert (w' = u_world u) as -> by (by destruct u; injection Hw).
Qed.

(** ** The pass *)
(** What the pass does at [t]. *)
Definition positions (t : tree) : Prop := ∀ u q fuel,
  rep (w_objs (u_world u)) q t → NoDup (preorder t) → Forall (packed (u_world u) pack align) (preorder t) →
  (length (preorder t) ≤ fuel)%nat →
  ∃ w', resolvePosition_loop fuel (root t) u = Ok ((), set_world w' u) ∧
    moved (tail (preorder t)) (u_world u) w' ∧ (∀ x, x ∈ preorder t → placed w' x).
Lemma upd_box_ok u c o x y : w_objs (u_world u) !! c = Some o →
  ∃ w', upd_box c (λ b, set_y y (set_x x b)) u = Ok ((), set_world w' u) ∧ moved [c] (u_world u) w' ∧ at_place w' c = (x, y).
Proof.
  intros Ho. eexists. split; [by apply in_world_ok, (upd_obj_ok _ c o)|]. split; [by apply moved_one|].
  unfold at_place, box_of. cbn [w_objs]. by rewrite lookup_insert_eq.
Qed.
Lemma place_step_sizes k al b m p : let '(w, h) := (rwidth b, rheight b) in
  place_step (k_pack k) al (k_static k) (rx (k_box k)) (ry (k_box k)) (k_x k) (k_y k)
    (rwidth (k_box k)) (rheight (k_box k)) b m p = place_child k (mkChild al (mkRect 0 0 w h) m) p.
Proof. done. Qed.
Lemma place_children_ok ts : Forall positions ts → ∀ u d od p fuel k,
  w_objs (u_world u) !! d = Some od → Forall (rep (w_objs (u_world u)) (Some d)) ts → NoDup (d :: forest ts) →
  Forall (packed (u_world u) pack align) (forest ts) → (length (forest ts) ≤ fuel)%nat →
  k = as_container (u_world u) d →
  ∃ w', place_children (resolvePosition_loop fuel) d (pack d) false (k_x k) (k_y k) (rwidth (k_box k)) (rheight (k_box k))
      (map root ts) p u = Ok ((), set_world w' u) ∧
    moved (forest ts) (u_world u) w' ∧
    map (at_place w') (map root ts) = place_all k (map (as_child (u_world u)) (map root ts)) p ∧
    (∀ x, x ∈ forest ts → placed w' x).
Proof.
  induction 1 as [|t ts Ht Hts IH]; intros u d od p fuel k Hd Hr HN Hpk Hf Hk.
  - exists (u_world u). split; [by rewrite set_world_same|]. split; [apply moved_refl|]. split; [done|]. set_solver.
  - unfold forest in *. cbn [map concat] in *. fold (forest ts) in *. apply Forall_cons in Hr as [Hrt Hr].
    apply Forall_app in Hpk as [Hpt Hpk]. rewrite length_app in Hf. apply NoDup_cons in HN as [Hdn HN].
    apply NoDup_app in HN as (Nt & Hdis & Nts). set (c := root t) in *.
    destruct (rep_obj _ _ _ Hrt) as (oc & tsc & Et & Hoc & _). fold c in Hoc.
    assert (packed (u_world u) pack align c) as Hpc by (rewrite Forall_forall in Hpt; apply Hpt, root_in).
    cbn [place_children]. unfold widget_getAlignment. rewrite bind_assoc. erewrite bind_Ok by reflexivity.
    rewrite (bind_Ok _ _ _ _ _ (number_ok u c oc EMO_FIELD_ALIGNMENT WA_LEFT (align c) alignment_names ltac:(done) Hoc (pk_align _ _ _ _ Hpc))).
    run_with (obj_ok u d od Hd). run_with (obj_ok u c oc Hoc).
    assert (k_box k = o_box od) as Ekb by (rewrite Hk; cbn; unfold box_of; by rewrite Hd).
    assert (as_child (u_world u) c = mkChild (align c) (mkRect 0 0 (rwidth (o_box oc)) (rheight (o_box oc))) (o_margin oc)) as Ec.
    { unfold as_child, box_of, margin_of. by rewrite Hoc. }
    pose proof (place_step_sizes k (align c) (o_box oc) (o_margin oc) p) as Estep. cbv beta iota zeta in Estep.
    rewrite <-Ec in Estep. rewrite <-Ekb. assert (k_pack k = pack d ∧ k_static k = false) as [Ekp Eks] by by rewrite Hk.
    rewrite Ekp, Eks in Estep. rewrite Estep. cbn [place_all]. destruct (place_child k _ p) as [[x y] p'] eqn:Epc.
    destruct (upd_box_ok u c oc x y Hoc) as (w1 & E1 & HM1 & Hat1). run_with E1. set (u1 := set_world w1 u).
    destruct (Ht u1 (Some d) fuel) as (w2 & E2 & HM2 & Hpl2).
    { by eapply rep_moved. }
    { done. }
    { eapply Forall_impl; [exact Hpt|]. intros z Hz. by eapply packed_moved. }
    { lia. }
    run_with E2. set (u2 := set_world w2 u1).
    assert (moved (preorder t) (u_world u) w2) as HM12.
    { eapply moved_trans; [exact HM1|exact HM2| |].
      - intros z ->%list_elem_of_singleton. apply root_in.
      - intros z Hz. destruct (preorder t); [done|]. by apply list_elem_of_further. }
    assert (d ∉ preorder t) as Hdt by set_solver.
    assert (k = as_container w2 d) as Hk2.
    { rewrite Hk. unfold as_container. by rewrite (moved_box _ _ _ d HM12 Hdt), (moved_margin _ _ _ d HM12). }
    destruct (HM12) as (_ & _ & _ & Hobj). destruct (Hobj d od Hd) as (bd & Hd2 & _).
    destruct (IH u2 d (with_box bd od) p' fuel k) as (w3 & E3 & HM3 & Hat3 & Hpl3).
    { exact Hd2. }
    { eapply Forall_impl; [exact Hr|]. intros z Hz. by eapply rep_moved. }
    { apply NoDup_cons. split; [set_solver|done]. }
    { eapply Forall_impl; [exact Hpk|]. intros z Hz. by eapply packed_moved. }
    { lia. }
    { exact Hk2. }
    exists w3. split; [exact E3|]. split; [eapply moved_trans; [exact HM12|exact HM3|set_solver|set_solver]|]. split.
    + rewrite Hat3. cbn [map]. f_equal.
      * unfold at_place. assert (c ∈ preorder t) as Hct by apply root_in.
        rewrite (moved_box _ _ _ c HM3) by by apply Hdis. change (u_world u2) with w2. rewrite <-Hat1. unfold at_place.
        rewrite (moved_box _ _ _ c HM2); [done|]. rewrite Et in Nt |- *. cbn [preorder tail root] in *.
        by apply NoDup_cons in Nt as [? _].
      * f_equal. apply map_ext. intros z. by eapply moved_child.
    + intros z [Hz|Hz]%elem_of_app; [|by apply Hpl3]. eapply placed_moved; [exact HM3|by apply Hdis| |by apply Hpl2].
      intros c' Hc'. apply Hdis. eapply (kids_below w2 t (Some d)); [by eapply rep_moved|exact Hz|exact Hc'].
Qed.
Lemma positions_ok t : positions t.
Proof.
  induction t as [d ts IH] using tree_ind'. intros u q [|fuel] Hr HN Hpk Hf; [simpl in Hf; lia|].
  inversion Hr as [? ? ? o Ho Hp Hch Hts]; subst. cbn [preorder] in HN, Hpk, Hf. fold (forest ts) in HN, Hpk, Hf.
  apply Forall_cons in Hpk as [Hd Hpk]. cbn [resolvePosition_loop root].
  unfold resolvePosition_step.
  rewrite (bind_Ok _ _ _ _ _ (no_field_ok u d o EMO_FIELD_X set_x ltac:(done) Ho (pk_x _ _ _ _ Hd))).
  rewrite (bind_Ok _ _ _ _ _ (no_field_ok u d o EMO_FIELD_Y set_y ltac:(done) Ho (pk_y _ _ _ _ Hd))).
  run_with (obj_ok u d o Ho). cbv zeta. unfold widget_getPacking. rewrite bind_assoc. erewrite bind_Ok by reflexivity.
  rewrite (bind_Ok _ _ _ _ _ (number_ok u d o EMO_FIELD_PACKING WP_VERTICAL (pack d) packing_names ltac:(done) Ho (pk_pack _ _ _ _ Hd))).
  destruct (plain_type_ok u d Hd) as (f & Ef & Hno). run_with Ef.
  rewrite (bind_Ok _ _ _ _ _ (Hno EMO_TYPE_STACK ltac:(unfold special_types; set_solver))).
  rewrite (bind_Ok _ _ _ _ _ (Hno EMO_TYPE_SET ltac:(unfold special_types; set_solver))).
  erewrite (bind_Ok _ _ _ (map root ts, false) u).
  2:{ unfold placed_children.
      rewrite (bind_Ok _ _ _ _ _ (Hno EMO_TYPE_FRAME ltac:(unfold special_types; set_solver))).
      rewrite (bind_Ok _ _ _ _ _ (Hno EMO_TYPE_REFERENCE ltac:(unfold special_types; set_solver))).
      erewrite bind_Ok by (apply (kids_plain u d o Ho); rewrite Hch; apply Forall_forall; intros c (t & -> & Ht)%list_elem_of_fmap;
        rewrite Forall_forall in Hpk; by apply Hpk, in_forest_root). by rewrite Hch. }
  set (k := as_container (u_world u) d).
  destruct (place_children_ok ts IH u d o (mkPlace (k_x k) (k_y k) 0) fuel k Ho Hts HN Hpk) as (w' & E & HM & Hat & Hpl);
    [simpl in Hf; lia|done|].
  assert (k_box k = o_box o) as Ekb by (unfold k; cbn; unfold box_of; by rewrite Ho).
  assert (k_margin k = o_margin o) as Ekm by (unfold k; cbn; unfold margin_of; by rewrite Ho).
  unfold k_x, k_y in E. rewrite Ekb, Ekm in E. cbn [orb]. run_with E. exists w'. split.
  - assert (packed w' pack align d) as Hd' by by eapply packed_moved.
    destruct (plain_type_ok (set_world w' u) d Hd') as (f' & Ef' & Hno').
    assert (f' = f) as ->.
    { destruct (pk_type _ _ _ _ Hd) as (g & p & fl & Hl & Hc & Hfl & _).
      pose proof (getField_some u d EMO_FIELD_TYPE g _ ltac:(done) Hl Hc Hfl) as Eg. rewrite Ef in Eg. injection Eg as ->.
      rewrite <-(locate_moved _ _ _ HM) in Hl. rewrite <-(content_moved _ _ _ HM) in Hc.
      pose proof (getField_some (set_world w' u) d EMO_FIELD_TYPE g _ ltac:(done) Hl Hc Hfl) as Eg. rewrite Ef' in Eg.
      by injection Eg. }
    by rewrite (bind_Ok _ _ _ _ _ (Hno' EMO_TYPE_SCROLLED ltac:(unfold special_types; set_solver))).
  - split; [done|]. apply NoDup_cons in HN as [Hdn HN].
    assert (∀ c, c ∈ kids w' d → c ∈ forest ts) as Hkf.
    { intros c. rewrite (kids_moved _ _ _ HM), (kids_obj _ _ o Ho), Hch. intros (t & -> & Ht)%list_elem_of_fmap.
      by apply in_forest_root. }
    intros x [->|Hx]%elem_of_cons; [|by apply Hpl]. unfold placed.
    rewrite (kids_moved _ _ _ HM), (kids_obj _ _ o Ho), Hch, Hat. unfold places, as_container.
    rewrite (moved_box _ _ _ d HM Hdn), (moved_margin _ _ _ d HM). f_equal. apply map_ext. intros z. symmetry.
    by eapply moved_child.
Qed.
End Tree.

(** C3: the last pass of the layout on a tree of plain widgets.  It ends, changes nothing but
    the places of the widgets below the root, and afterwards the children of every widget
    are where the packing of the widget puts them; where sizes are not negative and nothing
    overflows, no two children of a widget overlap. *)
Theorem siblings_do_not_overlap pack align T u :
  tree_in (u_world u) T → Forall (packed (u_world u) pack align) (preorder T) →
  ∃ w', widget_resolvePosition (Some (root T)) u = Ok ((), set_world w' u) ∧
    moved (tail (preorder T)) (u_world u) w' ∧
    ∀ d, d ∈ preorder T →
      let k := as_container pack w' d in
      let cs := map (as_child align w') (kids w' d) in
      map (at_place w') (kids w' d) = places k cs ∧
      (roomy k cs → no_overlap cs (map (at_place w') (kids w' d))).
Proof.
  intros (HR & N & _) Hpk. pose proof (preorder_fuel _ _ _ HR N) as Hf.
  destruct (positions_ok pack align T u None (ui_fuel u) HR N Hpk) as (w' & E & HM & Hpl); [unfold ui_fuel; lia|].
  exists w'. split; [|split; [done|]].
  - unfold widget_resolvePosition. by do 2 erewrite bind_Ok by reflexivity.
  - intros d Hd k cs. specialize (Hpl d Hd). unfold placed in Hpl. split; [exact Hpl|]. intros Hroom. rewrite Hpl.
    by apply places_disjoint.
Qed.

(** ** An instance: a column of a row of two boxes and another box *)
Definition sized (width height : Z) (o : DataObject) : DataObject := with_box (mkRect 0 0 width height) o.
Definition column_world : world :=
  mkWorld (list_to_map [(1%positive, sized 40 40 (focus_obj [2%positive; 5%positive] None [(TYPE, 1%positive)]));
                        (2%positive, sized 20 10 (focus_obj [3%positive; 4%positive] (Some 1%positive)
                           [(TYPE, 1%positive); (enum_value EMO_FIELD_PACKING, 2%positive)]));
                        (3%positive, sized 10 10 (focus_obj [] (Some 2%positive) [(TYPE, 1%positive)]));
                        (4%positive, sized 10 10 (focus_obj [] (Some 2%positive) [(TYPE, 1%positive)]));
                        (5%positive, sized 10 10 (focus_obj [] (Some 1%positive) [(TYPE, 1%positive)]))]) 6
    (mkFH (list_to_map [(1%positive, mkField (DOF_STRING (SBuiltin EMO_TYPE_BOX)) 0);
                        (2%positive, mkField (DOF_INT WP_HORIZONTAL) 0)]) 3).
Definition column_ui : ui := mkUi column_world None ∅ [] None 1 None.
Definition column_tree : tree := Node 1 [Node 2 [Node 3 []; Node 4 []]; Node 5 []].
Definition column_pack (d : oloc) : Z := if decide (d = 2%positive) then WP_HORIZONTAL else WP_VERTICAL.
Lemma column_in : tree_in column_world column_tree.
Proof.
  split_and!; [|apply (bool_decide_unpack _); reflexivity|vm_compute; reflexivity].
  repeat (econstructor; [reflexivity..|]; repeat constructor); repeat econstructor.
Qed.
Lemma column_packed : Forall (packed column_world column_pack (λ _, WA_LEFT)) (preorder column_tree).
Proof.
  repeat constructor; first [by eexists | reflexivity | by eexists _, _, _; split_and!; [reflexivity..|repeat constructor|] | by eexists].
Qed.
Lemma siblings_do_not_overlap_witness :
  ∃ w', widget_resolvePosition (Some 1%positive) column_ui = Ok ((), set_world w' column_ui) ∧
    moved [2%positive; 3%positive; 4%positive; 5%positive] column_world w' ∧
    ∀ d, d ∈ preorder column_tree →
      let k := as_container column_pack w' d in
      let cs := map (as_child (λ _, WA_LEFT) w') (kids w' d) in
      map (at_place w') (kids w' d) = places k cs ∧
      (roomy k cs → no_overlap cs (map (at_place w') (kids w' d))).
Proof. exact (siblings_do_not_overlap column_pack (λ _, WA_LEFT) column_tree column_ui column_in column_packed). Defined.
