(* ===== verification/Frames.v ===== *)
(** * What a computation leaves alone

    [respects R m]: whatever [m] does, the state before and after are related by [R].
    With [keeping f] for [R] this says that [m] does not change the part [f] of the
    state.  The lemmas follow the structure of the code, so the tactic [respects]
    proves such a frame for a whole operation from those of its parts. *)
From S2P Require Import Prelude Lgui.

Definition respects {S A} (R : relation S) (m : M S A) : Prop := ∀ s a s', m s = Ok (a, s') → R s s'.
Definition keeping {S B} (f : S → B) : relation S := λ s s', f s' = f s.
#[export] Instance keeping_preorder {S B} (f : S → B) : PreOrder (keeping f).
Proof. split; unfold keeping; [by intros s|intros s s' s'' H1 H2; by rewrite H2]. Qed.

Section Respects.
Context {S : Type} (R : relation S) `{!PreOrder R}.

Lemma respects_pure {A} (m : M S A) : (∀ s a s', m s = Ok (a, s') → s' = s) → respects R m.
Proof. intros H s a s' E. by rewrite (H s a s' E). Qed.
Lemma respects_ret {A} (a : A) : respects R (mret a).
Proof. apply respects_pure. by intros s b s' [= <- <-]. Qed.
Lemma respects_get : respects R get.
Proof. apply respects_pure. by intros s b s' [= <- <-]. Qed.
Lemma respects_gets {A} (f : S → A) : respects R (gets f).
Proof. apply respects_pure. by intros s b s' [= <- <-]. Qed.
Lemma respects_fault {A} : respects R (fault (A := A)).
Proof. by intros s a s'. Qed.
Lemma respects_no_fuel {A} : respects R (no_fuel (A := A)).
Proof. by intros s a s'. Qed.
Lemma respects_assert b : respects R (emo_assert b).
Proof. apply respects_pure. unfold emo_assert. destruct b; [|done]. by intros s a s' [= <- <-]. Qed.
Lemma respects_nonnull {A} (p : option A) : respects R (emo_nonnull p).
Proof. apply respects_pure. unfold emo_nonnull. destruct p; [|done]. by intros s b s' [= <- <-]. Qed.
Lemma respects_deref {A} (p : option A) : respects R (deref p).
Proof. apply respects_pure. unfold deref. destruct p; [|done]. by intros s b s' [= <- <-]. Qed.
Lemma respects_bind {A B} (m : M S A) (f : A → M S B) :
  respects R m → (∀ a, respects R (f a)) → respects R (m ≫= f).
Proof. intros Hm Hf s b s' (a & s1 & E1 & E2)%bind_Ok_inv. etrans; [by eapply Hm|by eapply Hf]. Qed.
Lemma respects_when b (m : M S ()) : respects R m → respects R (when b m).
Proof. intros Hm. destruct b; [done|apply respects_ret]. Qed.
Lemma respects_mfor {A} (f : A → M S ()) l : (∀ a, respects R (f a)) → respects R (mfor f l).
Proof. intros Hf. induction l; [apply respects_ret|by apply respects_bind]. Qed.
Lemma respects_mfind {A B} (f : A → M S (option B)) l : (∀ a, respects R (f a)) → respects R (mfind f l).
Proof.
  intros Hf. induction l; [apply respects_ret|]. apply respects_bind; [done|]. intros [b|]; [apply respects_ret|done].
Qed.
End Respects.

Create HintDb respects discriminated.
(** One structural step. *)
Ltac respects_step :=
  first
    [ progress intros
    | solve [eauto 3 with respects nocore typeclass_instances]
    | apply respects_ret; [exact _] | apply respects_get; [exact _] | apply respects_gets; [exact _]
    | apply respects_fault | apply respects_no_fuel
    | apply respects_assert; [exact _] | apply respects_nonnull; [exact _] | apply respects_deref; [exact _]
    | apply respects_bind; [exact _| |] | apply respects_when; [exact _|]
    | apply respects_mfor; [exact _|] | apply respects_mfind; [exact _|]
    | case_match ].
Ltac respects := repeat respects_step.
