(* ===== verification/Connection.v ===== *)
(** * ConnectionContext.c: a connection and its requests

    The table of requests, what a packet from the other side does, the loop that works on
    the requests, and the receive buffer.  The connection holds the whole state of the
    user interface, since a finished request marks widgets and may load an application.
    The table of objects by URL (HashTable.c over the macros of uthash) is a sequence of
    pairs, the newest first.  The device build is modelled, with the cache switched off as
    it is in Cache.c: [cache_loadObject] finds nothing and the commits do nothing.

    Parameters: [encodes], whether the ASN.1 runtime can encode a packet; [decode], what it
    reads from the front of the buffer; [script], what the Lua engine does for a text;
    [imei], the number of the device; [endpoint_text], how the address of the endpoint
    is printed. *)
From S2P Require Import Prelude RenderManager Lgui CStrings FieldNames Fields DataObjects Url Ui Modify Sync Protocol.
From S2P Require Import SyncSend.

(** ** State *)
Record connection := mkConn {
  c_ui : ui;
  c_globals : list (cstring * oloc);
  c_requests : list (cstring * SendRequest);
  c_inprogress : list cstring;
  c_sent : list FRIPacketP;
  c_needAuth : NeedAuth;
  c_hasAuth : bool;
  c_buffer : list Z;
  c_sequenceID : Z;
  c_loading : option (oloc * bool * option URL) }.
Abbreviation CM := (M connection).
Definition CCTX_BUFLEN : Z := 4096.

Definition in_ui {B} (m : UM B) : CM B := λ c,
  match m (c_ui c) with
  | Ok (b, u) => Ok (b, mkConn u (c_globals c) (c_requests c) (c_inprogress c) (c_sent c) (c_needAuth c) (c_hasAuth c)
                          (c_buffer c) (c_sequenceID c) (c_loading c))
  | Abort => Abort | Fault => Fault | NoFuel => NoFuel
  end.
Definition in_objects {B} (m : DM B) : CM B := in_ui (in_world m).
Definition set_globals (l : list (cstring * oloc)) : CM () := λ c,
  Ok ((), mkConn (c_ui c) l (c_requests c) (c_inprogress c) (c_sent c) (c_needAuth c) (c_hasAuth c)
            (c_buffer c) (c_sequenceID c) (c_loading c)).
Definition set_requests (l : list (cstring * SendRequest)) : CM () := λ c,
  Ok ((), mkConn (c_ui c) (c_globals c) l (c_inprogress c) (c_sent c) (c_needAuth c) (c_hasAuth c)
            (c_buffer c) (c_sequenceID c) (c_loading c)).
Definition set_inprogress (l : list cstring) : CM () := λ c,
  Ok ((), mkConn (c_ui c) (c_globals c) (c_requests c) l (c_sent c) (c_needAuth c) (c_hasAuth c)
            (c_buffer c) (c_sequenceID c) (c_loading c)).
Definition set_bytes (l : list Z) : CM () := λ c,
  Ok ((), mkConn (c_ui c) (c_globals c) (c_requests c) (c_inprogress c) (c_sent c) (c_needAuth c) (c_hasAuth c)
            l (c_sequenceID c) (c_loading c)).
Definition set_loading (l : option (oloc * bool * option URL)) : CM () := λ c,
  Ok ((), mkConn (c_ui c) (c_globals c) (c_requests c) (c_inprogress c) (c_sent c) (c_needAuth c) (c_hasAuth c)
            (c_buffer c) (c_sequenceID c) l).
(** [TCPSequenceID]: the identifiers of a side that connects are odd. *)
Definition next_sequenceID : CM Z := λ c,
  Ok (c_sequenceID c, mkConn (c_ui c) (c_globals c) (c_requests c) (c_inprogress c) (c_sent c) (c_needAuth c) (c_hasAuth c)
                        (c_buffer c) (uint32 (c_sequenceID c + 2)) (c_loading c)).
Fixpoint replace_request (key : cstring) (r : SendRequest) (l : list (cstring * SendRequest)) :=
  match l with
  | [] => []
  | (k, q) :: l => if decide (k = key) then (key, r) :: l else (k, q) :: replace_request key r l
  end.
(** Working on the request under [key] through its pointer. *)
Definition sender_of (c : connection) (r : SendRequest) : sender :=
  mkSender (u_world (c_ui c)) r (c_sent c) (c_inprogress c) (c_needAuth c) (c_hasAuth c).
Definition after_sender (x : sender) (l : list (cstring * SendRequest)) (c : connection) : connection :=
  mkConn (set_world (x_world x) (c_ui c)) (c_globals c) l (x_inprogress x) (x_sent x) (x_needAuth x) (x_hasAuth x)
    (c_buffer c) (c_sequenceID c) (c_loading c).
Definition in_request {B} (key : cstring) (m : XM B) : CM B := λ c,
  match al_find key (c_requests c) with
  | None => Fault
  | Some r =>
      match m (sender_of c r) with
      | Ok (b, x) => Ok (b, after_sender x (replace_request key (x_req x) (c_requests c)) c)
      | Abort => Abort | Fault => Fault | NoFuel => NoFuel
      end
  end.
(** What sends without a request. *)
Definition no_request : SendRequest :=
  mkSend [] 1%positive None false false false false false false false None [] 0 0 0 0.
Definition in_sender {B} (m : XM B) : CM B := λ c,
  match m (sender_of c no_request) with
  | Ok (b, x) => Ok (b, after_sender x (c_requests c) c)
  | Abort => Abort | Fault => Fault | NoFuel => NoFuel
  end.
(** Receiving for the request under [key]. *)
Definition in_sync {B} (key : cstring) (m : SM B) : CM B := λ c,
  match al_find key (c_requests c) with
  | None => Fault
  | Some r =>
      match m (mkSync (u_world (c_ui c)) (mkReq (ss_dobj r) (ss_objectIndex r))) with
      | Ok (b, s) =>
          Ok (b, mkConn (set_world (s_world s) (c_ui c)) (c_globals c)
                   (replace_request key (with_objectIndex (sr_objectIndex (s_req s)) r) (c_requests c))
                   (c_inprogress c) (c_sent c) (c_needAuth c) (c_hasAuth c) (c_buffer c) (c_sequenceID c) (c_loading c))
      | Abort => Abort | Fault => Fault | NoFuel => NoFuel
      end
  end.
Definition update_request (key : cstring) (f : SendRequest → SendRequest) : CM () := in_request key (upd_req f).
Definition find_request (key : cstring) : CM (option SendRequest) := gets (λ c, al_find key (c_requests c)).

Definition with_isLocal (b : bool) (o : DataObject) : DataObject :=
  mkObj (o_data o) (o_enumData o) (Some (if b then 1 else 0)) (o_state o) (o_stampMinor o)
    (o_stampMajor o) (o_referenced o) (o_children o) (o_arrayChildren o) (o_parent o) (o_margin o)
    (o_box o) (o_childBox o) (o_position o) (o_packing o) (o_widgetData o) (o_flags1 o) (o_scriptContext o).

(** ** Objects by URL (HashTable.c, DataObject.c) *)
Definition hashtable_find (key : option cstring) : CM (option oloc) :=
  k ← emo_nonnull key; gets (λ c, al_find k (c_globals c)).
Definition hashtable_append (key : option cstring) (d : oloc) : CM () :=
  k ← emo_nonnull key; c ← get; set_globals ((k, d) :: c_globals c).
Definition dataobject_locateStr (str : option cstring) : CM (option oloc) := hashtable_find str.
Definition dataobject_locate (url : option URL) : CM (option oloc) :=
  url ← emo_nonnull url;
  output ← dataobject_locateStr (u_all url);
  match output with Some d => mret (Some d) | None => dataobject_locateStr (u_path url) end.
Definition dataobject_exportGlobal (output : option oloc) (url : option URL) (isLocal : bool) : CM () :=
  output ← emo_nonnull output; url ← emo_nonnull url;
  in_objects (upd_obj output (with_isLocal isLocal));;
  hashtable_append (if isLocal then u_path url else u_all url) output.
Definition dataobject_construct (url : option URL) (isLocal : bool) : CM oloc :=
  url ← emo_nonnull url;
  output ← in_objects dataobject_new;
  dataobject_exportGlobal (Some output) (Some url) isLocal;;
  mret output.
Definition parse_url (s : option cstring) : CM (option URL) := λ c,
  match url_parse s URL_ALL () with
  | Ok (u, _) => Ok (u, c) | Abort => Abort | Fault => Fault | NoFuel => NoFuel
  end.

(** ** Requests *)
(** The members that are set before the request is used: the stamps and the response that
    are stored and never read are left out. *)
Definition syncRequest_new (url : option URL) (isClient : bool) : CM SendRequest :=
  url ← emo_nonnull url;
  own ← parse_url (u_all url); own ← deref own; all ← deref (u_all own);
  found ← dataobject_locate (Some url);
  d ← (match found with Some d => mret d | None => dataobject_construct (Some url) (negb isClient) end);
  in_objects (dataobject_setState (Some d) DOS_SYNC);;
  mret (mkSend all d None isClient (bool_decide (found = None)) false false false false false None [] 0 0 0 (-2)).
Definition with_ids (id : Z) (d : oloc) (forced : option oloc) (started : bool) (r : SendRequest) : SendRequest :=
  mkSend (ss_url r) d forced (ss_isClient r) (ss_newObject r) started (ss_hasSentLocal r) (ss_hasFinished r)
    (ss_remoteFinished r) (ss_finalize r) (ss_completeFields r) (ss_completeNodes r) id (ss_objectIndex r)
    (ss_recordIndex r) (ss_childOp r).

Section Connection.
Variable encodes : FRIPacketP → bool.
Variable script : oloc → cstring → UM ().
Variable imei : option cstring.
Variable endpoint_text : cstring.

(** [snprintf (mapKey, 64, "%p,%d", ep, sid)]; an address and a number have less than 64
    characters together. *)
Definition generate_mapKey (sid : Z) : cstring := endpoint_text ++ [44] ++ default [] (emo_itoa (int32 sid) 10).

(** [connectionContext_loopIteration]: one action for the first request of the table. *)
Definition authorized_now (c : connection) : bool :=
  match c_needAuth c with NA_YES => c_hasAuth c | NA_NO => true | NA_UNKNOWN => false end.
Definition connectionContext_loopIteration : CM Z :=
  c ← get;
  if negb (authorized_now c) then mret 0 else
  match c_requests c with
  | [] => mret 0
  | (key, _) :: _ =>
      in_request key (connectionContext_processSyncRequest encodes);;
      r ← find_request key; r ← deref r;
      c ← get;
      when (ss_finalize r) (set_requests (tail (c_requests c)));;
      mret 1
  end.

Definition add_request (id : Z) (r : SendRequest) : CM () :=
  c ← get; set_requests (al_append (generate_mapKey id) r (c_requests c)).
(** [ctx] tells whether there is a connection. *)
Definition connectionContext_syncRequestForce (ctx : bool) (url : option URL) (d : option oloc) : CM Z :=
  _ ← emo_nonnull url;
  if negb ctx then mret 0 else
  r ← syncRequest_new url true;
  id ← next_sequenceID;
  add_request id (with_ids id (ss_dobj r) d false r);;
  _ ← connectionContext_loopIteration;
  mret 1.
Definition connectionContext_syncRequest (ctx : bool) (url : option URL) : CM Z :=
  connectionContext_syncRequestForce ctx url None.

(** ** Packets in *)
Definition connectionContext_processSyncStart (url : cstring) (id : Z) : CM () :=
  c ← get;
  if decide (url ∈ c_inprogress c) then mret () else
  parsed ← parse_url (Some url);
  match parsed with
  | None => mret ()
  | Some u =>
      found ← dataobject_locate (Some u);
      d ← (match found with Some d => mret d | None => dataobject_construct (Some u) false end);
      in_objects (dataobject_setStamp (Some d) 0 0);;
      isLocal ← in_objects (dataobject_isLocal (Some d));
      r ← syncRequest_new (Some u) (isLocal =? 0);
      add_request id (with_ids id d None true r);;
      c ← get; set_inprogress (c_inprogress c ++ [url])
  end.

(** The application that shows an object, for the search by name. *)
Definition frame_root_of (u : ui) (d : oloc) : option oloc :=
  match (a ← manager_applicationForDataObject (Some d);
         match a with Some a => r ← application_getDataObject (Some a); mret (Some r) | None => mret None end) u with
  | Ok (r, _) => r
  | _ => None
  end.
(** The first record with the stamp: its place among the children, and the object of its
    tree at the index. *)
Fixpoint find_record (cs : list oloc) (i : nat) (index minor major : Z) : CM (option (nat * option oloc)) :=
  match cs with
  | [] => mret None
  | c :: cs =>
      '(mi, ma) ← in_objects (dataobject_getStamp (Some c));
      if (mi =? uint32 minor) && (ma =? uint32 major)
      then robj ← in_objects (dataobject_getTree (Some c) index); mret (Some (i, robj))
      else find_record cs (S i) index minor major
  end.
(** [listIterator_remove] on the iterator of [dataobject_childIterator]. *)
Definition remove_child (d : oloc) (i : nat) : CM () :=
  o ← in_objects (get_obj d);
  match o_children o with
  | [] => mret ()
  | item :: _ =>
      ty ← in_objects (dataobject_getEnum (Some item) (enum_value EMO_FIELD_TYPE));
      array ← in_objects (on_fields (EMO_DOF_IS_TYPE ty EMO_TYPE_ARRAY));
      if array : bool
      then in_objects (upd_obj item (λ o, with_arrayChildren (delete i (o_arrayChildren o)) o))
      else in_objects (upd_obj d (λ o, with_children (delete i (o_children o)) o))
  end.
Definition process_record (key : cstring) (d : oloc) (p : RecordSyncListP) : CM () :=
  r ← find_request key; r ← deref r;
  cs ← in_objects (dataobject_childIterator (Some d));
  found ← find_record cs 0 (ss_objectIndex r) (recordIdMinorP p) (recordIdMajorP p);
  robj ← (match found with
          | Some (_, Some robj) => mret robj
          | _ =>
              robj ← in_objects dataobject_new;
              in_objects (dataobject_setStamp (Some robj) (uint32 (recordIdMinorP p)) (uint32 (recordIdMajorP p)));;
              in_objects (dataobject_appendRecord (Some d) (Some robj));;
              mret robj
          end);
  ops ← deref (recordFieldListP p);
  mfor (λ op, c ← get; in_sync key (connectionContext_processSyncOperand (frame_root_of (c_ui c)) (Some robj) op)) ops;;
  match found with
  | Some (i, _) => when (deleteRecordP p) (remove_child d i;; in_ui (dataobject_delete (Some robj)))
  | None => mret ()
  end.
Definition connectionContext_processRecordSyncList (key : cstring) (l : list RecordSyncListP) : CM () :=
  r ← find_request key; r ← deref r;
  in_objects (dataobject_setRecordType (Some (ss_dobj r)) true);;
  mfor (process_record key (ss_dobj r)) l.
(** [connectionContext_processSync] with the lookup of its request. *)
Definition processSync (id : Z) (l : SyncListP) : CM () :=
  let key := generate_mapKey id in
  r ← find_request key;
  match r with
  | None => mret ()
  | Some _ =>
      match l with
      | blockSyncListP ops => c ← get; in_sync key (connectionContext_processSync (frame_root_of (c_ui c)) ops)
      | recordSyncListP records => connectionContext_processRecordSyncList key records
      end
  end.

(** [script_event] of Script.c: the text of the field [event], if it has one, is run. *)
Definition run_event (d : option oloc) (event : EmoField) : CM () :=
  d ← emo_nonnull d;
  field ← in_ui (getField d event);
  match field with
  | None => mret ()
  | Some f =>
      c ← in_ui (in_fields (get_field f));
      match f_value c with
      | DOF_STRING p => s ← deref (str_content p); in_ui (script d s)
      | _ => mret ()
      end
  end.
Definition dataobject_onsyncfinished (d : option oloc) : CM () :=
  d ← emo_nonnull d; run_event (Some d) EMO_FIELD_ONSYNCFINISHED.
Definition manager_loadApplication (d : option oloc) (focus : bool) (url : cstring) : CM () :=
  d ← emo_nonnull d; u ← parse_url (Some url); set_loading (Some (d, focus, u)).

(** The field is a text other than the name of the application type. *)
Definition other_type (field : option floc) : CM bool :=
  match field with
  | None => mret false
  | Some f =>
      c ← in_ui (in_fields (get_field f));
      match f_value c with
      | DOF_STRING _ => application ← in_ui (is_type (Some f) EMO_TYPE_APPLICATION); mret (negb (application : bool))
      | _ => mret false
      end
  end.
Fixpoint remove_first (s : cstring) (l : list cstring) : list cstring :=
  match l with [] => [] | x :: l => if decide (x = s) then l else x :: remove_first s l end.
(** A finish packet for a request this side made. *)
Definition finish_objects (key : cstring) (r : SendRequest) : CM () :=
  update_request key (with_finalize true);;
  in_objects (dataobject_setState (Some (ss_dobj r)) DOS_OK);;
  in_ui (widget_markDirty (Some (ss_dobj r)));;
  field ← in_ui (getField (ss_dobj r) EMO_FIELD_TYPE);
  when (negb (ss_newObject r))
    (dataobject_onsyncfinished (Some (default (ss_dobj r) (ss_forcedObject r))));;
  in_objects (dataobject_setState (Some (ss_dobj r)) DOS_OK);;
  other ← other_type field;
  (if other : bool then when (ss_newObject r) (manager_loadApplication (Some (ss_dobj r)) true (ss_url r))
   else in_ui (dataobject_setIsModifiedTree (Some (ss_dobj r)) true));;
  in_ui (in_renderman renderman_markLayoutChanged);;
  in_ui (in_renderman renderman_clearQueue).
Definition finish_client (key : cstring) (r : SendRequest) : CM () :=
  finish_objects key r;;
  c ← get; set_inprogress (remove_first (ss_url r) (c_inprogress c)).
Definition process_finish (id : Z) : CM () :=
  let key := generate_mapKey id in
  r ← find_request key;
  match r with
  | None => mret ()
  | Some r => update_request key (with_remoteFinished true);; when (ss_isClient r) (finish_client key r)
  end.
Definition connectionContext_processPacket (p : FRIPacketP) : CM () :=
  match p with
  | authRequestP _ types => in_sender (connectionContext_processAuthRequest encodes imei types)
  | authUserPassP p => in_sender (connectionContext_processAuthUserPass encodes p)
  | authResponseP r => in_sender (connectionContext_processAuthResponse r)
  | dataObjectSyncStartP url _ _ id => connectionContext_processSyncStart url id
  | dataObjectSyncP id l => processSync id l
  | dataObjectSyncFinishP _ id => process_finish id
  | otherPacketP _ => mret ()
  end.

(** ** The receive buffer *)
(** The packet at the front and how many bytes it took. *)
Inductive decoded := RC_OK (p : FRIPacketP) (consumed : nat) | RC_WMORE | RC_FAIL.
Variable decode : list Z → decoded.
(** [memcpy] behind the bytes that are there; the buffer has [CCTX_BUFLEN] bytes. *)
Definition connectionContext_setBuffer (bytes : list Z) : CM () :=
  c ← get;
  if decide (Z.of_nat (length (c_buffer c ++ bytes)) ≤ CCTX_BUFLEN) then set_bytes (c_buffer c ++ bytes) else fault.
Definition connectionContext_consumePacket : CM Z :=
  c ← get;
  match c_buffer c with
  | [] => mret 0
  | bytes =>
      match decode bytes with
      | RC_OK p consumed =>
          connectionContext_processPacket p;;
          c ← get; set_bytes (drop consumed (c_buffer c));;
          mret (Z.of_nat consumed)
      | RC_WMORE | RC_FAIL => mret 0
      end
  end.
(** [uiAppRecv] (UITask.c): the packets that have arrived, and then one step of the requests. *)
Fixpoint consume_loop (fuel : nat) : CM () :=
  match fuel with
  | O => no_fuel
  | S fuel => status ← connectionContext_consumePacket; if 0 <? status then consume_loop fuel else mret ()
  end.
Definition uiAppRecv (bytes : list Z) : CM () :=
  connectionContext_setBuffer bytes;;
  c ← get; consume_loop (S (length (c_buffer c)));;
  _ ← connectionContext_loopIteration; mret ().
Definition connection_requestAuth : CM () := in_sender (connectionContext_requestAuth encodes).
End Connection.
