(* ===== verification/ConnectionRules.v ===== *)
(** * Properties of connections

    What a run of a connection can do: packets arrive, the loop works on the requests,
    the interface asks for objects.  The safety properties are proved by induction on
    such runs, from frames of the operations ([Frames]). *)
From S2P Require Import Prelude RenderManager Lgui CStrings FieldNames Fields DataObjects Url Ui Modify Sync Protocol.
From S2P Require Import SyncSend Frames Connection.

(** ** Frames of the sender *)
Section SenderFrames.
Context (R : relation sender) `{!PreOrder R}.
Hypothesis R_request : ∀ x r, ss_url r = ss_url (x_req x) → ss_isClient r = ss_isClient (x_req x) →
  R x (set_req r x).
Hypothesis R_world : ∀ x w, R x (mkSender w (x_req x) (x_sent x) (x_inprogress x) (x_needAuth x) (x_hasAuth x)).
Hypothesis R_sent : ∀ x l, R x (mkSender (x_world x) (x_req x) (x_sent x ++ l) (x_inprogress x) (x_needAuth x) (x_hasAuth x)).
Hypothesis R_inprogress : ∀ x l, R x (mkSender (x_world x) (x_req x) (x_sent x) (x_inprogress x ++ l) (x_needAuth x) (x_hasAuth x)).

Lemma sending_respects {B} (m : DM B) : respects R (sending m).
Proof. intros x b x'. unfold sending. destruct (m (x_world x)) as [[b1 w]| | |]; [|done..]. intros [= <- <-]. apply R_world. Qed.
Lemma upd_req_respects f : (∀ r, ss_url (f r) = ss_url r ∧ ss_isClient (f r) = ss_isClient r) → respects R (upd_req f).
Proof. intros Hf x b x' [= <- <-]. by apply R_request; apply Hf. Qed.
Lemma packetSend_respects encodes p : respects R (connectionContext_packetSend encodes p).
Proof.
  intros x b x' [= <- <-]. destruct (encodes p); [apply R_sent|]. pose proof (R_sent x []) as H. by rewrite app_nil_r in H.
Qed.
Lemma add_inprogress_respects url : respects R (add_inprogress url).
Proof. intros x b x' [= <- <-]. apply R_inprogress. Qed.
#[local] Hint Resolve sending_respects packetSend_respects add_inprogress_respects : respects.
#[local] Ltac go := respects; try (apply upd_req_respects; intros r; repeat case_match; done).
Lemma field_operands_respects d names : respects R (field_operands d names).
Proof. induction names; cbn [field_operands]; unfold req; go. Qed.
#[local] Hint Resolve field_operands_respects : respects.
Lemma send_addChild_respects d : respects R (send_addChild d).
Proof. unfold send_addChild, req. go. Qed.
#[local] Hint Resolve send_addChild_respects : respects.
Lemma node_operands_respects d : respects R (node_operands d).
Proof. unfold node_operands, req. go. Qed.
#[local] Hint Resolve node_operands_respects : respects.
Lemma syncOperand_respects d : respects R (connectionContext_syncOperand d).
Proof. unfold connectionContext_syncOperand, req. go. Qed.
#[local] Hint Resolve syncOperand_respects : respects.
Lemma recordSync_respects d : respects R (connectionContext_recordSync d).
Proof. unfold connectionContext_recordSync, req. go. Qed.
#[local] Hint Resolve recordSync_respects : respects.
Lemma recordSyncList_respects : respects R connectionContext_recordSyncList.
Proof. unfold connectionContext_recordSyncList, req. go. Qed.
#[local] Hint Resolve recordSyncList_respects : respects.
Lemma processSyncRequest_respects encodes : respects R (connectionContext_processSyncRequest encodes).
Proof.
  unfold connectionContext_processSyncRequest, connectionContext_outgoingSyncForced, connectionContext_outgoingSync,
    start_completeFields, req. go.
Qed.
End SenderFrames.

(** ** Frames of the connection *)
Section Frames.
Context (R : relation connection) `{!PreOrder R}.
Variable script : oloc → cstring → UM ().
Variable endpoint_text : cstring.
(** What [R] does not look at: the objects, the table of objects, the counter and the
    request to load an application; of a request, where it is. *)
Hypothesis R_other : ∀ c u g q l, R c (mkConn u g (c_requests c) (c_inprogress c) (c_sent c) (c_needAuth c) (c_hasAuth c)
  (c_buffer c) q l).
Hypothesis R_index : ∀ c key r i, al_find key (c_requests c) = Some r →
  R c (mkConn (c_ui c) (c_globals c) (replace_request key (with_objectIndex i r) (c_requests c))
         (c_inprogress c) (c_sent c) (c_needAuth c) (c_hasAuth c) (c_buffer c) (c_sequenceID c) (c_loading c)).

Lemma in_ui_respects {B} (m : UM B) : respects R (in_ui m).
Proof. intros c b c'. unfold in_ui. destruct (m (c_ui c)) as [[b1 u]| | |]; [|done..]. intros [= <- <-]. apply R_other. Qed.
Lemma in_objects_respects {B} (m : DM B) : respects R (in_objects m).
Proof. apply in_ui_respects. Qed.
Lemma set_globals_respects l : respects R (set_globals l).
Proof. intros c b c' [= <- <-]. apply R_other. Qed.
Lemma set_loading_respects l : respects R (set_loading l).
Proof. intros c b c' [= <- <-]. apply R_other. Qed.
Lemma next_sequenceID_respects : respects R next_sequenceID.
Proof. intros c b c' [= <- <-]. apply R_other. Qed.
Lemma in_sync_respects {B} key (m : SM B) : respects R (in_sync key m).
Proof.
  intros c b c'. unfold in_sync. destruct (al_find key (c_requests c)) as [r|] eqn:E; [|done].
  destruct (m _) as [[b1 s]| | |]; [|done..]. intros [= <- <-].
  etrans; [by apply (R_index c key r (sr_objectIndex (s_req s)))|apply (R_other (mkConn _ _ _ _ _ _ _ _ _ _))].
Qed.
Lemma parse_url_respects s : respects R (parse_url s).
Proof. intros c b c'. unfold parse_url. destruct (url_parse s URL_ALL ()) as [[u []]| | |]; [|done..]. by intros [= <- <-]. Qed.
#[local] Hint Resolve in_ui_respects in_objects_respects set_globals_respects set_loading_respects
  next_sequenceID_respects in_sync_respects parse_url_respects : respects.
Lemma locate_respects url : respects R (dataobject_locate url).
Proof. unfold dataobject_locate, dataobject_locateStr, hashtable_find. respects. Qed.
Lemma construct_respects url b : respects R (dataobject_construct url b).
Proof. unfold dataobject_construct, dataobject_exportGlobal, hashtable_append. respects. Qed.
#[local] Hint Resolve locate_respects construct_respects : respects.
Lemma syncRequest_new_respects url b : respects R (syncRequest_new url b).
Proof. unfold syncRequest_new. respects. Qed.
Lemma run_event_respects d e : respects R (run_event script d e).
Proof. unfold run_event. respects. Qed.
#[local] Hint Resolve run_event_respects : respects.
Lemma onsyncfinished_respects d : respects R (dataobject_onsyncfinished script d).
Proof. unfold dataobject_onsyncfinished. respects. Qed.
Lemma loadApplication_respects d b url : respects R (manager_loadApplication d b url).
Proof. unfold manager_loadApplication. respects. Qed.
Lemma other_type_respects f : respects R (other_type f).
Proof. unfold other_type. respects. Qed.
Lemma find_record_respects cs i index mi ma : respects R (find_record cs i index mi ma).
Proof. revert i; induction cs; intros i; cbn [find_record]; respects. Qed.
Lemma remove_child_respects d i : respects R (remove_child d i).
Proof. unfold remove_child. respects. Qed.
#[local] Hint Resolve find_record_respects remove_child_respects : respects.
Lemma process_record_respects key d p : respects R (process_record key d p).
Proof. unfold process_record, find_request. respects. Qed.
#[local] Hint Resolve process_record_respects : respects.
Lemma processSync_respects id l : respects R (processSync endpoint_text id l).
Proof. unfold processSync, connectionContext_processRecordSyncList, find_request. respects. Qed.
End Frames.

(** ** Runs *)
Section Runs.
Variable encodes : FRIPacketP → bool.
Variable script : oloc → cstring → UM ().
Variable imei : option cstring.
Variable endpoint_text : cstring.
Abbreviation processPacket := (connectionContext_processPacket encodes script imei endpoint_text).
Abbreviation loopIteration := (connectionContext_loopIteration encodes).

(** A packet arrives, the loop runs, the interface asks for an object or sends a form,
    the connection asks the other side to identify itself. *)
Inductive event :=
  | EPacket (p : FRIPacketP) | ELoop | ERequest (url : option URL) (d : option oloc) | ERequestAuth.
Definition perform (e : event) : CM () :=
  match e with
  | EPacket p => processPacket p
  | ELoop => _ ← loopIteration; mret ()
  | ERequest url d => _ ← connectionContext_syncRequestForce encodes endpoint_text true url d; mret ()
  | ERequestAuth => connection_requestAuth encodes
  end.
Inductive runs (c0 : connection) : list event → connection → Prop :=
  | runs_nil : runs c0 [] c0
  | runs_step tr c e c' : runs c0 tr c → perform e c = Ok ((), c') → runs c0 (tr ++ [e]) c'.

(** The packets that have objects or requests for objects. *)
Definition is_data (p : FRIPacketP) : bool :=
  match p with dataObjectSyncStartP _ _ _ _ | dataObjectSyncP _ _ | dataObjectSyncFinishP _ _ => true | _ => false end.
(** The other side has waived identification, or has sent a name and a password, or
    has accepted ours. *)
Definition waived (tr : list event) : Prop :=
  ∃ salt types, EPacket (authRequestP salt types) ∈ tr ∧ last types = Some atImplicitP.
Definition identified (tr : list event) : Prop :=
  (∃ p, EPacket (authUserPassP p) ∈ tr) ∨ EPacket (authResponseP responseOKP) ∈ tr.

Record gated (tr : list event) (c : connection) : Prop := {
  g_no : c_needAuth c = NA_NO → waived tr;
  g_has : c_hasAuth c = true → identified tr;
  g_sent p : p ∈ c_sent c → is_data p = true → waived tr ∨ identified tr }.
Lemma gated_open tr c : gated tr c → authorized_now c = true → waived tr ∨ identified tr.
Proof. intros [Hn Hh _]. unfold authorized_now. destruct (c_needAuth c); naive_solver. Qed.
Lemma waived_app tr e : waived tr → waived (tr ++ [e]).
Proof. intros (salt & types & ? & ?). exists salt, types. set_solver. Qed.
Lemma identified_app tr e : identified tr → identified (tr ++ [e]).
Proof. intros [[p ?]|?]; [left; exists p|right]; set_solver. Qed.

(** Nothing about the authorization changes, and nothing is sent. *)
Definition silent : relation connection := keeping (λ c, (c_needAuth c, c_hasAuth c, c_sent c)).
Lemma silent_other c u g q l : silent c (mkConn u g (c_requests c) (c_inprogress c) (c_sent c) (c_needAuth c) (c_hasAuth c)
  (c_buffer c) q l).
Proof. done. Qed.
Lemma silent_index c key r i : al_find key (c_requests c) = Some r →
  silent c (mkConn (c_ui c) (c_globals c) (replace_request key (with_objectIndex i r) (c_requests c))
         (c_inprogress c) (c_sent c) (c_needAuth c) (c_hasAuth c) (c_buffer c) (c_sequenceID c) (c_loading c)).
Proof. done. Qed.
Lemma set_requests_silent l : respects silent (set_requests l).
Proof. by intros c b c' [= <- <-]. Qed.
Lemma set_inprogress_silent l : respects silent (set_inprogress l).
Proof. by intros c b c' [= <- <-]. Qed.
Lemma update_request_silent key f : respects silent (update_request key f).
Proof.
  intros c b c'. unfold update_request, in_request, upd_req. destruct (al_find key (c_requests c)); [|done].
  by intros [= <- <-].
Qed.
Hint Resolve silent_other silent_index set_requests_silent set_inprogress_silent update_request_silent : respects.
Hint Resolve in_ui_respects in_objects_respects parse_url_respects locate_respects construct_respects
  syncRequest_new_respects next_sequenceID_respects processSync_respects onsyncfinished_respects
  loadApplication_respects other_type_respects : respects.
Lemma processSyncStart_silent url id : respects silent (connectionContext_processSyncStart endpoint_text url id).
Proof. unfold connectionContext_processSyncStart, add_request. respects. Qed.
Lemma process_finish_silent id : respects silent (process_finish script endpoint_text id).
Proof. unfold process_finish, finish_client, finish_objects, find_request. respects. Qed.
Lemma silent_gated tr e c b (m : CM ()) c' : respects silent m → m c = Ok (b, c') → gated tr c → gated (tr ++ [e]) c'.
Proof.
  intros Hm E [Hn Hh Hs]. pose proof (Hm _ _ _ E) as [= En Eh Es]. split; rewrite ?En, ?Eh, ?Es.
  - intros. by apply waived_app, Hn.
  - intros. by apply identified_app, Hh.
  - intros p Hp Hd. destruct (Hs p Hp Hd); [left; by apply waived_app|right; by apply identified_app].
Qed.
(** Answers about the authorization are not data. *)
Definition no_data : relation sender := λ x x',
  (x_needAuth x', x_hasAuth x') = (x_needAuth x, x_hasAuth x) ∧
  ∀ p, p ∈ x_sent x' → is_data p = true → p ∈ x_sent x.
#[local] Instance no_data_preorder : PreOrder no_data.
Proof. split; [by intros x|intros x y z [E1 H1] [E2 H2]; split; [by rewrite E2|auto]]. Qed.
Lemma sending_no_data {B} (m : DM B) : respects no_data (sending m).
Proof. intros x b x'. unfold sending. destruct (m (x_world x)) as [[b1 w]| | |]; [|done..]. by intros [= <- <-]. Qed.
Lemma packetSend_no_data p : is_data p = false → respects no_data (connectionContext_packetSend encodes p).
Proof.
  intros Hp x b x' [= <- <-]. split; [done|]. cbn. intros q Hq Hd. destruct (encodes p); [|done].
  apply elem_of_app in Hq as [?| ->%list_elem_of_singleton]; [done|congruence].
Qed.
Hint Resolve sending_no_data packetSend_no_data : respects.
Hint Extern 1 (is_data _ = false) => reflexivity : respects.
Lemma authUserPass_no_data : respects no_data (connectionContext_authUserPass encodes imei).
Proof. unfold connectionContext_authUserPass. respects. Qed.

(** What an operation of the sender does to the connection. *)
Lemma in_sender_inv {B} (m : XM B) c b c' : in_sender m c = Ok (b, c') →
  ∃ x, m (sender_of c no_request) = Ok (b, x) ∧ c_needAuth c' = x_needAuth x ∧ c_hasAuth c' = x_hasAuth x ∧ c_sent c' = x_sent x.
Proof. unfold in_sender. destruct (m _) as [[b1 x]| | |]; [|done..]. intros [= <- <-]. by exists x. Qed.
Lemma auth_gated tr e c x c' : gated tr c → c_needAuth c' = x_needAuth x → c_hasAuth c' = x_hasAuth x → c_sent c' = x_sent x →
  (x_needAuth x = NA_NO → c_needAuth c ≠ NA_NO → waived (tr ++ [e])) →
  (x_hasAuth x = true → c_hasAuth c ≠ true → identified (tr ++ [e])) →
  (∀ p, p ∈ x_sent x → is_data p = true → p ∈ c_sent c) → gated (tr ++ [e]) c'.
Proof.
  intros [Hn Hh Hs] En Eh Es Xn Xh Xs. split; rewrite ?En, ?Eh, ?Es.
  - intros H. destruct (decide (c_needAuth c = NA_NO)) as [E|E]; [by apply waived_app, Hn|by apply Xn].
  - intros H. destruct (decide (c_hasAuth c = true)) as [E|E]; [by apply identified_app, Hh|by apply Xh].
  - intros p Hp Hd. destruct (Hs p (Xs p Hp Hd) Hd); [left; by apply waived_app|right; by apply identified_app].
Qed.
Lemma processAuthRequest_gated tr salt types c c' : gated tr c →
  processPacket (authRequestP salt types) c = Ok ((), c') → gated (tr ++ [EPacket (authRequestP salt types)]) c'.
Proof.
  intros HG (x & E & En & Eh & Es)%in_sender_inv. unfold connectionContext_processAuthRequest in E.
  minv E. injection H as <- <-. minv E. injection H as <- <-.
  destruct (authUserPass_no_data _ _ _ E) as [[= An Ah] As]. cbn [x_needAuth x_hasAuth x_sent] in *.
  eapply auth_gated; [exact HG|done..| | |].
  - rewrite An. cbn. intros Hno Hc. exists salt, types. split; [set_solver|].
    destruct (last types) as [[]|]; by try discriminate Hno.
  - rewrite Ah. done.
  - done.
Qed.
Lemma processAuth_gated tr p c c' : gated tr c →
  (∃ q, p = authUserPassP q) ∨ (∃ r, p = authResponseP r) →
  processPacket p c = Ok ((), c') → gated (tr ++ [EPacket p]) c'.
Proof.
  intros HG [[q ->]|[r ->]] (x & E & En & Eh & Es)%in_sender_inv.
  - unfold connectionContext_processAuthUserPass in E. minv E. injection H as <- <-. minv E. injection H as <- <-.
    destruct (packetSend_no_data (authResponseP responseOKP) eq_refl _ _ _ E) as [[= An Ah] As].
    cbn [x_needAuth x_hasAuth x_sent] in *. eapply auth_gated; [exact HG|done..| | |].
    + by rewrite An.
    + intros _ _. left. exists q. set_solver.
    + done.
  - unfold connectionContext_processAuthResponse in E. destruct r.
    1: minv E; injection H as <- <-. all: injection E as <-.
    all: eapply auth_gated; [exact HG|done..| | |]; cbn [x_needAuth x_hasAuth x_sent sender_of]; try done.
    intros _ _. right. set_solver.
Qed.
(** The loop does not change the authorization, and does nothing without it. *)
Lemma loopIteration_auth : respects (keeping (λ c, (c_needAuth c, c_hasAuth c))) loopIteration.
Proof.
  unfold connectionContext_loopIteration, find_request. respects; [|by intros x b x' [= <- <-]].
  intros x b x'. unfold in_request. destruct (al_find _ _) as [r|]; [|done].
  destruct (connectionContext_processSyncRequest encodes (sender_of x r)) as [[b1 y]| | |] eqn:E; [|done..].
  intros [= <- <-]. by apply (processSyncRequest_respects (keeping (λ y, (x_needAuth y, x_hasAuth y))) ltac:(done) ltac:(done)
    ltac:(done) ltac:(done) encodes _ _ _ E).
Qed.
Lemma loopIteration_gated tr e c i c' : gated tr c → loopIteration c = Ok (i, c') → gated (tr ++ [e]) c'.
Proof.
  intros HG E. pose proof (loopIteration_auth _ _ _ E) as [= En Eh].
  destruct (authorized_now c) eqn:A.
  - pose proof (gated_open _ _ HG A) as Hopen. destruct HG as [Hn Hh Hs]. split; rewrite ?En, ?Eh.
    + intros. by apply waived_app, Hn.
    + intros. by apply identified_app, Hh.
    + intros _ _ _. destruct Hopen; [left; by apply waived_app|right; by apply identified_app].
  - unfold connectionContext_loopIteration in E. minv E. injection H as <- <-. rewrite A in E. injection E as <- <-.
    eapply (silent_gated tr e c () (mret ())); [apply respects_ret; exact _|done|done].
Qed.
Lemma silent_part tr c c' : silent c c' → gated tr c → gated tr c'.
Proof. intros [= En Eh Es] [Hn Hh Hs]. by split; rewrite ?En, ?Eh, ?Es. Qed.
Lemma syncRequestForce_gated tr e url d c i c' : gated tr c →
  connectionContext_syncRequestForce encodes endpoint_text true url d c = Ok (i, c') → gated (tr ++ [e]) c'.
Proof.
  intros HG E. unfold connectionContext_syncRequestForce in E. minv E.
  cbn [negb] in E. minv E. minv E. minv E. minv E. injection E as _ <-.
  eapply loopIteration_gated; [|eassumption].
  eapply silent_part; [|exact HG]. etrans; [|etrans; [|etrans]].
  - by eapply (respects_nonnull silent).
  - eapply syncRequest_new_respects; [exact _|apply silent_other|eassumption].
  - eapply next_sequenceID_respects; [apply silent_other|eassumption].
  - assert (∀ id q, respects silent (add_request endpoint_text id q)) as Ha by (intros; unfold add_request; respects).
    by eapply Ha.
Qed.
Lemma perform_gated tr c e c' : gated tr c → perform e c = Ok ((), c') → gated (tr ++ [e]) c'.
Proof.
  intros HG E. destruct e as [p| |url d|]; cbn [perform] in E.
  - destruct p; cbn [connectionContext_processPacket] in E.
    + by eapply processAuthRequest_gated.
    + eapply processAuth_gated; [done|left; by eexists|done].
    + eapply processAuth_gated; [done|right; by eexists|done].
    + eapply silent_gated; [apply processSyncStart_silent|exact E|done].
    + eapply silent_gated; [|exact E|done].
      apply processSync_respects; [exact _|apply silent_other|apply silent_index].
    + eapply silent_gated; [apply process_finish_silent|exact E|done].
    + eapply (silent_gated _ _ _ () (mret ())); [apply respects_ret; exact _|exact E|done].
  - minv E. injection E as <-. by eapply loopIteration_gated.
  - minv E. injection E as <-. by eapply syncRequestForce_gated.
  - apply in_sender_inv in E as (x & E & En & Eh & Es). unfold connectionContext_requestAuth in E.
    minv E. injection H as <- <-.
    destruct (packetSend_no_data (authRequestP (lit "Hi!!") [atUsernamePasswordP]) eq_refl _ _ _ E) as [[= An Ah] As].
    cbn [x_needAuth x_hasAuth x_sent] in *. eapply auth_gated; [exact HG|done..| | |].
    + by rewrite An.
    + by rewrite Ah.
    + done.
Qed.
(** No object and no request for one leaves a connection before the other side has
    waived identification with an authentication request, or has identified itself
    with a name and a password, or has accepted ours.  This holds for every sequence
    of packets, steps of the loop and requests of the interface. *)
Theorem no_data_before_authorization c0 tr c :
  c_needAuth c0 = NA_UNKNOWN → c_hasAuth c0 = false → c_sent c0 = [] → runs c0 tr c →
  ∀ p, p ∈ c_sent c → is_data p = true → waived tr ∨ identified tr.
Proof.
  intros Hn Hh Hs Hr. assert (gated tr c) as [_ _ Hg]; [|exact Hg].
  induction Hr as [|tr c e c' Hr IH E]; [|by eapply perform_gated].
  split; rewrite ?Hn, ?Hh, ?Hs; try done. by intros p ?%elem_of_nil.
Qed.

(** ** A URL is served once *)
Lemma url_part_all parts done flag (g : M () cstring) set u k s r :
  u_all u = Some s → (∀ v, u_all (set v u) = u_all u) →
  (∀ done' u', u_all u' = Some s → k done' u' () = Ok (Some r, ()) → u_all r = Some s) →
  url_part parts done flag g set u k () = Ok (Some r, ()) → u_all r = Some s.
Proof.
  intros Hu Hset Hk. unfold url_part. case_match; [by apply Hk|]. intros (v & [] & _ & E)%bind_Ok_inv.
  case_match; [injection E as <-; by rewrite Hset|]. eapply Hk; [|exact E]. by rewrite Hset.
Qed.
Lemma process_path_all s parts done p u r : u_all u = Some s → url_process_path s parts done p u () = Ok (Some r, ()) → u_all r = Some s.
Proof. intros Hu. unfold url_process_path. apply url_part_all; [done..|]. intros d u' Hu' [= <-]. done. Qed.
Lemma url_parse_all s r : url_parse (Some s) URL_ALL () = Ok (Some r, ()) → u_all r = Some s.
Proof.
  unfold url_parse. case_match; [done|]. intros (p2 & [] & _ & E)%bind_Ok_inv. destruct p2 as [p2|]; [|done].
  revert E. apply url_part_all; [done..|]. intros d1 u1 H1 (p3 & [] & _ & E)%bind_Ok_inv. destruct p3; [|done].
  revert E. apply url_part_all; [done..|]. intros d2 u2 H2 (? & [] & _ & E)%bind_Ok_inv.
  apply bind_Ok_inv in E as (? & [] & _ & E). apply bind_Ok_inv in E as (p4 & [] & _ & E). destruct p4; [|done].
  revert E. apply url_part_all; [done..|]. intros d3 u3 H3 (ch & [] & _ & E)%bind_Ok_inv.
  case_match; [by eapply process_path_all|]. apply bind_Ok_inv in E as (p5 & [] & _ & E).
  revert E. apply url_part_all; [done..|]. intros d4 u4 H4. by apply process_path_all.
Qed.
Lemma syncRequest_new_url url b c r c' : syncRequest_new url b c = Ok (r, c') →
  ∃ u, url = Some u ∧ u_all u = Some (ss_url r) ∧ ss_isClient r = b.
Proof.
  unfold syncRequest_new. destruct url as [u|]; [|done]. intros E. minv E. injection H as <- <-.
  minv E. unfold parse_url in H. destruct (u_all u) as [txt|] eqn:Hs; [|by injection H as <- <-].
  destruct (url_parse (Some txt) URL_ALL ()) as [[own []]| | |] eqn:Ep; [|done..]. injection H as <- <-.
  destruct own as [own|]; [|done]. pose proof (url_parse_all _ _ Ep) as Ha.
  minv E. injection H as <- <-. minv E. rewrite Ha in H. injection H as <- <-.
  minv E. minv E. minv E. injection E as <- _. by exists u.
Qed.

Section Served.
Variable url : cstring.
(** The request for [url] is answered or being answered, and is not one of our own. *)
Definition taken (c : connection) : Prop :=
  url ∈ c_inprogress c ∧ ∀ key r, (key, r) ∈ c_requests c → ss_isClient r = true → ss_url r ≠ url.
Definition stays : relation connection := λ c c', taken c → taken c'.
#[local] Instance stays_preorder : PreOrder stays.
Proof. split; unfold stays; [by intros c|by auto]. Qed.
Lemma stays_other c u g q l : stays c (mkConn u g (c_requests c) (c_inprogress c) (c_sent c) (c_needAuth c) (c_hasAuth c)
  (c_buffer c) q l).
Proof. by intros H. Qed.
Lemma replace_in key r l k q : (k, q) ∈ replace_request key r l → (k, q) ∈ l ∨ q = r.
Proof.
  induction l as [|[k' q'] l IH]; cbn [replace_request]; [by left|]. case_decide.
  - intros [[= -> ->]|?]%elem_of_cons; [by right|left; by right].
  - intros [[= -> ->]|[?|?]%IH]%elem_of_cons; [left; left|left; by right|by right].
Qed.
Lemma al_find_elem (key : cstring) (l : list (cstring * SendRequest)) r : al_find key l = Some r → (key, r) ∈ l.
Proof.
  induction l as [|[k v] l IH]; cbn [al_find]; [done|]. case_decide as E; [|by intros ?%IH; right].
  intros [= ->]. subst k. apply list_elem_of_here.
Qed.
Lemma stays_replaced c key r r' u g i s na ha b q l : al_find key (c_requests c) = Some r →
  ss_url r' = ss_url r → ss_isClient r' = ss_isClient r → c_inprogress c ⊆ i →
  stays c (mkConn u g (replace_request key r' (c_requests c)) i s na ha b q l).
Proof.
  intros Hr Hu Hc Hi [Hin Hreq]. split; [by apply Hi|]. cbn [c_requests]. intros k q' [Hq| ->]%replace_in; [by eapply Hreq|].
  rewrite Hu, Hc. eapply Hreq. by apply al_find_elem.
Qed.
Lemma stays_index c key r i : al_find key (c_requests c) = Some r →
  stays c (mkConn (c_ui c) (c_globals c) (replace_request key (with_objectIndex i r) (c_requests c))
         (c_inprogress c) (c_sent c) (c_needAuth c) (c_hasAuth c) (c_buffer c) (c_sequenceID c) (c_loading c)).
Proof. intros E. by eapply stays_replaced. Qed.
Lemma stays_tail c : stays c (mkConn (c_ui c) (c_globals c) (tail (c_requests c)) (c_inprogress c) (c_sent c)
  (c_needAuth c) (c_hasAuth c) (c_buffer c) (c_sequenceID c) (c_loading c)).
Proof.
  intros [Hin Hreq]. split; [done|]. cbn [c_requests]. intros k r Hk. apply (Hreq k r).
  destruct (c_requests c); [done|by right].
Qed.
Lemma update_request_stays key f : (∀ r, ss_url (f r) = ss_url r ∧ ss_isClient (f r) = ss_isClient r) →
  respects stays (update_request key f).
Proof.
  intros Hf c b c'. unfold update_request, in_request, upd_req. destruct (al_find key (c_requests c)) as [r|] eqn:E; [|done].
  intros [= <- <-]. destruct (Hf r). by eapply (stays_replaced c key r).
Qed.
Definition request_kept : relation sender := λ x x',
  ss_url (x_req x') = ss_url (x_req x) ∧ ss_isClient (x_req x') = ss_isClient (x_req x) ∧ x_inprogress x ⊆ x_inprogress x'.
#[local] Instance request_kept_preorder : PreOrder request_kept.
Proof.
  split; [by intros x|]. intros x y z (E1 & E2 & E3) (F1 & F2 & F3). split_and!; [congruence..|set_solver].
Qed.
Lemma processSyncRequest_kept : respects request_kept (connectionContext_processSyncRequest encodes).
Proof.
  apply processSyncRequest_respects; [exact _|..]; unfold request_kept; intros; cbn; split_and!; try done. set_solver.
Qed.
Lemma in_request_stays key : respects stays (in_request key (connectionContext_processSyncRequest encodes)).
Proof.
  intros x b x'. unfold in_request. destruct (al_find _ _) as [r|] eqn:Er; [|done].
  destruct (connectionContext_processSyncRequest encodes (sender_of x r)) as [[b1 y]| | |] eqn:E; [|done..].
  intros [= <- <-]. destruct (processSyncRequest_kept _ _ _ E) as (Hu & Hc & Hi). by eapply (stays_replaced x _ r).
Qed.
Lemma loopIteration_stays : respects stays loopIteration.
Proof.
  intros c i c' E. unfold connectionContext_loopIteration in E. minv E. injection H as <- <-.
  destruct (authorized_now c); [|by injection E as _ <-]. cbn [negb] in E.
  destruct (c_requests c) as [|[key q] l]; [by injection E as _ <-|].
  minv E. pose proof (in_request_stays _ _ _ _ H) as Hs. minv E. injection H0 as <- <-.
  minv E. destruct (al_find _ _) as [q'|]; [|done]. injection H0 as <- <-. minv E. injection H0 as <- <-.
  minv E. injection E as _ <-. destruct (ss_finalize q'); injection H0 as E1 E2; subst s0; [|exact Hs].
  etrans; [exact Hs|apply stays_tail].
Qed.
Lemma add_request_stays id r c b c' : (ss_isClient r = true → ss_url r ≠ url) → add_request endpoint_text id r c = Ok (b, c') →
  stays c c'.
Proof.
  intros Hr E. unfold add_request in E. minv E. injection H as <- <-. injection E as _ <-.
  intros [Hin Hreq]. split; [done|]. cbn [c_requests]. unfold al_append.
  intros k q [Hq|[= -> ->]%list_elem_of_singleton]%elem_of_app; [|done]. apply (Hreq k q).
  revert Hq. generalize (generate_mapKey endpoint_text id). intros key. clear.
  induction (c_requests c) as [|[k' v] l IH]; [done|]. cbn [al_remove]. case_decide; [by right; apply IH|].
  intros [<-|?]%elem_of_cons; [left|right; auto].
Qed.
Hint Resolve stays_other stays_index : respects.
Lemma set_inprogress_app l c b c' : set_inprogress (c_inprogress c ++ l) c = Ok (b, c') → stays c c'.
Proof. intros [= _ <-] [Hin Hreq]. split; [|done]. cbn. set_solver. Qed.
Lemma remove_first_other s l : s ≠ url → url ∈ l → url ∈ remove_first s l.
Proof.
  intros Hs. induction l as [|x l IH]; [done|]. cbn [remove_first]. case_decide.
  - subst x. by intros [->|?]%elem_of_cons.
  - intros [->|?]%elem_of_cons; [left|right; auto].
Qed.
Hint Resolve update_request_stays : respects.
Lemma processSyncStart_stays url' id : respects stays (connectionContext_processSyncStart endpoint_text url' id).
Proof.
  intros c b c' E HT. unfold connectionContext_processSyncStart in E. minv E. injection H as <- <-.
  destruct (decide (url' ∈ c_inprogress c)) as [|Hn]; [by injection E as _ <-|].
  assert (url' ≠ url) as Hne by (intros ->; destruct HT; done).
  minv E. pose proof H as Hp. unfold parse_url in Hp.
  destruct (url_parse (Some url') URL_ALL ()) as [[v []]| | |] eqn:Ep; [|done..]. injection Hp as <- <-.
  destruct v as [v|]; [|by injection E as _ <-]. pose proof (url_parse_all _ _ Ep) as Ha.
  minv E. pose proof (locate_respects stays _ _ _ _ H0 HT) as T1.
  minv E. assert (taken s0) as T2.
  { destruct r; [by injection H1 as _ <-|]. exact (construct_respects stays stays_other _ _ _ _ _ H1 T1). }
  minv E. pose proof (in_objects_respects stays stays_other _ _ _ _ H2 T2) as T3.
  minv E. pose proof (in_objects_respects stays stays_other _ _ _ _ H3 T3) as T4.
  minv E. pose proof (syncRequest_new_respects stays stays_other _ _ _ _ _ H4 T4) as T5.
  destruct (syncRequest_new_url _ _ _ _ _ H4) as (v' & [= <-] & Hv & _). rewrite Ha in Hv. injection Hv as Hv.
  minv E. assert (taken s4) as T6.
  { eapply add_request_stays; [|exact H5|exact T5]. intros _. cbn [ss_url with_ids]. by rewrite <-Hv. }
  minv E. injection H6 as <- <-. by eapply set_inprogress_app.
Qed.
Lemma finish_objects_stays key r : respects stays (finish_objects script key r).
Proof. unfold finish_objects. respects. by apply update_request_stays. Qed.
Lemma process_finish_stays id : respects stays (process_finish script endpoint_text id).
Proof.
  intros c b c' E HT. unfold process_finish, find_request in E. minv E. injection H as <- <-.
  destruct (al_find _ _) as [r|] eqn:Er; [|by injection E as _ <-].
  minv E. assert (taken s) as T1 by (eapply update_request_stays; [|exact H|exact HT]; done).
  destruct (ss_isClient r) eqn:Hc; [|by injection E as _ <-].
  assert (ss_url r ≠ url) as Hu by (destruct HT as [_ HT]; eapply HT; [by apply al_find_elem|done]).
  unfold when, finish_client in E. minv E. destruct (finish_objects_stays _ _ _ _ _ H0 T1) as [T2 T3].
  minv E. injection H1 as <- <-. injection E as _ <-. split; [|done]. cbn. by apply remove_first_other.
Qed.

Definition asks (e : event) : Prop := match e with ERequest (Some u) _ => u_all u = Some url | _ => False end.
Lemma in_sender_stays {B} (m : XM B) c b c' :
  respects (keeping x_inprogress) m → in_sender m c = Ok (b, c') → stays c c'.
Proof.
  intros Hm. unfold in_sender. destruct (m _) as [[b1 x]| | |] eqn:E; [|done..]. intros [= <- <-].
  pose proof (Hm _ _ _ E) as Hi. unfold keeping in Hi. cbn in Hi. intros [Hin Hreq]. split; [|done]. cbn. by rewrite Hi.
Qed.
Lemma sending_inprogress {B} (m : DM B) : respects (keeping x_inprogress) (sending m).
Proof. intros x b x'. unfold sending. destruct (m (x_world x)) as [[b1 w]| | |]; [|done..]. by intros [= <- <-]. Qed.
Lemma packetSend_inprogress p : respects (keeping x_inprogress) (connectionContext_packetSend encodes p).
Proof. by intros x b x' [= <- <-]. Qed.
Lemma set_auth_inprogress a b : respects (keeping x_inprogress) (set_auth a b).
Proof. by intros x b' x' [= <- <-]. Qed.
Hint Resolve sending_inprogress packetSend_inprogress set_auth_inprogress : respects.
Hint Resolve processSync_respects loopIteration_stays : respects.
Lemma perform_stays e c c' : ¬ asks e → perform e c = Ok ((), c') → stays c c'.
Proof.
  intros Ha E. destruct e as [p| |u d|]; cbn [perform] in E.
  - destruct p; cbn [connectionContext_processPacket] in E.
    1-3: eapply in_sender_stays; [|exact E].
    + unfold connectionContext_processAuthRequest, connectionContext_authUserPass. respects.
    + unfold connectionContext_processAuthUserPass. respects.
    + unfold connectionContext_processAuthResponse. respects.
    + by eapply processSyncStart_stays.
    + eapply processSync_respects; [exact _|apply stays_other|apply stays_index|exact E].
    + by eapply process_finish_stays.
    + by injection E as <-.
  - minv E. injection E as <-. by eapply loopIteration_stays.
  - minv E. injection E as <-. unfold connectionContext_syncRequestForce in H. minv H.
    destruct u as [u|]; [|done]. injection H0 as <- <-. cbn [negb] in H. minv H.
    destruct (syncRequest_new_url _ _ _ _ _ H0) as (v & [= <-] & Hall & _).
    pose proof (syncRequest_new_respects stays stays_other _ _ _ _ _ H0) as S1.
    minv H. pose proof (next_sequenceID_respects stays stays_other _ _ _ H1) as S2.
    minv H. assert (stays s1 s2) as S3.
    { eapply add_request_stays; [|exact H2]. intros _ Hu. apply Ha. cbn. rewrite Hall. cbn in Hu. by rewrite Hu. }
    minv H. injection H as _ <-. pose proof (loopIteration_stays _ _ _ H3) as S4. intros HT. by apply S4, S3, S2, S1.
  - eapply in_sender_stays; [|exact E]. unfold connectionContext_requestAuth. respects.
Qed.
End Served.

(** ** The first request *)
Lemma replace_same key r l : al_find key l = Some r → replace_request key r l = l.
Proof.
  induction l as [|[k q] l IH]; cbn [al_find replace_request]; [done|].
  case_decide as E; [intros [= ->]; by rewrite E|]. intros ?. by rewrite IH.
Qed.
Lemma sender_same c r key : al_find key (c_requests c) = Some r →
  after_sender (sender_of c r) (replace_request key r (c_requests c)) c = c.
Proof. intros E. rewrite replace_same by done. by destruct c as [[]]. Qed.
(** The loop only ever works on the first request of the table.  While that is a
    request of this side that has been sent and whose answer has not ended, any number
    of rounds changes nothing at all: no other request is started or answered. *)
Theorem waiting_request_blocks c key r rest n :
  authorized_now c = true → c_requests c = (key, r) :: rest →
  ss_isClient r = true → ss_hasStarted r = true → ss_hasSentLocal r = true → ss_hasFinished r = true →
  ss_finalize r = false →
  mfor perform (replicate n ELoop) c = Ok ((), c).
Proof.
  intros Ha Hl Hc Hs Hsl Hf Hz. assert (al_find key (c_requests c) = Some r) as Hr by (rewrite Hl; cbn; by rewrite decide_True).
  assert (loopIteration c = Ok (1, c)) as E.
  { unfold connectionContext_loopIteration. erewrite bind_Ok by reflexivity. rewrite Ha, Hl. cbn [negb].
    erewrite (bind_Ok _ _ _ () c).
    2:{ unfold in_request. rewrite Hr. unfold connectionContext_processSyncRequest, req. erewrite bind_Ok by reflexivity.
        cbn [x_req sender_of]. rewrite Hc, Hs, Hsl. cbn [negb]. do 2 erewrite bind_Ok by reflexivity.
        cbn [x_req sender_of]. rewrite Hf. unfold mret, M_ret. cbn [negb]. do 2 f_equal. by apply sender_same. }
    unfold find_request. erewrite bind_Ok by reflexivity. rewrite Hr. do 2 erewrite bind_Ok by reflexivity. by rewrite Hz. }
  induction n as [|n IH]; [done|]. cbn [replicate mfor perform]. rewrite bind_assoc. by run_with E.
Qed.

(** ** The receive buffer *)
Lemma in_sender_buffer {B} (m : XM B) : respects (keeping c_buffer) (in_sender m).
Proof. intros c b c'. unfold in_sender. destruct (m _) as [[b1 x]| | |]; [|done..]. by intros [= <- <-]. Qed.
Lemma update_request_buffer key f : respects (keeping c_buffer) (update_request key f).
Proof.
  intros c b c'. unfold update_request, in_request, upd_req. destruct (al_find key (c_requests c)); [|done].
  by intros [= <- <-].
Qed.
Lemma set_requests_buffer l : respects (keeping c_buffer) (set_requests l).
Proof. by intros c b c' [= <- <-]. Qed.
Lemma set_inprogress_buffer l : respects (keeping c_buffer) (set_inprogress l).
Proof. by intros c b c' [= <- <-]. Qed.
Hint Resolve in_sender_buffer update_request_buffer set_requests_buffer set_inprogress_buffer processSync_respects : respects.
Lemma processPacket_buffer p : respects (keeping c_buffer) (processPacket p).
Proof.
  assert (∀ c u g q l, keeping c_buffer c (mkConn u g (c_requests c) (c_inprogress c) (c_sent c) (c_needAuth c) (c_hasAuth c)
    (c_buffer c) q l)) as Ho by done.
  assert (∀ c key r i, al_find key (c_requests c) = Some r → keeping c_buffer c (mkConn (c_ui c) (c_globals c)
    (replace_request key (with_objectIndex i r) (c_requests c)) (c_inprogress c) (c_sent c) (c_needAuth c) (c_hasAuth c)
    (c_buffer c) (c_sequenceID c) (c_loading c))) as Hi by done.
  destruct p; cbn [connectionContext_processPacket]; unfold connectionContext_processSyncStart, process_finish, finish_client,
    finish_objects, find_request, add_request; respects.
Qed.

Section Buffer.
Variable decode : list Z → decoded.
Variable enc : FRIPacketP → list Z.
Abbreviation consume_loop := (consume_loop encodes script imei endpoint_text decode).
Variables (ps : list FRIPacketP) (rest : list Z).
(** The decoder finds the packet that was encoded, whatever follows it, and no packet in
    what is left. *)
Hypothesis decode_enc : ∀ p more, p ∈ ps → decode (enc p ++ more) = RC_OK p (length (enc p)).
Hypothesis enc_nonempty : ∀ p, p ∈ ps → enc p ≠ [].
Hypothesis decode_rest : ∀ p n, decode rest ≠ RC_OK p n.

(** One packet, and its bytes are dropped. *)
Definition take_packet (p : FRIPacketP) : CM () :=
  processPacket p;; c ← get; set_bytes (drop (length (enc p)) (c_buffer c)).
Lemma consume_one p qs c : p ∈ ps → c_buffer c = concat (map enc (p :: qs)) ++ rest →
  connectionContext_consumePacket encodes script imei endpoint_text decode c =
    (take_packet p;; mret (Z.of_nat (length (enc p)))) c.
Proof.
  intros Hp Hb. unfold connectionContext_consumePacket, take_packet. erewrite bind_Ok by reflexivity.
  rewrite Hb. cbn [map concat]. rewrite <-(assoc_L app).
  pose proof (decode_enc p (concat (map enc qs) ++ rest) Hp) as D.
  destruct (enc p) as [|b bs] eqn:E; [by apply enc_nonempty in E|]. cbn [app] in *. rewrite D, bind_assoc.
  unfold mbind at 1 4, M_bind at 1 4. destruct (processPacket p c) as [[[] c1]| | |]; [|done..]. by rewrite bind_assoc.
Qed.
Lemma take_packet_buffer p qs c c' : c_buffer c = concat (map enc (p :: qs)) ++ rest → take_packet p c = Ok ((), c') →
  c_buffer c' = concat (map enc qs) ++ rest.
Proof.
  intros Hb E. unfold take_packet in E. minv E. pose proof (processPacket_buffer _ _ _ _ H) as Hk.
  minv E. injection H0 as <- <-. injection E as <-. cbn [c_buffer]. rewrite Hk, Hb. cbn [map concat].
  by rewrite <-(assoc_L app), drop_app_length.
Qed.
Lemma consume_loop_ok qs : qs ⊆ ps → ∀ c fuel, c_buffer c = concat (map enc qs) ++ rest → (length qs < fuel)%nat →
  consume_loop fuel c = mfor take_packet qs c.
Proof.
  intros Hsub. induction qs as [|p qs IH]; intros c fuel Hb Hf; (destruct fuel as [|fuel]; [lia|]); cbn [Connection.consume_loop].
  - cbn [map concat app] in Hb. erewrite (bind_Ok _ _ _ 0 c); [done|]. unfold connectionContext_consumePacket.
    erewrite bind_Ok by reflexivity. rewrite Hb. pose proof decode_rest as Hd.
    destruct rest as [|b bs]; [done|]. destruct (decode (b :: bs)) as [q n| |]; [|done..]. by destruct (Hd q n).
  - cbn [mfor]. assert (p ∈ ps) as Hp by set_solver. unfold mbind, M_bind at 1.
    rewrite (consume_one p qs c Hp Hb). unfold mbind, M_bind. destruct (take_packet p c) as [[[] c1]| | |] eqn:E; [|done..].
    unfold mret, M_ret. rewrite (proj2 (Z.ltb_lt 0 (Z.of_nat (length (enc p))))).
    2:{ pose proof (enc_nonempty p Hp). destruct (enc p); [done|]. cbn [length]. lia. }
    apply IH; [set_solver|by eapply take_packet_buffer|cbn [length] in Hf; lia].
Qed.
End Buffer.

Lemma runs_exec tr c c' : mfor perform tr c = Ok ((), c') → runs c tr c'.
Proof.
  revert c'. induction tr as [|e tr IH] using rev_ind; intros c'; [intros [= <-]; constructor|].
  rewrite mfor_app. intros ([] & c1 & E1 & E2)%bind_Ok_inv. cbn [mfor] in E2. apply bind_Ok_inv in E2 as ([] & c2 & E2 & [= <-]).
  eapply runs_step; [by apply IH|done].
Qed.
End Runs.

(** ** Instances: a connection that answers a request for a note *)
Definition host_url : cstring := lit "tcp://host/note".
Definition host_world : world :=
  mkWorld (list_to_map [(1%positive, with_isLocal true (with_data [(lit "title", 1%positive)] empty_object))]) 2
    (mkFH (list_to_map [(1%positive, mkField (DOF_STRING (SHeap (lit "hi"))) 0)]) 2).
Definition host : connection :=
  mkConn (mkUi host_world None ∅ [] None 1 None) [(lit "/note", 1%positive)] [] [] [] NA_UNKNOWN false [] 1 None.
Definition host_perform : event → CM () := perform (λ _, true) (λ _ _, mret ()) (Some (lit "1")) (lit "0").
Definition host_after (c : connection) (tr : list event) : connection :=
  match mfor host_perform tr c with Ok (_, c') => c' | _ => c end.
Definition host_accepts : list event := [EPacket (dataObjectSyncStartP host_url 0 0 1)].
Definition host_answers : list event :=
  [EPacket (authUserPassP (mkUserPass (lit "any") (lit "any") [])); ERequestAuth;
   EPacket (authUserPassP (mkUserPass (lit "any") (lit "any") []));
   EPacket (dataObjectSyncFinishP responseExpiredP 1); ELoop; ELoop].
Lemma no_data_before_authorization_witness :
  let c := host_after host (host_accepts ++ host_answers) in
  let p := dataObjectSyncP 1 (blockSyncListP [mkOp (fieldNameStringP (lit "title")) (syncSetP (lit "hi"))]) in
  p ∈ c_sent c ∧ (waived (host_accepts ++ host_answers) ∨ identified (host_accepts ++ host_answers)).
Proof.
  assert (dataObjectSyncP 1 (blockSyncListP [mkOp (fieldNameStringP (lit "title")) (syncSetP (lit "hi"))]) ∈
    c_sent (host_after host (host_accepts ++ host_answers))) as Hp by (vm_compute; repeat constructor).
  split; [exact Hp|].
  refine (no_data_before_authorization (λ _, true) (λ _ _, mret ()) (Some (lit "1")) (lit "0") host _ _
    eq_refl eq_refl eq_refl _ _ Hp eq_refl).
  apply runs_exec. vm_compute. reflexivity.
Defined.
Definition waiting_request : SendRequest :=
  mkSend host_url 1 None true false true true true false false None [] 1 0 0 (-2).
Definition waiting : connection :=
  mkConn (c_ui host) [] [(lit "0,1", waiting_request)] [host_url] [] NA_NO false [] 3 None.
Lemma waiting_request_blocks_witness : mfor host_perform (replicate 5 ELoop) waiting = Ok ((), waiting).
Proof. by apply (waiting_request_blocks (λ _, true) (λ _ _, mret ()) (Some (lit "1")) (lit "0") waiting (lit "0,1") waiting_request []). Defined.
(** A toy encoding of two kinds of packets. *)
Definition toy_enc (p : FRIPacketP) : list Z :=
  match p with authResponseP responseOKP => [1; 7] | dataObjectSyncFinishP responseOKP id => [2; id] | _ => [] end.
Definition toy_decode (l : list Z) : decoded :=
  match l with
  | 1 :: 7 :: _ => RC_OK (authResponseP responseOKP) 2
  | 2 :: id :: _ => RC_OK (dataObjectSyncFinishP responseOKP id) 2
  | _ => RC_WMORE
  end.
