(* ===== verification/Utf8.v ===== *)
(** * Font.c: the UTF-8 decoder

    [UTF8toUTF32] with its two tables, and the loop every text routine runs it in.
    [utf8_encode] is the standard encoding it is meant to invert. *)
From S2P Require Import Prelude CStrings.

Definition trailingBytesForUTF8 : list Z :=
  replicate 192 0 ++ replicate 32 1 ++ replicate 16 2 ++ replicate 8 3 ++ replicate 4 4 ++
  replicate 4 5.
Definition offsetsFromUTF8 : list Z :=
  [0x00000000; 0x00003080; 0x000E2080; 0x03C82080; 0xFA082080; 0x82082080].
Definition UNI_SUR_HIGH_START : Z := 0xD800.
Definition UNI_SUR_LOW_END : Z := 0xDFFF.
Definition UNI_REPLACEMENT_CHAR : Z := 0x0000FFFD.

(** The fall-through cases of the [switch]: [n] bytes that are followed by others
    and a last one, accumulated in an [unsigned int]. *)
Fixpoint utf8_read (s : cstring) (i n : nat) (ch : Z) : option Z :=
  b ← char_at s i;
  match n with
  | O => Some (uint32 (ch + b))
  | S n => utf8_read s (S i) n (uint32 (Z.shiftl (uint32 (ch + b)) 6))
  end.

(** The character at position [i] and the number of bytes to advance. *)
Definition UTF8toUTF32 (s : cstring) (i : nat) : option (Z * nat) :=
  b ← char_at s i;
  extra ← trailingBytesForUTF8 !! Z.to_nat b;
  ch ← utf8_read s i (Z.to_nat extra) 0;
  off ← offsetsFromUTF8 !! Z.to_nat extra;
  let ch := uint32 (ch - off) in
  Some (if (UNI_SUR_HIGH_START <=? ch) && (ch <=? UNI_SUR_LOW_END) then UNI_REPLACEMENT_CHAR else ch,
        S (Z.to_nat extra)).

(** [while ( *p != 0) { val = UTF8toUTF32 (p, &adv); ...; p += adv; }] *)
Fixpoint utf8_chars (fuel : nat) (s : cstring) (i : nat) : option (list Z) :=
  match fuel with
  | O => None
  | S fuel =>
      c ← char_at s i;
      if c =? 0 then Some [] else
      '(ch, adv) ← UTF8toUTF32 s i;
      cs ← utf8_chars fuel s (i + adv);
      Some (ch :: cs)
  end.
(** Every round advances by a byte at least. *)
Definition utf8_decode (s : cstring) : option (list Z) := utf8_chars (S (length s)) s 0.

(** ** The encoding *)
Definition utf8_encode (c : Z) : cstring :=
  if c <? 0x80 then [c]
  else if c <? 0x800 then [0xC0 + c / 64; 0x80 + c mod 64]
  else if c <? 0x10000 then [0xE0 + c / 4096; 0x80 + c / 64 mod 64; 0x80 + c mod 64]
  else [0xF0 + c / 262144; 0x80 + c / 4096 mod 64; 0x80 + c / 64 mod 64; 0x80 + c mod 64].
Definition surrogate (c : Z) : bool := (0xD800 <=? c) && (c <=? 0xDFFF).
Definition replaced (c : Z) : Z := if surrogate c then 0xFFFD else c.

Lemma trailing_0 b : 0 ≤ b < 192 → trailingBytesForUTF8 !! Z.to_nat b = Some 0.
Proof.
  intros. unfold trailingBytesForUTF8. rewrite lookup_app_l by (rewrite length_replicate; lia).
  apply lookup_replicate_2. lia.
Qed.
Ltac trailing_r := rewrite lookup_app_r by (rewrite length_replicate; lia); rewrite length_replicate.
Ltac trailing_l :=
  rewrite lookup_app_l by (rewrite length_replicate; lia); apply lookup_replicate_2; lia.
Lemma trailing_1 b : 192 ≤ b < 224 → trailingBytesForUTF8 !! Z.to_nat b = Some 1.
Proof. intros. unfold trailingBytesForUTF8. trailing_r. trailing_l. Qed.
Lemma trailing_2 b : 224 ≤ b < 240 → trailingBytesForUTF8 !! Z.to_nat b = Some 2.
Proof. intros. unfold trailingBytesForUTF8. do 2 trailing_r. trailing_l. Qed.
Lemma trailing_3 b : 240 ≤ b < 248 → trailingBytesForUTF8 !! Z.to_nat b = Some 3.
Proof. intros. unfold trailingBytesForUTF8. do 3 trailing_r. trailing_l. Qed.
(** A lead byte announces at least one more byte. *)
Lemma trailing_lead b :
  192 ≤ b < 256 → ∃ n, trailingBytesForUTF8 !! Z.to_nat b = Some n ∧ 1 ≤ n ≤ 5.
Proof.
  intros. destruct (decide (b < 224)); [exists 1; split; [apply trailing_1; lia|lia]|].
  destruct (decide (b < 240)); [exists 2; split; [apply trailing_2; lia|lia]|].
  destruct (decide (b < 248)); [exists 3; split; [apply trailing_3; lia|lia]|].
  unfold trailingBytesForUTF8. destruct (decide (b < 252)).
  - exists 4. split; [|lia]. do 4 trailing_r. trailing_l.
  - exists 5. split; [|lia]. do 5 trailing_r. apply lookup_replicate_2. lia.
Qed.

Lemma char_at_app s1 s2 i : char_at (s1 ++ s2) (length s1 + i) = char_at s2 i.
Proof.
  unfold char_at. rewrite length_app. repeat case_decide; try lia; try done.
  by rewrite lookup_app_r, Nat.add_sub' by lia.
Qed.
Lemma char_at_0 b s : char_at (b :: s) 0 = Some b.
Proof. unfold char_at. rewrite decide_True by (simpl; lia). done. Qed.
Lemma char_at_S b s i : char_at (b :: s) (S i) = char_at s i.
Proof. exact (char_at_app [b] s i). Qed.
Lemma char_at_end s : char_at s (length s) = Some 0.
Proof. unfold char_at. rewrite decide_False by lia. by rewrite decide_True. Qed.
Lemma char_at_beyond s i : (length s < i)%nat → char_at s i = None.
Proof. intros. unfold char_at. by rewrite !decide_False by lia. Qed.

Lemma utf8_read_app s1 s2 i n ch :
  utf8_read (s1 ++ s2) (length s1 + i) n ch = utf8_read s2 i n ch.
Proof.
  revert i ch; induction n as [|n IH]; intros i ch; simpl; rewrite char_at_app; [done|].
  destruct (char_at s2 i); [|done]. simpl. rewrite <-Nat.add_succ_r. apply IH.
Qed.
Lemma UTF8toUTF32_app s1 s2 i : UTF8toUTF32 (s1 ++ s2) (length s1 + i) = UTF8toUTF32 s2 i.
Proof.
  unfold UTF8toUTF32. rewrite char_at_app. destruct (char_at s2 i); [|done]. simpl.
  destruct (trailingBytesForUTF8 !! _); [|done]. simpl. by rewrite utf8_read_app.
Qed.

Lemma char_at_here s1 s2 : char_at (s1 ++ s2) (length s1) = char_at s2 0.
Proof. by rewrite <-(char_at_app s1 s2 0), Nat.add_0_r. Qed.
Lemma UTF8toUTF32_here s1 s2 : UTF8toUTF32 (s1 ++ s2) (length s1) = UTF8toUTF32 s2 0.
Proof. by rewrite <-(UTF8toUTF32_app s1 s2 0), Nat.add_0_r. Qed.

Lemma utf8_encode_pos c : 0 < c < 0x110000 → Forall (λ b, 0 < b < 256) (utf8_encode c).
Proof.
  intros Hc. unfold utf8_encode. repeat case_match; rewrite ?Z.ltb_lt, ?Z.ltb_ge in *;
    repeat constructor; Z.div_mod_to_equations; lia.
Qed.

(** Remove the wrap-arounds, innermost first. *)
Ltac unwrap :=
  repeat match goal with
  | |- context [uint32 ?x] =>
      lazymatch x with
      | context [uint32 _] => fail
      | _ => rewrite (uint32_small x) by (Z.div_mod_to_equations; lia)
      end
  end.
Ltac bytes := repeat first [rewrite char_at_0 | rewrite char_at_S]; simpl.
(** The decoder inverts the encoding of one character, surrogates apart. *)
Lemma utf8_decode_one c rest :
  0 < c < 0x110000 →
  UTF8toUTF32 (utf8_encode c ++ rest) 0 = Some (replaced c, length (utf8_encode c)).
Proof.
  intros Hc. unfold utf8_encode, UTF8toUTF32.
  destruct (Z.ltb_spec c 0x80) as [H1|H1]; [|destruct (Z.ltb_spec c 0x800) as [H2|H2];
    [|destruct (Z.ltb_spec c 0x10000) as [H3|H3]]]; simpl app; rewrite char_at_0; simpl.
  - rewrite trailing_0 by lia. simpl. bytes. unwrap. rewrite Z.sub_0_r, Z.add_0_l.
    unfold replaced, surrogate. repeat f_equal; lia.
  - rewrite trailing_1 by (Z.div_mod_to_equations; lia). simpl. bytes.
    rewrite !Z.shiftl_mul_pow2 by done. rewrite ?Z.add_0_l. unwrap.
    replace ((192 + c / 64) * 2 ^ 6 + (128 + c mod 64) - 12416) with c by (Z.div_mod_to_equations; lia).
    done.
  - rewrite trailing_2 by (Z.div_mod_to_equations; lia). simpl. bytes.
    rewrite !Z.shiftl_mul_pow2 by done. rewrite ?Z.add_0_l. unwrap.
    replace (((224 + c / 4096) * 2 ^ 6 + (128 + c / 64 mod 64)) * 2 ^ 6 + (128 + c mod 64) - 925824)
      with c by (Z.div_mod_to_equations; lia).
    done.
  - rewrite trailing_3 by (Z.div_mod_to_equations; lia). simpl. bytes.
    rewrite !Z.shiftl_mul_pow2 by done. rewrite ?Z.add_0_l. unwrap.
    replace ((((240 + c / 262144) * 2 ^ 6 + (128 + c / 4096 mod 64)) * 2 ^ 6 + (128 + c / 64 mod 64))
      * 2 ^ 6 + (128 + c mod 64) - 63447168) with c by (Z.div_mod_to_equations; lia).
    done.
Qed.

Definition utf8_text (cs : list Z) : cstring := concat (map utf8_encode cs).
Definition scalar (c : Z) : Prop := 0 < c < 0x110000.

Lemma encode_cons c : scalar c → ∃ b s, utf8_encode c = b :: s ∧ b ≠ 0.
Proof.
  intros Hc. pose proof (utf8_encode_pos c Hc) as H. unfold utf8_encode in *.
  repeat case_match; eexists _, _; split; try done; inversion H; lia.
Qed.

Lemma utf8_text_length cs : Forall scalar cs → (length cs ≤ length (utf8_text cs))%nat.
Proof.
  intros Hcs. induction Hcs as [|c cs Hc Hcs IH]; [done|]. unfold utf8_text in *. simpl.
  destruct (encode_cons c Hc) as (b & s & -> & _). rewrite length_app. simpl in *. lia.
Qed.

(** The loop over encoded characters, from any position. *)
Lemma utf8_chars_run cs pre rest fuel :
  Forall scalar cs →
  utf8_chars (length cs + fuel) (pre ++ utf8_text cs ++ rest) (length pre) =
    (λ l, map replaced cs ++ l) <$>
      utf8_chars fuel (pre ++ utf8_text cs ++ rest) (length pre + length (utf8_text cs)).
Proof.
  intros Hcs. revert pre. induction Hcs as [|c cs Hc Hcs IH]; intros pre.
  - simpl. rewrite Nat.add_0_r. by destruct (utf8_chars _ _ _).
  - unfold utf8_text. cbn [map concat]. fold (utf8_text cs). rewrite <-app_assoc.
    destruct (encode_cons c Hc) as (b & s & Eb & Hb). cbn [length Nat.add utf8_chars].
    rewrite char_at_here, UTF8toUTF32_here.
    assert (char_at (utf8_encode c ++ utf8_text cs ++ rest) 0 = Some b) as Hc0
      by (rewrite Eb; apply char_at_0).
    rewrite Hc0, utf8_decode_one by done. simpl. rewrite (proj2 (Z.eqb_neq b 0) Hb).
    rewrite app_assoc, <-length_app, IH, (length_app (utf8_encode c)), length_app, Nat.add_assoc.
    by destruct (utf8_chars _ _ _).
Qed.

(** The text loop over [UTF8toUTF32] inverts the standard UTF-8 encoding: on
    the encoding of any scalar values it terminates, reads no byte behind the
    terminator and yields them all in order; encoded surrogates come out as
    U+FFFD. *)
Theorem utf8_decode_encode cs :
  Forall scalar cs → utf8_decode (utf8_text cs) = Some (map replaced cs).
Proof.
  intros Hcs. unfold utf8_decode.
  pose proof (utf8_text_length cs Hcs) as Hlen.
  replace (S (length (utf8_text cs))) with (length cs + S (length (utf8_text cs) - length cs))%nat by lia.
  pose proof (utf8_chars_run cs [] [] (S (length (utf8_text cs) - length cs)) Hcs) as E.
  cbn [length Nat.add app] in E. rewrite !app_nil_r in E. rewrite E.
  cbn [utf8_chars]. rewrite char_at_end. simpl. by rewrite app_nil_r.
Qed.

(** the decoder trusts the lead byte.  A text cut off after one makes the
    loop step over the terminator and read behind it, whatever came before. *)
Theorem utf8_truncated_overreads cs b :
  Forall scalar cs → 192 ≤ b < 256 → utf8_decode (utf8_text cs ++ [b]) = None.
Proof.
  intros Hcs Hb. unfold utf8_decode.
  assert (∀ fuel pre, utf8_chars (S (S fuel)) (pre ++ [b]) (length pre) = None) as Hlast.
  { intros fuel pre. cbn [utf8_chars]. rewrite char_at_here, UTF8toUTF32_here, char_at_0. simpl.
    destruct (Z.eqb_spec b 0); [lia|].
    destruct (UTF8toUTF32 [b] 0) as [[ch adv]|] eqn:E; [|done]. simpl.
    assert (2 ≤ adv)%nat as Hadv.
    { unfold UTF8toUTF32 in E. rewrite char_at_0 in E. simpl in E.
      destruct (trailing_lead b Hb) as (extra & Hn & ?). rewrite Hn in E. simpl in E.
      destruct (utf8_read [b] 0 (Z.to_nat extra) 0); [|done]. simpl in E.
      destruct (offsetsFromUTF8 !! Z.to_nat extra); [|done]. simpl in E.
      injection E as _ <-. lia. }
    rewrite char_at_beyond; [done|]. rewrite length_app. simpl. lia. }
  pose proof (utf8_text_length cs Hcs) as Hlen.
  rewrite length_app. cbn [length].
  replace (S (length (utf8_text cs) + 1)) with
    (length cs + S (S (length (utf8_text cs) - length cs)))%nat by lia.
  pose proof (utf8_chars_run cs [] [b] (S (S (length (utf8_text cs) - length cs))) Hcs) as E.
  cbn [app length Nat.add] in E. rewrite E. by rewrite Hlast.
Qed.

Lemma utf8_decode_encode_witness :
  utf8_decode (utf8_text [0x41; 0xE9; 0x20AC; 0x1F600; 0xD800]) =
    Some [0x41; 0xE9; 0x20AC; 0x1F600; 0xFFFD].
Proof.
  apply (utf8_decode_encode [0x41; 0xE9; 0x20AC; 0x1F600; 0xD800]).
  unfold scalar. repeat constructor; lia.
Defined.
Lemma utf8_truncated_overreads_witness : utf8_decode (utf8_text [0x63; 0x61; 0x66] ++ [0xC3]) = None.
Proof.
  apply utf8_truncated_overreads; [unfold scalar; repeat constructor; lia|lia].
Defined.
