(* ===== verification/Entry.v ===== *)
(** * EntryWidget.c, CheckBoxWidget.c: keys for the widget with the focus

    The text of an entry is a C string in UTF-8; the cursor counts characters.  The
    handlers return 1 when the key was for them. *)
From S2P Require Import Prelude RenderManager Lgui CStrings Utf8 FieldNames Fields DataObjects Ui Modify.

Definition EKEY_ACTIVATE : Z := 0xFFFFFF03.
Definition EKEY_BACK : Z := 0xFFFFFF05.
Definition EKEY_FOCUSPREV : Z := 0xFFFFFF01.
Definition EKEY_FOCUSNEXT : Z := 0xFFFFFF02.
Definition EKEY_FOCUSLEFT : Z := 0xFFFFFF06.
Definition EKEY_FOCUSRIGHT : Z := 0xFFFFFF07.
Definition EKEY_ALTTAB : Z := 0xFFFFFF04.

(** [isprint] in the C locale; it is not defined for larger numbers. *)
Definition isprint (key : Z) : UM bool :=
  if (0 <=? key) && (key <? 256) then mret ((32 <=? key) && (key <? 127)) else fault.
Definition backspace : Z := 8.

(** ** Entries *)
Definition data_field (d : oloc) : UM floc :=
  field ← getField d EMO_FIELD_DATA;
  match field with
  | Some f => mret f
  | None => f ← in_fields (dataobjectfield_string (Some (SHeap []))); setField d EMO_FIELD_DATA f;; mret f
  end.
Definition cursor_field (w : oloc) : UM floc :=
  field ← getFieldAsInt w EMO_FIELD_CURSOR;
  match field with
  | Some f => mret f
  | None => f ← new_int 0; setField w EMO_FIELD_CURSOR f;; mret f
  end.
(** The loop over the characters before the cursor: where the last of them starts, how
    long it is, and where it ends; nothing when the text ends before the cursor. *)
Fixpoint skip_chars (n : nat) (s : cstring) (pos : nat) (lastpos adv : nat) : option (option (nat * nat * nat)) :=
  match n with
  | O => Some (Some (lastpos, adv, pos))
  | S n =>
      '(ch, adv) ← UTF8toUTF32 s pos;
      if ch =? 0 then Some None else skip_chars n s (pos + adv) pos adv
  end.
(** The bytes of a key, the lowest first. *)
Definition key_bytes (key : Z) : cstring :=
  let keylen := if negb (Z.land key 0xFF000000 =? 0) then 4%nat
                else if negb (Z.land key 0xFF0000 =? 0) then 3%nat
                else if negb (Z.land key 0xFF00 =? 0) then 2%nat else 1%nat in
  take keylen [Z.land key 0xFF; Z.land (Z.shiftr key 8) 0xFF; Z.land (Z.shiftr key 16) 0xFF; Z.land (Z.shiftr key 24) 0xFF].
(** The text is changed in its place, or replaced and the old one freed. *)
Definition put_text (f : floc) (text : cstring) : UM () :=
  p ← in_fields (get_string f);
  in_fields (free_string p);;
  c ← in_fields (get_field f);
  in_fields (set_field f (mkField (DOF_STRING (SHeap text)) (f_flags c))).
Definition add_cursor (g : floc) (d : Z) : UM () :=
  i ← in_fields (get_integer g); in_fields (set_integer g (int32 (i + d))).
Definition entry_edit (w : oloc) (key : Z) (f g : floc) (cursorindex : Z) : UM Z :=
  p ← in_fields (get_string f); s ← deref (str_content p);
  skipped ← deref (skip_chars (Z.to_nat cursorindex) s 0 0 0);
  match skipped with
  | None => mret 1
  | Some (lastpos, adv, cursorbytes) =>
      (if key =? backspace then
         when (bool_decide (0 < length s)%nat && (0 <? cursorindex))
           (put_text f (take lastpos s ++ drop (lastpos + adv) s);; add_cursor g (-1))
       else
         put_text f (take cursorbytes s ++ key_bytes key ++ drop cursorbytes s);; add_cursor g 1);;
      dataobject_setIsModified (Some w) true;;
      mret 1
  end.
(** Whether the key is one for an entry. *)
Definition entry_key (key : Z) : UM bool :=
  if (key =? EKEY_FOCUSLEFT) || (key =? EKEY_FOCUSRIGHT) then mret true else
  if 0xFFFFFF00 <? key then mret false else
  printable ← isprint key; mret (printable || (key =? backspace)).
Definition entryWidget_handleKey (w : option oloc) (key : Z) (s : option oloc) : UM Z :=
  w ← emo_nonnull w; _ ← emo_nonnull s;
  mine ← entry_key key;
  if negb (mine : bool) then mret 0 else
  dobj ← data_of w;
  f ← data_field dobj;
  g ← cursor_field w;
  cursorindex ← in_fields (get_integer g);
  if key =? EKEY_FOCUSLEFT then
    let i := int32 (cursorindex - 1) in
    when (0 <=? i) (in_fields (set_integer g i);; dataobject_setIsModified (Some w) true);;
    mret 1
  else if key =? EKEY_FOCUSRIGHT then
    p ← in_fields (get_string f); text ← deref (str_content p);
    c ← deref (if 0 <=? cursorindex then char_at text (Z.to_nat cursorindex) else None);
    if c =? 0 then mret 1 else
    in_fields (set_integer g (int32 (cursorindex + 1)));;
    dataobject_setIsModified (Some w) true;;
    mret 1
  else entry_edit w key f g cursorindex.

(** ** Check boxes *)
(** The text of the value that means checked, if the widget has one. *)
Definition text_of_field (f : option floc) : UM (option str_ptr) :=
  match f with
  | None => mret None
  | Some f => c ← in_fields (get_field f); mret (match f_value c with DOF_STRING p => Some p | _ => None end)
  end.
(** The field a check box is for: by name, or by number. *)
Definition checked_key (w : oloc) : UM (cstring + Z) :=
  let unknown := enum_value EMO_FIELD_UNKNOWN_FIELD in
  let named e := if e =? unknown then enum_value EMO_FIELD_DATA else e in
  cbfield ← getField w EMO_FIELD_CHECKFIELD;
  match cbfield with
  | None => mret (inr (named unknown))
  | Some f =>
      c ← in_fields (get_field f);
      match f_value c with
      | DOF_INT i => mret (inr (named i))
      | DOF_STRING p =>
          s ← deref (str_content p);
          let e := emo_field_to_int (Some s) in
          mret (if e =? unknown then inl s else inr e)
      | _ => mret (inr (named unknown))
      end
  end.
Definition checkboxWidget_handleKey (w : option oloc) (key : Z) (s : option oloc) : UM Z :=
  w ← emo_nonnull w; _ ← emo_nonnull s;
  if negb (key =? EKEY_ACTIVATE) then mret 0 else
  dobj ← data_of w;
  cbvalue ← getField w EMO_FIELD_CHECKVALUE;
  value ← text_of_field cbvalue;
  k ← checked_key w;
  let valueStr := default (SHeap (lit "1")) value in
  found ← (match k with
           | inl name => in_world (dataobject_getValue (Some dobj) (Some name))
           | inr e => in_world (dataobject_getEnum (Some dobj) e)
           end);
  field ← (match found with
           | Some f => mret f
           | None =>
               f ← in_fields (dataobjectfield_string (Some (SHeap (lit "0"))));
               setField dobj EMO_FIELD_DATA f;; mret f
           end);
  text ← deref (str_content valueStr);
  isChecked ← in_fields (dataobjectfield_isString (Some field) (Some text));
  if isChecked : bool then
    match cbvalue with
    | Some _ => mret 1
    | None =>
        in_fields (dataobjectfield_setString (Some field) (Some (SHeap (lit "0"))));;
        dataobject_setIsModified (Some dobj) true;; mret 1
    end
  else
    in_fields (dataobjectfield_setString (Some field) (Some valueStr));;
    dataobject_setIsModified (Some dobj) true;; mret 1.
