(* ===== verification/EntryRules.v ===== *)
(** * Properties of the key handling of entries

    Typing and erasing work on characters of the UTF-8 text, wherever the cursor is in
    it; moving the cursor to the right does not. *)
From S2P Require Import Prelude RenderManager Lgui CStrings Utf8 FieldNames Fields DataObjects ObjectTrees ObjectFields.
From S2P Require Import Arrays Ui Modify FocusTrees Entry.

Abbreviation DATA := (enum_value EMO_FIELD_DATA).
Abbreviation CURSOR := (enum_value EMO_FIELD_CURSOR).

(** ** Worlds that differ in flags only *)
Definition same_objects (w w' : world) : Prop :=
  ∀ x, with_flags1 0 <$> w_objs w' !! x = with_flags1 0 <$> w_objs w !! x.
Lemma same_object_at w w' x o' : same_objects w w' → w_objs w' !! x = Some o' →
  ∃ o, w_objs w !! x = Some o ∧ o_enumData o' = o_enumData o ∧ o_referenced o' = o_referenced o ∧ o_widgetData o' = o_widgetData o.
Proof.
  intros H Ho. specialize (H x). rewrite Ho in H. destruct (w_objs w !! x) as [o|]; [|done].
  exists o. injection H as H. destruct o, o'; cbn in *. naive_solver.
Qed.
Lemma same_objects_sym w w' : same_objects w w' → same_objects w' w.
Proof. intros H x. by rewrite H. Qed.
Lemma same_objects_trans w1 w2 w3 : same_objects w1 w2 → same_objects w2 w3 → same_objects w1 w3.
Proof. intros H1 H2 x. by rewrite H2, H1. Qed.
Lemma same_locate w w' d e : same_objects w w' → locate w' d e = locate w d e.
Proof.
  intros H. unfold locate. destruct (w_objs w' !! d) as [o'|] eqn:E'.
  - destruct (same_object_at _ _ _ _ H E') as (o & -> & Ho & _). simpl. by rewrite Ho.
  - specialize (H d). rewrite E' in H. by destruct (w_objs w !! d).
Qed.
Lemma same_data w w' d : same_objects w w' →
  o_widgetData <$> w_objs w' !! d = o_widgetData <$> w_objs w !! d.
Proof.
  intros H. destruct (w_objs w' !! d) as [o'|] eqn:E'.
  - destruct (same_object_at _ _ _ _ H E') as (o & -> & _ & _ & Ho). simpl. by rewrite Ho.
  - specialize (H d). rewrite E' in H. by destruct (w_objs w !! d).
Qed.
Lemma same_size w w' : same_objects w w' → size (w_objs w') = size (w_objs w).
Proof.
  intros H. rewrite <-!size_dom. f_equal. apply set_eq. intros x. rewrite !elem_of_dom.
  pose proof (H x) as Hx. destruct (w_objs w' !! x), (w_objs w !! x); try done; split; intros []; done.
Qed.
Lemma data_of_same u u' w d : same_objects (u_world u) (u_world u') → data_of w u = Ok (d, u) → data_of w u' = Ok (d, u').
Proof.
  intros H E. unfold data_of in *. apply in_world_pure. unfold in_world in E.
  destruct (widget_getDataObject (Some w) (u_world u)) as [[r w1]| | |] eqn:Ew; try done.
  injection E as -> Ew1. assert (w1 = u_world u) as ->.
  { apply (f_equal u_world) in Ew1. exact Ew1. }
  apply (getDataObject_agree (u_world u)); [intros; by apply same_data|by apply same_size|done].
Qed.

(** ** A modification of a widget that is no array and that nothing refers to *)
Definition not_array (w : world) (d : oloc) (h : floc) : Prop :=
  ∃ p fl, locate w d TYPE = Some h ∧ content w h = Some (mkField (DOF_STRING p) fl) ∧
    has_flag DOFF_ARRAYSOURCE fl = false ∧ p ≠ SBuiltin EMO_TYPE_ARRAY.
Lemma setIsModified_plain u d o h n :
  w_objs (u_world u) !! d = Some o → o_referenced o = [] → not_array (u_world u) d h → accepts (S n) (u_renderman u) →
  ∃ u', dataobject_setIsModified (Some d) true u = Ok ((), u') ∧ same_objects (u_world u) (u_world u') ∧
    w_fields (u_world u') = w_fields (u_world u) ∧ accepts n (u_renderman u').
Proof.
  intros Ho Hr (p & fl & Hl & Hc & Hfl & Hp) [Hacc Hq].
  unfold dataobject_setIsModified. do 2 erewrite bind_Ok by reflexivity. unfold ui_fuel, walk_fuel.
  cbn [setIsModified_loop]. unfold setIsModified_step. run_with (obj_ok u _ _ Ho).
  destruct (o_state o) eqn:Hs; [by exists u|by exists u| |by exists u].
  destruct (Hq d) as (r' & Eq & Hacc'). rewrite bind_assoc.
  erewrite (bind_Ok _ _ _ () (set_renderman r' u)) by (unfold in_renderman; by rewrite Eq).
  set (o1 := with_flags1 (set_flag true DO_FLAG_CHANGED (o_flags1 o)) o).
  set (w1 := mkWorld (<[d := o1]> (w_objs (u_world u))) (w_brk (u_world u)) (w_fields (u_world u))).
  assert (same_objects (u_world u) w1) as Hsame.
  { intros x. unfold w1. cbn [w_objs]. destruct (decide (x = d)) as [->|?].
    - by rewrite lookup_insert_eq, Ho.
    - by rewrite lookup_insert_ne. }
  set (u1 := set_world w1 (set_renderman r' u)).
  erewrite (bind_Ok _ _ _ () u1) by (apply in_world_ok, (upd_obj_ok _ d o); done).
  assert (w_objs w1 !! d = Some o1) as Ho1 by (unfold w1; cbn [w_objs]; by rewrite lookup_insert_eq).
  assert (locate (u_world u1) d TYPE = Some h) as Hl1 by (unfold u1; cbn [u_world set_world]; by rewrite (same_locate _ _ _ _ Hsame)).
  run_with (getField_some u1 d EMO_FIELD_TYPE h _ ltac:(done) Hl1 Hc Hfl).
  rewrite (bind_Ok _ _ _ _ _ (is_type_ok u1 h p fl EMO_TYPE_ARRAY Hc)), bool_decide_eq_false_2 by done. cbn [when].
  erewrite bind_Ok by reflexivity. run_with (obj_ok u1 _ _ Ho1). change (o_referenced o1) with (o_referenced o). rewrite Hr. by exists u1.
Qed.

(** ** Writing a field *)
Definition put_content (f : floc) (c : DataObjectField) (u : ui) : ui :=
  let W := u_world u in
  set_world (mkWorld (w_objs W) (w_brk W) (mkFH (<[f := c]> (fh (w_fields W))) (fh_brk (w_fields W)))) u.
Lemma content_put u f c g : content (u_world (put_content f c u)) g = if decide (g = f) then Some c else content (u_world u) g.
Proof.
  unfold content, put_content. cbn. case_decide as H; [by rewrite H, lookup_insert_eq|by rewrite lookup_insert_ne].
Qed.
Lemma set_field_ok u f c : is_Some (content (u_world u) f) → in_fields (set_field f c) u = Ok ((), put_content f c u).
Proof. intros [c0 Hc]. unfold content in Hc. apply in_world_ok. unfold on_fields, set_field. by rewrite Hc. Qed.
Lemma get_integer_ok u g i fl : content (u_world u) g = Some (mkField (DOF_INT i) fl) → in_fields (get_integer g) u = Ok (i, u).
Proof. intros Hc. apply in_fields_pure. unfold get_integer, get_field. unfold content in Hc. by erewrite bind_Ok by by rewrite Hc. Qed.
Lemma set_integer_ok u g i j fl : content (u_world u) g = Some (mkField (DOF_INT i) fl) →
  in_fields (set_integer g j) u = Ok ((), put_content g (mkField (DOF_INT j) fl) u).
Proof.
  intros Hc. unfold content in Hc. apply in_world_ok. unfold on_fields, set_integer, get_field.
  erewrite bind_Ok by by rewrite Hc. cbn [f_value f_flags]. erewrite bind_Ok by reflexivity. unfold set_field. by rewrite Hc.
Qed.
Lemma get_string_ok u f p fl : content (u_world u) f = Some (mkField (DOF_STRING p) fl) → in_fields (get_string f) u = Ok (p, u).
Proof. intros Hc. apply in_fields_pure. unfold get_string, get_field. unfold content in Hc. by erewrite bind_Ok by by rewrite Hc. Qed.
Lemma put_text_ok u f s t fl : content (u_world u) f = Some (mkField (DOF_STRING (SHeap s)) fl) →
  put_text f t u = Ok ((), put_content f (mkField (DOF_STRING (SHeap t)) fl) u).
Proof.
  intros Hc. unfold put_text. run_with (get_string_ok u f _ fl Hc).
  rewrite (bind_Ok _ _ u () u) by (by apply in_fields_pure). run_with (get_field_ok u f _ Hc). by apply set_field_ok; eexists.
Qed.

(** ** The characters before the cursor *)
Lemma replaced_nonzero c : scalar c → replaced c =? 0 = false.
Proof. intros Hc. unfold scalar in Hc. unfold replaced. case_match; apply Z.eqb_neq; lia. Qed.
Lemma skip_one n c pre rest lp adv : scalar c →
  skip_chars (S n) (pre ++ utf8_encode c ++ rest) (length pre) lp adv =
    skip_chars n ((pre ++ utf8_encode c) ++ rest) (length (pre ++ utf8_encode c)) (length pre) (length (utf8_encode c)).
Proof.
  intros Hc. cbn [skip_chars]. rewrite UTF8toUTF32_here, utf8_decode_one by done. cbn [mbind option_bind].
  by rewrite replaced_nonzero, <-app_assoc, length_app.
Qed.
Lemma skip_many l n pre rest lp adv : Forall scalar l → ∃ lp' adv',
  skip_chars (length l + n) (pre ++ utf8_text l ++ rest) (length pre) lp adv =
    skip_chars n ((pre ++ utf8_text l) ++ rest) (length (pre ++ utf8_text l)) lp' adv'.
Proof.
  intros Hl. revert pre lp adv. induction Hl as [|c l Hc Hl IH]; intros pre lp adv.
  - exists lp, adv. cbn. by rewrite app_nil_r.
  - unfold utf8_text. cbn [map concat length Nat.add]. fold (utf8_text l).
    rewrite <-app_assoc, skip_one, <-app_assoc by done.
    destruct (IH (pre ++ utf8_encode c) (length pre) (length (utf8_encode c))) as (lp' & adv' & E).
    exists lp', adv'. rewrite (app_assoc pre (utf8_encode c) (utf8_text l)), (app_assoc pre (utf8_encode c) (utf8_text l ++ rest)). exact E.
Qed.
Lemma utf8_text_app l1 l2 : utf8_text (l1 ++ l2) = utf8_text l1 ++ utf8_text l2.
Proof. unfold utf8_text. by rewrite map_app, concat_app. Qed.
Lemma utf8_text_cons c l : utf8_text (c :: l) = utf8_encode c ++ utf8_text l.
Proof. done. Qed.
Lemma skip_prefix l1 l2 : Forall scalar l1 → ∃ lp adv,
  skip_chars (length l1) (utf8_text (l1 ++ l2)) 0 0 0 = Some (Some (lp, adv, length (utf8_text l1))).
Proof.
  intros Hl. destruct (skip_many l1 0 [] (utf8_text l2) 0 0 Hl) as (lp & adv & E).
  exists lp, adv. rewrite Nat.add_0_r in E. rewrite utf8_text_app. exact E.
Qed.
Lemma skip_last l1 c l2 : Forall scalar l1 → scalar c →
  skip_chars (S (length l1)) (utf8_text (l1 ++ c :: l2)) 0 0 0 =
    Some (Some (length (utf8_text l1), length (utf8_encode c), (length (utf8_text l1) + length (utf8_encode c))%nat)).
Proof.
  intros Hl Hc. destruct (skip_many l1 1 [] (utf8_text (c :: l2)) 0 0 Hl) as (lp & adv & E).
  rewrite Nat.add_1_r in E. rewrite utf8_text_app. cbn [app length] in E. rewrite E.
  rewrite utf8_text_cons, skip_one by done. cbn [skip_chars]. by rewrite length_app.
Qed.
(** The text ends before the cursor. *)
Lemma skip_beyond l i : Forall scalar l → (length l < i)%nat → skip_chars i (utf8_text l) 0 0 0 = Some None.
Proof.
  intros Hl Hi. destruct (skip_many l (i - length l) [] [] 0 0 Hl) as (lp & adv & E).
  replace (length l + (i - length l))%nat with i in E by lia. cbn [app length] in E. rewrite !app_nil_r in E. rewrite E.
  destruct (i - length l)%nat eqn:Hn; [lia|]. cbn [skip_chars]. unfold UTF8toUTF32. rewrite char_at_end.
  cbn [mbind option_bind]. change (trailingBytesForUTF8 !! Z.to_nat 0) with (Some 0).
  cbn [mbind option_bind]. change (Z.to_nat 0) with O. cbn [utf8_read].
  by rewrite char_at_end.
Qed.
Lemma printable_encode k : 32 ≤ k < 127 → utf8_encode k = [k] ∧ key_bytes k = [k].
Proof.
  intros Hk. assert (Forall (λ k, utf8_encode k = [k] ∧ key_bytes k = [k]) (seqZ 32 95)) as H.
  { apply (bool_decide_unpack _). vm_compute. reflexivity. }
  rewrite Forall_forall in H. apply H, elem_of_seqZ. lia.
Qed.

(** ** Entries *)
(** The entry [w] shows the field [f] of [dobj]; its cursor is the field [g]. *)
Record entry (u : ui) (w dobj : oloc) (f g : floc) (l : list Z) (i : nat) : Prop := {
  en_obj : ∃ o h, w_objs (u_world u) !! w = Some o ∧ o_referenced o = [] ∧ not_array (u_world u) w h ∧ h ≠ f;
  en_data : data_of w u = Ok (dobj, u);
  en_text : locate (u_world u) dobj DATA = Some f ∧
    ∃ fl, content (u_world u) f = Some (mkField (DOF_STRING (SHeap (utf8_text l))) fl) ∧ has_flag DOFF_ARRAYSOURCE fl = false;
  en_scalar : Forall scalar l;
  en_cursor : locate (u_world u) w CURSOR = Some g ∧ ∃ fl, content (u_world u) g = Some (mkField (DOF_INT (Z.of_nat i)) fl);
  en_small : Z.of_nat i < 2 ^ 31 }.
(** Nothing but the two fields, and flags of objects. *)
Definition only (f g : floc) (u u' : ui) : Prop :=
  same_objects (u_world u) (u_world u') ∧ ∀ x, x ≠ f → x ≠ g → content (u_world u') x = content (u_world u) x.
Lemma getFieldAsInt_int u d e g i fl :
  enum_value e ≠ -1 → locate (u_world u) d (enum_value e) = Some g → content (u_world u) g = Some (mkField (DOF_INT i) fl) →
  getFieldAsInt d e u = Ok (Some g, u).
Proof. intros He Hl Hc. apply getFieldAsInt_ok; [by eapply getField_some|by eexists _, _]. Qed.

Section Entry.
Context (w dobj : oloc) (f g : floc) (s : oloc).
Implicit Types (u : ui) (l : list Z) (i : nat) (k : Z).

Lemma entry_data_field u l i : entry u w dobj f g l i → data_field dobj u = Ok (f, u).
Proof.
  intros [_ _ (Hl & fl & Hc & Hfl) _ _ _]. unfold data_field.
  by run_with (getField_some u dobj EMO_FIELD_DATA f _ ltac:(done) Hl Hc Hfl).
Qed.
Lemma entry_cursor_field u l i : entry u w dobj f g l i → cursor_field w u = Ok (g, u).
Proof.
  intros [_ _ _ _ (Hl & fl & Hc) _]. unfold cursor_field.
  by run_with (getFieldAsInt_int u w EMO_FIELD_CURSOR g _ _ ltac:(done) Hl Hc).
Qed.
Lemma entry_fields_ne u l i : entry u w dobj f g l i → f ≠ g.
Proof. intros [_ _ (_ & fl & Hc & _) _ (_ & fl' & Hc') _] ->. by rewrite Hc in Hc'. Qed.
(** Both fields are written and the widget is marked as modified. *)
Lemma entry_written u l i l' i' n u1 :
  entry u w dobj f g l i → Forall scalar l' → Z.of_nat i' < 2 ^ 31 → accepts (S n) (u_renderman u) →
  u_renderman u1 = u_renderman u → same_objects (u_world u) (u_world u1) →
  (∃ fl, content (u_world u1) f = Some (mkField (DOF_STRING (SHeap (utf8_text l'))) fl) ∧ has_flag DOFF_ARRAYSOURCE fl = false) →
  (∃ fl, content (u_world u1) g = Some (mkField (DOF_INT (Z.of_nat i')) fl)) →
  (∀ x, x ≠ f → x ≠ g → content (u_world u1) x = content (u_world u) x) →
  ∃ u', dataobject_setIsModified (Some w) true u1 = Ok ((), u') ∧ entry u' w dobj f g l' i' ∧ only f g u u' ∧
    accepts n (u_renderman u').
Proof.
  intros [(o & h & Ho & Hr & (p & fl & Hl & Hc & Hfl & Hp) & Hh) Hd [Hlt Ht] _ [Hlc Hcur] _] Hs Hi Hacc Hrm Hsame Htext Hcursor Hrest.
  destruct (w_objs (u_world u1) !! w) as [o1|] eqn:Ho1.
  2:{ specialize (Hsame w). by rewrite Ho, Ho1 in Hsame. }
  destruct (same_object_at _ _ _ _ Hsame Ho1) as (o' & Ho' & _ & Hr1 & _). rewrite Ho in Ho'. injection Ho' as <-.
  assert (not_array (u_world u1) w h) as Hna.
  { exists p, fl. rewrite (same_locate _ _ _ _ Hsame), Hrest; [done..|]. intros ->. destruct Hcur as [? Hcur]. congruence. }
  destruct (setIsModified_plain u1 w o1 h n Ho1 ltac:(by rewrite Hr1) Hna) as (u' & E & Hsame' & Hf & Hacc'); [by rewrite Hrm|].
  exists u'. split; [done|]. assert (∀ x, content (u_world u') x = content (u_world u1) x) as HC by (intros; unfold content; by rewrite Hf).
  pose proof (same_objects_trans _ _ _ Hsame Hsame') as Hs'. split; [|split; [|done]].
  - assert (w_objs (u_world u') !! w ≠ None) as Hn by (intros Hn; specialize (Hs' w); by rewrite Ho, Hn in Hs').
    destruct (w_objs (u_world u') !! w) as [o2|] eqn:Ho2; [|done].
    destruct (same_object_at _ _ _ _ Hs' Ho2) as (o3 & Ho3 & _ & Hr2 & _). rewrite Ho in Ho3. injection Ho3 as <-.
    split; [|by eapply data_of_same| |done| |done].
    + exists o2, h. split_and!; [done|congruence| |done]. destruct Hna as (p' & fl' & Hna). exists p', fl'.
      by rewrite (same_locate _ _ _ _ Hsame'), HC.
    + by rewrite (same_locate _ _ _ _ Hs'), HC.
    + by rewrite (same_locate _ _ _ _ Hs'), HC.
  - split; [done|]. intros x Hx Hx'. by rewrite HC, Hrest.
Qed.

(** The handler up to the switch on the key. *)
Lemma handleKey_enters u l i k : entry u w dobj f g l i → entry_key k u = Ok (true, u) →
  k ≠ EKEY_FOCUSLEFT → k ≠ EKEY_FOCUSRIGHT →
  entryWidget_handleKey (Some w) k (Some s) u = entry_edit w k f g (Z.of_nat i) u.
Proof.
  intros He Hk H1 H2. unfold entryWidget_handleKey. do 2 erewrite bind_Ok by reflexivity. run_with Hk. cbn [negb].
  run_with (en_data _ _ _ _ _ _ _ He). run_with (entry_data_field u l i He). run_with (entry_cursor_field u l i He).
  destruct (en_cursor _ _ _ _ _ _ _ He) as (_ & fl & Hc). run_with (get_integer_ok u g _ fl Hc).
  rewrite (proj2 (Z.eqb_neq _ _) H1), (proj2 (Z.eqb_neq _ _) H2). done.
Qed.
Lemma entry_key_printable k u : 32 ≤ k < 127 → entry_key k u = Ok (true, u).
Proof.
  intros Hk. unfold entry_key, isprint, EKEY_FOCUSLEFT, EKEY_FOCUSRIGHT.
  repeat (rewrite (proj2 (Z.eqb_neq k _)) by lia; cbn [orb]).
  destruct (Z.ltb_spec 0xFFFFFF00 k); [lia|]. destruct (Z.leb_spec 0 k); [|lia]. destruct (Z.ltb_spec k 256); [|lia]. cbn [andb].
  erewrite bind_Ok by reflexivity. destruct (Z.leb_spec 32 k); [|lia]. by destruct (Z.ltb_spec k 127); [|lia].
Qed.
Lemma entry_edit_text u l i k : entry u w dobj f g l i →
  entry_edit w k f g (Z.of_nat i) u =
    (skipped ← deref (skip_chars i (utf8_text l) 0 0 0);
     match skipped with
     | None => mret 1
     | Some (lastpos, adv, cursorbytes) =>
         (if k =? backspace then
            when (bool_decide (0 < length (utf8_text l))%nat && (0 <? Z.of_nat i))
              (put_text f (take lastpos (utf8_text l) ++ drop (lastpos + adv) (utf8_text l));; add_cursor g (-1))
          else
            put_text f (take cursorbytes (utf8_text l) ++ key_bytes k ++ drop cursorbytes (utf8_text l));; add_cursor g 1);;
         dataobject_setIsModified (Some w) true;;
         mret 1
     end) u.
Proof.
  intros He. unfold entry_edit. destruct (en_text _ _ _ _ _ _ _ He) as (_ & fl & Hc & _).
  run_with (get_string_ok u f _ fl Hc). erewrite bind_Ok by reflexivity. by rewrite Nat2Z.id.
Qed.
(** Replacing the text and moving the cursor by one. *)
Lemma entry_replace u l i l' i' t d n :
  entry u w dobj f g l i → t = utf8_text l' → Forall scalar l' → Z.of_nat i + d = Z.of_nat i' → Z.of_nat i' < 2 ^ 31 →
  accepts (S n) (u_renderman u) →
  ∃ u', ((put_text f t;; add_cursor g d);; dataobject_setIsModified (Some w) true;; mret 1) u = Ok (1, u') ∧
    entry u' w dobj f g l' i' ∧ only f g u u' ∧ accepts n (u_renderman u').
Proof.
  intros He -> Hs Hi Hsm Hacc. destruct (en_text _ _ _ _ _ _ _ He) as (_ & fl & Hc & Hfl).
  destruct (en_cursor _ _ _ _ _ _ _ He) as (_ & flg & Hg). pose proof (entry_fields_ne u l i He) as Hne.
  rewrite bind_assoc. run_with (put_text_ok u f _ (utf8_text l') fl Hc).
  set (u1 := put_content f _ u).
  assert (content (u_world u1) g = Some (mkField (DOF_INT (Z.of_nat i)) flg)) as Hg1
    by (unfold u1; rewrite content_put, decide_False; done).
  unfold add_cursor. rewrite bind_assoc. run_with (get_integer_ok u1 g _ flg Hg1).
  run_with (set_integer_ok u1 g _ (int32 (Z.of_nat i + d)) flg Hg1). rewrite int32_small by lia.
  set (u2 := put_content g _ u1).
  destruct (entry_written u l i l' i' n u2 He Hs Hsm Hacc) as (u' & E & ?); [done|by intros x| | | |].
  - exists fl. unfold u2, u1. rewrite content_put, decide_False, content_put, decide_True by done. done.
  - exists flg. unfold u2. rewrite content_put, decide_True by done. by rewrite Hi.
  - intros x Hx Hx'. unfold u2, u1. by rewrite !content_put, !decide_False.
  - run_with E. by exists u'.
Qed.
Lemma typed u l1 l2 k n :
  entry u w dobj f g (l1 ++ l2) (length l1) → 32 ≤ k < 127 → Z.of_nat (length l1) + 1 < 2 ^ 31 → accepts (S n) (u_renderman u) →
  ∃ u', entryWidget_handleKey (Some w) k (Some s) u = Ok (1, u') ∧
    entry u' w dobj f g (l1 ++ k :: l2) (S (length l1)) ∧ only f g u u' ∧ accepts n (u_renderman u').
Proof.
  intros He Hk Hi Hacc. rewrite (handleKey_enters u _ _ k He (entry_key_printable k u Hk)) by (unfold EKEY_FOCUSLEFT, EKEY_FOCUSRIGHT; lia).
  rewrite (entry_edit_text u _ _ k He). pose proof (en_scalar _ _ _ _ _ _ _ He) as Hs. apply Forall_app in Hs as [Hs1 Hs2].
  destruct (skip_prefix l1 l2 Hs1) as (lp & adv & Es). rewrite Es. erewrite bind_Ok by reflexivity.
  rewrite (proj2 (Z.eqb_neq k backspace)) by (unfold backspace; lia).
  destruct (printable_encode k Hk) as [Ek Eb].
  apply (entry_replace u _ _ _ _ _ _ n He); [| |lia|lia|done].
  - by rewrite !utf8_text_app, take_app_length, drop_app_length, utf8_text_cons, Ek, Eb.
  - apply Forall_app. split; [done|]. constructor; [unfold scalar; lia|done].
Qed.
Lemma erased u l1 c l2 n :
  entry u w dobj f g (l1 ++ c :: l2) (S (length l1)) → accepts (S n) (u_renderman u) →
  ∃ u', entryWidget_handleKey (Some w) backspace (Some s) u = Ok (1, u') ∧
    entry u' w dobj f g (l1 ++ l2) (length l1) ∧ only f g u u' ∧ accepts n (u_renderman u').
Proof.
  intros He Hacc. rewrite (handleKey_enters u _ _ backspace He) by done.
  rewrite (entry_edit_text u _ _ backspace He). pose proof (en_scalar _ _ _ _ _ _ _ He) as Hs.
  apply Forall_app in Hs as [Hs1 [Hc Hs2]%Forall_cons].
  rewrite (skip_last l1 c l2 Hs1 Hc). erewrite bind_Ok by reflexivity. rewrite Z.eqb_refl.
  rewrite bool_decide_eq_true_2, (proj2 (Z.ltb_lt _ _)); [|lia|].
  2:{ rewrite utf8_text_app, length_app, utf8_text_cons, length_app.
      destruct (encode_cons c Hc) as (b & r & -> & _). simpl. lia. }
  cbn [andb when]. pose proof (en_small _ _ _ _ _ _ _ He).
  apply (entry_replace u _ _ _ _ _ _ n He); [| |lia|lia|done].
  - by rewrite !utf8_text_app, take_app_length, utf8_text_cons, app_assoc, <-length_app, drop_app_length.
  - by apply Forall_app.
Qed.
Lemma moved_right u l i n : entry u w dobj f g l i → (i < length (utf8_text l))%nat → Z.of_nat i + 1 < 2 ^ 31 →
  accepts (S n) (u_renderman u) →
  ∃ u', entryWidget_handleKey (Some w) EKEY_FOCUSRIGHT (Some s) u = Ok (1, u') ∧
    entry u' w dobj f g l (S i) ∧ only f g u u' ∧ accepts n (u_renderman u').
Proof.
  intros He Hi Hsm Hacc. unfold entryWidget_handleKey. do 3 erewrite bind_Ok by reflexivity. cbn [negb].
  run_with (en_data _ _ _ _ _ _ _ He). run_with (entry_data_field u l i He). run_with (entry_cursor_field u l i He).
  destruct (en_cursor _ _ _ _ _ _ _ He) as (_ & flg & Hg). run_with (get_integer_ok u g _ flg Hg).
  change (EKEY_FOCUSRIGHT =? EKEY_FOCUSLEFT) with false. rewrite Z.eqb_refl.
  destruct (en_text _ _ _ _ _ _ _ He) as (_ & fl & Hc & Hfl). run_with (get_string_ok u f _ fl Hc). erewrite bind_Ok by reflexivity.
  pose proof (en_scalar _ _ _ _ _ _ _ He) as Hs. destruct (lookup_lt_is_Some_2 _ _ Hi) as [b Hb].
  assert (b ≠ 0) as Hb0.
  { assert (Forall (λ b, 0 < b < 256) (utf8_text l)) as Hpos.
    { apply Forall_concat, Forall_map. eapply Forall_impl; [exact Hs|]. intros c. apply utf8_encode_pos. }
    pose proof (Forall_lookup_1 _ _ _ _ Hpos Hb) as H. simpl in H. lia. }
  rewrite (proj2 (Z.leb_le 0 (Z.of_nat i))), Nat2Z.id by lia. erewrite (bind_Ok _ _ _ b).
  2:{ unfold char_at. rewrite decide_True by done. by rewrite Hb. }
  rewrite (proj2 (Z.eqb_neq b 0) Hb0). run_with (set_integer_ok u g _ (int32 (Z.of_nat i + 1)) flg Hg).
  rewrite int32_small by lia. set (u1 := put_content g _ u).
  destruct (entry_written u l i l (S i) n u1 He Hs ltac:(lia) Hacc) as (u' & E & ?); [done|by intros x| | | |].
  - exists fl. unfold u1. rewrite content_put, decide_False by (by eapply entry_fields_ne). done.
  - exists flg. unfold u1. rewrite content_put, decide_True by done. by rewrite Nat2Z.inj_succ.
  - intros x Hx Hx'. unfold u1. by rewrite content_put, decide_False.
  - run_with E. by exists u'.
Qed.
Lemma swallowed u l i k : entry u w dobj f g l i → (length l < i)%nat → 32 ≤ k < 127 →
  entryWidget_handleKey (Some w) k (Some s) u = Ok (1, u).
Proof.
  intros He Hi Hk. rewrite (handleKey_enters u _ _ k He (entry_key_printable k u Hk)) by (unfold EKEY_FOCUSLEFT, EKEY_FOCUSRIGHT; lia).
  rewrite (entry_edit_text u _ _ k He), (skip_beyond l i (en_scalar _ _ _ _ _ _ _ He) Hi). by erewrite bind_Ok by reflexivity.
Qed.

(** C32: typing a printable key puts its character at the cursor and moves the cursor
    behind it, whatever characters of several bytes are around it, and erasing then
    restores the text and the cursor.  Both keys are for the entry, and no other field
    and nothing but flags of objects changes. *)
Theorem typing_and_erasing u l1 l2 k :
  entry u w dobj f g (l1 ++ l2) (length l1) → 32 ≤ k < 127 → Z.of_nat (length l1) + 1 < 2 ^ 31 → accepts 2 (u_renderman u) →
  ∃ u1 u2, entryWidget_handleKey (Some w) k (Some s) u = Ok (1, u1) ∧
    entry u1 w dobj f g (l1 ++ k :: l2) (S (length l1)) ∧ only f g u u1 ∧
    entryWidget_handleKey (Some w) backspace (Some s) u1 = Ok (1, u2) ∧
    entry u2 w dobj f g (l1 ++ l2) (length l1) ∧ only f g u1 u2.
Proof.
  intros He Hk Hi Hacc. destruct (typed u l1 l2 k 1 He Hk Hi Hacc) as (u1 & E1 & He1 & Ho1 & Hacc1).
  destruct (erased u1 l1 k l2 0 He1 Hacc1) as (u2 & E2 & He2 & Ho2 & _). by exists u1, u2.
Qed.
(** The key for the right tests the byte whose index is the number of characters
    before the cursor.  With characters of several bytes the cursor can so leave the
    text, and printable keys are then taken without any effect. *)
Theorem cursor_leaves_the_text u l i k :
  entry u w dobj f g l i → (length l ≤ i < length (utf8_text l))%nat → Z.of_nat i + 1 < 2 ^ 31 → 32 ≤ k < 127 →
  accepts 1 (u_renderman u) →
  ∃ u', entryWidget_handleKey (Some w) EKEY_FOCUSRIGHT (Some s) u = Ok (1, u') ∧ entry u' w dobj f g l (S i) ∧
    entryWidget_handleKey (Some w) k (Some s) u' = Ok (1, u').
Proof.
  intros He [Hl Hi] Hsm Hk Hacc. destruct (moved_right u l i 0 He Hi Hsm Hacc) as (u' & E & He' & _).
  exists u'. split; [done|]. split; [done|]. apply (swallowed u' l (S i) k He'); [lia|done].
Qed.
End Entry.

(** ** Instances: an entry with "aé", and one with the cursor at the end of "é" *)
Definition entry_world (l : list Z) (i : Z) : world :=
  mkWorld {[1%positive := focus_obj [] None [(TYPE, 1%positive); (DATA, 2%positive); (CURSOR, 3%positive)]]} 2
    (mkFH (list_to_map [(1%positive, mkField (DOF_STRING (SBuiltin EMO_TYPE_ENTRY)) 0);
                        (2%positive, mkField (DOF_STRING (SHeap (utf8_text l))) 0);
                        (3%positive, mkField (DOF_INT i) 0)]) 4).
Definition entry_ui (l : list Z) (i : Z) : ui :=
  mkUi (entry_world l i) (Some (mkRM demo_array demo_array RM_COMPLETE_REDRAW)) ∅ [] None 1 None.
Lemma entry_ui_entry l i : Forall scalar l → Z.of_nat i < 2 ^ 31 → entry (entry_ui l (Z.of_nat i)) 1 1 2 3 l i.
Proof.
  intros Hl Hi. split; [|reflexivity| |done| |done].
  - eexists _, 1%positive. split; [reflexivity|]. split; [reflexivity|]. split; [|done].
    eexists _, _. split; [reflexivity|]. split; [reflexivity|]. split; [reflexivity|]. done.
  - split; [reflexivity|]. eexists. split; reflexivity.
  - split; [reflexivity|]. eexists. reflexivity.
Qed.
Lemma typing_and_erasing_witness :
  ∃ u1 u2, entryWidget_handleKey (Some 1%positive) 98 (Some 1%positive) (entry_ui [97; 0xE9] 1) = Ok (1, u1) ∧
    entry u1 1 1 2 3 [97; 98; 0xE9] 2 ∧ only 2 3 (entry_ui [97; 0xE9] 1) u1 ∧
    entryWidget_handleKey (Some 1%positive) backspace (Some 1%positive) u1 = Ok (1, u2) ∧
    entry u2 1 1 2 3 [97; 0xE9] 1 ∧ only 2 3 u1 u2.
Proof.
  apply (typing_and_erasing 1%positive 1%positive 2%positive 3%positive 1%positive (entry_ui [97; 0xE9] 1) [97] [0xE9] 98).
  - apply (entry_ui_entry [97; 0xE9] 1); [repeat constructor; unfold scalar; lia|lia].
  - lia.
  - simpl. lia.
  - apply (accepts_pending _ 2). reflexivity.
Defined.
Lemma cursor_leaves_the_text_witness :
  ∃ u', entryWidget_handleKey (Some 1%positive) EKEY_FOCUSRIGHT (Some 1%positive) (entry_ui [0xE9] 1) = Ok (1, u') ∧
    entry u' 1 1 2 3 [0xE9] 2 ∧ entryWidget_handleKey (Some 1%positive) 98 (Some 1%positive) u' = Ok (1, u').
Proof.
  apply (cursor_leaves_the_text 1%positive 1%positive 2%positive 3%positive 1%positive (entry_ui [0xE9] 1) [0xE9] 1 98).
  - apply (entry_ui_entry [0xE9] 1); [repeat constructor; unfold scalar; lia|lia].
  - vm_compute. lia.
  - lia.
  - lia.
  - apply (accepts_pending _ 1). reflexivity.
Defined.
