(* ===== verification/Text.v ===== *)
(** * Drawing and measuring text: the font interface of Font.c and the text
    routines of lgui.c

    A glyph comes from the bitmap cache or, the first time, from FreeType, which is
    the parameter [ft]: what it renders for a character, if it has it.  The
    metrics a routine reads are the local variables [font_getGlyph] writes through
    its pointers; they are [None] as long as nothing was written to them. *)
From S2P Require Import Prelude Lists Maps Pixels Lgui BitmapCache CStrings Utf8.

(** What FreeType gives for one character: bitmap, pitch and advances (in 1/64
    pixel). *)
Record ft_glyph := mkGlyph {
  ft_width : Z;
  ft_rows : Z;
  ft_pitch : Z;
  ft_buffer : list Z;
  ft_advance_x : Z;
  ft_advance_y : Z;
  ft_bitmap_top : Z }.

Record metrics := mkMetrics {
  m_width : Z;
  m_height : Z;
  m_xadvance : Z;
  m_yadvance : Z;
  m_baselinedy : Z }.

(** ** Markup *)
Record EscapeSequenceState := mkEsc {
  isBold : bool;
  isUnderline : bool;
  isItalic : bool;
  basecolor : Color;
  currentColor : Color;
  useBackground : bool;
  backgroundColor : Color }.
Definition set_bold b e := mkEsc b (isUnderline e) (isItalic e) (basecolor e) (currentColor e)
  (useBackground e) (backgroundColor e).
Definition set_underline b e := mkEsc (isBold e) b (isItalic e) (basecolor e) (currentColor e)
  (useBackground e) (backgroundColor e).
Definition set_italic b e := mkEsc (isBold e) (isUnderline e) b (basecolor e) (currentColor e)
  (useBackground e) (backgroundColor e).
Definition set_color c e := mkEsc (isBold e) (isUnderline e) (isItalic e) (basecolor e) c
  (useBackground e) (backgroundColor e).
Definition set_background b c e := mkEsc (isBold e) (isUnderline e) (isItalic e) (basecolor e)
  (currentColor e) b c.

(** The [value] of the [Color] union, little-endian. *)
Definition color_of_value (v : Z) : Color :=
  mkColor (Z.shiftr v 24) (Z.land (Z.shiftr v 16) 0xFF) (Z.land (Z.shiftr v 8) 0xFF) (Z.land v 0xFF).
Definition zero_color : Color := mkColor 0 0 0 0.
Definition zero_esc : EscapeSequenceState := mkEsc false false false zero_color zero_color false zero_color.

(** [p[k1] == c1 && p[k2] == c2 && ...]: the characters are read from left to
    right, up to the first difference. *)
Fixpoint chars_are (s : cstring) (p : nat) (l : list (nat * Z)) : option bool :=
  match l with
  | [] => Some true
  | (k, c) :: l => a ← char_at s (p + k); if a =? c then chars_are s p l else Some false
  end.
Fixpoint first_match {A} (s : cstring) (p : nat) (l : list (list (nat * Z) * A)) : option (option A) :=
  match l with
  | [] => Some None
  | (pat, a) :: l => b ← chars_are s p pat; if b : bool then Some (Some a) else first_match s p l
  end.

(** The tests of [lgui_process_escape_seq] in their order, with the characters
    consumed and the effect on the state. *)
Definition escape_sequences (s : cstring) (p : nat) (e : EscapeSequenceState) :
    list (list (nat * Z) * (nat * EscapeSequenceState)) :=
  let color := color_of_value (strtoul16 (drop (p + 2) s)) in
  [ ([(1%nat, 98); (2%nat, 62)], (3%nat, set_bold true e));                       (* <b> *)
    ([(1%nat, 47); (2%nat, 98); (3%nat, 62)], (4%nat, set_bold false e));             (* </b> *)
    ([(1%nat, 117); (2%nat, 62)], (3%nat, set_underline true e));                 (* <u> *)
    ([(1%nat, 47); (2%nat, 117); (3%nat, 62)], (4%nat, set_underline false e));       (* </u> *)
    ([(1%nat, 105); (2%nat, 62)], (3%nat, set_italic true e));                    (* <i> *)
    ([(1%nat, 47); (2%nat, 105); (3%nat, 62)], (4%nat, set_italic false e));          (* </i> *)
    ([(1%nat, 99); (10%nat, 62)], (11%nat, set_color color e));                   (* <cRRGGBBAA> *)
    ([(1%nat, 47); (2%nat, 99); (3%nat, 62)], (4%nat, set_color (basecolor e) e));    (* </c> *)
    ([(1%nat, 103); (10%nat, 62)], (11%nat, set_background true color e));        (* <gRRGGBBAA> *)
    ([(1%nat, 47); (2%nat, 103); (3%nat, 62)], (4%nat, set_background false (backgroundColor e) e)) ].
Definition lgui_process_escape_seq (s : cstring) (p : nat) (e : EscapeSequenceState) :
    option (nat * EscapeSequenceState) :=
  default (0%nat, e) <$> first_match s p (escape_sequences s p e).

Example esc_bold : lgui_process_escape_seq [60; 98; 62; 65] 0 zero_esc = Some (3%nat, set_bold true zero_esc).
Proof. reflexivity. Qed.
Example esc_color :
  lgui_process_escape_seq [60; 99; 70; 70; 48; 48; 56; 48; 70; 70; 62] 0 zero_esc =
    Some (11%nat, set_color (mkColor 255 0 128 255) zero_esc).
Proof. reflexivity. Qed.
(** A "<c" less than ten characters before the end is read behind the terminator. *)
Example esc_short : lgui_process_escape_seq [60; 99; 65] 0 zero_esc = None.
Proof. reflexivity. Qed.

(** ** The font *)
Section Text.
Context {St : Type} `{MapStore St Bitmap}.
(** FreeType's answer for a character, plain or emboldened. *)
Variable ft : Z → bool → option ft_glyph.

Record text_state := mkText { t_gui : gui; t_cache : BitmapCache (St := St) }.
Abbreviation TM := (M text_state).
Definition on_gui {B} (m : GM B) : TM B := λ s,
  match m (t_gui s) with
  | Ok (b, g) => Ok (b, mkText g (t_cache s))
  | Abort => Abort | Fault => Fault | NoFuel => NoFuel
  end.
Definition on_cache {B} (m : M (BitmapCache (St := St)) B) : TM B := λ s,
  match m (t_cache s) with
  | Ok (b, c) => Ok (b, mkText (t_gui s) c)
  | Abort => Abort | Fault => Fault | NoFuel => NoFuel
  end.

(** The bitmap (an offset in the cache) and the metrics written, if any. *)
Definition font_getGlyph (utf32 : Z) (bold : bool) : TM (option Z * option metrics) :=
  cached ← on_cache (bitmapcache_get utf32 bold);
  match cached with
  | Some b =>
      mret (Some (bm_data b), Some (mkMetrics (bm_width b) (bm_height b) (bm_xadvance b)
                                              (bm_yadvance b) (bm_baselinedy b)))
  | None =>
      match ft utf32 bold with
      | None => mret (None, None)
      | Some g =>
          let xadv := Z.shiftr (ft_advance_x g + 32) 6 in
          let yadv := Z.shiftr (ft_advance_y g) 6 in
          data ← on_cache (bitmapcache_add utf32 bold (ft_buffer g) (ft_width g) (ft_rows g)
                             xadv yadv (ft_pitch g) (ft_bitmap_top g));
          mret (Some data, Some (mkMetrics (ft_width g) (ft_rows g) xadv yadv (ft_bitmap_top g)))
      end
  end.
(** The call as the text routines make it: the old values stay where nothing was
    written, and reading a variable that was never set is a [Fault]. *)
Definition get_glyph (val : Z) (bold : bool) (m : option metrics) : TM (option Z * metrics) :=
  '(data, m') ← font_getGlyph val bold;
  m ← deref (match m' with Some _ => m' | None => m end);
  mret (data, m).

Definition char (s : cstring) (p : nat) : TM Z := deref (char_at s p).
Definition utf32 (s : cstring) (p : nat) : TM (Z * nat) := deref (UTF8toUTF32 s p).

(** The image at [data], up to the end of the cache's buffer. *)
Definition glyph_image (data : Z) : TM (list Z) :=
  s ← get; mret (default 0 <$> drop (Z.to_nat data) (bc_data (t_cache s))).
Definition draw_glyph (x y fontHeight data : Z) (m : metrics) (c : Color) (italic : bool) : TM () :=
  img ← glyph_image data;
  on_gui (lgui_luminence_A4_blitC x (y + fontHeight - m_baselinedy m) 0 0 (m_width m) (m_height m)
            (m_width m) (m_height m) img c LGUI_MODE_ALPHA italic).
(** The visibility test in front of every glyph. *)
Definition glyph_visible (x y fontHeight : Z) (m : metrics) : TM bool :=
  '(tx, ty) ← on_gui lgui_get_translate;
  c ← on_gui CLIP;
  mret (negb ((x + m_xadvance m + tx <? rx c) || (rx c + rwidth c <? x + tx) ||
              (y + fontHeight + ty <? ry c) || (ry c + rheight c <? y + ty))).

(** ** Single-style text *)
Fixpoint draw_font_loop (fuel : nat) (s : cstring) (p : nat) (x y maxw maxh fontHeight : Z)
    (c : Color) (bold : bool) (m : option metrics) : TM () :=
  match fuel with
  | O => no_fuel
  | S fuel =>
      ch ← char s p;
      if ch =? 0 then mret () else
      '(val, adv) ← utf32 s p;
      '(data, m) ← get_glyph val bold m;
      visible ← glyph_visible x y fontHeight m;
      when visible (match data with
                    | None => mret ()
                    | Some data => draw_glyph x y fontHeight data m c false
                    end);;
      let x := x + m_xadvance m in
      let y := y + m_yadvance m in
      if (maxw <? x) || (maxh <? y) then mret () else
      draw_font_loop fuel s (p + adv) x y maxw maxh fontHeight c bold (Some m)
  end.
(** [f] is the height of the font, NULL when there is none. *)
Definition lgui_draw_font (x y maxw maxh : Z) (utf8 : option cstring) (f : option Z) (c : Color)
    (bold : bool) : TM () :=
  match utf8, f with
  | Some s, Some fontHeight =>
      draw_font_loop (S (length s)) s 0 x y (maxw + x) (maxh + y) fontHeight c bold None
  | _, _ => mret ()
  end.

Fixpoint measure_font_loop (fuel : nat) (s : cstring) (p : nat) (bold : bool) (w : Z)
    (m : option metrics) : TM Z :=
  match fuel with
  | O => no_fuel
  | S fuel =>
      ch ← char s p;
      if ch =? 0 then mret w else
      '(val, adv) ← utf32 s p;
      '(data, m') ← font_getGlyph val bold;
      let m := match m' with Some _ => m' | None => m end in
      w ← (match data with None => mret w | Some _ => m ← deref m; mret (w + m_xadvance m) end);
      measure_font_loop fuel s (p + adv) bold w m
  end.
Definition lgui_measure_font (utf8 : option cstring) (f : option Z) (bold : bool) : TM (Z * Z) :=
  match utf8, f with
  | Some s, Some fontHeight =>
      w ← measure_font_loop (S (length s)) s 0 bold 0 None; mret (w, fontHeight + 1)
  | _, _ => mret (0, 0)
  end.

(** ** Text with markup *)
(** The [goto] loops over consecutive escape sequences. *)
Fixpoint skip_escapes (fuel : nat) (s : cstring) (p : nat) (e : EscapeSequenceState) :
    TM (nat * EscapeSequenceState) :=
  match fuel with
  | O => no_fuel
  | S fuel =>
      ch ← char s p;
      if ch =? 60 then
        '(adv, e) ← deref (lgui_process_escape_seq s p e);
        if (0 <? adv)%nat then skip_escapes fuel s (p + adv) e else mret (p, e)
      else mret (p, e)
  end.

(** How many bytes of [s] from [p0] on fit on a line that starts at [x]. *)
Fixpoint text_line_loop (fuel : nat) (s : cstring) (p0 p : nat) (lastStart : nat) (x : Z)
    (escapes : bool) (e : EscapeSequenceState) (m : option metrics) : TM nat :=
  match fuel with
  | O => no_fuel
  | S fuel =>
      ch ← char s p;
      if ch =? 0 then mret (p - p0)%nat else
      '(p, e) ← (if escapes then skip_escapes (S (length s)) s p e else mret (p, e));
      ch ← char s p;
      if (ch =? 10) || (ch =? 13) then mret (S (p - p0)) else
      '(val, adv) ← utf32 s p;
      let p := (p + adv)%nat in
      '(_, m) ← get_glyph val (isBold e) m;
      let x := x + m_xadvance m in
      c ← on_gui CLIP;
      if rx c + rwidth c <? x + m_xadvance m then mret lastStart else
      last ← char s (p - 1);
      text_line_loop fuel s p0 p (if last =? 32 then (p - p0)%nat else lastStart) x escapes e (Some m)
  end.
Definition lgui_text_line_complex (s : cstring) (p : nat) (x : Z)
    (statein : option EscapeSequenceState) : TM nat :=
  text_line_loop (S (length s)) s p p 0 x (bool_decide (is_Some statein))
    (default zero_esc statein) None.

(** The variables of [lgui_complex_draw_font] that its loops change. *)
Record draw_state := mkDraw {
  d_p : nat;
  d_i : Z;
  d_x : Z;
  d_y : Z;
  d_inner : Z;
  d_esc : EscapeSequenceState;
  d_metrics : option metrics;
  d_cursor : option Rectangle }.

Definition maybe_escapes (use : bool) (s : cstring) (p : nat) (e : EscapeSequenceState) :
    TM (nat * EscapeSequenceState) :=
  if use then skip_escapes (S (length s)) s p e else mret (p, e).

(** The skip to [startindex]; [None] when the text ends before. *)
Fixpoint skip_to_start (n : nat) (s : cstring) (p : nat) (use : bool) (e : EscapeSequenceState) :
    TM (option (nat * EscapeSequenceState)) :=
  match n with
  | O => mret (Some (p, e))
  | S n =>
      ch ← char s p;
      if ch =? 0 then mret None else
      '(p, e) ← maybe_escapes use s p e;
      '(_, adv) ← utf32 s p;
      skip_to_start n s (p + adv) use e
  end.

Definition draw_complex_glyph (x y fontHeight : Z) (e : EscapeSequenceState) (data : Z)
    (m : metrics) : TM () :=
  let bg := backgroundColor e in
  let c := currentColor e in
  when (useBackground e)
    (on_gui (lgui_hline x (y + 1) (m_xadvance m) (fontHeight + 2) (c_red bg) (c_green bg)
               (c_blue bg) (c_alpha bg)));;
  draw_glyph x y fontHeight data m c (isItalic e);;
  when (isUnderline e)
    (on_gui (lgui_hline x (y + fontHeight + 1) (m_xadvance m) 1 (c_red c) (c_green c)
               (c_blue c) (c_alpha c))).

Definition cursor_rect (x y fontHeight : Z) : Rectangle := mkRect x (y + 2) 2 fontHeight.

(** The loop over the characters of one line. *)
Fixpoint draw_line_loop (fuel : nat) (s : cstring) (startp pos : nat) (maxw fontHeight cursorindex : Z)
    (use want_cursor : bool) (d : draw_state) : TM draw_state :=
  match fuel with
  | O => no_fuel
  | S fuel =>
      ch ← char s (d_p d);
      if (ch =? 0) || (pos <=? d_p d - startp)%nat then mret d else
      '(p, e) ← maybe_escapes use s (d_p d) (d_esc d);
      '(val, adv) ← utf32 s p;
      '(data, m) ← get_glyph val (isBold e) (d_metrics d);
      visible ← glyph_visible (d_x d) (d_y d) fontHeight m;
      when visible (match data with
                    | None => mret ()
                    | Some data => draw_complex_glyph (d_x d) (d_y d) fontHeight e data m
                    end);;
      let inner := if visible && bool_decide (is_Some data) then d_inner d + 1 else d_inner d in
      let cursor := if visible && (d_i d =? cursorindex) && want_cursor
                    then Some (cursor_rect (d_x d) (d_y d) fontHeight) else d_cursor d in
      let x := d_x d + m_xadvance m in
      let d' := mkDraw p (d_i d + 1) x (d_y d + m_yadvance m) inner e (Some m) cursor in
      if maxw <? x then mret d' else
      draw_line_loop fuel s startp pos maxw fontHeight cursorindex use want_cursor
        (mkDraw (p + adv) (d_i d') x (d_y d') inner e (Some m) cursor)
  end.

(** The [next_line] loop. *)
Fixpoint draw_lines_loop (fuel : nat) (s : cstring) (x0 maxw maxh fontHeight cursorindex : Z)
    (use want_cursor : bool) (d : draw_state) : TM draw_state :=
  match fuel with
  | O => no_fuel
  | S fuel =>
      pos ← lgui_text_line_complex s (d_p d) (d_x d) (Some (d_esc d));
      d ← draw_line_loop (S (length s)) s (d_p d) pos maxw fontHeight cursorindex use want_cursor d;
      ch ← char s (d_p d);
      if ch =? 0 then mret d else
      let y := d_y d + fontHeight in
      let d := mkDraw (d_p d) (d_i d) x0 y (d_inner d) (d_esc d) (d_metrics d) (d_cursor d) in
      if y + fontHeight + 2 <=? maxh then
        draw_lines_loop fuel s x0 maxw maxh fontHeight cursorindex use want_cursor d
      else mret d
  end.

(** The characters that were not shown. *)
Fixpoint count_end (fuel : nat) (s : cstring) (p : nat) (use : bool) (e : EscapeSequenceState)
    (n : Z) : TM Z :=
  match fuel with
  | O => no_fuel
  | S fuel =>
      ch ← char s p;
      if ch =? 0 then mret n else
      '(p, e) ← maybe_escapes use s p e;
      '(_, adv) ← utf32 s p;
      count_end fuel s (p + adv) use e (n + 1)
  end.

(** The results: the window in percent (not written on the early return) and the
    cursor box.  A line advances [y] by the font height, so [maxh - y] rounds are
    enough when that is positive. *)
Definition lgui_complex_draw_font (x0 y maxw maxh : Z) (utf8 : option cstring) (f : option Z)
    (c : Color) (cursorindex startindex : Z) (use want_cursor : bool) :
    TM (option (Z * Z) * option Rectangle) :=
  match utf8, f with
  | Some s, Some fontHeight =>
      let maxw := maxw + x0 in
      let maxh := maxh + y in
      let e := mkEsc false false false c c false zero_color in
      start ← skip_to_start (Z.to_nat startindex) s 0 use e;
      match start with
      | None => mret (None, None)
      | Some (p, e) =>
          d ← draw_lines_loop (S (Z.to_nat (maxh - y))) s x0 maxw maxh fontHeight cursorindex use
                want_cursor (mkDraw p (Z.max 0 startindex) x0 y 0 e None None);
          endcount ← count_end (S (length s)) s (d_p d) use (d_esc d) 0;
          let cursor := if (d_i d =? cursorindex) && want_cursor
                        then Some (cursor_rect (d_x d) (d_y d) fontHeight) else d_cursor d in
          let total := d_inner d + endcount + startindex in
          mret (Some (if total =? 0 then (100, 0)
                      else (Z.quot (d_inner d * 100) total, Z.quot (startindex * 100) total)), cursor)
      end
  | _, _ => mret (None, None)
  end.

(** [state] is an uninitialised local here: [junk] is what it happens to hold. *)
Fixpoint measure_complex_loop (fuel : nat) (s : cstring) (p : nat) (fontHeight h : Z)
    (junk : EscapeSequenceState) : TM Z :=
  match fuel with
  | O => no_fuel
  | S fuel =>
      ch ← char s p;
      if ch =? 0 then mret h else
      adv ← lgui_text_line_complex s p 0 (Some junk);
      if (adv =? 0)%nat then mret h else
      measure_complex_loop fuel s (p + adv) fontHeight (h + fontHeight + 1) junk
  end.
Definition lgui_measure_font_complex (junk : EscapeSequenceState) (utf8 : option cstring)
    (f : option Z) (output_x : Z) : TM (Z * Z) :=
  match utf8, f with
  | Some s, Some fontHeight =>
      on_gui lgui_clip_push;;
      c ← on_gui CLIP;
      on_gui (set_CLIP (mkRect 0 (ry c) output_x (rheight c)));;
      h ← measure_complex_loop (S (length s)) s 0 fontHeight 0 junk;
      on_gui lgui_clip_pop;;
      mret (output_x, if h =? 0 then fontHeight + 1 else h)
  | _, _ => mret (0, 0)
  end.
End Text.

(** ** Properties *)
Section Properties.
Context {St : Type} `{MapStore St Bitmap}.
Variable ft : Z → bool → option ft_glyph.
Implicit Types (st : text_state (St := St)) (kvs : list (MapKey * option Bitmap)).

Lemma on_cache_pure {B} (m : M (BitmapCache (St := St)) B) st b :
  m (t_cache st) = Ok (b, t_cache st) → on_cache m st = Ok (b, st).
Proof. unfold on_cache. intros ->. by destruct st. Qed.

Lemma get_cached st kvs c bold b :
  cache_ok (t_cache st) kvs → key_null (glyph_key c bold) = false →
  al_find (glyph_key c bold) kvs = Some (Some b) →
  font_getGlyph ft c bold st =
    Ok (Some (bm_data b), Some (mkMetrics (bm_width b) (bm_height b) (bm_xadvance b)
                                          (bm_yadvance b) (bm_baselinedy b)), st).
Proof.
  intros [Habs _ _] Hk Hb. unfold font_getGlyph.
  enough (on_cache (bitmapcache_get c bold) st = Ok (Some b, st)) as E
    by by run_with E.
  apply on_cache_pure. unfold bitmapcache_get. erewrite bind_Ok by reflexivity.
  unfold on_store. rewrite (st_find_ok _ _ _ _ (glyph_key c bold) Habs eq_refl Hk), Hb. simpl.
  by destruct (t_cache st).
Qed.

(** The width of a text whose glyphs are in the cache. *)
Definition glyph_advance kvs (bold : bool) (c : Z) : Z :=
  match al_find (glyph_key c bold) kvs with Some (Some b) => bm_xadvance b | _ => 0 end.
Definition glyph_cached kvs (bold : bool) (c : Z) : Prop :=
  key_null (glyph_key c bold) = false ∧ ∃ b, al_find (glyph_key c bold) kvs = Some (Some b).

Lemma char_Ok s p c st : char_at s p = Some c → char s p st = Ok (c, st).
Proof. unfold char. by intros ->. Qed.
Lemma utf32_Ok s p r st : UTF8toUTF32 s p = Some r → utf32 s p st = Ok (r, st).
Proof. unfold utf32. by intros ->. Qed.

Lemma measure_loop_ok st kvs bold cs pre fuel w m :
  cache_ok (t_cache st) kvs → Forall scalar cs →
  Forall (λ c, glyph_cached kvs bold (replaced c)) cs → (length cs < fuel)%nat →
  measure_font_loop ft fuel (pre ++ utf8_text cs) (length pre) bold w m st =
    Ok (foldl Z.add w (map (glyph_advance kvs bold ∘ replaced) cs), st).
Proof.
  intros Hok Hcs. revert pre fuel w m.
  induction Hcs as [|c cs Hc Hcs IH]; intros pre [|fuel] w m Hg Hf; try (simpl in Hf; lia).
  - simpl. rewrite app_nil_r. by run_with (char_Ok pre _ 0 st (char_at_end pre)).
  - apply Forall_cons in Hg as [[Hk [b Hb]] Hg]. cbn [measure_font_loop map foldl].
    unfold utf8_text. cbn [map concat]. fold (utf8_text cs).
    destruct (encode_cons c Hc) as (b0 & s0 & Eb & Hb0).
    erewrite bind_Ok.
    2:{ apply char_Ok. rewrite char_at_here, Eb. apply char_at_0. }
    rewrite (proj2 (Z.eqb_neq b0 0) Hb0).
    erewrite bind_Ok.
    2:{ apply utf32_Ok. rewrite UTF8toUTF32_here. by apply utf8_decode_one. }
    cbv beta iota. run_with (get_cached st kvs (replaced c) bold b Hok Hk Hb).
    cbv beta iota zeta. rewrite bind_assoc. erewrite bind_Ok by reflexivity.
    erewrite bind_Ok by reflexivity.
    rewrite app_assoc, <-length_app. rewrite IH; [|done|simpl in Hf; lia].
    cbn [m_xadvance]. unfold compose. replace (bm_xadvance b) with (glyph_advance kvs bold (replaced c));
      [done|]. unfold glyph_advance. by rewrite Hb.
Qed.

(** Measuring a text whose glyphs are cached gives the sum of their advances
    and one more than the font's height, whatever bytes the characters take, and
    changes nothing. *)
Theorem lgui_measure_font_sum st kvs bold cs h :
  cache_ok (t_cache st) kvs → Forall scalar cs →
  Forall (λ c, glyph_cached kvs bold (replaced c)) cs →
  lgui_measure_font ft (Some (utf8_text cs)) (Some h) bold st =
    Ok ((foldl Z.add 0 (map (glyph_advance kvs bold ∘ replaced) cs), h + 1), st).
Proof.
  intros Hok Hcs Hg. unfold lgui_measure_font.
  pose proof (measure_loop_ok st kvs bold cs [] (S (length (utf8_text cs))) 0 None Hok Hcs Hg) as E.
  cbn [app length] in E. pose proof (utf8_text_length cs Hcs).
  by run_with (E ltac:(lia)).
Qed.

Definition close_bold : cstring := [60; 47; 98; 62].

Lemma escapes_to_end pre e fuel st :
  (2 ≤ fuel)%nat →
  skip_escapes fuel (pre ++ close_bold) (length pre) e st =
    Ok ((length (pre ++ close_bold), set_bold false e), st).
Proof.
  intros Hf. destruct fuel as [|[|fuel]]; [lia..|].
  assert (char (pre ++ close_bold) (length pre) st = Ok (60, st)) as E1
    by by apply char_Ok; rewrite char_at_here.
  assert (char (pre ++ close_bold) (length pre + 4) st = Ok (0, st)) as E2
    by by apply char_Ok; rewrite char_at_app.
  assert (lgui_process_escape_seq (pre ++ close_bold) (length pre) e =
    Some (4%nat, set_bold false e)) as E3.
  { unfold lgui_process_escape_seq, escape_sequences. cbn [first_match chars_are].
    rewrite !char_at_app. reflexivity. }
  cbn [skip_escapes]. run_with E1. change (60 =? 60) with true. cbv iota.
  rewrite E3. erewrite bind_Ok by reflexivity. cbv beta iota.
  change (0 <? 4)%nat with true. cbv iota. run_with E2.
  rewrite length_app. reflexivity.
Qed.

(** the routines for text with markup test for the end of the text before they
    skip escape sequences, not after.  When a text ends in a closing tag, the line
    breaker asks for the glyph of the terminator, whose map key is NULL, and is
    stopped by an assertion; the loop that counts the rest steps over the
    terminator and reads behind it. *)
Theorem trailing_tag_overruns st kvs pre p0 last x e m fuel n :
  cache_ok (t_cache st) kvs →
  text_line_loop ft (S fuel) (pre ++ close_bold) p0 (length pre) last x true e m st = Abort ∧
  count_end (S (S fuel)) (pre ++ close_bold) (length pre) true e n st = Fault.
Proof.
  intros [Habs _ _].
  assert (∀ k, char_at (pre ++ close_bold) (length (pre ++ close_bold) + k) =
    match k with O => Some 0 | S _ => None end) as Hend.
  { intros [|k]; [rewrite Nat.add_0_r; apply char_at_end|apply char_at_beyond; lia]. }
  assert (UTF8toUTF32 (pre ++ close_bold) (length (pre ++ close_bold)) = Some (0, 1%nat)) as Hu.
  { unfold UTF8toUTF32. rewrite char_at_end. cbn [mbind option_bind]. rewrite trailing_0 by lia.
    cbn [mbind option_bind]. change (Z.to_nat 0) with 0%nat. cbn [utf8_read].
    rewrite char_at_end. reflexivity. }
  assert (char (pre ++ close_bold) (length pre) st = Ok (60, st)) as E0
    by by apply char_Ok; rewrite char_at_here.
  pose proof (char_Ok _ _ _ st (char_at_end (pre ++ close_bold))) as E1.
  pose proof (utf32_Ok _ _ _ st Hu) as E2.
  assert (2 ≤ S (length (pre ++ close_bold)))%nat as Hl by (rewrite length_app; cbn; lia).
  split.
  - cbn [text_line_loop]. run_with E0. change (60 =? 0) with false. cbv iota.
    erewrite bind_Ok by by apply escapes_to_end. cbv beta iota.
    run_with E1. cbn [Z.eqb orb]. run_with E2. cbv beta iota zeta.
    apply bind_Abort. unfold get_glyph. apply bind_Abort. unfold font_getGlyph. apply bind_Abort.
    unfold on_cache, bitmapcache_get. erewrite bind_Ok by reflexivity.
    unfold on_store, glyph_key. cbn [set_bold isBold]. change (int32 (Z.lor 0 0)) with 0.
    by rewrite (st_find_null _ _ _ _ Habs).
  - remember (S fuel) as fuel1 eqn:Hf1. cbn [count_end]. run_with E0. change (60 =? 0) with false.
    cbv iota. unfold maybe_escapes. erewrite bind_Ok by by apply escapes_to_end. cbv beta iota.
    run_with E2. cbv beta iota. subst fuel1. cbn [count_end].
    apply bind_Fault. unfold char. by rewrite (Hend 1%nat).
Qed.
End Properties.

(** ** Instances: a cache that holds one wide bold "A" *)
Definition wide_A : Bitmap := mkBitmap 0 12 10 14 0 10 true.
Lemma cache_with_A : ∃ c : BitmapCache (St := mstate Bitmap),
  cache_ok c [(glyph_key 65 true, Some wide_A)].
Proof.
  destruct demo_cache_ok as [Habs _ _].
  destruct (st_append_ok _ _ _ _ (glyph_key 65 true) (Some wide_A) Habs eq_refl eq_refl) as (s & _ & Hs).
  exists (mkCache [] 0 0 2 s). split; [exact Hs|done|cbn; lia].
Qed.
Definition no_font : Z → bool → option ft_glyph := λ _ _, None.
Lemma lgui_measure_font_sum_witness :
  ∃ st : text_state (St := mstate Bitmap),
    lgui_measure_font no_font (Some (utf8_text [65; 65; 65])) (Some 12) true st = Ok ((42, 13), st).
Proof.
  destruct cache_with_A as [c Hc]. exists (mkText (gui_with 0 screen) c).
  apply (lgui_measure_font_sum no_font (mkText (gui_with 0 screen) c) _ true [65; 65; 65] 12 Hc).
  - repeat constructor; unfold scalar; lia.
  - repeat constructor; exists wide_A; reflexivity.
Defined.
Lemma trailing_tag_overruns_witness :
  ∃ st : text_state (St := mstate Bitmap),
    text_line_loop no_font 9 ([60; 98; 62; 65] ++ close_bold) 0 4 0 0 true zero_esc None st = Abort ∧
    count_end 9 ([60; 98; 62; 65] ++ close_bold) 4 true zero_esc 0 st = Fault.
Proof.
  destruct cache_with_A as [c Hc]. exists (mkText (gui_with 0 screen) c).
  exact (trailing_tag_overruns no_font (mkText (gui_with 0 screen) c) _ [60; 98; 62; 65] 0 0 0 zero_esc None
    8 0 Hc).
Defined.
