(* ===== verification/Clipping.v ===== *)
(** * Drawing stays at the clip

    [confined C]: while the clips in force lie in [C], the framebuffer changes at most in
    [C] and a little to the right of it: slanted text is shifted by up to a quarter of
    the height, and some loops draw one column or line too many.  The clips are only
    made smaller or taken back, so they still lie in [C] afterwards, and nothing is
    recorded for the display. *)
From stdpp Require Import functions.
From S2P Require Import Prelude Lists Maps Pixels Lgui BitmapCache CStrings Utf8 Text Frames.

Definition inside (c C : Rectangle) : Prop :=
  rx C ≤ rx c ∧ rx c + rwidth c ≤ rx C + rwidth C ∧ ry C ≤ ry c ∧ ry c + rheight c ≤ ry C + rheight C.
Definition spill (C : Rectangle) (a : Z) : Prop :=
  ∃ x y, a = x + y * LGUI_WIDTH ∧ rx C ≤ x ≤ rx C + rwidth C + rheight C / 4 ∧ ry C ≤ y ≤ ry C + rheight C.
Definition clips_in (C : Rectangle) (s : gui) : Prop :=
  0 ≤ clip_index s ∧ ∀ i c, (i ≤ Z.to_nat (clip_index s))%nat → clip_stack s !! i = Some c → inside c C.
Definition confined (C : Rectangle) : relation gui := λ s s',
  clips_in C s →
  clips_in C s' ∧ (∀ a, lgui_buffer s' a = lgui_buffer s a ∨ spill C a) ∧
  region_blit s' = region_blit s ∧ region_index s' = region_index s.
#[export] Instance confined_preorder C : PreOrder (confined C).
Proof.
  split.
  - intros s Hs. split; [done|]. split; [by left|]. done.
  - intros s s' s'' H1 H2 Hs. destruct (H1 Hs) as (Hs' & B1 & R1 & I1). destruct (H2 Hs') as (Hs'' & B2 & R2 & I2).
    split; [done|]. split; [|split; congruence]. intros a. destruct (B2 a) as [->|?]; [apply B1|by right].
Qed.
Lemma inside_trans c d C : inside c d → inside d C → inside c C.
Proof. unfold inside. lia. Qed.
Lemma inside_refl C : inside C C.
Proof. unfold inside. lia. Qed.

Section Clipping.
Context (C : Rectangle).
Abbreviation ok := (respects (confined C)).

Lemma respects_mfor_in {S A} (R : relation S) `{!PreOrder R} (f : A → M S ()) l :
  (∀ a, a ∈ l → respects R (f a)) → respects R (mfor f l).
Proof.
  intros Hf. induction l as [|a l IH]; [by apply respects_ret|]. apply respects_bind; [done|apply Hf; set_solver|].
  intros []. apply IH. intros b Hb. apply Hf. set_solver.
Qed.
Lemma CLIP_inv s c s' : CLIP s = Ok (c, s') → s' = s ∧ 0 ≤ clip_index s ∧ clip_stack s !! Z.to_nat (clip_index s) = Some c.
Proof.
  unfold CLIP. destruct (Z.leb_spec 0 (clip_index s)); [|done]. destruct (clip_stack s !! _) eqn:E; [|done].
  by intros [= -> ->].
Qed.
(** What is done with the clip may rely on its place. *)
Lemma confined_CLIP {B} (k : Rectangle → GM B) : (∀ c, inside c C → ok (k c)) → ok (CLIP ≫= k).
Proof.
  intros Hk s b s' (c & s1 & E1 & E2)%bind_Ok_inv Hs. apply CLIP_inv in E1 as (-> & Hi & Hc).
  eapply Hk; [|done|done]. destruct Hs as [_ Hs]. eapply Hs; [|done]. lia.
Qed.
Lemma clip_rect_inv c r lx ly hx hy : clip_rect c r = Some (lx, ly, hx, hy) →
  rx c ≤ rx r + lx ∧ rx r + hx ≤ rx c + rwidth c ∧ ry c ≤ ry r + ly ∧ ry r + hy ≤ ry c + rheight c.
Proof.
  unfold clip_rect. cbv zeta.
  repeat match goal with
  | |- context [Z.ltb ?a ?b] => destruct (Z.ltb_spec a b)
  | |- context [Z.leb ?a ?b] => destruct (Z.leb_spec a b)
  end; intros [= <- <- <- <-] || intros [=]; lia.
Qed.
Definition in_clip (r : Rectangle) (lx ly hx hy : Z) : Prop :=
  rx C ≤ rx r + lx ∧ rx r + hx ≤ rx C + rwidth C ∧ ry C ≤ ry r + ly ∧ ry r + hy ≤ ry C + rheight C.
Lemma confined_clip_rect {B} r (k : option (Z * Z * Z * Z) → GM B) :
  ok (k None) → (∀ lx ly hx hy, in_clip r lx ly hx hy → ok (k (Some (lx, ly, hx, hy)))) → ok (lgui_clip_rect r ≫= k).
Proof.
  intros H0 H1. unfold lgui_clip_rect. intros s b s' E. rewrite bind_assoc in E. revert s b s' E.
  apply confined_CLIP. intros c Hc s b s' E. rewrite (bind_Ok _ _ s _ s eq_refl) in E. revert s b s' E.
  destruct (clip_rect c r) as [[[[lx ly] hx] hy]|] eqn:Er; [|exact H0]. apply H1.
  apply clip_rect_inv in Er. unfold in_clip, inside in *. lia.
Qed.
Lemma confined_put_pixel a f : spill C a → ok (put_pixel a f).
Proof.
  intros Ha s [] s' E Hs. unfold put_pixel in E. case_bool_decide; [|done]. destruct (f _) as [v|]; [|done].
  injection E as <-. split; [done|]. split; [|done]. intros b. cbn [lgui_buffer set_buffer].
  destruct (decide (b = a)) as [->|?]; [by right|left; by rewrite fn_lookup_insert_ne].
Qed.
Lemma confined_same (m : GM ()) :
  (∀ s s', m s = Ok ((), s') → s' = set_buffer (lgui_buffer s) s' ∧ clip_stack s' = clip_stack s ∧ clip_index s' = clip_index s ∧
     region_blit s' = region_blit s ∧ region_index s' = region_index s) → ok m.
Proof.
  intros H s [] s' E Hs. destruct (H s s' E) as (Hb & H1 & H2 & H3 & H4).
  split; [unfold clips_in in *; by rewrite H1, H2|]. split; [|done]. intros a. left. by rewrite Hb.
Qed.
Lemma confined_set_dirty : ok lgui_set_dirty.
Proof. apply confined_same. intros s s' E. injection E as <-. by split_and!. Qed.
Lemma confined_set_putpixel x y : ok (modify (set_putpixel x y)).
Proof. apply confined_same. intros s s' E. injection E as <-. by split_and!. Qed.
Lemma confined_translate x y : ok (lgui_translate x y).
Proof. apply confined_same. intros s s' E. injection E as <-. by split_and!. Qed.

(** ** The loop nests *)
Lemma confined_row base lo hi px :
  (∀ i, lo ≤ i < hi → spill C (base + i)) → ok (row_loop base lo hi px).
Proof.
  intros H. apply respects_mfor_in; [exact _|]. intros i Hi%elem_of_seqZ. apply confined_put_pixel, H. lia.
Qed.
Lemma confined_lines x y lo hi row :
  (∀ line, lo ≤ line < hi → ok (row line (x + (y + line) * LGUI_WIDTH))) → ok (lines_loop x y lo hi row).
Proof.
  intros H. apply respects_mfor_in; [exact _|]. intros line Hl%elem_of_seqZ. cbv zeta.
  destruct (off_screen _); [apply respects_ret; exact _|]. apply H. lia.
Qed.
Lemma spill_at x y d : rx C ≤ x → x + d ≤ rx C + rwidth C + rheight C / 4 → 0 ≤ d → ry C ≤ y ≤ ry C + rheight C →
  spill C (x + d + y * LGUI_WIDTH).
Proof. intros. exists (x + d), y. lia. Qed.
Lemma confined_clipped r px : ok (clipped r px).
Proof.
  apply confined_clip_rect; [apply respects_ret; exact _|]. intros lx ly hx hy Hin. unfold in_clip in Hin.
  apply respects_bind; [exact _|apply confined_set_dirty|]. intros [].
  apply confined_lines. intros line Hl. apply confined_row. intros i Hi.
  exists (rx r + i), (ry r + line). assert (0 ≤ rheight C / 4) by (Z.div_mod_to_equations; lia). lia.
Qed.
Lemma confined_vline x y len width red green blue alpha : ok (lgui_vline x y len width red green blue alpha).
Proof. apply respects_bind; [exact _|apply respects_gets; exact _|]. intros []. apply confined_clipped. Qed.
Lemma confined_hline x y len width red green blue alpha : ok (lgui_hline x y len width red green blue alpha).
Proof. apply confined_vline. Qed.
Lemma confined_vertical_gradient cs ce x y width height : ok (lgui_vertical_gradient cs ce x y width height).
Proof. apply respects_bind; [exact _|apply respects_gets; exact _|]. intros []. apply confined_clipped. Qed.
Lemma confined_blitRGB565 x y ix iy w h rs img st alpha : ok (lgui_blitRGB565 x y ix iy w h rs img st alpha).
Proof. apply respects_bind; [exact _|apply respects_gets; exact _|]. intros []. apply confined_clipped. Qed.
Lemma confined_blitRGB565A8 x y ix iy w h rs img alpha : ok (lgui_blitRGB565A8 x y ix iy w h rs img alpha).
Proof. apply respects_bind; [exact _|apply respects_gets; exact _|]. intros []. apply confined_clipped. Qed.
(** The pairs of pixels of the visible columns; slanted text is shifted to the right. *)
Lemma confined_A4_blit x y ix iy idx idy w h img c mode it : ok (lgui_luminence_A4_blitC x y ix iy idx idy w h img c mode it).
Proof.
  apply respects_bind; [exact _|apply respects_gets; exact _|]. intros [tx ty]. cbv zeta.
  apply confined_clip_rect; [apply respects_ret; exact _|]. intros lx ly hx hy Hin. unfold in_clip in Hin. cbn [rx ry] in Hin.
  apply respects_bind; [exact _|apply confined_set_dirty|]. intros [].
  apply confined_lines. intros line Hl. cbv zeta.
  set (sh := if it then Z.shiftr (hy - line) 2 else 0).
  assert (0 ≤ sh ≤ rheight C / 4).
  { unfold sh. destruct it; [rewrite Z.shiftr_div_pow2 by done; change (2 ^ 2) with 4|]; Z.div_mod_to_equations; lia. }
  apply respects_mfor_in; [exact _|]. intros col Hcol%elem_of_seqZ. rewrite !Z.shiftr_div_pow2 in Hcol by done.
  change (2 ^ 1) with 2 in Hcol.
  apply respects_bind; [exact _| |intros []]; apply confined_put_pixel.
  - exists (x + tx + (2 * col + sh)), (y + ty + line). Z.div_mod_to_equations. lia.
  - exists (x + tx + (2 * col + 1 + sh)), (y + ty + line). Z.div_mod_to_equations. lia.
Qed.
(** The clip is tested as if its last column and line were behind it. *)
Lemma confined_putpixelAlpha x y pixel a : ok (putpixelAlpha x y pixel a).
Proof.
  apply respects_bind; [exact _|apply respects_gets; exact _|]. intros [tx ty].
  apply respects_bind; [exact _|apply respects_gets; exact _|]. intros [px py]. cbv zeta.
  apply confined_CLIP. intros c Hc. unfold inside in Hc.
  destruct (Z.ltb_spec (x + tx + px) (rx c)); [apply respects_ret; exact _|].
  destruct (Z.ltb_spec (rx c + rwidth c) (x + tx + px)); [apply respects_ret; exact _|].
  destruct (Z.ltb_spec (y + ty + py) (ry c)); [apply respects_ret; exact _|].
  destruct (Z.ltb_spec (ry c + rheight c) (y + ty + py)); [apply respects_ret; exact _|]. cbn [orb].
  destruct (_ || _); [apply respects_ret; exact _|].
  apply respects_bind; [exact _|apply confined_set_dirty|]. intros []. apply confined_put_pixel.
  exists (x + tx + px), (y + ty + py). assert (0 ≤ rheight C / 4) by (Z.div_mod_to_equations; lia). lia.
Qed.
End Clipping.
#[export] Hint Resolve confined_set_dirty confined_set_putpixel confined_translate confined_vline confined_hline
  confined_vertical_gradient confined_blitRGB565 confined_blitRGB565A8 confined_A4_blit confined_putpixelAlpha : respects.

(** ** Shapes *)
Section Shapes.
Context (C : Rectangle).
Abbreviation ok := (respects (confined C)).

Lemma confined_box x y w h lw red green blue alpha fl : ok (lgui_box x y w h lw red green blue alpha fl).
Proof. unfold lgui_box. respects. Qed.
Lemma confined_getStop g id h : ok (gradient_getStop g id h).
Proof. unfold gradient_getStop. respects. Qed.
#[local] Hint Resolve confined_getStop : respects.
Lemma confined_gradientG_loop fuel g x y w h stop hs he cs ce : ok (gradientG_loop fuel g x y w h stop hs he cs ce).
Proof.
  revert stop hs he cs ce. induction fuel as [|fuel IH]; intros; cbn [gradientG_loop]; [by apply respects_no_fuel|].
  respects.
Qed.
#[local] Hint Resolve confined_gradientG_loop : respects.
Lemma confined_vertical_gradientG g x y w h : ok (lgui_vertical_gradientG g x y w h).
Proof. unfold lgui_vertical_gradientG. respects. Qed.
Lemma confined_drawArch_loop fuel R pixel arcs x y d : ok (drawArch_loop fuel R pixel arcs x y d).
Proof.
  revert x y d. induction fuel as [|fuel IH]; intros; cbn [drawArch_loop]; [by apply respects_no_fuel|]. respects.
Qed.
#[local] Hint Resolve confined_drawArch_loop : respects.
Lemma confined_aacircle x y rad arcs red green blue : ok (lgui_aacircle x y rad arcs red green blue).
Proof. unfold lgui_aacircle, drawArch. respects. Qed.
#[local] Hint Resolve confined_aacircle : respects.
Lemma confined_roundedbox_line x y w h radius red green blue bf bcf : ok (lgui_roundedbox_line x y w h radius red green blue bf bcf).
Proof. unfold lgui_roundedbox_line. respects. Qed.
Lemma confined_circlefill_loop fuel xc yc x y d di ri red green blue alpha :
  ok (circlefill_loop fuel xc yc x y d di ri red green blue alpha).
Proof.
  revert x y d di ri. induction fuel as [|fuel IH]; intros; cbn [circlefill_loop]; [by apply respects_no_fuel|]. respects.
Qed.
Lemma confined_circlefill xc yc r red green blue alpha : ok (lgui_circlefill xc yc r red green blue alpha).
Proof. apply confined_circlefill_loop. Qed.
#[local] Hint Resolve confined_circlefill : respects.
Lemma confined_roundedbox_fill x y w h radius red green blue alpha fl : ok (lgui_roundedbox_fill x y w h radius red green blue alpha fl).
Proof. unfold lgui_roundedbox_fill. respects. Qed.
Context (cos_radius : Z → Z → Z).
Lemma confined_rbox_segment x y w h radius fl hs he cs ce : ok (rbox_segment cos_radius x y w h radius fl hs he cs ce).
Proof.
  unfold rbox_segment. cbv zeta. apply confined_clip_rect; [apply respects_ret; exact _|].
  intros lx ly hx hy Hin. unfold in_clip in Hin. cbn [rx ry] in Hin.
  apply confined_lines. intros line Hl. destruct (rbox_inset _ _ _ _ _ _) as [il ir].
  apply confined_row. intros i Hi. exists (x + i), (y + hs + line).
  assert (0 ≤ rheight C / 4) by (Z.div_mod_to_equations; lia).
  destruct (Z.ltb_spec il lx), (Z.ltb_spec hx (w - ir + 1)); lia.
Qed.
#[local] Hint Resolve confined_rbox_segment : respects.
Lemma confined_rbox_loop fuel g x y w h radius fl stop hs he cs ce : ok (rbox_loop cos_radius fuel g x y w h radius fl stop hs he cs ce).
Proof.
  revert stop hs he cs ce. induction fuel as [|fuel IH]; intros; cbn [rbox_loop]; [by apply respects_no_fuel|]. respects.
Qed.
#[local] Hint Resolve confined_rbox_loop : respects.
Lemma confined_rbox_gradient g x y w h radius fl : ok (lgui_rbox_gradient cos_radius g x y w h radius fl).
Proof.
  unfold lgui_rbox_gradient. apply respects_bind; [exact _|respects|]. intros gs.
  apply respects_bind; [exact _|apply respects_gets; exact _|]. intros [tx ty]. cbv zeta.
  do 2 (apply respects_bind; [exact _|respects|]; intros []).
  apply confined_clip_rect; [apply respects_ret; exact _|]. intros. respects.
Qed.

(** ** The clip stack *)
Lemma confined_set_CLIP r s s' : set_CLIP r s = Ok ((), s') → inside r C → confined C s s'.
Proof.
  intros E Hr [Hi Hs]. unfold set_CLIP in E. apply bind_Ok_inv in E as (c & s1 & E1 & E2).
  apply CLIP_inv in E1 as (-> & _ & _). injection E2 as <-. split; [|split; [by left|done]].
  split; [done|]. cbn [clip_index clip_stack set_clips]. intros i c' Hle Hc'.
  destruct (decide (i = Z.to_nat (clip_index s))) as [->|?].
  - apply list_lookup_insert_Some in Hc' as [(_ & <- & _)|(? & _)]; [done|done].
  - rewrite list_lookup_insert_ne in Hc' by done. by eapply Hs.
Qed.
Lemma confined_clip_and r : ok (lgui_clip_and r).
Proof.
  unfold lgui_clip_and. apply confined_CLIP. intros c Hc s [] s' E. eapply confined_set_CLIP; [exact E|].
  eapply inside_trans; [|exact Hc]. unfold inside, clip_and. cbn [rx ry rwidth rheight].
  repeat match goal with |- context [Z.ltb ?a ?b] => destruct (Z.ltb_spec a b) end; lia.
Qed.
Lemma confined_clip_pop : ok lgui_clip_pop.
Proof.
  intros s [] s' E [Hi Hs]. injection E as <-. split; [|split; [by left|done]].
  split; cbn [clip_index clip_stack set_clips]; [case_match; lia|]. intros i c Hle. apply Hs.
  destruct (Z.ltb_spec (clip_index s - 1) 0); lia.
Qed.
Lemma confined_clip_push : ok lgui_clip_push.
Proof.
  intros s [] s' E [Hi Hs]. unfold lgui_clip_push in E. rewrite (bind_Ok _ _ s _ s eq_refl) in E.
  destruct (_ <=? _); [injection E as <-; split; [done|]; split; [by left|done]|].
  apply bind_Ok_inv in E as (c & s1 & E1 & E). apply CLIP_inv in E1 as (-> & _ & Hc).
  rewrite (bind_Ok _ _ s _ _ eq_refl) in E. unfold set_CLIP in E.
  apply bind_Ok_inv in E as (c' & s1 & E1 & E2). apply CLIP_inv in E1 as (-> & _ & Hc').
  injection E2 as <-. split; [|split; [by left|done]]. cbn [clip_index clip_stack set_clips] in *.
  split; cbn [clip_index clip_stack set_clips]; [lia|]. intros i d Hle Hd.
  destruct (decide (i = Z.to_nat (clip_index s + 1))) as [->|?].
  - apply list_lookup_insert_Some in Hd as [(_ & <- & _)|(? & _)]; [|done]. eapply Hs; [|exact Hc]. lia.
  - rewrite list_lookup_insert_ne in Hd by done. eapply Hs; [|exact Hd]. lia.
Qed.
End Shapes.
#[export] Hint Resolve confined_box confined_vertical_gradientG confined_roundedbox_line confined_roundedbox_fill
  confined_rbox_gradient confined_clip_and confined_clip_pop confined_clip_push : respects.
