(* ===== verification/Drawing.v ===== *)
(** * Drawing the widgets: the renderers and style_renderWidgetTree

    The picture is drawn by walking over the tree of the screen: a widget that meets the
    clip is drawn by the renderer of its style if it is dirty, and is clean afterwards;
    the walk goes on below it in any case.  [junk] is what the local variables hold that
    a renderer reads without having set them. *)
From S2P Require Import Prelude Lists Maps Pixels Lgui BitmapCache CStrings Utf8 Text Arrays.
From S2P Require Import FieldNames Fields DataObjects Ui Modify Focus Styles Layout.

Definition LGUI_CORNERS_ALL : Z := 0x0F.
Definition gradient_of (g : list (Z * Z)) : list GradientStop := map (λ p, mkStop p.1 (color_of_value p.2)) g.

(** ** What the renderers look up *)
(** Each digit of a text stands for a flag. *)
Fixpoint digit_flags (flags : list (Z * Z)) (s : cstring) : Z :=
  match s with
  | [] => 0
  | c :: s => Z.lor (default 0 (al_find c flags)) (digit_flags flags s)
  end.
Definition corner_digits : list (Z * Z) :=
  [(49, LGUI_CORNER_TOPLEFT); (50, LGUI_CORNER_TOPRIGHT); (51, LGUI_CORNER_BOTTOMRIGHT); (52, LGUI_CORNER_BOTTOMLEFT)].
Definition side_digits : list (Z * Z) := [(49, LGUI_TOP); (50, LGUI_LEFT); (51, LGUI_BOTTOM); (52, LGUI_RIGHT)].
Definition flags_of_field (digits : list (Z * Z)) (f : option floc) : UM Z :=
  match f with
  | None => mret 0
  | Some f =>
      c ← in_fields (get_field f);
      match f_value c with DOF_STRING p => s ← deref (str_content p); mret (digit_flags digits s) | _ => mret 0 end
  end.
Definition radius_of_field (f : option floc) : UM Z :=
  match f with
  | None => mret 7
  | Some f =>
      c ← in_fields (get_field f);
      match f_value c with
      | DOF_INT i => mret i
      | DOF_UINT u => mret (int32 u)
      | DOF_STRING p => s ← deref (str_content p); deref (atoi s)
      | DOF_DATA _ _ => mret 7
      end
  end.
Definition color_or (dflt : Z) (s w : oloc) (key : EmoField) : UM Color :=
  c ← style_getColor (Some s) (Some w) key; mret (color_of_value (default dflt c)).
Definition is_text (f : option floc) (s : string) : UM bool := in_fields (dataobjectfield_isString f (Some (lit s))).
(** Where a widget is drawn. *)
Definition own_rect (w : oloc) : UM Rectangle :=
  box ← widget_getBox (Some w); margin ← widget_getMargin (Some w);
  mret (mkRect (rx box + rx margin) (ry box + ry margin) (rwidth box) (rheight box)).
(** The bytes behind the data pointer of an image. *)
Definition image_bytes (f : floc) : UM (list Z) :=
  c ← in_fields (get_field f);
  match f_value c with
  | DOF_DATA bytes _ => mret bytes
  | DOF_STRING p => s ← deref (str_content p); mret (s ++ [nul])
  | _ => fault
  end.
(** A number, or the field that is made for it when it is missing. *)
Definition number_field (w : oloc) (key : EmoField) (dflt : Z) : UM Z :=
  field ← getFieldAsInt w key;
  match field with
  | Some f => in_fields (get_integer f)
  | None => v ← new_int dflt; setField w key v;; mret dflt
  end.
(** The pixel formats of Color.h. *)
Definition RGB565 : Z := 0.
Definition A4 : Z := 4.
Definition RGB565A8 : Z := 5.
Definition transparency (f : option floc) : UM Z :=
  none ← is_text f "none"; stencil ← is_text f "stencil";
  mret (if stencil : bool then LGUI_MODE_STENCIL else if none : bool then LGUI_MODE_REPLACE else LGUI_MODE_ALPHA).
Definition raw_int (d : oloc) (key : EmoField) : UM (option Z) :=
  f ← getField d key; match f with None => mret None | Some f => i ← in_fields (get_integer f); mret (Some i) end.
Record image := mkImage {
  im_width : Z; im_height : Z; im_format : Z; im_alpha : Z; im_x : Z; im_y : Z; im_w : Z; im_h : Z; im_data : list Z }.
(** The image of an object, as the widget cuts it out. *)
Definition image_of (w dobj : oloc) : UM (option image) :=
  width ← raw_int dobj EMO_FIELD_WIDTH;
  match width with None => mret None | Some width =>
  height ← raw_int dobj EMO_FIELD_HEIGHT;
  match height with None => mret None | Some height =>
  format ← raw_int dobj EMO_FIELD_PIXELFORMAT;
  match format with None => mret None | Some format =>
  alpha ← as_int_or w EMO_FIELD_ALPHA 0xFF;
  x ← as_int_or w EMO_FIELD_IMGX 0; y ← as_int_or w EMO_FIELD_IMGY 0;
  iw ← as_int_or w EMO_FIELD_IMGWIDTH width; ih ← as_int_or w EMO_FIELD_IMGHEIGHT height;
  data ← getField dobj EMO_FIELD_DATA;
  match data with None => mret None | Some data =>
  bytes ← image_bytes data; mret (Some (mkImage width height format (uint8 alpha) x y iw ih bytes))
  end end end end.
Definition checkbox_field (w : oloc) : UM (cstring + Z) :=
  cbfield ← getField w EMO_FIELD_CHECKFIELD;
  match cbfield with
  | None => mret (inr (enum_value EMO_FIELD_DATA))
  | Some f =>
      c ← in_fields (get_field f);
      match f_value c with
      | DOF_STRING p => s ← deref (str_content p); mret (inl s)
      | DOF_INT i => mret (inr (if i =? -1 then enum_value EMO_FIELD_DATA else i))
      | _ => λ _, Abort
      end
  end.
Definition checkbox_checked (w : oloc) : UM bool :=
  cbvalue ← getField w EMO_FIELD_CHECKVALUE;
  value ← (match cbvalue with
           | None => mret (Some (lit "1"))
           | Some f => c ← in_fields (get_field f);
                       mret (match f_value c with DOF_STRING p => str_content p | _ => Some (lit "1") end)
           end);
  k ← checkbox_field w; text ← data_of w;
  field ← (match k with
           | inl s => in_world (dataobject_getValue (Some text) (Some s))
           | inr e => in_world (dataobject_getEnum (Some text) e)
           end);
  v ← deref value; in_fields (dataobjectfield_isString field (Some v)).

(** ** The screen: the objects and the picture *)
Section Drawing.
Context {St : Type} `{MapStore St Bitmap}.
Variable ft : Z → bool → option ft_glyph.
(** The height of the font, if it could be loaded, and the gradient for boxes without
    one of their own. *)
Variable defaultFont : option Z.
Variable defaultGradient : option (list GradientStop).
Variable cos_radius : Z → Z → Z.
Record junk_values := mkJunk { junk_color : Z; junk_cursor : Rectangle; junk_window : Z * Z }.
Variable junk : junk_values.

Record display := mkDisplay { sc_ui : ui; sc_text : text_state (St := St) }.
Abbreviation SM := (M display).
Definition on_ui {B} (m : UM B) : SM B := λ s,
  match m (sc_ui s) with
  | Ok (b, u) => Ok (b, mkDisplay u (sc_text s))
  | Abort => Abort | Fault => Fault | NoFuel => NoFuel
  end.
Definition on_text {B} (m : M (text_state (St := St)) B) : SM B := λ s,
  match m (sc_text s) with
  | Ok (b, t) => Ok (b, mkDisplay (sc_ui s) t)
  | Abort => Abort | Fault => Fault | NoFuel => NoFuel
  end.
Definition draw {B} (m : GM B) : SM B := on_text (on_gui m).

(** ** Boxes *)
Definition fill_gradient (s : oloc) (r : Rectangle) (radius corners : Z) : SM () :=
  cs ← on_ui (children_of s);
  g ← (match cs with
       | child :: _ => g ← on_ui (style_getGradient (Some child)); mret (gradient_of <$> g)
       | [] => mret defaultGradient
       end);
  if (corners =? 0) || (radius =? 0)
  then draw (lgui_vertical_gradientG g (rx r) (ry r) (rwidth r) (rheight r))
  else draw (lgui_rbox_gradient cos_radius g (rx r) (ry r) (rwidth r) (rheight r) radius corners).
Definition fill_solid (s w : oloc) (r : Rectangle) (radius corners : Z) : SM () :=
  c ← on_ui (color_or 0 s w EMO_FIELD_BACKGROUND_COLOR);
  if (corners =? 0) || (radius =? 0)
  then draw (lgui_hline (rx r) (ry r) (rwidth r) (rheight r) (c_red c) (c_green c) (c_blue c) (c_alpha c))
  else draw (lgui_roundedbox_fill (rx r) (ry r) (rwidth r) (rheight r) radius
               (c_red c) (c_green c) (c_blue c) (c_alpha c) corners).
Definition outline_box (o : Color) (r : Rectangle) (radius corners borderFlags borderCorners : Z) : SM () :=
  if (corners =? 0) || (radius =? 0)
  then draw (lgui_box (rx r) (ry r) (rwidth r) (rheight r) 1 (c_red o) (c_green o) (c_blue o) (c_alpha o) borderFlags)
  else draw (lgui_roundedbox_line (rx r) (ry r) (rwidth r - 1) (rheight r - 1) radius
               (c_red o) (c_green o) (c_blue o) borderFlags borderCorners).
Definition box_renderer (s w : oloc) : SM () :=
  r ← on_ui (own_rect w);
  fill ← on_ui (style_getProperty (Some s) (Some w) EMO_FIELD_FILL);
  isGradient ← on_ui (is_text fill "gradient");
  radiusF ← on_ui (style_getProperty (Some s) (Some w) EMO_FIELD_RADIUS);
  rounded ← on_ui (style_getProperty (Some s) (Some w) EMO_FIELD_ROUNDED);
  border ← on_ui (style_getProperty (Some s) (Some w) EMO_FIELD_BORDER);
  bordercorners ← on_ui (style_getProperty (Some s) (Some w) EMO_FIELD_BORDER_CORNERS);
  outline ← on_ui (color_or 0 s w EMO_FIELD_BORDER_COLOR);
  corners ← on_ui (flags_of_field corner_digits rounded);
  borderFlags ← on_ui (flags_of_field side_digits border);
  borderCorners ← on_ui (flags_of_field corner_digits bordercorners);
  radius ← on_ui (radius_of_field radiusF);
  (if isGradient : bool then fill_gradient s r radius corners
   else solid ← on_ui (is_text fill "solid"); when solid (fill_solid s w r radius corners));;
  outline_box outline r radius corners borderFlags borderCorners.

(** ** Labels, texts, images, scroll bars, scrolled widgets *)
Definition string_renderer (s w dobj : oloc) : SM () :=
  r ← on_ui (own_rect w);
  c ← on_ui (color_or (junk_color junk) s w EMO_FIELD_FONT_COLOR);
  field ← on_ui (label_field w dobj);
  match field with
  | None => mret ()
  | Some f =>
      str ← on_ui (field_string_of f);
      boldField ← on_ui (style_getProperty (Some s) (Some w) EMO_FIELD_WEIGHT);
      isBold ← on_ui (is_text boldField "bold");
      fontalign ← on_ui (style_getProperty (Some s) (Some w) EMO_FIELD_FONT_ALIGNMENT);
      measured ← on_ui (label_text w dobj);
      '(dx, _) ← (match measured with
                  | None => mret (0, 0)
                  | Some (t, b) => on_text (lgui_measure_font ft (Some t) defaultFont b)
                  end);
      right ← on_ui (is_text fontalign "right");
      center ← on_ui (is_text fontalign "center");
      let x := if right : bool then rx r + rwidth r - dx
               else if center : bool then rx r + Z.quot (rwidth r - dx) 2 else rx r in
      on_text (lgui_draw_font ft x (ry r) (rwidth r) (rheight r) (Some str) defaultFont c isBold)
  end.
Definition text_renderer (s w dobj : oloc) : SM () :=
  r ← on_ui (own_rect w);
  c ← on_ui (color_or 0 s w EMO_FIELD_FONT_COLOR);
  _ ← on_ui (data_of w);
  str ← on_ui (text_text w dobj);
  _ ← on_text (lgui_complex_draw_font ft (rx r + 4) (ry r) (rwidth r - 9) (rheight r) (Some str) defaultFont c 0 0 true false);
  mret ().
Definition image_renderer (s w dobj : oloc) : SM () :=
  r ← on_ui (own_rect w);
  found ← on_ui (image_of w dobj);
  match found with
  | None => mret ()
  | Some i =>
      field ← on_ui (style_getProperty (Some s) (Some w) EMO_FIELD_TRANSPARENCY);
      trans ← on_ui (transparency field);
      if im_format i =? RGB565 then
        draw (lgui_blitRGB565 (rx r) (ry r) (im_x i) (im_y i) (im_w i) (im_h i) (im_width i) (im_data i)
                (trans =? LGUI_MODE_STENCIL) (im_alpha i))
      else if im_format i =? RGB565A8 then
        draw (lgui_blitRGB565A8 (rx r) (ry r) (im_x i) (im_y i) (im_w i) (im_h i) (im_width i) (im_data i) (im_alpha i))
      else if im_format i =? A4 then
        field ← on_ui (style_getPropertyAsInt (Some s) (Some w) EMO_FIELD_COLOR);
        c ← on_ui (match field with
                   | Some f => v ← in_fields (get_integer f); mret (uint32 v)
                   | None => _ ← style_getColor (Some s) (Some w) EMO_FIELD_COLOR; mret 0xFFFFFFFF
                   end);
        draw (lgui_luminence_A4_blitC (rx r) (ry r) (im_x i) (im_y i) (im_w i) (im_h i) (im_width i) (im_height i)
                (im_data i) (color_of_value c) trans false)
      else mret ()
  end.
(** The division is by the height of the contents. *)
Definition scrollbar_renderer (s w dobj : oloc) : SM () :=
  r ← on_ui (own_rect w);
  childBox ← on_ui (widget_getChildBox (Some dobj));
  thumb ← on_ui (color_or 0 s w EMO_FIELD_THUMB_COLOR);
  track ← on_ui (color_or 0 s w EMO_FIELD_TRACK_COLOR);
  orientation ← on_ui (style_getProperty (Some s) (Some w) EMO_FIELD_ORIENTATION);
  horizontal ← on_ui (is_text orientation "horizontal");
  _ ← on_ui (as_int_or dobj EMO_FIELD_XOFFSET 0);
  ytrans ← on_ui (as_int_or dobj EMO_FIELD_YOFFSET 0);
  draw (lgui_hline (rx r) (ry r) (rwidth r) (rheight r - 1) (c_red track) (c_green track) (c_blue track) (c_alpha track));;
  if horizontal : bool then mret () else
  '(_, ch) ← deref childBox;
  let height := rheight r - 4 in
  let scrolled := rheight r <? ch in
  (if scrolled && (ch =? 0) then fault else mret ());;
  let starti := if scrolled then Z.quot (rheight r * ytrans) ch else 0 in
  let height := if scrolled then Z.quot (rheight r * height) ch else height in
  draw (lgui_roundedbox_fill (rx r + 1) (ry r + 2 + starti) (rwidth r - 2) height 3
          (c_red thumb) (c_green thumb) (c_blue thumb) (c_alpha thumb) LGUI_CORNERS_ALL).
Definition scroll_offset (w : oloc) : SM (Z * Z) :=
  x ← on_ui (as_int_or w EMO_FIELD_XOFFSET 0); y ← on_ui (as_int_or w EMO_FIELD_YOFFSET 0); mret (x, y).
Definition scrolled_renderer (w : oloc) : SM () :=
  box ← on_ui (widget_getBox (Some w));
  '(x, y) ← scroll_offset w;
  draw lgui_clip_push;; draw (lgui_clip_and box);; draw (lgui_translate (- x) (- y)).
Definition scrolled_postrenderer (w : oloc) : SM () :=
  '(x, y) ← scroll_offset w; draw lgui_clip_pop;; draw (lgui_translate x y).

(** ** Entries and check boxes

    Both first draw the box with the renderer the style names for it, which may again
    be one of them. *)
Definition entry_text (w : oloc) : UM cstring :=
  text ← data_of w; field ← getField text EMO_FIELD_DATA;
  match field with Some f => field_string_of f | None => mret [] end.
Definition multiline_field (w : oloc) : UM floc :=
  field ← getField w EMO_FIELD_MULTILINE;
  match field with
  | Some f => mret f
  | None => f ← in_fields (dataobjectfield_string (Some (SHeap (lit "false")))); setField w EMO_FIELD_MULTILINE f;; mret f
  end.
Definition line_bar (r : Rectangle) (percent offset : Z) : SM () :=
  draw (lgui_vline (rx r + rwidth r - 8) (ry r + 1) (rheight r - 1) 4 0x44 0x44 0xFF 0xFF);;
  draw (lgui_vline (rx r + rwidth r - 8) (ry r + 1 + Z.quot (offset * (rheight r - 1)) 100)
          (Z.quot (percent * (rheight r - 1)) 100) 4 0xCC 0xCC 0xFF 0xFF).
Definition entry_contents (s w : oloc) (r : Rectangle) : SM () :=
  str ← on_ui (entry_text w);
  c ← on_ui (color_or 0 s w EMO_FIELD_FONT_COLOR);
  cursor ← on_ui (number_field w EMO_FIELD_CURSOR (int32 (Z.of_nat (length str))));
  startindex ← on_ui (number_field w EMO_FIELD_STARTINDEX 0);
  multiline ← on_ui (multiline_field w);
  '(window, cursorBox) ← on_text (lgui_complex_draw_font ft (rx r + 4) (ry r) (rwidth r - 9) (rheight r) (Some str)
                                    defaultFont c cursor startindex false true);
  let '(percent, offset) := default (junk_window junk) window in
  let b := default (junk_cursor junk) cursorBox in
  several ← on_ui (in_fields (dataobjectfield_isTrue (Some multiline)));
  when (negb (several =? 0)) (line_bar r percent offset);;
  cursorColor ← on_ui (style_getColor (Some s) (Some w) EMO_FIELD_CURSOR_COLOR);
  match cursorColor with
  | None => mret ()
  | Some v =>
      let c := color_of_value v in
      draw (lgui_hline (rx b) (ry b) (rwidth b) (rheight b) (c_red c) (c_green c) (c_blue c) (c_alpha c))
  end.
Definition check_mark (s w : oloc) (r : Rectangle) : SM () :=
  checked ← on_ui (checkbox_checked w);
  if negb (checked : bool) then mret () else
  checkColor ← on_ui (style_getColor (Some s) (Some w) EMO_FIELD_CHECK_COLOR);
  match checkColor with
  | None => mret ()
  | Some v =>
      let c := color_of_value v in
      draw (lgui_hline (rx r + 3) (ry r + 3) (rwidth r - 6) (rheight r - 6) (c_red c) (c_green c) (c_blue c) (c_alpha c))
  end.
(** [wr->render]; a style whose boxes are drawn by entries or check boxes never ends. *)
Fixpoint render (fuel : nat) (wr : renderer) (s w dobj : oloc) : SM () :=
  match fuel with
  | O => no_fuel
  | S fuel =>
      let draw_box :=
        iwr ← on_ui (style_getRenderer (Some s) (Some w) EMO_FIELD_BOX_RENDERER);
        match iwr with None => mret () | Some iwr => render fuel iwr s w dobj end in
      match wr with
      | R_box => box_renderer s w
      | R_label => string_renderer s w dobj
      | R_text => text_renderer s w dobj
      | R_image => image_renderer s w dobj
      | R_scrolled => scrolled_renderer w
      | R_scrollbar => scrollbar_renderer s w dobj
      | R_entry => r ← on_ui (own_rect w); draw_box;; entry_contents s w r
      | R_checkbox => r ← on_ui (own_rect w); draw_box;; check_mark s w r
      end
  end.
Definition post_render (wr : option renderer) (w : oloc) : SM () :=
  match wr with Some R_scrolled => scrolled_postrenderer w | _ => mret () end.

(** ** The walk *)
Definition visible (w : oloc) : SM bool :=
  box ← on_ui (widget_getBox (Some w));
  '(tx, ty) ← draw lgui_get_translate;
  r ← draw (lgui_clip_rect (mkRect (rx box + tx) (ry box + ty) (rwidth box) (rheight box)));
  mret (bool_decide (is_Some r)).
(** The renderer that was used, if the widget was dirty. *)
Definition render_dirty (style w : oloc) : SM (option renderer) :=
  isDirty ← on_ui (in_world (dataobject_isDirty (Some w)));
  if isDirty =? 0 then mret None else
  dobj ← on_ui (data_of w);
  wr ← on_ui (style_getRenderer (Some style) (Some w) EMO_FIELD_RENDERER);
  match wr with None => mret () | Some r => render 2 r style w dobj end;;
  on_ui (in_world (dataobject_setClean (Some w)));;
  mret wr.
Definition child_style (s style : oloc) (wentUp : bool) : UM oloc :=
  if wentUp then mret s else
  count ← in_world (dataobject_getChildCount (Some style)); mret (if count =? 0 then s else style).
(** The application a reference leads into, and the style for it. *)
Definition reference_style (w : oloc) : UM (option (oloc * oloc)) :=
  t ← reference_target w;
  match t with
  | None => mret None
  | Some child =>
      root ← in_world (dataobject_superparent (Some child));
      app ← manager_applicationForDataObject (Some root);
      match app with None => mret None | Some a => style ← app_style a; mret (Some (child, style)) end
  end.
Fixpoint renderWidgetTree_loop (fuel : nat) (s w : oloc) : SM () :=
  match fuel with
  | O => no_fuel
  | S fuel =>
      shown ← visible w;
      if negb (shown : bool) then mret () else
      type ← on_ui (getField w EMO_FIELD_TYPE);
      match type with
      | None => mret ()
      | Some f =>
          hasFocus ← on_ui (widget_hasFocusOrParent (Some w));
          id ← on_ui (widget_getID (Some w));
          tp ← on_ui (in_fields (get_string f));
          '(style, wentUp) ← on_ui (style_getID (Some s) (Some tp) id (int_of_bool hasFocus));
          childStyle ← on_ui (child_style s style wentUp);
          wr ← render_dirty style w;
          set ← on_ui (is_type type EMO_TYPE_SET);
          if set : bool then
            (single ← on_ui (setwidget_activeItem (Some w));
             match single with Some c => renderWidgetTree_loop fuel childStyle c | None => mret () end)
          else
          frame ← on_ui (is_type type EMO_TYPE_FRAME);
          reference ← on_ui (is_type type EMO_TYPE_REFERENCE);
          (if frame : bool then
             t ← on_ui (frame_screen w);
             match t with
             | Some (c, a) => style ← on_ui (app_style a); renderWidgetTree_loop fuel style c
             | None => mret ()
             end
           else if reference : bool then
             t ← on_ui (reference_style w);
             match t with Some (c, style) => renderWidgetTree_loop fuel style c | None => mret () end
           else
             cs ← on_ui (children_of w); mfor (renderWidgetTree_loop fuel childStyle) cs);;
          post_render wr w
      end
  end.
Definition style_renderWidgetTree (s w : option oloc) : SM () :=
  s ← emo_nonnull s; w ← emo_nonnull w; sc ← get; renderWidgetTree_loop (S (ui_fuel (sc_ui sc))) s w.
End Drawing.
