(* ===== verification/DrawingRules.v ===== *)
(** * Properties of drawing

    Whatever the widgets, styles and texts are, drawing a tree changes the framebuffer
    only where [Clipping.spill] allows it for the clip in force at the start; the
    scrolled widgets below only narrow it. *)
From S2P Require Import Prelude Lists Maps Pixels Lgui BitmapCache CStrings Utf8 Text Arrays Frames Clipping.
From S2P Require Import FieldNames Fields DataObjects Ui Modify Focus Styles Layout Drawing.

Section Drawing.
Context {St : Type} `{MapStore St Bitmap}.
Context (ft : Z → bool → option ft_glyph) (defaultFont : option Z) (defaultGradient : option (list GradientStop)).
Context (cos_radius : Z → Z → Z) (junk : junk_values).
Context (C : Rectangle).
Abbreviation display := (display (St := St)).

(** ** Texts *)
Definition text_confined : relation (text_state (St := St)) := λ t t', confined C (t_gui t) (t_gui t').
#[export] Instance text_confined_preorder : PreOrder text_confined.
Proof. split; unfold text_confined; [by intros t|intros t t' t'' H1 H2; by etrans]. Qed.
Abbreviation tok := (respects text_confined).
Lemma tok_gui {B} (m : GM B) : respects (confined C) m → tok (on_gui m).
Proof.
  intros Hm t b t' E. unfold on_gui in E. destruct (m (t_gui t)) as [[b' g]| | |] eqn:Em; [|done..].
  injection E as <- <-. by eapply Hm.
Qed.
Lemma tok_cache {B} (m : M (BitmapCache (St := St)) B) : tok (on_cache m).
Proof.
  intros t b t' E. unfold on_cache in E. destruct (m (t_cache t)) as [[b' c]| | |]; [|done..].
  injection E as <- <-. unfold text_confined. done.
Qed.
Lemma ok_CLIP : respects (confined C) CLIP.
Proof. apply respects_pure; [exact _|]. by intros s c s' (-> & _)%CLIP_inv. Qed.
Lemma ok_get_translate : respects (confined C) lgui_get_translate.
Proof. apply respects_gets. exact _. Qed.
Lemma ok_clip_rect r : respects (confined C) (lgui_clip_rect r).
Proof. unfold lgui_clip_rect. apply respects_bind; [exact _|apply ok_CLIP|]. intros. apply respects_ret. exact _. Qed.
#[local] Hint Resolve tok_gui tok_cache ok_CLIP ok_get_translate ok_clip_rect : respects.

Lemma tok_getGlyph u bold : tok (font_getGlyph ft u bold).
Proof. unfold font_getGlyph. respects. Qed.
Lemma tok_char s p : tok (char s p).
Proof. unfold char. respects. Qed.
Lemma tok_utf32 s p : tok (utf32 s p).
Proof. unfold utf32. respects. Qed.
#[local] Hint Resolve tok_getGlyph tok_char tok_utf32 : respects.
Lemma tok_get_glyph v bold m : tok (get_glyph ft v bold m).
Proof. unfold get_glyph. respects. Qed.
Lemma tok_draw_glyph x y fh data m c it : tok (draw_glyph x y fh data m c it).
Proof. unfold draw_glyph, glyph_image. respects. Qed.
Lemma tok_visible x y fh m : tok (glyph_visible x y fh m).
Proof. unfold glyph_visible. respects. Qed.
#[local] Hint Resolve tok_get_glyph tok_draw_glyph tok_visible : respects.
Lemma tok_draw_font_loop fuel s p x y mw mh fh c bold m : tok (draw_font_loop ft fuel s p x y mw mh fh c bold m).
Proof. revert p x y m. induction fuel as [|fuel IH]; intros; cbn [draw_font_loop]; respects. Qed.
#[local] Hint Resolve tok_draw_font_loop : respects.
Lemma tok_draw_font x y mw mh t f c bold : tok (lgui_draw_font ft x y mw mh t f c bold).
Proof. unfold lgui_draw_font. respects. Qed.
Lemma tok_measure_font_loop fuel s p bold w m : tok (measure_font_loop ft fuel s p bold w m).
Proof. revert p w m. induction fuel as [|fuel IH]; intros; cbn [measure_font_loop]; respects. Qed.
#[local] Hint Resolve tok_measure_font_loop : respects.
Lemma tok_measure_font t f bold : tok (lgui_measure_font ft t f bold).
Proof. unfold lgui_measure_font. respects. Qed.
Lemma tok_skip_escapes fuel s p e : tok (skip_escapes fuel s p e).
Proof. revert p e. induction fuel as [|fuel IH]; intros; cbn [skip_escapes]; respects. Qed.
#[local] Hint Resolve tok_skip_escapes : respects.
Lemma tok_maybe_escapes use s p e : tok (maybe_escapes use s p e).
Proof. unfold maybe_escapes. respects. Qed.
#[local] Hint Resolve tok_maybe_escapes : respects.
Lemma tok_skip_to_start n s p use e : tok (skip_to_start n s p use e).
Proof. revert p e. induction n as [|n IH]; intros; cbn [skip_to_start]; respects. Qed.
Lemma tok_text_line_loop fuel s p0 p ls x esc e m : tok (text_line_loop ft fuel s p0 p ls x esc e m).
Proof. revert p ls x e m. induction fuel as [|fuel IH]; intros; cbn [text_line_loop]; respects. Qed.
#[local] Hint Resolve tok_skip_to_start tok_text_line_loop : respects.
Lemma tok_text_line s p x e : tok (lgui_text_line_complex ft s p x e).
Proof. unfold lgui_text_line_complex. respects. Qed.
Lemma tok_complex_glyph x y fh e data m : tok (draw_complex_glyph x y fh e data m).
Proof. unfold draw_complex_glyph. respects. Qed.
#[local] Hint Resolve tok_text_line tok_complex_glyph : respects.
Lemma tok_draw_line_loop fuel s sp pos mw fh ci use want d : tok (draw_line_loop ft fuel s sp pos mw fh ci use want d).
Proof. revert d. induction fuel as [|fuel IH]; intros; cbn [draw_line_loop]; respects. Qed.
#[local] Hint Resolve tok_draw_line_loop : respects.
Lemma tok_draw_lines_loop fuel s x0 mw mh fh ci use want d : tok (draw_lines_loop ft fuel s x0 mw mh fh ci use want d).
Proof. revert d. induction fuel as [|fuel IH]; intros; cbn [draw_lines_loop]; respects. Qed.
Lemma tok_count_end fuel s p use e n : tok (count_end fuel s p use e n).
Proof. revert p e n. induction fuel as [|fuel IH]; intros; cbn [count_end]; respects. Qed.
#[local] Hint Resolve tok_draw_lines_loop tok_count_end : respects.
Lemma tok_complex_draw x y mw mh t f c ci si use want : tok (lgui_complex_draw_font ft x y mw mh t f c ci si use want).
Proof. unfold lgui_complex_draw_font. respects. Qed.

(** ** Renderers *)
Definition screen_confined : relation display := λ s s', text_confined (sc_text s) (sc_text s').
#[export] Instance screen_confined_preorder : PreOrder screen_confined.
Proof. split; unfold screen_confined; [by intros s|intros s s' s'' H1 H2; by etrans]. Qed.
Abbreviation sok := (respects screen_confined).
Lemma sok_ui {B} (m : UM B) : sok (on_ui m).
Proof.
  intros s b s' E. unfold on_ui in E. destruct (m (sc_ui s)) as [[b' u]| | |]; [|done..].
  injection E as <- <-. unfold screen_confined. done.
Qed.
Lemma sok_text {B} (m : M (text_state (St := St)) B) : tok m → sok (on_text m).
Proof.
  intros Hm s b s' E. unfold on_text in E. destruct (m (sc_text s)) as [[b' t]| | |] eqn:Em; [|done..].
  injection E as <- <-. by eapply Hm.
Qed.
Lemma sok_draw {B} (m : GM B) : respects (confined C) m → sok (draw m).
Proof. intros Hm. by apply sok_text, tok_gui. Qed.
#[local] Hint Resolve sok_ui sok_text sok_draw tok_draw_font tok_measure_font tok_complex_draw : respects.
#[local] Hint Resolve confined_hline confined_vline : respects.

Lemma sok_box_renderer s w : sok (box_renderer defaultGradient cos_radius s w).
Proof. unfold box_renderer, fill_gradient, fill_solid, outline_box. respects. Qed.
Lemma sok_string_renderer s w d : sok (string_renderer ft defaultFont junk s w d).
Proof. unfold string_renderer. respects. Qed.
Lemma sok_text_renderer s w d : sok (text_renderer ft defaultFont s w d).
Proof. unfold text_renderer. respects. Qed.
Lemma sok_image_renderer s w d : sok (image_renderer s w d).
Proof. unfold image_renderer. respects. Qed.
Lemma sok_scrollbar_renderer s w d : sok (scrollbar_renderer s w d).
Proof. unfold scrollbar_renderer. respects. Qed.
Lemma sok_scrolled_renderer w : sok (scrolled_renderer w).
Proof. unfold scrolled_renderer, scroll_offset. respects. Qed.
Lemma sok_post_render wr w : sok (post_render wr w).
Proof. unfold post_render, scrolled_postrenderer, scroll_offset. respects. Qed.
Lemma sok_entry_contents s w r : sok (entry_contents ft defaultFont junk s w r).
Proof. unfold entry_contents, line_bar. respects. Qed.
Lemma sok_check_mark s w r : sok (check_mark s w r).
Proof. unfold check_mark. respects. Qed.
#[local] Hint Resolve sok_box_renderer sok_string_renderer sok_text_renderer sok_image_renderer sok_scrollbar_renderer
  sok_scrolled_renderer sok_post_render sok_entry_contents sok_check_mark : respects.
Lemma sok_render fuel wr s w d : sok (render ft defaultFont defaultGradient cos_radius junk fuel wr s w d).
Proof. revert wr. induction fuel as [|fuel IH]; intros; cbn [render]; respects. Qed.
#[local] Hint Resolve sok_render : respects.

(** ** The walk *)
Lemma sok_visible w : sok (visible w).
Proof. unfold visible. respects. Qed.
Lemma sok_render_dirty style w : sok (render_dirty ft defaultFont defaultGradient cos_radius junk style w).
Proof. unfold render_dirty. respects. Qed.
#[local] Hint Resolve sok_visible sok_render_dirty : respects.
Lemma sok_renderWidgetTree_loop fuel s w :
  sok (renderWidgetTree_loop ft defaultFont defaultGradient cos_radius junk fuel s w).
Proof. revert s w. induction fuel as [|fuel IH]; intros; cbn [renderWidgetTree_loop]; respects. Qed.
#[local] Hint Resolve sok_renderWidgetTree_loop : respects.
Lemma sok_renderWidgetTree s w : sok (style_renderWidgetTree ft defaultFont defaultGradient cos_radius junk s w).
Proof. unfold style_renderWidgetTree. respects. Qed.
End Drawing.
