(* ===== verification/Mime.v ===== *)
(** * Mime.c: pictures

    A picture in PNG format is decoded by libpng into rows of 8-bit components and
    converted to a format the renderer draws.  [png] is what libpng makes of the bytes
    of a file, after palettes and transparency were expanded. *)
From S2P Require Import Prelude Pixels Lgui CStrings Arrays FieldNames Fields DataObjects Ui Drawing.

(** The formats of Color.h that are not drawn. *)
Definition RGB : Z := 1.
Definition RGBA : Z := 2.
Definition A8 : Z := 3.
Definition A8A8 : Z := 6.

(** ** imageConvert *)
(** The next bytes of the input; there may be none left. *)
Definition next_byte (src : list Z) : option (Z * list Z) :=
  match src with b :: src => Some (b, src) | [] => None end.
Definition skip_alpha (two : bool) (src : list Z) : option (list Z) :=
  if two then snd <$> next_byte src else Some src.
(** Two grey pixels to a byte: [n] rounds of the loop. *)
Fixpoint convert_grey (n : nat) (two : bool) (src : list Z) : option (list Z) :=
  match n with
  | O => Some []
  | S n =>
      '(hi, src) ← next_byte src; src ← skip_alpha two src;
      '(lo, src) ← next_byte src; src ← skip_alpha two src;
      out ← convert_grey n two src;
      Some (Z.lor (Z.land hi 0xF0) (Z.shiftr lo 4) :: out)
  end.
Definition short_bytes (pixel : Z) : list Z := [Z.land pixel 0xFF; Z.land (Z.shiftr pixel 8) 0xFF].
Definition next_pixel (alpha : bool) (src : list Z) : option (Z * Z * list Z) :=
  '(r, src) ← next_byte src; '(g, src) ← next_byte src; '(b, src) ← next_byte src;
  if alpha then '(a, src) ← next_byte src; Some (uint16 (RGB_TO_565 r g b), a, src)
  else Some (uint16 (RGB_TO_565 r g b), 255, src).
Fixpoint convert_color (n : nat) (inAlpha outAlpha : bool) (src : list Z) : option (list Z) :=
  match n with
  | O => Some []
  | S n =>
      '(pixel, alpha, src) ← next_pixel inAlpha src;
      out ← convert_color n inAlpha outAlpha src;
      Some ((if outAlpha then short_bytes pixel ++ [alpha] else short_bytes pixel) ++ out)
  end.
(** The output has [outSize] bytes, of which the loops write the first ones. *)
Definition outSize_of (outputFormat pixels : Z) : option Z :=
  if outputFormat =? A4 then Some (Z.quot (pixels + 1) 2)
  else if outputFormat =? RGB565 then Some (pixels * 2)
  else if outputFormat =? RGB565A8 then Some (pixels * 3)
  else None.
(** [None] when the C function returns NULL; the second component is [*outSize]. *)
Definition imageConvert {S} (input : list Z) (inputFormat outputFormat width height : Z) : M S (option (list Z * Z)) :=
  let upper := width * height in
  match outSize_of outputFormat upper with
  | None => mret None
  | Some outSize =>
      if outputFormat =? A4 then
        if (inputFormat =? A8) || (inputFormat =? A8A8)
        then out ← deref (convert_grey (Z.to_nat outSize) (inputFormat =? A8A8) input); mret (Some (out, outSize))
        else mret None
      else if (inputFormat =? RGB) || (inputFormat =? RGBA)
      then out ← deref (convert_color (Z.to_nat upper) (inputFormat =? RGBA) (outputFormat =? RGB565A8) input);
           mret (Some (out, outSize))
      else if 0 <? upper then mret None else mret (Some ([], outSize))
  end.

(** ** mime_load *)
(** The color types of PNG. *)
Inductive png_color := PNG_GRAY | PNG_GRAY_ALPHA | PNG_RGB | PNG_RGB_ALPHA | PNG_PALETTE (tRNS : bool).
Record png_image := mkPng {
  png_width : Z;
  png_height : Z;
  png_bitDepth : Z;
  png_colorType : png_color;
  png_rows : list Z }.
Definition png_formats (c : png_color) : Z * Z :=
  match c with
  | PNG_GRAY => (A8, A4)
  | PNG_GRAY_ALPHA => (A8A8, A4)
  | PNG_RGB | PNG_PALETTE false => (RGB, RGB565)
  | PNG_RGB_ALPHA | PNG_PALETTE true => (RGBA, RGB565A8)
  end.
Section Mime.
(** No picture for a wrong signature and for the color types that are not supported;
    an error in the picture ends the program. *)
Inductive png_result := PNG_none | PNG_error | PNG_image (i : png_image).
Variable png : list Z → png_result.

(** The size and the format, and the converted picture in the place of the file. *)
Definition store_png (d : oloc) (i : png_image) : UM Z :=
  if 8 <? png_bitDepth i then mret 0 else
  let '(inputFormat, outputFormat) := png_formats (png_colorType i) in
  let width := int32 (png_width i) in
  let height := int32 (png_height i) in
  w ← new_int width; setField d EMO_FIELD_WIDTH w;;
  h ← new_int height; setField d EMO_FIELD_HEIGHT h;;
  p ← new_int outputFormat; setField d EMO_FIELD_PIXELFORMAT p;;
  converted ← imageConvert (png_rows i) inputFormat outputFormat width height;
  v ← in_fields (dataobjectfield_data (fst <$> converted) (from_option snd 0 converted));
  in_fields (dataobjectfield_setIsDerived (Some v) true);;
  setField d EMO_FIELD_DATA v;;
  mret 1.
Definition load_png (d : oloc) : UM Z :=
  data ← getField d EMO_FIELD_DATA;
  match data with
  | None => mret 0
  | Some f =>
      c ← in_fields (get_field f);
      match f_value c with
      | DOF_DATA bytes _ =>
          match png bytes with
          | PNG_none => mret 0
          | PNG_error => emo_assert false;; mret 0
          | PNG_image i => store_png d i
          end
      | _ => mret 0
      end
  end.
(** The name of the type is compared whatever the field holds. *)
Definition mime_load (d : option oloc) : UM Z :=
  d ← emo_nonnull d;
  mimeType ← getField d EMO_FIELD_MIMETYPE;
  match mimeType with
  | None => mret 0
  | Some f =>
      p ← in_fields (get_string f); s ← deref (str_content p);
      if bool_decide (s = lit "png") then load_png d else mret 0
  end.
Fixpoint mime_loadAll_loop (fuel : nat) (d : oloc) : UM () :=
  match fuel with
  | O => no_fuel
  | S fuel =>
      _ ← mime_load (Some d);
      cs ← children_of d; mfor (mime_loadAll_loop fuel) cs
  end.
Definition mime_loadAll (d : option oloc) : UM () :=
  d ← emo_nonnull d; u ← get; mime_loadAll_loop (ui_fuel u) d.
End Mime.
