(* ===== verification/MimeRules.v ===== *)
(** * Properties of the conversion of pictures

    A colored picture that is converted and drawn shows its colors; a grey one does so
    only when its width is even, since the rows are packed without the padding the
    renderer expects. *)
From S2P Require Import Prelude Pixels Lgui CStrings Arrays FieldNames Fields DataObjects Ui Drawing Mime.

Definition byte (z : Z) : Prop := 0 ≤ z < 256.
(** A component of a picture. *)
Definition component (rows : list Z) (j : Z) : Z := default 0 (read_byte rows j).

Lemma RGB_TO_565_range r g b : byte r → byte g → byte b → 0 ≤ RGB_TO_565 r g b < 2 ^ 16.
Proof.
  unfold byte. intros. rewrite RGB_TO_565_channels by done. change (2 ^ 16) with 65536.
  apply pack565_range; Z.div_mod_to_equations; lia.
Qed.
Lemma short_bytes_value p : 0 ≤ p < 2 ^ 16 → Z.land p 0xFF + Z.land (Z.shiftr p 8) 0xFF * 256 = p.
Proof.
  intros Hp. change 0xFF with (Z.ones 8). rewrite !Z.land_ones, Z.shiftr_div_pow2 by done.
  change (2 ^ 8) with 256. change (2 ^ 16) with 65536 in Hp. Z.div_mod_to_equations. lia.
Qed.
Lemma read_short_pos out i lo hi : 0 ≤ i → out !! Z.to_nat i = Some lo → out !! Z.to_nat (i + 1) = Some hi →
  read_short out i = Some (lo + hi * 256).
Proof.
  intros Hi Hlo Hhi. unfold read_short, read_byte. destruct (Z.ltb_spec i 0); [lia|].
  destruct (Z.ltb_spec (i + 1) 0); [lia|]. by rewrite Hlo, Hhi.
Qed.
Lemma component_nat rows (j : nat) v : rows !! j = Some v → component rows (Z.of_nat j) = v.
Proof. intros H. unfold component, read_byte. destruct (Z.ltb_spec (Z.of_nat j) 0); [lia|]. by rewrite Nat2Z.id, H. Qed.

(** ** Colors *)
Lemma convert_rgb n src : (3 * n ≤ length src)%nat → ∃ out, convert_color n false false src = Some out ∧
  length out = (2 * n)%nat ∧ ∀ i : nat, (i < n)%nat → ∃ r g b, src !! (3 * i)%nat = Some r ∧ src !! (3 * i + 1)%nat = Some g ∧
    src !! (3 * i + 2)%nat = Some b ∧ let p := uint16 (RGB_TO_565 r g b) in
    out !! (2 * i)%nat = Some (Z.land p 0xFF) ∧ out !! (2 * i + 1)%nat = Some (Z.land (Z.shiftr p 8) 0xFF).
Proof.
  revert src. induction n as [|n IH]; intros src Hlen; [exists []; split; [done|]; split; [done|lia]|].
  destruct src as [|r [|g [|b src]]]; cbn [length] in Hlen; try lia.
  destruct (IH src) as (out & E & Hl & Hout); [lia|].
  exists (short_bytes (uint16 (RGB_TO_565 r g b)) ++ out). cbn [convert_color next_pixel next_byte mbind option_bind].
  rewrite E. split; [done|]. split; [rewrite length_app, Hl; cbn; lia|]. intros [|i] Hi.
  - exists r, g, b. done.
  - destruct (Hout i) as (r' & g' & b' & ? & ? & ? & ? & ?); [lia|]. exists r', g', b'.
    replace (3 * S i)%nat with (S (S (S (3 * i)))) by lia. replace (2 * S i)%nat with (S (S (2 * i))) by lia. done.
Qed.
Lemma imageConvert_rgb {S} rows w h (s : S) :
  0 ≤ w → 0 ≤ h → Z.of_nat (length rows) = 3 * w * h → Forall byte rows →
  ∃ out, imageConvert rows RGB RGB565 w h s = Ok (Some (out, 2 * w * h), s) ∧ Z.of_nat (length out) = 2 * w * h ∧
    ∀ i, 0 ≤ i < w * h →
      read_short out (2 * i) = Some (RGB_TO_565 (component rows (3 * i)) (component rows (3 * i + 1)) (component rows (3 * i + 2))).
Proof.
  intros Hw Hh Hlen Hb. destruct (convert_rgb (Z.to_nat (w * h)) rows) as (out & E & Hl & Hout); [lia|].
  exists out. split.
  - unfold imageConvert. cbn [outSize_of Z.eqb A4 RGB565 RGB RGBA RGB565A8 Pos.eqb orb].
    change (0 =? 4) with false. change (0 =? 5) with false. change (1 =? 2) with false. cbn [orb].
    rewrite E. erewrite bind_Ok by reflexivity. by replace (w * h * 2) with (2 * w * h) by lia.
  - split; [lia|]. intros i Hi. destruct (Hout (Z.to_nat i)) as (r & g & b & Hr & Hg & Hbl & H1 & H2); [lia|].
    assert (component rows (3 * i) = r) as -> by (replace (3 * i) with (Z.of_nat (3 * Z.to_nat i)) by lia; by apply component_nat).
    assert (component rows (3 * i + 1) = g) as -> by (replace (3 * i + 1) with (Z.of_nat (3 * Z.to_nat i + 1)) by lia; by apply component_nat).
    assert (component rows (3 * i + 2) = b) as -> by (replace (3 * i + 2) with (Z.of_nat (3 * Z.to_nat i + 2)) by lia; by apply component_nat).
    rewrite Forall_lookup in Hb. pose proof (RGB_TO_565_range r g b (Hb _ _ Hr) (Hb _ _ Hg) (Hb _ _ Hbl)) as Hp.
    rewrite uint16_small in H1, H2 by done.
    rewrite (read_short_pos out (2 * i) _ _ ltac:(lia)
      ltac:(replace (Z.to_nat (2 * i)) with (2 * Z.to_nat i)%nat by lia; exact H1)
      ltac:(replace (Z.to_nat (2 * i + 1)) with (2 * Z.to_nat i + 1)%nat by lia; exact H2)). by rewrite short_bytes_value.
Qed.

(** C33: a picture of red, green and blue bytes that is converted and drawn shows, at every
    visible pixel of its rectangle and nowhere else, the 16-bit color of its three bytes;
    neither step reads or writes outside its buffers. *)
Theorem picture_is_shown s c rows w h destx desty :
  CLIP s = Ok (c, s) → clip_on_screen c → 0 ≤ w → 0 ≤ h → Z.of_nat (length rows) = 3 * w * h → Forall byte rows →
  let r := mkRect (destx + translate_x s) (desty + translate_y s) w h in
  ∃ out s', imageConvert rows RGB RGB565 w h s = Ok (Some (out, 2 * w * h), s) ∧
    lgui_blitRGB565 destx desty 0 0 w h w out false 0xFF s = Ok ((), s') ∧
    paints s s' r c (λ x y _, let i := (y - ry r) * w + (x - rx r) in
      RGB_TO_565 (component rows (3 * i)) (component rows (3 * i + 1)) (component rows (3 * i + 2))).
Proof.
  intros HC Hc Hw Hh Hlen Hb r. destruct (imageConvert_rgb rows w h s Hw Hh Hlen Hb) as (out & E & Hl & Hout).
  exists out. unfold lgui_blitRGB565.
  assert (∀ x y, in_rect r x y → read_short out (0 + (0 + (y - ry r)) * w * 2 + 2 * (x - rx r)) =
    Some (RGB_TO_565 (component rows (3 * ((y - ry r) * w + (x - rx r)))) (component rows (3 * ((y - ry r) * w + (x - rx r)) + 1))
            (component rows (3 * ((y - ry r) * w + (x - rx r)) + 2)))) as Hread.
  { intros x y [Hx Hy]. change (rwidth r) with w in Hx. change (rheight r) with h in Hy.
    replace (0 + (0 + (y - ry r)) * w * 2 + 2 * (x - rx r)) with (2 * ((y - ry r) * w + (x - rx r))) by lia. apply Hout. nia. }
  edestruct (clipped_paints r) as (s' & E' & Hp); [exact HC|exact Hc| |exists s'; split; [exact E|split; [exact E'|]]].
  - intros x y old Hx _. cbv beta zeta. rewrite (Hread x y Hx). by eexists.
  - eapply paints_ext; [|exact Hp]. intros x y old Hx _. cbv beta zeta. by rewrite (Hread x y Hx).
Qed.

(** ** Grey *)
Lemma convert_grey_ok n src : (2 * n ≤ length src)%nat → ∃ out, convert_grey n false src = Some out ∧ length out = n ∧
  ∀ i : nat, (i < n)%nat → ∃ hi lo, src !! (2 * i)%nat = Some hi ∧ src !! (2 * i + 1)%nat = Some lo ∧
    out !! i = Some (Z.lor (Z.land hi 0xF0) (Z.shiftr lo 4)).
Proof.
  revert src. induction n as [|n IH]; intros src Hlen; [exists []; split; [done|]; split; [done|lia]|].
  destruct src as [|hi [|lo src]]; cbn [length] in Hlen; try lia.
  destruct (IH src) as (out & E & Hl & Hout); [lia|].
  exists (Z.lor (Z.land hi 0xF0) (Z.shiftr lo 4) :: out). cbn [convert_grey next_byte skip_alpha mbind option_bind].
  rewrite E. split; [done|]. split; [cbn; lia|]. intros [|i] Hi; [by exists hi, lo|].
  destruct (Hout i) as (hi' & lo' & ? & ? & ?); [lia|]. exists hi', lo'.
  by replace (2 * S i)%nat with (S (S (2 * i))) by lia.
Qed.
Lemma convert_grey_short n src : (length src < 2 * n)%nat → convert_grey n false src = None.
Proof.
  revert src. induction n as [|n IH]; intros src Hlen; [lia|].
  destruct src as [|hi [|lo src]]; [done..|]. cbn [length] in Hlen.
  cbn [convert_grey next_byte skip_alpha mbind option_bind]. rewrite IH by lia. done.
Qed.
Lemma imageConvert_grey {S} rows w h (s : S) :
  0 ≤ w * h → imageConvert rows A8 A4 w h s =
    match convert_grey (Z.to_nat ((w * h + 1) / 2)) false rows with
    | Some out => Ok (Some (out, (w * h + 1) / 2), s) | None => Fault
    end.
Proof.
  intros H. unfold imageConvert. change (outSize_of A4 (w * h)) with (Some (Z.quot (w * h + 1) 2)).
  rewrite Z.quot_div_nonneg by lia. change (A4 =? A4) with true. change (A8 =? A8) with true. change (A8 =? A8A8) with false. cbn [orb].
  by destruct (convert_grey _ false rows).
Qed.
Lemma nibbles hi lo : byte hi → byte lo →
  Z.land (Z.lor (Z.land hi 0xF0) (Z.shiftr lo 4)) 0xF0 = Z.land hi 0xF0 ∧
  Z.land (Z.shiftl (Z.lor (Z.land hi 0xF0) (Z.shiftr lo 4)) 4) 0xF0 = Z.land lo 0xF0.
Proof.
  intros H1 H2.
  assert (Forall (λ hi, Forall (λ lo,
    Z.land (Z.lor (Z.land hi 0xF0) (Z.shiftr lo 4)) 0xF0 = Z.land hi 0xF0 ∧
    Z.land (Z.shiftl (Z.lor (Z.land hi 0xF0) (Z.shiftr lo 4)) 4) 0xF0 = Z.land lo 0xF0) (seqZ 0 256)) (seqZ 0 256)) as H.
  { apply (bool_decide_unpack _). vm_compute. reflexivity. }
  rewrite Forall_forall in H. specialize (H hi). rewrite elem_of_seqZ, Forall_forall in H. unfold byte in *.
  apply H; [lia|]. apply elem_of_seqZ. lia.
Qed.

(** A grey picture of even width is drawn with the upper four bits of each of its
    bytes.  With an odd number of pixels the conversion reads behind the picture, and with
    an odd width and an even number of rows the converted picture is too short: the
    renderer, for which every row starts with a new byte, reads behind it. *)
Theorem grey_picture_needs_even_width {S} rows w h (s : S) :
  0 < w → 0 < h → Z.of_nat (length rows) = w * h → Forall byte rows →
  (Z.even w = true → ∃ out, imageConvert rows A8 A4 w h s = Ok (Some (out, (w * h + 1) / 2), s) ∧
     ∀ line col, 0 ≤ line < h → 0 ≤ col < w → a4_nibble out w line col = Z.land (component rows (line * w + col)) 0xF0) ∧
  (Z.even (w * h) = false → imageConvert rows A8 A4 w h s = Fault) ∧
  (Z.even w = false → Z.even h = true → ∃ out, imageConvert rows A8 A4 w h s = Ok (Some (out, (w * h + 1) / 2), s) ∧
     read_byte out ((h - 1) * Z.shiftr (w + 1) 1 + (w - 1) / 2) = None).
Proof.
  intros Hw Hh Hlen Hb. rewrite imageConvert_grey by lia. split; [|split].
  - intros [k ->]%Z.even_spec. destruct (convert_grey_ok (Z.to_nat ((2 * k * h + 1) / 2)) rows) as (out & -> & Hl & Hout);
      [Z.div_mod_to_equations; lia|].
    exists out. split; [done|]. intros line col Hli Hco. unfold a4_nibble.
    set (i := Z.to_nat (line * k + col / 2)).
    assert (0 ≤ line * k + col / 2 < (2 * k * h + 1) / 2) as Hi.
    { assert (0 ≤ col / 2 < k) by (Z.div_mod_to_equations; lia). replace ((2 * k * h + 1) / 2) with (k * h) by (Z.div_mod_to_equations; lia). nia. }
    destruct (Hout i) as (hi & lo & H1 & H2 & H3); [lia|].
    assert (read_byte out (line * Z.shiftr (2 * k + 1) 1 + col / 2) = out !! i) as ->.
    { rewrite Z.shiftr_div_pow2 by done. replace ((2 * k + 1) / 2 ^ 1) with k by (change (2 ^ 1) with 2; Z.div_mod_to_equations; lia).
      unfold read_byte. destruct (Z.ltb_spec (line * k + col / 2) 0); [lia|done]. }
    rewrite H3. cbn [from_option id]. rewrite Forall_lookup in Hb.
    destruct (nibbles hi lo (Hb _ _ H1) (Hb _ _ H2)) as [N1 N2]. destruct (Z.even col) eqn:He.
    + rewrite N1. f_equal. rewrite <-(component_nat _ _ _ H1). f_equal. apply Z.even_spec in He as [c ->].
      unfold i. Z.div_mod_to_equations. lia.
    + rewrite N2. f_equal. rewrite <-(component_nat _ _ _ H2). f_equal.
      assert (Z.odd col = true) as [c ->]%Z.odd_spec by by rewrite <-Z.negb_even, He. unfold i. Z.div_mod_to_equations. lia.
  - intros He. rewrite convert_grey_short; [done|].
    assert (Z.odd (w * h) = true) as [c Hc]%Z.odd_spec by by rewrite <-Z.negb_even, He. Z.div_mod_to_equations. lia.
  - intros Hew [k ->]%Z.even_spec.
    assert (Z.odd w = true) as [c ->]%Z.odd_spec by by rewrite <-Z.negb_even, Hew.
    destruct (convert_grey_ok (Z.to_nat (((2 * c + 1) * (2 * k) + 1) / 2)) rows) as (out & -> & Hl & _);
      [Z.div_mod_to_equations; lia|].
    exists out. split; [done|]. rewrite Z.shiftr_div_pow2 by done. change (2 ^ 1) with 2.
    replace ((2 * c + 1 + 1) / 2) with (c + 1) by (Z.div_mod_to_equations; lia).
    replace ((2 * c + 1 - 1) / 2) with c by (Z.div_mod_to_equations; lia).
    replace (((2 * c + 1) * (2 * k) + 1) / 2) with ((2 * c + 1) * k) in Hl by (Z.div_mod_to_equations; lia).
    unfold read_byte. destruct (Z.ltb_spec ((2 * k - 1) * (c + 1) + c) 0); [nia|].
    apply lookup_ge_None. rewrite Hl. assert ((2 * c + 1) * k ≤ (2 * k - 1) * (c + 1) + c) by nia. lia.
Qed.

(** ** Instances: a picture of two red and blue pixels, and one of 3 by 2 grey ones *)
Lemma picture_is_shown_witness :
  ∃ out s', imageConvert [255; 0; 0; 0; 0; 255] RGB RGB565 2 1 (gui_with 0 screen) = Ok (Some (out, 4), gui_with 0 screen) ∧
    lgui_blitRGB565 10 10 0 0 2 1 2 out false 0xFF (gui_with 0 screen) = Ok ((), s') ∧
    pixel_at s' 10 10 = 0xF800 ∧ pixel_at s' 11 10 = 0x1F.
Proof.
  destruct (picture_is_shown (gui_with 0 screen) screen [255; 0; 0; 0; 0; 255] 2 1 10 10 eq_refl) as (out & s' & E1 & E2 & _ & H);
    [split; reflexivity || (cbn; unfold LGUI_WIDTH; lia)|lia|lia|reflexivity|repeat constructor; unfold byte; lia|].
  exists out, s'. split; [exact E1|]. split; [exact E2|].
  rewrite !H by (unfold LGUI_WIDTH, LGUI_HEIGHT; lia). split; reflexivity.
Defined.
Lemma grey_picture_needs_even_width_witness :
  ∃ out, imageConvert (S := ()) [10; 20; 30; 40; 50; 60] A8 A4 3 2 () = Ok (Some (out, 3), ()) ∧
    read_byte out (1 * Z.shiftr 4 1 + 1) = None.
Proof.
  apply (grey_picture_needs_even_width (S := ()) [10; 20; 30; 40; 50; 60] 3 2 ()); try reflexivity.
  repeat constructor; unfold byte; lia.
Defined.
