(* ===== verification/Keys.v ===== *)
(** * KeyMappings.h, KeyMappings.c: the keys of the device

    The keys of the keypad driver and the characters or control codes they stand for. *)
From S2P Require Import Prelude Entry.

Inductive SysKeyIdT :=
  | SYS_KEY_ID_START | SYS_SHIFT | SYS_0_KEY | SYS_1_KEY | SYS_2_KEY | SYS_3_KEY | SYS_4_KEY | SYS_5_KEY
  | SYS_6_KEY | SYS_7_KEY | SYS_8_KEY | SYS_9_KEY | SYS_a_KEY | SYS_b_KEY | SYS_c_KEY | SYS_d_KEY | SYS_e_KEY
  | SYS_f_KEY | SYS_g_KEY | SYS_h_KEY | SYS_i_KEY | SYS_j_KEY | SYS_k_KEY | SYS_l_KEY | SYS_m_KEY | SYS_n_KEY
  | SYS_o_KEY | SYS_p_KEY | SYS_q_KEY | SYS_r_KEY | SYS_s_KEY | SYS_t_KEY | SYS_u_KEY | SYS_v_KEY | SYS_w_KEY
  | SYS_x_KEY | SYS_y_KEY | SYS_z_KEY | SYS_ENTER | SYS_DOT | SYS_AT | SYS_QUOTE | SYS_LOCK | SYS_REDUCE
  | SYS_SPACE | SYS_COMMA | SYS_WHEEL | SYS_CANCEL_KEY | SYS_BACKSPACE | SYS_PWR_KEY | SYS_A_KEY | SYS_B_KEY
  | SYS_C_KEY | SYS_D_KEY | SYS_E_KEY | SYS_F_KEY | SYS_G_KEY | SYS_H_KEY | SYS_I_KEY | SYS_J_KEY | SYS_K_KEY
  | SYS_L_KEY | SYS_M_KEY | SYS_N_KEY | SYS_O_KEY | SYS_P_KEY | SYS_Q_KEY | SYS_R_KEY | SYS_S_KEY | SYS_T_KEY
  | SYS_U_KEY | SYS_V_KEY | SYS_W_KEY | SYS_X_KEY | SYS_Y_KEY | SYS_Z_KEY | SYS_EXCAL_KEY | SYS_QUESTION_KEY
  | SYS_POUND_KEY | SYS_DOLLAR_KEY | SYS_PERCENT_KEY | SYS_SLASH_KEY | SYS_AND_KEY | SYS_STAR_KEY
  | SYS_LEFT_BRACKET_KEY | SYS_RIGHT_BRACKET_KEY | SYS_WHEEL_FORWARD | SYS_WHEEL_BACK | SYS_COLON_KEY
  | SYS_SEMICOLON_KEY | SYS_DOUBLE_QUESTIONMASKS_KEY | SYS_UNDERLINE_KEY | SYS_EQUAL_KEY
  | SYS_WHEEL_FORWARD_SHIFT | SYS_WHEEL_BACK_SHIFT | SYS_WHEEL_SHIFT | SYS_RIGHT_KEY | SYS_LEFT_KEY
  | SYS_UP_KEY | SYS_DOWN_KEY | SYS_SEND_KEY | SYS_END_KEY | SYS_CLR_KEY | SYS_MEM_KEY | SYS_FUNCTION_KEY
  | SYS_SELECT_KEY | SYS_CAMERA_KEY | SYS_RIGHT_SOFT_KEY | SYS_LEFT_SOFT_KEY | SYS_VOLUME_UP_KEY
  | SYS_VOLUME_DOWN_KEY | SYS_HOME_KEY | SYS_BACK_KEY | SYS_EAR_KEY | SYS_SMS_KEY | SYS_PHONEBOOK_KEY
  | SYS_MENU_KEY | SYS_RCL_KEY | SYS_DND_MUTE_KEY | SYS_SPK_KEY | SYS_RECORD_KEY | SYS_MP3_PLAY_KEY
  | SYS_MP3_BACKWARD_KEY | SYS_MP3_FORWARD_KEY | SYS_RESERVED_1_KEY | SYS_RESERVED_2_KEY | SYS_RESERVED_3_KEY
  | SYS_RESERVED_4_KEY | SYS_RESERVED_5_KEY | SYS_SHIFT_SPACE_KEY | SYS_SPECIAL_KEY_ID_START | SYS_FLIP_KEY
  | SYS_HOOK_KEY | SYS_KEY_ID_END.
#[export] Instance SysKeyIdT_eq_dec : EqDecision SysKeyIdT.
Proof. solve_decision. Defined.
(** The numbers of the enumeration. *)
Definition sys_keys : list (SysKeyIdT * Z) :=
  [(SYS_KEY_ID_START, 0); (SYS_SHIFT, 1); (SYS_0_KEY, 2); (SYS_1_KEY, 3); (SYS_2_KEY, 4); (SYS_3_KEY, 5);
   (SYS_4_KEY, 6); (SYS_5_KEY, 7); (SYS_6_KEY, 8); (SYS_7_KEY, 9); (SYS_8_KEY, 10); (SYS_9_KEY, 11);
   (SYS_a_KEY, 12); (SYS_b_KEY, 13); (SYS_c_KEY, 14); (SYS_d_KEY, 15); (SYS_e_KEY, 16); (SYS_f_KEY, 17);
   (SYS_g_KEY, 18); (SYS_h_KEY, 19); (SYS_i_KEY, 20); (SYS_j_KEY, 21); (SYS_k_KEY, 22); (SYS_l_KEY, 23);
   (SYS_m_KEY, 24); (SYS_n_KEY, 25); (SYS_o_KEY, 26); (SYS_p_KEY, 27); (SYS_q_KEY, 28); (SYS_r_KEY, 29);
   (SYS_s_KEY, 30); (SYS_t_KEY, 31); (SYS_u_KEY, 32); (SYS_v_KEY, 33); (SYS_w_KEY, 34); (SYS_x_KEY, 35);
   (SYS_y_KEY, 36); (SYS_z_KEY, 37); (SYS_ENTER, 38); (SYS_DOT, 39); (SYS_AT, 40); (SYS_QUOTE, 41);
   (SYS_LOCK, 42); (SYS_REDUCE, 43); (SYS_SPACE, 44); (SYS_COMMA, 45); (SYS_WHEEL, 46); (SYS_CANCEL_KEY, 47);
   (SYS_BACKSPACE, 48); (SYS_PWR_KEY, 49); (SYS_A_KEY, 50); (SYS_B_KEY, 51); (SYS_C_KEY, 52); (SYS_D_KEY, 53);
   (SYS_E_KEY, 54); (SYS_F_KEY, 55); (SYS_G_KEY, 56); (SYS_H_KEY, 57); (SYS_I_KEY, 58); (SYS_J_KEY, 59);
   (SYS_K_KEY, 60); (SYS_L_KEY, 61); (SYS_M_KEY, 62); (SYS_N_KEY, 63); (SYS_O_KEY, 64); (SYS_P_KEY, 65);
   (SYS_Q_KEY, 66); (SYS_R_KEY, 67); (SYS_S_KEY, 68); (SYS_T_KEY, 69); (SYS_U_KEY, 70); (SYS_V_KEY, 71);
   (SYS_W_KEY, 72); (SYS_X_KEY, 73); (SYS_Y_KEY, 74); (SYS_Z_KEY, 75); (SYS_EXCAL_KEY, 76);
   (SYS_QUESTION_KEY, 77); (SYS_POUND_KEY, 78); (SYS_DOLLAR_KEY, 79); (SYS_PERCENT_KEY, 80);
   (SYS_SLASH_KEY, 81); (SYS_AND_KEY, 82); (SYS_STAR_KEY, 83); (SYS_LEFT_BRACKET_KEY, 84);
   (SYS_RIGHT_BRACKET_KEY, 85); (SYS_WHEEL_FORWARD, 86); (SYS_WHEEL_BACK, 87); (SYS_COLON_KEY, 88);
   (SYS_SEMICOLON_KEY, 89); (SYS_DOUBLE_QUESTIONMASKS_KEY, 90); (SYS_UNDERLINE_KEY, 91); (SYS_EQUAL_KEY, 92);
   (SYS_WHEEL_FORWARD_SHIFT, 93); (SYS_WHEEL_BACK_SHIFT, 94); (SYS_WHEEL_SHIFT, 95); (SYS_RIGHT_KEY, 96);
   (SYS_LEFT_KEY, 97); (SYS_UP_KEY, 98); (SYS_DOWN_KEY, 99); (SYS_SEND_KEY, 100); (SYS_END_KEY, 101);
   (SYS_CLR_KEY, 102); (SYS_MEM_KEY, 103); (SYS_FUNCTION_KEY, 104); (SYS_SELECT_KEY, 105);
   (SYS_CAMERA_KEY, 106); (SYS_RIGHT_SOFT_KEY, 107); (SYS_LEFT_SOFT_KEY, 108); (SYS_VOLUME_UP_KEY, 109);
   (SYS_VOLUME_DOWN_KEY, 110); (SYS_HOME_KEY, 111); (SYS_BACK_KEY, 112); (SYS_EAR_KEY, 113);
   (SYS_SMS_KEY, 114); (SYS_PHONEBOOK_KEY, 115); (SYS_MENU_KEY, 116); (SYS_RCL_KEY, 117);
   (SYS_DND_MUTE_KEY, 118); (SYS_SPK_KEY, 119); (SYS_RECORD_KEY, 120); (SYS_MP3_PLAY_KEY, 121);
   (SYS_MP3_BACKWARD_KEY, 122); (SYS_MP3_FORWARD_KEY, 123); (SYS_RESERVED_1_KEY, 124);
   (SYS_RESERVED_2_KEY, 125); (SYS_RESERVED_3_KEY, 126); (SYS_RESERVED_4_KEY, 127); (SYS_RESERVED_5_KEY, 128);
   (SYS_SHIFT_SPACE_KEY, 129); (SYS_SPECIAL_KEY_ID_START, 128); (SYS_FLIP_KEY, 128); (SYS_HOOK_KEY, 129);
   (SYS_KEY_ID_END, 128)].
(** The switch, in its order. *)
Definition key_table : list (SysKeyIdT * Z) :=
  [(SYS_0_KEY, 48); (SYS_1_KEY, 49); (SYS_2_KEY, 50); (SYS_3_KEY, 51); (SYS_4_KEY, 52); (SYS_5_KEY, 53);
   (SYS_6_KEY, 54); (SYS_7_KEY, 55); (SYS_8_KEY, 56); (SYS_9_KEY, 57); (SYS_a_KEY, 97); (SYS_b_KEY, 98);
   (SYS_c_KEY, 99); (SYS_d_KEY, 100); (SYS_e_KEY, 101); (SYS_f_KEY, 102); (SYS_g_KEY, 103); (SYS_h_KEY, 104);
   (SYS_i_KEY, 105); (SYS_j_KEY, 106); (SYS_k_KEY, 107); (SYS_l_KEY, 108); (SYS_m_KEY, 109); (SYS_n_KEY, 110);
   (SYS_o_KEY, 111); (SYS_p_KEY, 112); (SYS_q_KEY, 113); (SYS_r_KEY, 114); (SYS_s_KEY, 115); (SYS_t_KEY, 116);
   (SYS_u_KEY, 117); (SYS_v_KEY, 118); (SYS_w_KEY, 119); (SYS_x_KEY, 120); (SYS_y_KEY, 121); (SYS_z_KEY, 122);
   (SYS_A_KEY, 65); (SYS_B_KEY, 66); (SYS_C_KEY, 67); (SYS_D_KEY, 68); (SYS_E_KEY, 69); (SYS_F_KEY, 70);
   (SYS_G_KEY, 71); (SYS_H_KEY, 72); (SYS_I_KEY, 73); (SYS_J_KEY, 74); (SYS_K_KEY, 75); (SYS_L_KEY, 76);
   (SYS_M_KEY, 77); (SYS_N_KEY, 78); (SYS_O_KEY, 79); (SYS_P_KEY, 80); (SYS_Q_KEY, 81); (SYS_R_KEY, 82);
   (SYS_S_KEY, 83); (SYS_T_KEY, 84); (SYS_U_KEY, 85); (SYS_V_KEY, 86); (SYS_W_KEY, 87); (SYS_X_KEY, 88);
   (SYS_Y_KEY, 89); (SYS_Z_KEY, 90); (SYS_EXCAL_KEY, 33); (SYS_QUESTION_KEY, 63); (SYS_POUND_KEY, 35);
   (SYS_DOLLAR_KEY, 36); (SYS_STAR_KEY, 42); (SYS_LEFT_BRACKET_KEY, 40); (SYS_RIGHT_BRACKET_KEY, 41);
   (SYS_DOT, 46); (SYS_AT, 64); (SYS_QUOTE, 39); (SYS_REDUCE, 45); (SYS_COMMA, 44); (SYS_PERCENT_KEY, 37);
   (SYS_SLASH_KEY, 47); (SYS_AND_KEY, 38); (SYS_SPACE, 32); (SYS_COLON_KEY, 58); (SYS_SEMICOLON_KEY, 59);
   (SYS_DOUBLE_QUESTIONMASKS_KEY, 34); (SYS_UNDERLINE_KEY, 95); (SYS_EQUAL_KEY, 61); (SYS_BACKSPACE, 8);
   (SYS_ENTER, EKEY_ACTIVATE); (SYS_WHEEL, EKEY_ACTIVATE); (SYS_WHEEL_BACK, EKEY_FOCUSPREV);
   (SYS_WHEEL_FORWARD, EKEY_FOCUSNEXT); (SYS_CANCEL_KEY, EKEY_BACK); (SYS_LOCK, EKEY_ALTTAB)].
Definition sys_key (k : SysKeyIdT) : Z := default 0 (al_find k sys_keys).
(** A key that is not in the switch is 0. *)
Definition MapKeyToInternal (key : Z) : Z :=
  default 0 (al_find key (map (λ p, (sys_key p.1, p.2)) key_table)).

Definition focus_codes : list Z := [EKEY_ACTIVATE; EKEY_BACK; EKEY_FOCUSPREV; EKEY_FOCUSNEXT; EKEY_ALTTAB].
Lemma mapped_in_table key : MapKeyToInternal key ≠ 0 →
  (key, MapKeyToInternal key) ∈ map (λ p, (sys_key p.1, p.2)) key_table.
Proof.
  unfold MapKeyToInternal. generalize (map (λ p : SysKeyIdT * Z, (sys_key p.1, p.2)) key_table). intros l.
  induction l as [|[k v] l IH]; simpl; [done|]. case_decide as H; [subst; intros _; apply list_elem_of_here|].
  intros Hn. apply list_elem_of_further, IH, Hn.
Qed.
(** A key of the keypad gives a printable character, the backspace, or one of five
    control codes; different keys give different codes, except that the enter key acts as
    the pressed wheel.  No key moves the cursor of an entry. *)
Theorem device_keys key :
  MapKeyToInternal key ≠ 0 →
  (32 ≤ MapKeyToInternal key < 127 ∨ MapKeyToInternal key = backspace ∨ MapKeyToInternal key ∈ focus_codes) ∧
  MapKeyToInternal key ≠ EKEY_FOCUSLEFT ∧ MapKeyToInternal key ≠ EKEY_FOCUSRIGHT ∧
  (∀ key', MapKeyToInternal key' = MapKeyToInternal key →
     key' = key ∨ ({[key; key']} : gset Z) = {[sys_key SYS_ENTER; sys_key SYS_WHEEL]}).
Proof.
  intros Hn. pose proof (mapped_in_table key Hn) as Hin.
  assert (Forall (λ p : Z * Z, (32 ≤ p.2 < 127 ∨ p.2 = backspace ∨ p.2 ∈ focus_codes) ∧ p.2 ≠ EKEY_FOCUSLEFT ∧ p.2 ≠ EKEY_FOCUSRIGHT)
    (map (λ p, (sys_key p.1, p.2)) key_table)) as H1 by (apply (bool_decide_unpack _); vm_compute; reflexivity).
  assert (Forall (λ p : Z * Z, Forall (λ q : Z * Z, q.2 = p.2 → q.1 = p.1 ∨
      (p.1 = sys_key SYS_ENTER ∧ q.1 = sys_key SYS_WHEEL) ∨ (p.1 = sys_key SYS_WHEEL ∧ q.1 = sys_key SYS_ENTER))
    (map (λ p, (sys_key p.1, p.2)) key_table)) (map (λ p, (sys_key p.1, p.2)) key_table)) as H2
    by (apply (bool_decide_unpack _); vm_compute; reflexivity).
  rewrite Forall_forall in H1. destruct (H1 _ Hin) as (Ha & Hb & Hc). do 3 (split; [done|]).
  intros key' E. rewrite Forall_forall in H2. specialize (H2 _ Hin). rewrite Forall_forall in H2.
  assert (MapKeyToInternal key' ≠ 0) as Hn' by (by rewrite E).
  destruct (H2 _ (mapped_in_table key' Hn') E) as [?|[[H3 H4]|[H3 H4]]]; cbn [fst] in *; [by left|right; rewrite H3, H4; set_solver..].
Qed.
Lemma device_keys_witness :
  MapKeyToInternal (sys_key SYS_WHEEL) = EKEY_ACTIVATE ∧ MapKeyToInternal (sys_key SYS_WHEEL) ≠ EKEY_FOCUSRIGHT.
Proof. split; [reflexivity|]. apply (device_keys (sys_key SYS_WHEEL)). vm_compute. done. Defined.
(** The special keys were to have numbers of their own, but the enumeration before them
    has grown past the first of these. *)
Example special_keys_collide : sys_key SYS_RESERVED_5_KEY = sys_key SYS_FLIP_KEY ∧ sys_key SYS_SHIFT_SPACE_KEY = sys_key SYS_HOOK_KEY.
Proof. by split. Qed.
