(* ===== verification/Manager.v ===== *)
(** * ApplicationManager.c, Application.c: applications, keys and the screen

    The manager holds the whole state: the connection with the objects and the
    applications, the picture, and the places of the root screen where applications and
    dialogs are shown.  [resolveReferences] (DataObject.c) is here because it asks the
    connection for objects that are not there yet. *)
From S2P Require Import Prelude Lists Maps Arrays Pixels Lgui BitmapCache CStrings Utf8 Url Text.
From S2P Require Import RenderManager FieldNames Fields DataObjects Sync Protocol SyncSend Ui Modify Focus Styles.
From S2P Require Import Layout Placing Connection Entry Keys Drawing Mime.

Section Manager.
Context {St : Type} `{MapStore St Bitmap} `{Fonts}.
(** The parameters of the parts below; [online]: whether there is a connection. *)
Variable ft : Z → bool → option ft_glyph.
Variable defaultFont : option Z.
Variable defaultGradient : option (list GradientStop).
Variable cos_radius : Z → Z → Z.
Variable junk : junk_values.
Variable layout_junk : Z.
Variable encodes : FRIPacketP → bool.
Variable script : oloc → cstring → UM ().
Variable endpoint_text : cstring.
Variable png : list Z → png_result.
Variable online : bool.

(** ** State *)
(** [mg_sent_rects]: the calls of [emo_BitBlt], the newest last. *)
Record manager := mkManager {
  mg_conn : connection;
  mg_text : text_state (St := St);
  mg_rootApplication : option aloc;
  mg_bootApp : option aloc;
  mg_placeHolder : option oloc;
  mg_dialogHolder : option oloc;
  mg_topBar : option oloc;
  mg_sent_rects : list (Z * Z * Z * Z);
  mg_netsurf : bool;
  mg_netsurf_queue : list Z }.
Abbreviation MM := (M manager).
Definition with_conn (c : connection) (m : manager) : manager :=
  mkManager c (mg_text m) (mg_rootApplication m) (mg_bootApp m) (mg_placeHolder m) (mg_dialogHolder m) (mg_topBar m)
    (mg_sent_rects m) (mg_netsurf m) (mg_netsurf_queue m).
Definition with_text (t : text_state) (m : manager) : manager :=
  mkManager (mg_conn m) t (mg_rootApplication m) (mg_bootApp m) (mg_placeHolder m) (mg_dialogHolder m) (mg_topBar m)
    (mg_sent_rects m) (mg_netsurf m) (mg_netsurf_queue m).
Definition in_conn {B} (m : CM B) : MM B := λ s,
  match m (mg_conn s) with
  | Ok (b, c) => Ok (b, with_conn c s)
  | Abort => Abort | Fault => Fault | NoFuel => NoFuel
  end.
Definition ui_ {B} (m : UM B) : MM B := in_conn (in_ui m).
Definition text_ {B} (m : M text_state B) : MM B := λ s,
  match m (mg_text s) with
  | Ok (b, t) => Ok (b, with_text t s)
  | Abort => Abort | Fault => Fault | NoFuel => NoFuel
  end.
Definition gui_ {B} (m : GM B) : MM B := text_ (on_gui m).
Definition display_ {B} (m : M (display (St := St)) B) : MM B := λ s,
  match m (mkDisplay (c_ui (mg_conn s)) (mg_text s)) with
  | Ok (b, d) =>
      match in_ui (λ _, Ok ((), sc_ui d)) (mg_conn s) with
      | Ok (_, c) => Ok (b, with_text (sc_text d) (with_conn c s))
      | _ => Fault
      end
  | Abort => Abort | Fault => Fault | NoFuel => NoFuel
  end.
Definition set_focus (a : option aloc) : UM () := λ u,
  Ok ((), mkUi (u_world u) (u_renderman u) (u_apps u) (u_applications u) a (u_style u) (u_window u)).
Definition set_applications (l : list aloc) : UM () := λ u,
  Ok ((), mkUi (u_world u) (u_renderman u) (u_apps u) l (u_focus u) (u_style u) (u_window u)).
Definition put_app (a : aloc) (p : Application_t) : UM () := λ u,
  Ok ((), mkUi (u_world u) (u_renderman u) (<[a := p]> (u_apps u)) (u_applications u) (u_focus u) (u_style u) (u_window u)).
Definition upd_app (a : aloc) (f : Application_t → Application_t) : UM () := p ← get_app a; put_app a (f p).
Definition new_app (p : Application_t) : UM aloc :=
  u ← get; let a := fresh (dom (u_apps u)) in put_app a p;; mret a.
Definition new_string (s : cstring) : UM floc := in_fields (dataobjectfield_string (Some (SHeap s))).
Definition setField_ (d : option oloc) (key : EmoField) (v : floc) : UM () :=
  in_world (dataobject_setEnum d (enum_value key) (Some v)).

(** ** References (DataObject.c) *)
Definition find_in_tree (d : oloc) (name : cstring) : MM (option oloc) :=
  u ← ui_ get; ui_ (in_world (dataobject_findByName (frame_root_of u) (Some d) (Some name))).
(** The object a reference stands for: by URL, which may have to be asked for, or by name. *)
Definition resolve_text (d : oloc) (s : cstring) : MM (option oloc) :=
  if decide (58 ∈ s) then
    url ← in_conn (parse_url (Some s));
    ref ← in_conn (dataobject_locate url);
    match ref with
    | Some r => mret (Some r)
    | None => _ ← in_conn (connectionContext_syncRequest encodes endpoint_text online url); in_conn (dataobject_locate url)
    end
  else
    parent ← ui_ (in_world (dataobject_superparent (Some d))); find_in_tree parent s.
Definition resolve_own (d : oloc) : MM () :=
  _ ← ui_ (data_of d);
  field ← ui_ (getField d EMO_FIELD_REFERENCE);
  text ← ui_ (match field with
              | None => mret None
              | Some f => c ← in_fields (get_field f);
                          match f_value c with DOF_STRING p => s ← deref (str_content p); mret (Some s) | _ => mret None end
              end);
  ref ← (match text with Some s => resolve_text d s | None => mret None end);
  ui_ (in_world (widget_setDataObject (Some d) ref)).
Fixpoint resolveReferences_loop (fuel : nat) (d : oloc) : MM () :=
  match fuel with
  | O => no_fuel
  | S fuel =>
      resolve_own d;;
      o ← ui_ (obj d); mfor (resolveReferences_loop fuel) (o_children o);;
      field ← ui_ (getField d EMO_FIELD_TYPE);
      array ← ui_ (is_type field EMO_TYPE_ARRAY);
      when array (ui_ (array_expand (Some d));; ui_ (in_renderman renderman_clearQueue);;
                  sp ← ui_ (in_world (dataobject_superparent (Some d))); ui_ (widget_markDirty (Some sp)));;
      o ← ui_ (obj d); mfor (resolveReferences_loop fuel) (o_arrayChildren o)
  end.
(** The walk makes copies for arrays, which are below the objects that were there. *)
Definition dataobject_resolveReferences (d : option oloc) : MM () :=
  d ← emo_nonnull d; u ← ui_ get; resolveReferences_loop (S (ui_fuel u)) d.

(** ** Scripts *)
Definition event (d : option oloc) (e : EmoField) : MM () := in_conn (run_event script d e).

(** ** Screens *)
Definition manager_resolveLayout : MM () :=
  style ← ui_ (focus ← manager_getFocusedApplication; application_getCurrentStyle focus);
  root ← ui_ manager_getRootStyle;
  w ← ui_ (gets u_window);
  ui_ (widget_resolveLayoutRoot layout_junk w (Some (default root style)) false).
Definition manager_drawScreenPartial : MM () :=
  s ← get;
  match mg_rootApplication s with
  | None => mret ()
  | Some a =>
      view ← ui_ (application_getCurrentScreen (Some a));
      root ← ui_ manager_getRootStyle;
      match view with
      | Some v => display_ (style_renderWidgetTree ft defaultFont defaultGradient cos_radius junk (Some root) (Some v))
      | None => mret ()
      end
  end.
Definition redraw_all : MM () :=
  w ← ui_ (gets u_window); ui_ (widget_markDirty w);; ui_ (in_renderman renderman_clearQueue).

(** ** Applications *)
Definition manager_launchApplication (a : option aloc) : MM () :=
  a ← emo_nonnull a; l ← ui_ (gets u_applications); ui_ (set_applications (l ++ [a])).
Definition application_getURL (a : option aloc) : UM (option URL) :=
  a ← emo_nonnull a; p ← get_app a; mret (app_url p).
Definition application_setURL (a : option aloc) (url : option URL) : MM () :=
  url ← emo_nonnull url; a ← emo_nonnull a;
  own ← in_conn (parse_url (u_all url));
  ui_ (upd_app a (λ p, mkApp (app_dobj p) (app_currentScreen p) (app_activeDialog p) (app_currentStyle p) (app_flags p) own)).
(** The bar at the top has no height while the application fills the screen. *)
Definition set_top_bar (appObj : oloc) : MM () :=
  field ← ui_ (getFieldAsInt appObj EMO_FIELD_FULLSCREEN);
  full ← ui_ (match field with None => mret 0 | Some f => in_fields (get_integer f) end);
  v ← ui_ (new_string (if full =? 0 then lit "25" else lit "0"));
  s ← get; ui_ (setField_ (mg_topBar s) EMO_FIELD_HEIGHT v).
(** The name is read for a debug print. *)
Definition manager_focusApplication (a : option aloc) : MM () :=
  a ← emo_nonnull a;
  appObj ← ui_ (application_getDataObject (Some a));
  set_top_bar appObj;;
  name ← ui_ (getField appObj EMO_FIELD_NAME); _ ← deref name;
  currentScreen ← ui_ (application_getCurrentScreen (Some a));
  match currentScreen with
  | None => mret ()
  | Some _ =>
      url ← ui_ (application_getURL (Some a)); url ← deref url;
      all ← emo_nonnull (u_all url);
      v ← ui_ (new_string all);
      s ← get;
      ui_ (setField_ (mg_placeHolder s) EMO_FIELD_REFERENCE v);;
      dataobject_resolveReferences (mg_placeHolder s);;
      style ← ui_ (application_getCurrentStyle (Some a));
      root ← ui_ manager_getRootStyle;
      let style := Some (default root style) in
      w ← ui_ (gets u_window);
      ui_ (widget_resolveLayoutRoot layout_junk w style true);;
      ui_ (widget_focusNone w style false);;
      ui_ (widget_markDirty w);;
      ui_ (set_focus (Some a));;
      ui_ (in_renderman renderman_clearQueue)
  end.
(** The one after the focus in the list, otherwise the first. *)
Definition next_application (l : list aloc) (focus : option aloc) : option aloc :=
  match focus with
  | Some f => match after f l with Some (a :: _) => Some a | _ => head l end
  | None => head l
  end.
Definition manager_focusNextApplication : MM () :=
  l ← ui_ (gets u_applications); focus ← ui_ manager_getFocusedApplication;
  manager_focusApplication (next_application l focus).

Definition APP_ICONIFIED : Z := 0x01.
Definition text_field_object (d : oloc) (key : EmoField) : MM (option oloc) :=
  field ← ui_ (getField d key);
  match field with
  | None => mret None
  | Some f =>
      c ← ui_ (in_fields (get_field f));
      match f_value c with DOF_STRING p => s ← deref (str_content p); find_in_tree d s | _ => mret None end
  end.
Definition application_load (d : option oloc) : MM aloc :=
  d ← emo_nonnull d;
  dataobject_resolveReferences (Some d);;
  field ← ui_ (getField d EMO_FIELD_ICONIFIED);
  iconified ← ui_ (in_fields (dataobjectfield_isTrue field));
  style ← text_field_object d EMO_FIELD_STYLE;
  view ← text_field_object d EMO_FIELD_STARTUPVIEW;
  match view with Some v => ui_ (widget_markDirty (Some v)) | None => mret () end;;
  a ← ui_ (new_app (mkApp d view None style (if iconified =? 0 then 0 else APP_ICONIFIED) None));
  event (Some d) EMO_FIELD_ONLOAD;;
  mret a.
Definition application_isIconified (a : option aloc) : UM Z :=
  a ← emo_nonnull a; p ← get_app a; mret (Z.land (app_flags p) APP_ICONIFIED).
Definition application_setCurrentScreen (a : option aloc) (screen : option oloc) : MM () :=
  screen ← emo_nonnull screen; a ← emo_nonnull a;
  field ← ui_ (getField screen EMO_FIELD_TYPE);
  view ← ui_ (is_type field EMO_TYPE_VIEW);
  if negb (view : bool) then mret () else
  ui_ (upd_app a (λ p, mkApp (app_dobj p) (Some screen) (app_activeDialog p) (app_currentStyle p) (app_flags p) (app_url p)));;
  manager_focusApplication (Some a).
Definition manager_loadApplicationReal (d : option oloc) (launch focus : bool) (url : option URL) : MM () :=
  d ← emo_nonnull d; url ← emo_nonnull url;
  ui_ (mime_loadAll png (Some d));;
  a ← application_load (Some d);
  application_setURL (Some a) (Some url);;
  when launch (manager_launchApplication (Some a));;
  when focus (manager_focusApplication (Some a)).
(** An application that was to be loaded. *)
Definition load_pending : MM () :=
  c ← in_conn get;
  match c_loading c with
  | Some (d, focus, url) => in_conn (set_loading None);; manager_loadApplicationReal (Some d) true focus url
  | None => mret ()
  end.
Definition manager_drawScreen : MM () :=
  load_pending;; gui_ lgui_clip_identity;; manager_drawScreenPartial.

(** ** Dialogs *)
Definition set_stack (holder : option oloc) (i : Z) : MM () :=
  h ← emo_nonnull holder; o ← ui_ (obj h);
  v ← ui_ (new_int i); ui_ (setField_ (o_parent o) EMO_FIELD_FOCUSSTACK v).
Definition relayout_all : MM () :=
  w ← ui_ (gets u_window); root ← ui_ manager_getRootStyle;
  ui_ (widget_resolveLayoutRoot layout_junk w (Some root) true);; redraw_all.
Definition manager_showDialog (name : option cstring) : MM () :=
  name ← emo_nonnull name;
  v ← ui_ (new_string name);
  ui_ (in_fields (dataobjectfield_setIsModified (Some v) true));;
  s ← get; let holder := mg_dialogHolder s in
  ui_ (setField_ holder EMO_FIELD_REFERENCE v);;
  dataobject_resolveReferences holder;;
  ui_ (dataobject_setIsModified holder true);;
  set_stack holder 2;;
  relayout_all.
Definition manager_finishDialog : MM () :=
  s ← get; let holder := mg_dialogHolder s in
  ui_ (in_world (dataobject_unsetValue holder (Some (lit "reference"))));;
  dataobject_resolveReferences holder;;
  set_stack holder (-1);;
  relayout_all.
Definition with_dialog (name : option cstring) (p : Application_t) : Application_t :=
  mkApp (app_dobj p) (app_currentScreen p) name (app_currentStyle p) (app_flags p) (app_url p).
Definition has_manager_focus (a : aloc) : UM bool :=
  focus ← manager_getFocusedApplication; mret (bool_decide (focus = Some a)).
Definition application_showDialog (a : option aloc) (name : option cstring) : MM () :=
  a ← emo_nonnull a; name ← emo_nonnull name;
  ui_ (upd_app a (with_dialog (Some name)));;
  focused ← ui_ (has_manager_focus a);
  when focused (manager_showDialog (Some name)).
(** The application is used without a test. *)
Definition application_finishDialog (a : option aloc) : MM () :=
  a ← deref a;
  ui_ (upd_app a (with_dialog None));;
  focused ← ui_ (has_manager_focus a);
  when focused manager_finishDialog.

(** ** Keys *)
Definition key_name (key : Z) : cstring :=
  if key =? EKEY_BACK then lit "BACK"
  else if key =? EKEY_ACTIVATE then lit "ACTIVATE"
  else if key =? EKEY_FOCUSPREV then lit "PREV"
  else if key =? EKEY_FOCUSNEXT then lit "NEXT"
  else if Z.land key 0xFF =? 0 then [] else [Z.land key 0xFF].
(** The widget with the focus may take the key. *)
Definition focused_takes (focus : option oloc) (key : Z) (style : option oloc) : UM bool :=
  match focus with
  | None => mret false
  | Some w =>
      field ← getField w EMO_FIELD_TYPE;
      entry ← is_type field EMO_TYPE_ENTRY;
      if entry : bool then r ← entryWidget_handleKey (Some w) key style; mret (negb (r =? 0)) else
      checkbox ← is_type field EMO_TYPE_CHECKBOX;
      if checkbox : bool then r ← checkboxWidget_handleKey (Some w) key style; mret (negb (r =? 0)) else mret false
  end.
Definition manager_handleKey (key : Z) : MM () :=
  if key =? EKEY_ALTTAB then manager_focusNextApplication else
  style ← ui_ (focus ← manager_getFocusedApplication; application_getCurrentStyle focus);
  root ← ui_ manager_getRootStyle;
  let style := Some (default root style) in
  w ← ui_ (gets u_window);
  focus ← ui_ (match w with Some w => widget_focusWhichOneNF (Some w) | None => mret None end);
  taken ← ui_ (focused_takes focus key style);
  if taken : bool then mret () else
  accessKey ← ui_ (widget_findStringField w (enum_value EMO_FIELD_ACCESSKEY) (Some (key_name key)));
  match accessKey with
  | Some k => ui_ (widget_forceFocus w (Some k) style);; event (Some k) EMO_FIELD_ONRETURN
  | None =>
      if key =? EKEY_ACTIVATE then event (match focus with Some f => Some f | None => w end) EMO_FIELD_ONRETURN
      else if key =? EKEY_FOCUSPREV then ui_ (widget_focusPrev w style)
      else if key =? EKEY_FOCUSNEXT then ui_ (widget_focusNext w style)
      else mret ()
  end.
End Manager.
