(* ===== verification/Screen.v ===== *)
(** * The screen: RenderManager.c, UITask.c, KeyHandler.c

    [renderman_flush] redraws the queued widgets of the focused application: for each it
    restricts the clip to the place of the widget, records that place for the display,
    and draws what is dirty.  [updateScreen] then draws the rest and sends the recorded
    places, or the whole picture when there is none.  [UiHandleKeyEvents] is the entry
    point of the keypad. *)
From S2P Require Import Prelude Lists Maps Arrays Pixels Lgui BitmapCache CStrings Utf8 Url Text.
From S2P Require Import RenderManager FieldNames Fields DataObjects Sync Protocol SyncSend Ui Modify Focus Styles.
From S2P Require Import Layout Placing Connection Entry Keys Drawing Mime Manager.

(** ** The items of the arrays *)
(** [pointer] (Ui.v) has the bytes of an address. *)
Definition word_bytes (z : Z) : list byte_ :=
  [Some (z mod 256); Some (z / 2 ^ 8 mod 256); Some (z / 2 ^ 16 mod 256); Some (z / 2 ^ 24 mod 256)].
Definition rect_bytes (r : Rectangle) : list byte_ :=
  word_bytes (rx r) ++ word_bytes (ry r) ++ word_bytes (rwidth r) ++ word_bytes (rheight r).
(** A byte that was never written has no value. *)
Definition word_of (bs : list byte_) : option Z :=
  foldr (λ b acc, match b, acc with Some b, Some z => Some (b + 256 * z) | _, _ => None end) (Some 0) bs.
Definition object_of (bs : list byte_) : option oloc :=
  match word_of bs with Some (Zpos d) => Some d | _ => None end.
Definition rect_of (bs : list byte_) : option Rectangle :=
  match word_of (take 4 bs), word_of (take 4 (drop 4 bs)), word_of (take 4 (drop 8 bs)), word_of (take 4 (drop 12 bs)) with
  | Some x, Some y, Some w, Some h => Some (mkRect (int32 x) (int32 y) (int32 w) (int32 h))
  | _, _, _, _ => None
  end.

Definition BAL_KEY_PRESS : Z := 0.

Section Screen.
Context {St : Type} `{MapStore St Bitmap} `{Fonts}.
Variable ft : Z → bool → option ft_glyph.
Variable defaultFont : option Z.
Variable defaultGradient : option (list GradientStop).
Variable cos_radius : Z → Z → Z.
Variable junk : junk_values.
Variable layout_junk : Z.
Variable encodes : FRIPacketP → bool.
Variable script : oloc → cstring → UM ().
Variable endpoint_text : cstring.
Variable png : list Z → png_result.
Variable online : bool.
Abbreviation manager := (manager (St := St)).
Abbreviation MM := (M manager).

(** ** The queue (RenderManager.c) *)
Definition queued (i : Z) : MM oloc :=
  bytes ← ui_ (in_renderman (on_queue (array_get i))); deref (object_of bytes).
(** The place of a widget on the screen; [low]: not above the top of the screen. *)
Definition place_of (low : bool) (widget : oloc) : UM Rectangle :=
  rect ← widget_getClipRectangle (Some widget);
  scrolled ← widget_findStringFieldParent (Some widget) (enum_value EMO_FIELD_TYPE) (Some (SBuiltin EMO_TYPE_SCROLLED));
  match scrolled with
  | None => mret rect
  | Some scrolled =>
      ytrans ← getFieldAsInt scrolled EMO_FIELD_YOFFSET;
      match ytrans with
      | None => mret rect
      | Some f =>
          i ← in_fields (get_integer f);
          let y := int32 (ry rect - i) in
          mret (mkRect (rx rect) (if low && (y <? 0) then 0 else y) (rwidth rect) (rheight rect))
      end
  end.
Definition flush_before (i : Z) : MM () :=
  widget ← queued i; rect ← ui_ (place_of false widget);
  ui_ (in_renderman (on_rects (array_append (rect_bytes rect)))).
Definition draw_partial : MM () :=
  manager_drawScreenPartial ft defaultFont defaultGradient cos_radius junk.
(** Where the widget was before it is drawn again as well. *)
Definition with_before (needsLayout : bool) (i : Z) (rect : Rectangle) : MM Rectangle :=
  if needsLayout then
    bytes ← ui_ (in_renderman (on_rects (array_get i)));
    before ← deref (rect_of bytes); mret (rectangle_union rect before)
  else mret rect.
Definition flush_widget (appObj : oloc) (needsLayout : bool) (i : Z) : MM () :=
  widget ← queued i;
  sparent ← ui_ (in_world (dataobject_superparent (Some widget)));
  if negb (bool_decide (sparent = appObj)) then mret () else
  ui_ (widget_markDirty (Some widget));;
  gui_ lgui_clip_identity;;
  rect ← ui_ (place_of true widget);
  rect ← with_before needsLayout i rect;
  gui_ (lgui_clip_set rect);;
  gui_ lgui_push_region;;
  draw_partial.
Definition renderman_flush : MM () :=
  app ← ui_ manager_getFocusedApplication;
  match app with
  | None => mret ()
  | Some app =>
      appObj ← ui_ (application_getDataObject (Some app));
      r ← ui_ (in_renderman renderman);
      if negb (Z.land (rm_flags r) RM_COMPLETE_REDRAW =? 0) then
        manager_resolveLayout layout_junk;; ui_ (in_renderman renderman_cleanup)
      else
      len ← ui_ (in_renderman (on_queue array_length));
      if len =? 0 then ui_ (in_renderman renderman_cleanup) else
      let needsLayout := negb (Z.land (rm_flags r) RM_NEEDS_RELAYOUT =? 0) in
      when needsLayout (mfor flush_before (seqZ 0 len);; manager_resolveLayout layout_junk);;
      mfor (flush_widget appObj needsLayout) (seqZ 0 len);;
      ui_ (in_renderman renderman_cleanup)
  end.

(** ** The display (UITask.c) *)
Definition emo_BitBlt (x1 y1 x2 y2 : Z) : MM () := λ s,
  Ok ((), mkManager (mg_conn s) (mg_text s) (mg_rootApplication s) (mg_bootApp s) (mg_placeHolder s) (mg_dialogHolder s)
    (mg_topBar s) (mg_sent_rects s ++ [(x1, y1, x2, y2)]) (mg_netsurf s) (mg_netsurf_queue s)).
Definition blit_region (index : Z) : MM () :=
  rect ← gui_ (lgui_get_region index);
  emo_BitBlt (rx rect) (ry rect) (rx rect + rwidth rect) (ry rect + rheight rect).
Definition draw_screen : MM () :=
  manager_drawScreen ft defaultFont defaultGradient cos_radius junk layout_junk encodes script endpoint_text png online.
Definition updateScreen : MM () :=
  s ← get;
  if mg_netsurf s : bool then mret () else
  renderman_flush;;
  draw_screen;;
  dirty ← gui_ lgui_is_dirty;
  if negb (dirty : bool) then mret () else
  upper ← gui_ lgui_index_count;
  (if upper =? 0 then emo_BitBlt 0 0 LGUI_WIDTH LGUI_HEIGHT else mfor blit_region (seqZ 0 upper));;
  gui_ lgui_blit_done.

Definition manager_focusBootApp : MM () :=
  s ← get; manager_focusApplication layout_junk encodes endpoint_text online (mg_bootApp s);; updateScreen.

(** ** The keypad (KeyHandler.c) *)
Definition netsurf_key_enqueue (key state : Z) : MM () := λ s,
  let keystate := uint32 (Z.lor (Z.shiftl (uint16 state) 16) (uint16 key)) in
  Ok ((), mkManager (mg_conn s) (mg_text s) (mg_rootApplication s) (mg_bootApp s) (mg_placeHolder s) (mg_dialogHolder s)
    (mg_topBar s) (mg_sent_rects s) (mg_netsurf s) (mg_netsurf_queue s ++ [keystate])).
Definition pass_key (key : Z) : MM () :=
  manager_handleKey layout_junk encodes script endpoint_text online (MapKeyToInternal key).
(** After the power key the program never returns. *)
Definition UiHandleKeyEvents (MsgId key : Z) : MM () :=
  if key =? sys_key SYS_PWR_KEY then no_fuel else
  s ← get;
  if mg_netsurf s : bool then netsurf_key_enqueue key MsgId else
  (if key =? sys_key SYS_SHIFT then mret ()
   else if (key =? sys_key SYS_WHEEL_BACK) || (key =? sys_key SYS_WHEEL_FORWARD) then pass_key key
   else when (MsgId =? BAL_KEY_PRESS) (pass_key key));;
  updateScreen.
End Screen.
