(* ===== verification/ScreenRules.v ===== *)
(** * Properties of the screen

    What [renderman_flush] draws lies at the places it records for the display, and
    [updateScreen] sends exactly these. *)
From S2P Require Import Prelude Lists Maps Arrays Pixels Lgui BitmapCache CStrings Utf8 Url Text Frames Clipping.
From S2P Require Import RenderManager FieldNames Fields DataObjects Sync Protocol SyncSend Ui Modify Focus Styles.
From S2P Require Import FocusTrees Layout Placing Connection Entry Keys Drawing DrawingRules Mime Manager Screen.

(** ** Drawing that is recorded *)
Definition in_regions (s : gui) (lo hi : Z) (a : Z) : Prop :=
  ∃ i r, lo ≤ i < hi ∧ region_blit s !! Z.to_nat i = Some r ∧ spill r a.
(** The state has a fixed array of places, some of which are in use. *)
Definition regions_ok (s : gui) : Prop :=
  length (region_blit s) = Z.to_nat REDRAW_REGION_COUNT ∧ 0 ≤ region_index s ≤ REDRAW_REGION_COUNT.
Definition recorded : relation gui := λ s s', regions_ok s →
  regions_ok s' ∧ region_index s ≤ region_index s' ∧
  (∀ i, 0 ≤ i < region_index s → region_blit s' !! Z.to_nat i = region_blit s !! Z.to_nat i) ∧
  (∀ a, lgui_buffer s' a = lgui_buffer s a ∨ in_regions s' (region_index s) (region_index s') a).
#[export] Instance recorded_preorder : PreOrder recorded.
Proof.
  split.
  - intros s Hs. split; [done|]. split; [lia|]. split; [done|]. by left.
  - intros s s' s'' H1 H2 Hs. destruct (H1 Hs) as (Hs' & Hi & Hk & Hb). destruct (H2 Hs') as (Hs'' & Hi' & Hk' & Hb').
    destruct Hs as [_ Hs]. split; [done|]. split; [lia|]. split.
    + intros i H. rewrite Hk' by lia. apply Hk. lia.
    + intros a. destruct (Hb' a) as [->|(i & r & ? & ? & ?)]; [|right; exists i, r; split_and!; try done; lia].
      destruct (Hb a) as [->|(i & r & ? & Hr & ?)]; [by left|]. right. exists i, r. rewrite Hk' by lia. split_and!; try done; lia.
Qed.

Lemma set_CLIP_inv r s s' : set_CLIP r s = Ok ((), s') →
  (∃ c, clip_stack s !! Z.to_nat (clip_index s) = Some c) ∧
  s' = set_clips (<[Z.to_nat (clip_index s) := r]> (clip_stack s)) (clip_index s) s.
Proof.
  intros (c & s1 & E1 & E2)%bind_Ok_inv. apply CLIP_inv in E1 as (-> & _ & Hc). injection E2 as <-. by split; [exists c|].
Qed.
Lemma clip_identity_inv s s' : lgui_clip_identity s = Ok ((), s') →
  clip_index s' = 0 ∧ lgui_buffer s' = lgui_buffer s ∧ region_blit s' = region_blit s ∧ region_index s' = region_index s ∧
  clips_in screen s'.
Proof.
  intros ([] & s1 & E1 & ((c & Hc) & ->)%set_CLIP_inv)%bind_Ok_inv. injection E1 as <-. split_and!; [done..|].
  split; [done|]. cbn. intros i c' Hi. assert (i = 0%nat) as -> by lia.
  rewrite list_lookup_insert_eq by (by apply lookup_lt_Some in Hc). intros [= <-]. apply inside_refl.
Qed.
Lemma push_region_inv s s' : lgui_push_region s = Ok ((), s') →
  ∃ c, clip_stack s !! Z.to_nat (clip_index s) = Some c ∧ 0 ≤ region_index s < REDRAW_REGION_COUNT ∧
    s' = set_regions (<[Z.to_nat (region_index s) := c]> (region_blit s)) (region_index s + 1) (lguiDirty s) s.
Proof.
  intros (c & s1 & E1 & E2)%bind_Ok_inv. apply CLIP_inv in E1 as (-> & _ & Hc).
  rewrite (bind_Ok _ _ _ _ _ eq_refl) in E2. case_bool_decide; [|done]. injection E2 as <-. by exists c.
Qed.
(** Drawing after the place has been made the clip and recorded. *)
Lemma recorded_at r s s1 s2 s3 :
  clip_index s = 0 → lgui_clip_set r s = Ok ((), s1) → lgui_push_region s1 = Ok ((), s2) → confined r s2 s3 → recorded s s3.
Proof.
  intros Hi ((c & Hc) & ->)%set_CLIP_inv (c' & Hc' & Hr & ->)%push_region_inv H3 [Hl _]. rewrite Hi in Hc.
  assert (Z.to_nat 0 < length (clip_stack s))%nat as Hlt by (by apply lookup_lt_Some in Hc).
  cbn in Hc', Hr. rewrite Hi, list_lookup_insert_eq in Hc' by done. injection Hc' as <-.
  assert (Z.to_nat (region_index s) < length (region_blit s))%nat as Hlen by (rewrite Hl; lia).
  destruct H3 as (_ & Hb & Hk & Hn).
  { split; cbn; [lia|]. intros i c' Hle. rewrite Hi in Hle |- *. assert (i = 0%nat) as -> by lia.
    rewrite list_lookup_insert_eq by done. intros [= <-]. apply inside_refl. }
  cbn in Hb, Hk, Hn. unfold regions_ok. rewrite Hk, Hn, length_insert. split; [split; [done|lia]|].
  split; [lia|]. split.
  - intros i Hil. apply list_lookup_insert_ne. lia.
  - intros a. destruct (Hb a) as [?|?]; [by left|right]. exists (region_index s), r. rewrite Hk, list_lookup_insert_eq by done.
    split_and!; try done; lia.
Qed.

Section Screen.
Context {St : Type} `{MapStore St Bitmap} `{Fonts}.
Context (ft : Z → bool → option ft_glyph) (defaultFont : option Z) (defaultGradient : option (list GradientStop)).
Context (cos_radius : Z → Z → Z) (junk : junk_values) (layout_junk : Z) (encodes : FRIPacketP → bool).
Context (script : oloc → cstring → UM ()) (endpoint_text : cstring) (png : list Z → png_result) (online : bool).
Abbreviation manager := (manager (St := St)).
Abbreviation MM := (M manager).
Definition the_gui (m : manager) : gui := t_gui (mg_text m).

(** ** What leaves the picture alone *)
Definition same_picture : relation manager := λ m m', mg_text m' = mg_text m ∧ mg_sent_rects m' = mg_sent_rects m.
#[export] Instance same_picture_preorder : PreOrder same_picture.
Proof. split; unfold same_picture; [done|]. intros m1 m2 m3 [] []. split; congruence. Qed.
Abbreviation quiet := (respects same_picture).
Lemma quiet_in_conn {B} (m : CM B) : quiet (in_conn m).
Proof. intros s b s' E. unfold in_conn in E. destruct (m _) as [[b' c]| | |]; [|done..]. by injection E as <- <-. Qed.
Lemma quiet_ui {B} (m : UM B) : quiet (ui_ m).
Proof. apply quiet_in_conn. Qed.
#[local] Hint Resolve quiet_in_conn quiet_ui : respects.
Lemma quiet_find_in_tree d name : quiet (find_in_tree d name).
Proof. unfold find_in_tree. respects. Qed.
#[local] Hint Resolve quiet_find_in_tree : respects.
Lemma quiet_resolve_text d s : quiet (resolve_text encodes endpoint_text online d s).
Proof. unfold resolve_text. respects. Qed.
#[local] Hint Resolve quiet_resolve_text : respects.
Lemma quiet_resolve_own d : quiet (resolve_own encodes endpoint_text online d).
Proof. unfold resolve_own. respects. Qed.
#[local] Hint Resolve quiet_resolve_own : respects.
Lemma quiet_resolveReferences_loop fuel d : quiet (resolveReferences_loop encodes endpoint_text online fuel d).
Proof. revert d. induction fuel as [|fuel IH]; intros; cbn [resolveReferences_loop]; respects. Qed.
#[local] Hint Resolve quiet_resolveReferences_loop : respects.
Lemma quiet_resolveReferences d : quiet (dataobject_resolveReferences encodes endpoint_text online d).
Proof. unfold dataobject_resolveReferences. respects. Qed.
Lemma quiet_event d e : quiet (event script d e).
Proof. unfold event. respects. Qed.
Lemma quiet_resolveLayout : quiet (manager_resolveLayout layout_junk).
Proof. unfold manager_resolveLayout. respects. Qed.
Lemma quiet_set_top_bar d : quiet (set_top_bar d).
Proof. unfold set_top_bar. respects. Qed.
Lemma quiet_setURL a url : quiet (application_setURL a url).
Proof. unfold application_setURL. respects. Qed.
Lemma quiet_launch a : quiet (manager_launchApplication a).
Proof. unfold manager_launchApplication. respects. Qed.
#[local] Hint Resolve quiet_resolveReferences quiet_event quiet_resolveLayout quiet_set_top_bar quiet_setURL quiet_launch : respects.
Lemma quiet_text_field_object d key : quiet (text_field_object d key).
Proof. unfold text_field_object. respects. Qed.
Lemma quiet_focusApplication a : quiet (manager_focusApplication layout_junk encodes endpoint_text online a).
Proof. unfold manager_focusApplication. respects. Qed.
#[local] Hint Resolve quiet_text_field_object quiet_focusApplication : respects.
Lemma quiet_application_load d : quiet (application_load encodes script endpoint_text online d).
Proof. unfold application_load. respects. Qed.
#[local] Hint Resolve quiet_application_load : respects.
Lemma quiet_loadApplicationReal d l f url :
  quiet (manager_loadApplicationReal layout_junk encodes script endpoint_text png online d l f url).
Proof. unfold manager_loadApplicationReal. respects. Qed.
#[local] Hint Resolve quiet_loadApplicationReal : respects.

(** ** Drawing *)
Lemma gui_inv {B} (m : GM B) s b s' : gui_ m s = Ok (b, s') →
  m (the_gui s) = Ok (b, the_gui s') ∧ mg_sent_rects s' = mg_sent_rects s.
Proof.
  unfold gui_, text_, on_gui, the_gui. destruct (m (t_gui (mg_text s))) as [[b' g]| | |]; [|done..]. by intros [= <- <-].
Qed.
Definition picture_confined (C : Rectangle) : relation manager := λ m m',
  confined C (the_gui m) (the_gui m') ∧ mg_sent_rects m' = mg_sent_rects m.
#[export] Instance picture_confined_preorder C : PreOrder (picture_confined C).
Proof.
  split; unfold picture_confined; [by intros m|]. intros m1 m2 m3 [H1 S1] [H2 S2]. split; [by etrans|congruence].
Qed.
Lemma quiet_confined {B} C (m : MM B) : quiet m → respects (picture_confined C) m.
Proof. intros Hm s b s' [E1 E2]%Hm. unfold picture_confined, the_gui. by rewrite E1. Qed.
#[local] Hint Extern 2 (respects (picture_confined _) _) => apply quiet_confined; solve [eauto with respects nocore] : respects.
Lemma confined_display C s w :
  respects (picture_confined C) (display_ (style_renderWidgetTree ft defaultFont defaultGradient cos_radius junk s w)).
Proof.
  intros m [] m' E. unfold display_ in E.
  destruct (style_renderWidgetTree _ _ _ _ _ _ _ _) as [[[] d]| | |] eqn:Ed; [|done..].
  unfold in_ui in E. cbn in E. injection E as <-. split; [|done].
  apply (sok_renderWidgetTree ft defaultFont defaultGradient cos_radius junk C _ _ _ _ _ Ed).
Qed.
#[local] Hint Resolve confined_display : respects.
Lemma confined_draw_partial C : respects (picture_confined C) (draw_partial ft defaultFont defaultGradient cos_radius junk).
Proof. unfold draw_partial, manager_drawScreenPartial. respects. Qed.

(** ** The flush *)
Definition flush_rel : relation manager := λ m m',
  recorded (the_gui m) (the_gui m') ∧ mg_sent_rects m' = mg_sent_rects m.
#[export] Instance flush_rel_preorder : PreOrder flush_rel.
Proof. split; unfold flush_rel; [by intros m|]. intros m1 m2 m3 [H1 S1] [H2 S2]. split; [by etrans|congruence]. Qed.
Lemma quiet_flush {B} (m : MM B) : quiet m → respects flush_rel m.
Proof. intros Hm s b s' [E1 E2]%Hm. unfold flush_rel, the_gui. by rewrite E1. Qed.
#[local] Hint Extern 2 (respects flush_rel _) => apply quiet_flush; solve [eauto with respects nocore] : respects.
Lemma quiet_queued i : quiet (queued i).
Proof. unfold queued. respects. Qed.
#[local] Hint Resolve quiet_queued : respects.
Lemma quiet_flush_before i : quiet (flush_before i).
Proof. unfold flush_before. respects. Qed.
#[local] Hint Resolve quiet_flush_before : respects.

Lemma same_picture_gui m m' : same_picture m m' → the_gui m' = the_gui m.
Proof. intros [E _]. unfold the_gui. by rewrite E. Qed.
Lemma recorded_untouched s s' :
  lgui_buffer s' = lgui_buffer s → region_blit s' = region_blit s → region_index s' = region_index s → recorded s s'.
Proof.
  intros Hb Hr Hi Hs. unfold regions_ok. rewrite Hr, Hi, Hb. split; [done|]. split; [lia|]. split; [done|]. by left.
Qed.
Lemma quiet_with_before needsLayout i r : quiet (with_before needsLayout i r).
Proof. unfold with_before. destruct needsLayout; respects. Qed.
(** The clip, the record and the drawing for one widget. *)
Lemma flush_place r : ∀ m m', clip_index (the_gui m) = 0 →
  (gui_ (lgui_clip_set r);; gui_ lgui_push_region;; draw_partial ft defaultFont defaultGradient cos_radius junk) m = Ok ((), m') →
  flush_rel m m'.
Proof.
  intros m m' Hi ([] & m1 & [E1 S1]%gui_inv & ([] & m2 & [E2 S2]%gui_inv & [E3 S3]%(confined_draw_partial r))%bind_Ok_inv)%bind_Ok_inv.
  split; [|congruence]. by eapply recorded_at.
Qed.
Lemma flush_widget_recorded appObj needsLayout i :
  respects flush_rel (flush_widget ft defaultFont defaultGradient cos_radius junk appObj needsLayout i).
Proof.
  unfold flush_widget. respects_step; [respects|]. intros w. respects_step; [respects|]. intros sp.
  destruct (negb _); [respects|]. respects_step; [respects|]. intros [].
  intros m [] m' ([] & m1 & [(Hi & Hb & Hr & Hn & _)%clip_identity_inv S1]%gui_inv & E)%bind_Ok_inv.
  etrans; [split; [by apply recorded_untouched|done]|]. clear Hb Hr Hn S1 m.
  apply bind_Ok_inv in E as (rect & m2 & E2%quiet_ui & E). rewrite <-(same_picture_gui _ _ E2) in Hi.
  etrans; [split; [|apply E2]; rewrite (same_picture_gui _ _ E2); reflexivity|].
  apply bind_Ok_inv in E as (rect' & m3 & H3%quiet_with_before & E).
  rewrite <-(same_picture_gui _ _ H3) in Hi. etrans; [split; [|apply H3]; rewrite (same_picture_gui _ _ H3); reflexivity|].
  by eapply flush_place.
Qed.
#[local] Hint Resolve flush_widget_recorded : respects.
Lemma flush_recorded :
  respects flush_rel (renderman_flush ft defaultFont defaultGradient cos_radius junk layout_junk).
Proof. unfold renderman_flush. respects. Qed.

(** C5: redrawing the queued widgets changes the picture only at places it records for
    the display, up to the slant of text and the last column and line of
    [Clipping.spill].  The places recorded before stay, and nothing is sent yet. *)
Theorem flush_draws_where_recorded m m' :
  regions_ok (the_gui m) →
  renderman_flush ft defaultFont defaultGradient cos_radius junk layout_junk m = Ok ((), m') →
  region_index (the_gui m) ≤ region_index (the_gui m') ∧ mg_sent_rects m' = mg_sent_rects m ∧
  (∀ i, 0 ≤ i < region_index (the_gui m) →
     region_blit (the_gui m') !! Z.to_nat i = region_blit (the_gui m) !! Z.to_nat i) ∧
  ∀ a, lgui_buffer (the_gui m') a ≠ lgui_buffer (the_gui m) a →
    ∃ i r, region_index (the_gui m) ≤ i < region_index (the_gui m') ∧
      region_blit (the_gui m') !! Z.to_nat i = Some r ∧ spill r a.
Proof.
  intros Hm E. destruct (flush_recorded _ _ _ E) as [HR Hs]. destruct (HR Hm) as (_ & Hi & Hk & Hb).
  split_and!; [done..|]. intros a Ha. by destruct (Hb a).
Qed.

(** ** Sending *)
Lemma quiet_load_pending : quiet (load_pending layout_junk encodes script endpoint_text png online).
Proof. unfold load_pending. respects. Qed.
Definition corners (r : Rectangle) : Z * Z * Z * Z := (rx r, ry r, rx r + rwidth r, ry r + rheight r).
Lemma blit_regions_ok rs1 rs2 m :
  region_blit (the_gui m) = rs1 ++ rs2 → ∀ k, (k ≤ length rs2)%nat →
  ∃ m', mfor blit_region (seqZ (Z.of_nat (length rs1)) (Z.of_nat k)) m = Ok ((), m') ∧ mg_text m' = mg_text m ∧
    mg_sent_rects m' = mg_sent_rects m ++ (corners <$> take k rs2).
Proof.
  revert rs1 m. induction rs2 as [|r rs2 IH]; intros rs1 m Hr k Hk.
  - cbn in Hk. assert (k = 0)%nat as -> by lia. exists m. by rewrite app_nil_r.
  - destruct k as [|k]; [exists m; by rewrite app_nil_r|]. rewrite seqZ_cons by lia. cbn [mfor].
    assert (∃ m1, blit_region (Z.of_nat (length rs1)) m = Ok ((), m1) ∧ mg_text m1 = mg_text m ∧
      mg_sent_rects m1 = mg_sent_rects m ++ [corners r]) as (m1 & E1 & T1 & S1).
    { unfold blit_region. erewrite bind_Ok.
      2:{ unfold gui_, text_, on_gui, lgui_get_region. unfold the_gui in Hr. rewrite Hr, Nat2Z.id, list_lookup_middle by done.
          rewrite (proj2 (Z.leb_le 0 _) (Nat2Z.is_nonneg _)). reflexivity. }
      eexists. split; [reflexivity|]. split; [|done]. cbn. by destruct (mg_text m). }
    rewrite (bind_Ok _ _ _ _ _ E1). destruct (IH (rs1 ++ [r]) m1) with (k := k) as (m' & E & T & S').
    + unfold the_gui. by rewrite T1, <-(assoc_L app).
    + cbn in Hk. lia.
    + exists m'. rewrite length_app in E. cbn [length] in E.
      replace (Z.succ (Z.of_nat (length rs1))) with (Z.of_nat (length rs1 + 1)) by lia.
      replace (Z.pred (Z.of_nat (S k))) with (Z.of_nat k) by lia. split; [done|]. split; [congruence|].
      by rewrite S', S1, <-(assoc_L app).
Qed.
Lemma draw_screen_keeps m m' :
  draw_screen ft defaultFont defaultGradient cos_radius junk layout_junk encodes script endpoint_text png online m = Ok ((), m') →
  region_blit (the_gui m') = region_blit (the_gui m) ∧ region_index (the_gui m') = region_index (the_gui m) ∧
  mg_sent_rects m' = mg_sent_rects m.
Proof.
  intros ([] & m1 & E1%quiet_load_pending & E)%bind_Ok_inv.
  apply bind_Ok_inv in E as ([] & m2 & [(_ & _ & Hr & Hn & Hc)%clip_identity_inv S2]%gui_inv & E).
  destruct (confined_draw_partial screen _ _ _ E) as [HC S3]. destruct (HC Hc) as (_ & _ & Hr' & Hn').
  rewrite (same_picture_gui _ _ E1) in Hr, Hn. split_and!; [congruence..|]. rewrite S3, S2. apply E1.
Qed.

Lemma gui_gets {A} (f : gui → A) (m : manager) : gui_ (gets f) m = Ok (f (the_gui m), m).
Proof. by destruct m as [? [] ]. Qed.
(** C6: while the browser does not have the screen, [updateScreen] redraws the queued
    widgets, draws the rest, and, if anything was drawn, sends exactly the places recorded
    so far, in order (those of earlier changes and those of this flush), or the whole
    screen when there are none.  Drawing the rest records nothing: what it changes
    elsewhere is sent only when nothing was recorded. *)
Theorem updateScreen_sends_recorded m m' :
  regions_ok (the_gui m) → mg_netsurf m = false →
  updateScreen ft defaultFont defaultGradient cos_radius junk layout_junk encodes script endpoint_text png online m = Ok ((), m') →
  ∃ m1 m2,
    renderman_flush ft defaultFont defaultGradient cos_radius junk layout_junk m = Ok ((), m1) ∧
    draw_screen ft defaultFont defaultGradient cos_radius junk layout_junk encodes script endpoint_text png online m1 = Ok ((), m2) ∧
    let places := take (Z.to_nat (region_index (the_gui m1))) (region_blit (the_gui m1)) in
    if lguiDirty (the_gui m2) then
      mg_sent_rects m' = mg_sent_rects m ++ match places with [] => [(0, 0, LGUI_WIDTH, LGUI_HEIGHT)] | _ => corners <$> places end ∧
      the_gui m' = set_regions (region_blit (the_gui m1)) 0 false (the_gui m2)
    else m' = m2.
Proof.
  intros Hm Hnet E. unfold updateScreen in E. rewrite (bind_Ok _ _ _ _ _ eq_refl), Hnet in E.
  apply bind_Ok_inv in E as ([] & m1 & E1 & E). apply bind_Ok_inv in E as ([] & m2 & E2 & E).
  exists m1, m2. split; [done|]. split; [done|].
  destruct (flush_recorded _ _ _ E1) as [HR S1]. destruct (HR Hm) as ([Hl Hpos] & Hi & _ & _).
  destruct (draw_screen_keeps _ _ E2) as (Hb2 & Hi2 & S2). clear E1 E2 HR Hm.
  unfold lgui_is_dirty, lgui_index_count in E. rewrite (bind_Ok _ _ _ _ _ (gui_gets _ _)) in E. cbv zeta.
  destruct (lguiDirty (the_gui m2)); cbn [negb] in E; [|by injection E].
  rewrite (bind_Ok _ _ _ _ _ (gui_gets _ _)) in E. rewrite Hi2 in E.
  set (n := region_index (the_gui m1)) in *.
  apply bind_Ok_inv in E as ([] & m3 & E3 & [[= Hg] S4]%gui_inv).
  assert (mg_text m3 = mg_text m2 ∧ mg_sent_rects m3 = mg_sent_rects m2 ++
    match take (Z.to_nat n) (region_blit (the_gui m1)) with [] => [(0, 0, LGUI_WIDTH, LGUI_HEIGHT)] | l => corners <$> l end) as [T3 S3].
  { destruct (Z.eqb_spec n 0) as [->|Hn]; [by injection E3 as <-|].
    destruct (blit_regions_ok [] (region_blit (the_gui m1)) m2 Hb2 (Z.to_nat n)) as (m3' & E3' & T & S); [unfold n; rewrite Hl; lia|].
    change (Z.of_nat (length (@nil Rectangle))) with 0 in E3'. rewrite Z2Nat.id in E3' by lia. rewrite E3 in E3'. injection E3' as <-. split; [done|].
    rewrite S. destruct (region_blit (the_gui m1)) eqn:Eb; [done|]. by destruct (Z.to_nat n) eqn:En; [lia|]. }
  split; [rewrite S4, S3, S2, S1; by destruct (take _ _)|]. rewrite <-Hg. unfold the_gui in *. rewrite T3. unfold set_regions. by rewrite Hb2.
Qed.
End Screen.

(** ** Instance: a blue box in a window *)
Definition fixed_fonts : Fonts := {| measure_font := λ _ _, mret (0, 0); measure_text := λ _ _, mret (0, 0) |}.
Definition blue_world : world :=
  mkWorld (list_to_map [(1%positive, with_box (mkRect 0 0 100 60) (focus_obj [2%positive] None [(TYPE, 1%positive)]));
                        (2%positive, with_box (mkRect 10 20 5 4) (focus_obj [] (Some 1%positive)
                           [(TYPE, 1%positive); (enum_value EMO_FIELD_RENDERER, 2%positive);
                            (enum_value EMO_FIELD_FILL, 3%positive); (enum_value EMO_FIELD_BACKGROUND_COLOR, 4%positive)]));
                        (3%positive, focus_obj [] None [])]) 4
    (mkFH (list_to_map [(1%positive, mkField (DOF_STRING (SBuiltin EMO_TYPE_BOX)) 0);
                        (2%positive, mkField (DOF_STRING (SHeap (lit "box"))) 0);
                        (3%positive, mkField (DOF_STRING (SHeap (lit "solid"))) 0);
                        (4%positive, mkField (DOF_UINT 0x0000FFFF) 0)]) 5).
Definition one_queued : RenderManager_t :=
  mkRM (mkArray (ptr 2 ++ replicate 36 None) 10 1 4 f32_2_2) (mkArray (replicate 160 None) 10 0 16 f32_2_2) 0.
Definition blue_ui : ui :=
  mkUi blue_world (Some one_queued) {[1%positive := mkApp 1 (Some 1%positive) None None 0 None]} [1%positive] (Some 1%positive) 3 (Some 1%positive).
Definition blue : manager (St := mstate Bitmap) :=
  mkManager (mkConn blue_ui [] [] [] [] NA_UNKNOWN false [] 1 None) (mkText (gui_with 0 screen) demo_cache)
    (Some 1%positive) None None None None [] false [].
Definition no_junk : junk_values := mkJunk 0 rectangle_zero (0, 0).
Abbreviation blue_flush := (renderman_flush (H0 := fixed_fonts) no_font None None (λ _ _, 0) no_junk 0).
Abbreviation blue_update :=
  (updateScreen (H0 := fixed_fonts) no_font None None (λ _ _, 0) no_junk 0 (λ _, true) (λ _ _, mret ()) [] (λ _, PNG_none) true).
Definition blue_done (m : M manager ()) : manager := match m blue with Ok (_, s) => s | _ => blue end.
Lemma blue_runs (m : M manager ()) : (if m blue is Ok _ then true else false) = true → m blue = Ok ((), blue_done m).
Proof. unfold blue_done. by destruct (m blue) as [[[] s]| | |]. Qed.
Lemma blue_ok : regions_ok (the_gui blue).
Proof. split; [done|]. cbn. unfold REDRAW_REGION_COUNT. lia. Qed.
Lemma blue_flushes : blue_flush blue = Ok ((), blue_done blue_flush).
Proof. apply blue_runs. vm_compute. reflexivity. Qed.
Lemma blue_updates : blue_update blue = Ok ((), blue_done blue_update).
Proof. apply blue_runs. vm_compute. reflexivity. Qed.
Lemma flush_draws_where_recorded_witness :
  lgui_buffer (the_gui (blue_done blue_flush)) (12 + 21 * LGUI_WIDTH) = 0x1F ∧
  ∃ i r, region_index (the_gui blue) ≤ i < region_index (the_gui (blue_done blue_flush)) ∧
    region_blit (the_gui (blue_done blue_flush)) !! Z.to_nat i = Some r ∧ spill r (12 + 21 * LGUI_WIDTH).
Proof.
  split; [vm_compute; reflexivity|].
  refine (proj2 (proj2 (proj2 (flush_draws_where_recorded (H0 := fixed_fonts) no_font None None (λ _ _, 0) no_junk 0 blue
    (blue_done blue_flush) blue_ok blue_flushes))) (12 + 21 * LGUI_WIDTH) _). vm_compute. done.
Defined.
Lemma updateScreen_sends_recorded_witness :
  mg_sent_rects (blue_done blue_update) = [(10, 20, 15, 24)] ∧ ∃ m1, blue_flush blue = Ok ((), m1).
Proof.
  split; [vm_compute; reflexivity|].
  destruct (updateScreen_sends_recorded (H0 := fixed_fonts) no_font None None (λ _ _, 0) no_junk 0 (λ _, true) (λ _ _, mret ()) []
    (λ _, PNG_none) true blue (blue_done blue_update) blue_ok eq_refl blue_updates) as (m1 & _ & E1 & _).
  exists m1. exact E1.
Defined.
