(* ===== verification/Screens.v ===== *)
(** * BootApplication.c, RootApplication.c, StaticApplications.c, RootStyle.c: the first objects

    The objects of the start-up screens and of the root style, built with the modelled
    operations, statement by statement; the parts of a long function are definitions of
    their own.  The object a function keeps in a static is its argument, for the second
    call.  [files] is what the file system holds under a name, [png] libpng, as in Mime. *)
From S2P Require Import Prelude Lists Maps Arrays Lgui BitmapCache CStrings Url Text RenderManager FieldNames Fields.
From S2P Require Import DataObjects Ui Focus Mime Manager.

Definition unquote (s : string) : cstring := (λ c, if c =? 96 then 34 else c) <$> lit s.
(** The strings of a text with a backquote for each double quote, joined by line feeds. *)
Definition text_lines (ls : list string) : cstring :=
  match ls with
  | [] => []
  | l :: ls => foldl (λ t l, t ++ 10 :: l) (unquote l) (unquote <$> ls)
  end.

(** ** Fields and widgets *)
Definition set (w : oloc) (f : EmoField) (s : cstring) : UM () := v ← new_string s; setField w f v.
Definition set_value (w : oloc) (key s : cstring) : UM () :=
  v ← new_string s; in_world (dataobject_setValue (Some w) (Some key) (Some v)).
Definition set_int (w : oloc) (f : EmoField) (i : Z) : UM () := v ← new_int (int32 i); setField w f v.
Definition set_uint (w : oloc) (f : EmoField) (i : Z) : UM () :=
  v ← in_fields (dataobjectfield_uint (uint32 i)); setField w f v.
Definition widget_new : UM oloc := in_world dataobject_new.
Definition set_if (w : oloc) (f : EmoField) (s : option cstring) : UM () :=
  match s with Some s => set w f s | None => mret () end.
Definition widget_newTypeIdName (type id name : option cstring) (parent : option oloc) : UM oloc :=
  output ← widget_new;
  set_if output EMO_FIELD_TYPE type;;
  set_if output EMO_FIELD_ID id;;
  set_if output EMO_FIELD_NAME name;;
  match parent with Some _ => in_world (widget_pack (Some output) parent) | None => mret () end;;
  mret output.

Section Screens.
Variable png : list Z → png_result.
Variable files : cstring → option (list Z).
Definition dobjFromFile (filename : cstring) (root : option oloc) : UM oloc :=
  root ← emo_nonnull root;
  dobj1 ← widget_newTypeIdName (Some (lit "image")) None None (Some root);
  match files filename with
  | Some mimedata =>
      set dobj1 EMO_FIELD_MIMETYPE (lit "png");;
      v ← in_fields (dataobjectfield_data (Some mimedata) (Z.of_nat (length mimedata)));
      setField dobj1 EMO_FIELD_DATA v;;
      _ ← mime_load png (Some dobj1);
      mret ()
  | None => mret ()
  end;;
  mret dobj1.

(** ** BootApplication.c *)

Definition boot_attributes (w0 : oloc) : UM () :=
  set w0 EMO_FIELD_TYPE (lit "application");;
  set w0 EMO_FIELD_DESCRIPTION (lit "Construct program for loading other programs");;
  set w0 EMO_FIELD_FULLSCREEN (lit "1");;
  set w0 EMO_FIELD_NAME (lit "Boot Environment");;
  set w0 EMO_FIELD_ONLOAD (lit "onLoad()");;
  set w0 EMO_FIELD_STARTUPVIEW (lit "mainview");;
  set w0 EMO_FIELD_STYLE (lit "bootstyle").

Definition boot_script (w0 : oloc) : UM () :=
  w1 ← in_world dataobject_new;
  in_world (dataobject_pack (Some w0) (Some w1));;
  set w1 EMO_FIELD_TYPE (lit "script");;
  set w1 EMO_FIELD_DATA (text_lines ["focusIndex = 1";
    "function onLoad()";
    "	print `Boot application loaded`";
    "end";
    "function helloworld()";
    "	DataObject.locate(`tcp://69.114.111.9:12345/helloworld`)";
    "end";
    "function calculator()";
    "	DataObject.locate(`tcp://69.114.111.9:12345/calc`)";
    "end";
    "function maps()";
    " gprs = DataObject.locate(`system://local/gprs`)";
    "	DataObject.locate(`tcp://69.114.111.9:12345/whereami?` .. gprs:getValue(`lac`) .. `,` .. gprs:getValue(`ci`))";
    "end";
    "function aim()";
    "	DataObject.locate(`tcp://69.114.111.9:12345/aimobiix`)";
    "end";
    "function mail()";
    "	DataObject.locate(`tcp://69.114.111.9:12345/mail`)";
    "end";
    EmptyString;
    "function launch()";
    "	if focusIndex == 1 then";
    "		helloworld()";
    "	elseif focusIndex == 2 then";
    "		calculator()";
    "	elseif focusIndex == 3 then";
    "		maps()";
    "	elseif focusIndex == 4 then";
    "		aim()";
    "	elseif focusIndex == 5 then";
    "		DataObject.netsurf()";
    "	elseif focusIndex == 6 then";
    "		print(`empty`)";
    "	end";
    "end";
    EmptyString;
    "function focusNext()";
    "	focusIndex = focusIndex + 1";
    "	if focusIndex == 7 then";
    "		focusIndex = 1";
    "	end";
    "	refocus()";
    "end";
    "function focusPrev()";
    "	focusIndex = focusIndex - 1";
    "	if focusIndex == 0 then";
    "		focusIndex = 6";
    "	end";
    "	refocus()";
    "end";
    "function refocus()";
    "	idx = focusIndex";
    EmptyString;
    "	for i=1,6 do";
    "		app = DataObject.find(`app` .. i)";
    "		app:setValue(emo.reference, `img` .. idx)";
    "		idx = idx + 1";
    "		if idx == 7 then idx = 1 end";
    "	end";
    " app = DataObject.find(`app1`)";
    " img = DataObject.find(app:getValue(emo.reference))";
    " title = DataObject.find(`appTitle`)";
    " title:setValue(img:getValue(`title`))";
    "end";
    "function showmenu()";
    "dobj = DataObject.find(`appmenu`);";
    "dobj:toScreen()";
    "end";
    EmptyString]).

Definition boot_style (w0 : oloc) : UM () :=
  w1 ← dobjFromFile (lit "clock-numbers.png") (Some w0);
  set w1 EMO_FIELD_NAME (lit "clock");;
  w1 ← in_world dataobject_new;
  in_world (dataobject_pack (Some w0) (Some w1));;
  set w1 EMO_FIELD_TYPE (lit "style");;
  set w1 EMO_FIELD_NAME (lit "bootstyle");;
  w2 ← in_world dataobject_new;
  in_world (dataobject_pack (Some w1) (Some w2));;
  set w2 EMO_FIELD_TYPE (lit "image");;
  set w2 EMO_FIELD_RENDERER (lit "image").

(** The stack the clock is in. *)
Definition boot_mainview (w0 : oloc) : UM oloc :=
  w1 ← in_world dataobject_new;
  in_world (dataobject_pack (Some w0) (Some w1));;
  set w1 EMO_FIELD_TYPE (lit "view");;
  set w1 EMO_FIELD_HEIGHT (lit "240");;
  set w1 EMO_FIELD_NAME (lit "mainview");;
  set w1 EMO_FIELD_PACKING (lit "vertical");;
  set w1 EMO_FIELD_WIDTH (lit "320");;
  w2 ← dobjFromFile (lit "background.png") (Some w1);
  set w2 EMO_FIELD_NAME (lit "background");;
  set w2 EMO_FIELD_PACKING (lit "vertical");;
  w3 ← in_world dataobject_new;
  in_world (dataobject_pack (Some w2) (Some w3));;
  set w3 EMO_FIELD_TYPE (lit "label");;
  set w3 EMO_FIELD_NAME (lit "weatherinfo");;
  set w3 EMO_FIELD_X (lit "150");;
  set w3 EMO_FIELD_Y (lit "5");;
  set w3 EMO_FIELD_WIDTH (lit "100");;
  set w3 EMO_FIELD_HEIGHT (lit "12");;
  set w3 EMO_FIELD_FONT_COLOR (lit "#FFF");;
  set w3 EMO_FIELD_WIDTH (lit "bold");;
  set w3 EMO_FIELD_DATA (lit " --- ");;
  w3 ← in_world dataobject_new;
  in_world (dataobject_pack (Some w2) (Some w3));;
  set w3 EMO_FIELD_TYPE (lit "stack");;
  set w3 EMO_FIELD_ACCESSKEY (lit "ACTIVATE");;
  set w3 EMO_FIELD_HEIGHT (lit "100%");;
  set w3 EMO_FIELD_ONRETURN (lit "showmenu()");;
  set w3 EMO_FIELD_WIDTH (lit "100%");;
  mret w3.

(** The digits of the clock: a set for each, which shows a part of one picture. *)
Definition boot_H1 (w3 : oloc) : UM () :=
  w4 ← in_world dataobject_new;
  in_world (dataobject_pack (Some w3) (Some w4));;
  set w4 EMO_FIELD_TYPE (lit "set");;
  set w4 EMO_FIELD_FIELDNAME (lit "H1");;
  set w4 EMO_FIELD_HEIGHT (lit "37");;
  set w4 EMO_FIELD_REFERENCE (lit "system://local/time");;
  set w4 EMO_FIELD_WIDTH (lit "6");;
  set w4 EMO_FIELD_X (lit "227");;
  set w4 EMO_FIELD_Y (lit "90");;
  w5 ← in_world dataobject_new;
  in_world (dataobject_pack (Some w4) (Some w5));;
  set w5 EMO_FIELD_TYPE (lit "setitem");;
  set_uint w5 EMO_FIELD_FIELDVALUE 1;;
  w6 ← in_world dataobject_new;
  in_world (dataobject_pack (Some w5) (Some w6));;
  set w6 EMO_FIELD_TYPE (lit "image");;
  set w6 EMO_FIELD_IMGHEIGHT (lit "37");;
  set w6 EMO_FIELD_IMGWIDTH (lit "6");;
  set w6 EMO_FIELD_IMGX (lit "0");;
  set w6 EMO_FIELD_IMGY (lit "0");;
  set w6 EMO_FIELD_REFERENCE (lit "clock");;
  w5 ← in_world dataobject_new;
  in_world (dataobject_pack (Some w4) (Some w5));;
  set w5 EMO_FIELD_TYPE (lit "setitem").

Definition boot_H2 (w3 : oloc) : UM () :=
  w4 ← in_world dataobject_new;
  in_world (dataobject_pack (Some w3) (Some w4));;
  set w4 EMO_FIELD_TYPE (lit "set");;
  set w4 EMO_FIELD_FIELDNAME (lit "H2");;
  set w4 EMO_FIELD_HEIGHT (lit "53");;
  set w4 EMO_FIELD_REFERENCE (lit "system://local/time");;
  set w4 EMO_FIELD_WIDTH (lit "20");;
  set w4 EMO_FIELD_X (lit "232");;
  set w4 EMO_FIELD_Y (lit "70");;
  w5 ← in_world dataobject_new;
  in_world (dataobject_pack (Some w4) (Some w5));;
  set w5 EMO_FIELD_TYPE (lit "setitem");;
  set_uint w5 EMO_FIELD_FIELDVALUE 0;;
  w6 ← in_world dataobject_new;
  in_world (dataobject_pack (Some w5) (Some w6));;
  set w6 EMO_FIELD_TYPE (lit "image");;
  set w6 EMO_FIELD_IMGHEIGHT (lit "52");;
  set w6 EMO_FIELD_IMGWIDTH (lit "20");;
  set w6 EMO_FIELD_IMGX (lit "170");;
  set w6 EMO_FIELD_IMGY (lit "0");;
  set w6 EMO_FIELD_REFERENCE (lit "clock");;
  w5 ← in_world dataobject_new;
  in_world (dataobject_pack (Some w4) (Some w5));;
  set w5 EMO_FIELD_TYPE (lit "setitem");;
  set_uint w5 EMO_FIELD_FIELDVALUE 1;;
  w6 ← in_world dataobject_new;
  in_world (dataobject_pack (Some w5) (Some w6));;
  set w6 EMO_FIELD_TYPE (lit "image");;
  set w6 EMO_FIELD_IMGHEIGHT (lit "37");;
  set w6 EMO_FIELD_IMGWIDTH (lit "9");;
  set w6 EMO_FIELD_IMGX (lit "160");;
  set w6 EMO_FIELD_IMGY (lit "2");;
  set w6 EMO_FIELD_MARGINTOP (lit "10");;
  set w6 EMO_FIELD_REFERENCE (lit "clock");;
  w5 ← in_world dataobject_new;
  in_world (dataobject_pack (Some w4) (Some w5));;
  set w5 EMO_FIELD_TYPE (lit "setitem");;
  set_uint w5 EMO_FIELD_FIELDVALUE 2;;
  w6 ← in_world dataobject_new;
  in_world (dataobject_pack (Some w5) (Some w6));;
  set w6 EMO_FIELD_TYPE (lit "image");;
  set w6 EMO_FIELD_IMGHEIGHT (lit "49");;
  set w6 EMO_FIELD_IMGWIDTH (lit "17");;
  set w6 EMO_FIELD_IMGX (lit "142");;
  set w6 EMO_FIELD_IMGY (lit "2");;
  set w6 EMO_FIELD_MARGINTOP (lit "4");;
  set w6 EMO_FIELD_REFERENCE (lit "clock");;
  w5 ← in_world dataobject_new;
  in_world (dataobject_pack (Some w4) (Some w5));;
  set w5 EMO_FIELD_TYPE (lit "setitem");;
  set_uint w5 EMO_FIELD_FIELDVALUE 3;;
  w6 ← in_world dataobject_new;
  in_world (dataobject_pack (Some w5) (Some w6));;
  set w6 EMO_FIELD_TYPE (lit "image");;
  set w6 EMO_FIELD_IMGHEIGHT (lit "51");;
  set w6 EMO_FIELD_IMGWIDTH (lit "19");;
  set w6 EMO_FIELD_IMGX (lit "122");;
  set w6 EMO_FIELD_IMGY (lit "1");;
  set w6 EMO_FIELD_MARGINTOP (lit "2");;
  set w6 EMO_FIELD_REFERENCE (lit "clock");;
  w5 ← in_world dataobject_new;
  in_world (dataobject_pack (Some w4) (Some w5));;
  set w5 EMO_FIELD_TYPE (lit "setitem");;
  set_uint w5 EMO_FIELD_FIELDVALUE 4;;
  w6 ← in_world dataobject_new;
  in_world (dataobject_pack (Some w5) (Some w6));;
  set w6 EMO_FIELD_TYPE (lit "image");;
  set w6 EMO_FIELD_IMGHEIGHT (lit "38");;
  set w6 EMO_FIELD_IMGWIDTH (lit "19");;
  set w6 EMO_FIELD_IMGX (lit "102");;
  set w6 EMO_FIELD_IMGY (lit "2");;
  set w6 EMO_FIELD_MARGINTOP (lit "2");;
  set w6 EMO_FIELD_REFERENCE (lit "clock");;
  w5 ← in_world dataobject_new;
  in_world (dataobject_pack (Some w4) (Some w5));;
  set w5 EMO_FIELD_TYPE (lit "setitem");;
  set_uint w5 EMO_FIELD_FIELDVALUE 5;;
  w6 ← in_world dataobject_new;
  in_world (dataobject_pack (Some w5) (Some w6));;
  set w6 EMO_FIELD_TYPE (lit "image");;
  set w6 EMO_FIELD_IMGHEIGHT (lit "52");;
  set w6 EMO_FIELD_IMGWIDTH (lit "18");;
  set w6 EMO_FIELD_IMGX (lit "84");;
  set w6 EMO_FIELD_IMGY (lit "1");;
  set w6 EMO_FIELD_REFERENCE (lit "clock");;
  w5 ← in_world dataobject_new;
  in_world (dataobject_pack (Some w4) (Some w5));;
  set w5 EMO_FIELD_TYPE (lit "setitem");;
  set_uint w5 EMO_FIELD_FIELDVALUE 6;;
  w6 ← in_world dataobject_new;
  in_world (dataobject_pack (Some w5) (Some w6));;
  set w6 EMO_FIELD_TYPE (lit "image");;
  set w6 EMO_FIELD_IMGHEIGHT (lit "52");;
  set w6 EMO_FIELD_IMGWIDTH (lit "19");;
  set w6 EMO_FIELD_IMGX (lit "64");;
  set w6 EMO_FIELD_IMGY (lit "1");;
  set w6 EMO_FIELD_REFERENCE (lit "clock");;
  w5 ← in_world dataobject_new;
  in_world (dataobject_pack (Some w4) (Some w5));;
  set w5 EMO_FIELD_TYPE (lit "setitem");;
  set_uint w5 EMO_FIELD_FIELDVALUE 7;;
  w6 ← in_world dataobject_new;
  in_world (dataobject_pack (Some w5) (Some w6));;
  set w6 EMO_FIELD_TYPE (lit "image");;
  set w6 EMO_FIELD_IMGHEIGHT (lit "40");;
  set w6 EMO_FIELD_IMGWIDTH (lit "20");;
  set w6 EMO_FIELD_IMGX (lit "46");;
  set w6 EMO_FIELD_IMGY (lit "1");;
  set w6 EMO_FIELD_MARGINTOP (lit "2");;
  set w6 EMO_FIELD_REFERENCE (lit "clock");;
  w5 ← in_world dataobject_new;
  in_world (dataobject_pack (Some w4) (Some w5));;
  set w5 EMO_FIELD_TYPE (lit "setitem");;
  set_uint w5 EMO_FIELD_FIELDVALUE 8;;
  w6 ← in_world dataobject_new;
  in_world (dataobject_pack (Some w5) (Some w6));;
  set w6 EMO_FIELD_TYPE (lit "image");;
  set w6 EMO_FIELD_IMGHEIGHT (lit "53");;
  set w6 EMO_FIELD_IMGWIDTH (lit "20");;
  set w6 EMO_FIELD_IMGX (lit "24");;
  set w6 EMO_FIELD_IMGY (lit "1");;
  set w6 EMO_FIELD_REFERENCE (lit "clock");;
  w5 ← in_world dataobject_new;
  in_world (dataobject_pack (Some w4) (Some w5));;
  set w5 EMO_FIELD_TYPE (lit "setitem");;
  set_uint w5 EMO_FIELD_FIELDVALUE 9;;
  w6 ← in_world dataobject_new;
  in_world (dataobject_pack (Some w5) (Some w6));;
  set w6 EMO_FIELD_TYPE (lit "image");;
  set w6 EMO_FIELD_IMGHEIGHT (lit "53");;
  set w6 EMO_FIELD_IMGWIDTH (lit "19");;
  set w6 EMO_FIELD_IMGX (lit "6");;
  set w6 EMO_FIELD_IMGY (lit "1");;
  set w6 EMO_FIELD_REFERENCE (lit "clock");;
  w5 ← in_world dataobject_new;
  in_world (dataobject_pack (Some w4) (Some w5));;
  set w5 EMO_FIELD_TYPE (lit "setitem").

Definition boot_M1 (w3 : oloc) : UM () :=
  w4 ← in_world dataobject_new;
  in_world (dataobject_pack (Some w3) (Some w4));;
  set w4 EMO_FIELD_TYPE (lit "set");;
  set w4 EMO_FIELD_FIELDNAME (lit "M1");;
  set w4 EMO_FIELD_REFERENCE (lit "system://local/time");;
  set w4 EMO_FIELD_X (lit "256");;
  set w4 EMO_FIELD_Y (lit "42");;
  w5 ← in_world dataobject_new;
  in_world (dataobject_pack (Some w4) (Some w5));;
  set w5 EMO_FIELD_TYPE (lit "setitem");;
  set_uint w5 EMO_FIELD_FIELDVALUE 0;;
  w6 ← in_world dataobject_new;
  in_world (dataobject_pack (Some w5) (Some w6));;
  set w6 EMO_FIELD_TYPE (lit "image");;
  set w6 EMO_FIELD_IMGHEIGHT (lit "62");;
  set w6 EMO_FIELD_IMGWIDTH (lit "28");;
  set w6 EMO_FIELD_IMGX (lit "132");;
  set w6 EMO_FIELD_IMGY (lit "54");;
  set w6 EMO_FIELD_REFERENCE (lit "clock");;
  w5 ← in_world dataobject_new;
  in_world (dataobject_pack (Some w4) (Some w5));;
  set w5 EMO_FIELD_TYPE (lit "setitem");;
  set_uint w5 EMO_FIELD_FIELDVALUE 1;;
  w6 ← in_world dataobject_new;
  in_world (dataobject_pack (Some w5) (Some w6));;
  set w6 EMO_FIELD_TYPE (lit "image");;
  set w6 EMO_FIELD_IMGHEIGHT (lit "47");;
  set w6 EMO_FIELD_IMGWIDTH (lit "14");;
  set w6 EMO_FIELD_IMGX (lit "116");;
  set w6 EMO_FIELD_IMGY (lit "57");;
  set w6 EMO_FIELD_MARGINLEFT (lit "14");;
  set w6 EMO_FIELD_REFERENCE (lit "clock");;
  w5 ← in_world dataobject_new;
  in_world (dataobject_pack (Some w4) (Some w5));;
  set w5 EMO_FIELD_TYPE (lit "setitem");;
  set_uint w5 EMO_FIELD_FIELDVALUE 2;;
  w6 ← in_world dataobject_new;
  in_world (dataobject_pack (Some w5) (Some w6));;
  set w6 EMO_FIELD_TYPE (lit "image");;
  set w6 EMO_FIELD_IMGHEIGHT (lit "66");;
  set w6 EMO_FIELD_IMGWIDTH (lit "26");;
  set w6 EMO_FIELD_IMGX (lit "88");;
  set w6 EMO_FIELD_IMGY (lit "55");;
  set w6 EMO_FIELD_REFERENCE (lit "clock");;
  w5 ← in_world dataobject_new;
  in_world (dataobject_pack (Some w4) (Some w5));;
  set w5 EMO_FIELD_TYPE (lit "setitem");;
  set_uint w5 EMO_FIELD_FIELDVALUE 3;;
  w6 ← in_world dataobject_new;
  in_world (dataobject_pack (Some w5) (Some w6));;
  set w6 EMO_FIELD_TYPE (lit "image");;
  set w6 EMO_FIELD_IMGHEIGHT (lit "66");;
  set w6 EMO_FIELD_IMGWIDTH (lit "28");;
  set w6 EMO_FIELD_IMGX (lit "60");;
  set w6 EMO_FIELD_IMGY (lit "55");;
  set w6 EMO_FIELD_REFERENCE (lit "clock");;
  w5 ← in_world dataobject_new;
  in_world (dataobject_pack (Some w4) (Some w5));;
  set w5 EMO_FIELD_TYPE (lit "setitem");;
  set_uint w5 EMO_FIELD_FIELDVALUE 4;;
  w6 ← in_world dataobject_new;
  in_world (dataobject_pack (Some w5) (Some w6));;
  set w6 EMO_FIELD_TYPE (lit "image");;
  set w6 EMO_FIELD_IMGHEIGHT (lit "47");;
  set w6 EMO_FIELD_IMGWIDTH (lit "27");;
  set w6 EMO_FIELD_IMGX (lit "32");;
  set w6 EMO_FIELD_IMGY (lit "57");;
  set w6 EMO_FIELD_REFERENCE (lit "clock");;
  w5 ← in_world dataobject_new;
  in_world (dataobject_pack (Some w4) (Some w5));;
  set w5 EMO_FIELD_TYPE (lit "setitem");;
  set_uint w5 EMO_FIELD_FIELDVALUE 5;;
  w6 ← in_world dataobject_new;
  in_world (dataobject_pack (Some w5) (Some w6));;
  set w6 EMO_FIELD_TYPE (lit "image");;
  set w6 EMO_FIELD_IMGHEIGHT (lit "61");;
  set w6 EMO_FIELD_IMGWIDTH (lit "29");;
  set w6 EMO_FIELD_IMGX (lit "2");;
  set w6 EMO_FIELD_IMGY (lit "57");;
  set w6 EMO_FIELD_REFERENCE (lit "clock").

Definition boot_M2 (w3 : oloc) : UM () :=
  w4 ← in_world dataobject_new;
  in_world (dataobject_pack (Some w3) (Some w4));;
  set w4 EMO_FIELD_TYPE (lit "set");;
  set w4 EMO_FIELD_FIELDNAME (lit "M2");;
  set w4 EMO_FIELD_REFERENCE (lit "system://local/time");;
  set w4 EMO_FIELD_X (lit "280");;
  set w4 EMO_FIELD_Y (lit "5");;
  w5 ← in_world dataobject_new;
  in_world (dataobject_pack (Some w4) (Some w5));;
  set w5 EMO_FIELD_TYPE (lit "setitem");;
  set_uint w5 EMO_FIELD_FIELDVALUE 0;;
  w6 ← in_world dataobject_new;
  in_world (dataobject_pack (Some w5) (Some w6));;
  set w6 EMO_FIELD_TYPE (lit "image");;
  set w6 EMO_FIELD_IMGHEIGHT (lit "76");;
  set w6 EMO_FIELD_IMGWIDTH (lit "37");;
  set w6 EMO_FIELD_IMGX (lit "356");;
  set w6 EMO_FIELD_IMGY (lit "127");;
  set w6 EMO_FIELD_REFERENCE (lit "clock");;
  w5 ← in_world dataobject_new;
  in_world (dataobject_pack (Some w4) (Some w5));;
  set w5 EMO_FIELD_TYPE (lit "setitem");;
  set_uint w5 EMO_FIELD_FIELDVALUE 1;;
  w6 ← in_world dataobject_new;
  in_world (dataobject_pack (Some w5) (Some w6));;
  set w6 EMO_FIELD_TYPE (lit "image");;
  set w6 EMO_FIELD_IMGHEIGHT (lit "51");;
  set w6 EMO_FIELD_IMGWIDTH (lit "22");;
  set w6 EMO_FIELD_IMGX (lit "332");;
  set w6 EMO_FIELD_IMGY (lit "133");;
  set w6 EMO_FIELD_MARGINLEFT (lit "12");;
  set w6 EMO_FIELD_MARGINTOP (lit "15");;
  set w6 EMO_FIELD_REFERENCE (lit "clock");;
  w5 ← in_world dataobject_new;
  in_world (dataobject_pack (Some w4) (Some w5));;
  set w5 EMO_FIELD_TYPE (lit "setitem");;
  set_uint w5 EMO_FIELD_FIELDVALUE 2;;
  w6 ← in_world dataobject_new;
  in_world (dataobject_pack (Some w5) (Some w6));;
  set w6 EMO_FIELD_TYPE (lit "image");;
  set w6 EMO_FIELD_IMGHEIGHT (lit "76");;
  set w6 EMO_FIELD_IMGWIDTH (lit "38");;
  set w6 EMO_FIELD_IMGX (lit "292");;
  set w6 EMO_FIELD_IMGY (lit "129");;
  set w6 EMO_FIELD_REFERENCE (lit "clock");;
  w5 ← in_world dataobject_new;
  in_world (dataobject_pack (Some w4) (Some w5));;
  set w5 EMO_FIELD_TYPE (lit "setitem");;
  set_uint w5 EMO_FIELD_FIELDVALUE 3;;
  w6 ← in_world dataobject_new;
  in_world (dataobject_pack (Some w5) (Some w6));;
  set w6 EMO_FIELD_TYPE (lit "image");;
  set w6 EMO_FIELD_IMGHEIGHT (lit "77");;
  set w6 EMO_FIELD_IMGWIDTH (lit "38");;
  set w6 EMO_FIELD_IMGX (lit "252");;
  set w6 EMO_FIELD_IMGY (lit "129");;
  set w6 EMO_FIELD_REFERENCE (lit "clock");;
  w5 ← in_world dataobject_new;
  in_world (dataobject_pack (Some w4) (Some w5));;
  set w5 EMO_FIELD_TYPE (lit "setitem");;
  set_uint w5 EMO_FIELD_FIELDVALUE 4;;
  w6 ← in_world dataobject_new;
  in_world (dataobject_pack (Some w5) (Some w6));;
  set w6 EMO_FIELD_TYPE (lit "image");;
  set w6 EMO_FIELD_IMGHEIGHT (lit "55");;
  set w6 EMO_FIELD_IMGWIDTH (lit "40");;
  set w6 EMO_FIELD_IMGX (lit "212");;
  set w6 EMO_FIELD_IMGY (lit "129");;
  set w6 EMO_FIELD_REFERENCE (lit "clock");;
  w5 ← in_world dataobject_new;
  in_world (dataobject_pack (Some w4) (Some w5));;
  set w5 EMO_FIELD_TYPE (lit "setitem");;
  set_uint w5 EMO_FIELD_FIELDVALUE 5;;
  w6 ← in_world dataobject_new;
  in_world (dataobject_pack (Some w5) (Some w6));;
  set w6 EMO_FIELD_TYPE (lit "image");;
  set w6 EMO_FIELD_IMGHEIGHT (lit "80");;
  set w6 EMO_FIELD_IMGWIDTH (lit "42");;
  set w6 EMO_FIELD_IMGX (lit "170");;
  set w6 EMO_FIELD_IMGY (lit "125");;
  set w6 EMO_FIELD_REFERENCE (lit "clock");;
  w5 ← in_world dataobject_new;
  in_world (dataobject_pack (Some w4) (Some w5));;
  set w5 EMO_FIELD_TYPE (lit "setitem");;
  set_uint w5 EMO_FIELD_FIELDVALUE 6;;
  w6 ← in_world dataobject_new;
  in_world (dataobject_pack (Some w5) (Some w6));;
  set w6 EMO_FIELD_TYPE (lit "image");;
  set w6 EMO_FIELD_IMGHEIGHT (lit "76");;
  set w6 EMO_FIELD_IMGWIDTH (lit "40");;
  set w6 EMO_FIELD_IMGX (lit "128");;
  set w6 EMO_FIELD_IMGY (lit "125");;
  set w6 EMO_FIELD_REFERENCE (lit "clock");;
  w5 ← in_world dataobject_new;
  in_world (dataobject_pack (Some w4) (Some w5));;
  set w5 EMO_FIELD_TYPE (lit "setitem");;
  set_uint w5 EMO_FIELD_FIELDVALUE 7;;
  w6 ← in_world dataobject_new;
  in_world (dataobject_pack (Some w5) (Some w6));;
  set w6 EMO_FIELD_TYPE (lit "image");;
  set w6 EMO_FIELD_IMGHEIGHT (lit "53");;
  set w6 EMO_FIELD_IMGWIDTH (lit "39");;
  set w6 EMO_FIELD_IMGX (lit "88");;
  set w6 EMO_FIELD_IMGY (lit "128");;
  set w6 EMO_FIELD_MARGINTOP (lit "5");;
  set w6 EMO_FIELD_REFERENCE (lit "clock");;
  w5 ← in_world dataobject_new;
  in_world (dataobject_pack (Some w4) (Some w5));;
  set w5 EMO_FIELD_TYPE (lit "setitem");;
  set_uint w5 EMO_FIELD_FIELDVALUE 8;;
  w6 ← in_world dataobject_new;
  in_world (dataobject_pack (Some w5) (Some w6));;
  set w6 EMO_FIELD_TYPE (lit "image");;
  set w6 EMO_FIELD_IMGHEIGHT (lit "77");;
  set w6 EMO_FIELD_IMGWIDTH (lit "37");;
  set w6 EMO_FIELD_IMGX (lit "48");;
  set w6 EMO_FIELD_IMGY (lit "128");;
  set w6 EMO_FIELD_REFERENCE (lit "clock");;
  w5 ← in_world dataobject_new;
  in_world (dataobject_pack (Some w4) (Some w5));;
  set w5 EMO_FIELD_TYPE (lit "setitem");;
  set_uint w5 EMO_FIELD_FIELDVALUE 9;;
  w6 ← in_world dataobject_new;
  in_world (dataobject_pack (Some w5) (Some w6));;
  set w6 EMO_FIELD_TYPE (lit "image");;
  set w6 EMO_FIELD_IMGHEIGHT (lit "76");;
  set w6 EMO_FIELD_IMGWIDTH (lit "44");;
  set w6 EMO_FIELD_IMGX (lit "2");;
  set w6 EMO_FIELD_IMGY (lit "127");;
  set w6 EMO_FIELD_REFERENCE (lit "clock").

Definition boot_icons (w0 : oloc) : UM () :=
  w1 ← dobjFromFile (lit "hello.png") (Some w0);
  set w1 EMO_FIELD_NAME (lit "img1");;
  set_value w1 (lit "title") (text_lines ["Text";
    "Messaging"]);;
  w1 ← dobjFromFile (lit "calc.png") (Some w0);
  set w1 EMO_FIELD_NAME (lit "img2");;
  set_value w1 (lit "title") (lit "Calculator");;
  w1 ← dobjFromFile (lit "maps.png") (Some w0);
  set w1 EMO_FIELD_NAME (lit "img3");;
  set_value w1 (lit "title") (lit "Maps");;
  w1 ← dobjFromFile (lit "aim.png") (Some w0);
  set w1 EMO_FIELD_NAME (lit "img4");;
  set_value w1 (lit "title") (text_lines ["Instant";
    "Messenger"]);;
  w1 ← dobjFromFile (lit "netsurf.png") (Some w0);
  set w1 EMO_FIELD_NAME (lit "img5");;
  set_value w1 (lit "title") (text_lines ["Web";
    "Browser"]);;
  w1 ← dobjFromFile (lit "weather.png") (Some w0);
  set w1 EMO_FIELD_NAME (lit "img6");;
  set_value w1 (lit "title") (lit "Weather").

Definition boot_appmenu (w0 : oloc) : UM oloc :=
  w1 ← in_world dataobject_new;
  in_world (dataobject_pack (Some w0) (Some w1));;
  set w1 EMO_FIELD_TYPE (lit "view");;
  set w1 EMO_FIELD_HEIGHT (lit "240");;
  set w1 EMO_FIELD_NAME (lit "appmenu");;
  set w1 EMO_FIELD_PACKING (lit "vertical");;
  set w1 EMO_FIELD_WIDTH (lit "320");;
  w2 ← in_world dataobject_new;
  in_world (dataobject_pack (Some w1) (Some w2));;
  set w2 EMO_FIELD_TYPE (lit "box");;
  set w2 EMO_FIELD_ID (lit "solid");;
  set w2 EMO_FIELD_X (lit "0");;
  set w2 EMO_FIELD_Y (lit "0");;
  set w2 EMO_FIELD_WIDTH (lit "320");;
  set w2 EMO_FIELD_HEIGHT (lit "240");;
  set w2 EMO_FIELD_BACKGROUND_COLOR (lit "#000000FF");;
  set w2 EMO_FIELD_ACCESSKEY (lit "BACK");;
  set w2 EMO_FIELD_ONRETURN (text_lines ["dobj = DataObject.find(`mainview`);dobj:toScreen()"]);;
  w4 ← dobjFromFile (lit "glow.png") (Some w2);
  set w4 EMO_FIELD_X (lit "86");;
  set w4 EMO_FIELD_Y (lit "59");;
  w3 ← in_world dataobject_new;
  in_world (dataobject_pack (Some w4) (Some w3));;
  set w3 EMO_FIELD_TYPE (lit "stack");;
  set w3 EMO_FIELD_ACCESSKEY (lit "ACTIVATE");;
  set w3 EMO_FIELD_HEIGHT (lit "100%");;
  set w3 EMO_FIELD_ONRETURN (lit "launch()");;
  set w3 EMO_FIELD_WIDTH (lit "100%");;
  mret w3.

Definition boot_menu_items (w3 : oloc) : UM () :=
  w4 ← in_world dataobject_new;
  in_world (dataobject_pack (Some w3) (Some w4));;
  set w4 EMO_FIELD_TYPE (lit "text");;
  set w4 EMO_FIELD_X (lit "126");;
  set w4 EMO_FIELD_Y (lit "100");;
  set w4 EMO_FIELD_WIDTH (lit "80");;
  set w4 EMO_FIELD_FONT_COLOR (lit "#FFF");;
  set w4 EMO_FIELD_NAME (lit "appTitle");;
  set w4 EMO_FIELD_MULTILINE (lit "1");;
  set w4 EMO_FIELD_DATA (text_lines ["     <b>Text";
    "Messaging"]);;
  w4 ← in_world dataobject_new;
  in_world (dataobject_pack (Some w3) (Some w4));;
  set w4 EMO_FIELD_TYPE (lit "image");;
  set w4 EMO_FIELD_NAME (lit "app1");;
  set w4 EMO_FIELD_REFERENCE (lit "img1");;
  set w4 EMO_FIELD_X (lit "130");;
  set w4 EMO_FIELD_Y (lit "13");;
  w4 ← in_world dataobject_new;
  in_world (dataobject_pack (Some w3) (Some w4));;
  set w4 EMO_FIELD_TYPE (lit "image");;
  set w4 EMO_FIELD_ACCESSKEY (lit "NEXT");;
  set w4 EMO_FIELD_ALPHA (lit "222");;
  set w4 EMO_FIELD_NAME (lit "app2");;
  set w4 EMO_FIELD_ONRETURN (lit "focusNext()");;
  set w4 EMO_FIELD_REFERENCE (lit "img2");;
  set w4 EMO_FIELD_X (lit "203");;
  set w4 EMO_FIELD_Y (lit "57");;
  w4 ← in_world dataobject_new;
  in_world (dataobject_pack (Some w3) (Some w4));;
  set w4 EMO_FIELD_TYPE (lit "image");;
  set w4 EMO_FIELD_ACCESSKEY (lit "PREV");;
  set w4 EMO_FIELD_ALPHA (lit "189");;
  set w4 EMO_FIELD_NAME (lit "app3");;
  set w4 EMO_FIELD_ONRETURN (lit "focusPrev()");;
  set w4 EMO_FIELD_REFERENCE (lit "img3");;
  set w4 EMO_FIELD_X (lit "203");;
  set w4 EMO_FIELD_Y (lit "127");;
  w4 ← in_world dataobject_new;
  in_world (dataobject_pack (Some w3) (Some w4));;
  set w4 EMO_FIELD_TYPE (lit "image");;
  set w4 EMO_FIELD_ALPHA (lit "156");;
  set w4 EMO_FIELD_NAME (lit "app4");;
  set w4 EMO_FIELD_REFERENCE (lit "img4");;
  set w4 EMO_FIELD_X (lit "130");;
  set w4 EMO_FIELD_Y (lit "172");;
  w4 ← in_world dataobject_new;
  in_world (dataobject_pack (Some w3) (Some w4));;
  set w4 EMO_FIELD_TYPE (lit "image");;
  set w4 EMO_FIELD_ALPHA (lit "123");;
  set w4 EMO_FIELD_NAME (lit "app5");;
  set w4 EMO_FIELD_REFERENCE (lit "img5");;
  set w4 EMO_FIELD_X (lit "58");;
  set w4 EMO_FIELD_Y (lit "127");;
  w4 ← in_world dataobject_new;
  in_world (dataobject_pack (Some w3) (Some w4));;
  set w4 EMO_FIELD_TYPE (lit "image");;
  set w4 EMO_FIELD_ALPHA (lit "90");;
  set w4 EMO_FIELD_NAME (lit "app6");;
  set w4 EMO_FIELD_REFERENCE (lit "img6");;
  set w4 EMO_FIELD_X (lit "58");;
  set w4 EMO_FIELD_Y (lit "57").

Definition BootApplication (w0 : option oloc) : UM oloc :=
  match w0 with
  | Some w0 => mret w0
  | None =>
      w0 ← in_world dataobject_new;
      boot_attributes w0;; boot_script w0;; boot_style w0;;
      w3 ← boot_mainview w0; boot_H1 w3;; boot_H2 w3;; boot_M1 w3;; boot_M2 w3;;
      boot_icons w0;;
      w3 ← boot_appmenu w0; boot_menu_items w3;;
      mret w0
  end.

(** ** RootApplication.c *)

(** The root view and the bar at its top. *)
Definition root_topbar (output : oloc) : UM (oloc * oloc) :=
  set output EMO_FIELD_TYPE (lit "application");;
  set output EMO_FIELD_NAME (lit "Boot Manager");;
  set output EMO_FIELD_DESCRIPTION (lit "Construct program for loading other programs");;
  set output EMO_FIELD_ICON (lit "appicon");;
  set output EMO_FIELD_STARTUPVIEW (lit "rootview");;
  root ← widget_newTypeIdName (Some (lit "view")) None (Some (lit "rootview")) (Some output);
  widget_setPacking (Some root) WP_VERTICAL;;
  dobj1 ← widget_newTypeIdName (Some (lit "box")) (Some (lit "darkgradbox")) (Some (lit "topbar")) (Some root);
  set dobj1 EMO_FIELD_WIDTH (lit "320");;
  set dobj1 EMO_FIELD_HEIGHT (lit "25");;
  widget_setPacking (Some dobj1) WP_HORIZONTAL;;
  mret (root, dobj1).

Definition root_signal (dobj1 : oloc) : UM () :=
  signalstack ← widget_newTypeIdName (Some (lit "stack")) None None (Some dobj1);
  setw ← widget_newTypeIdName (Some (lit "set")) None None (Some signalstack);
  set setw EMO_FIELD_FIELDNAME (lit "signal-level");;
  set setw EMO_FIELD_REFERENCE (lit "system://local/gprs");;
  setiw ← widget_newTypeIdName (Some (lit "setitem")) None None (Some setw);
  set_uint setiw EMO_FIELD_FIELDVALUE 0;;
  _ ← dobjFromFile (lit "signal0.png") (Some setiw);
  setiw ← widget_newTypeIdName (Some (lit "setitem")) None None (Some setw);
  set_uint setiw EMO_FIELD_FIELDVALUE 1;;
  _ ← dobjFromFile (lit "signal1.png") (Some setiw);
  setiw ← widget_newTypeIdName (Some (lit "setitem")) None None (Some setw);
  set_uint setiw EMO_FIELD_FIELDVALUE 2;;
  _ ← dobjFromFile (lit "signal2.png") (Some setiw);
  setiw ← widget_newTypeIdName (Some (lit "setitem")) None None (Some setw);
  set_uint setiw EMO_FIELD_FIELDVALUE 3;;
  _ ← dobjFromFile (lit "signal3.png") (Some setiw);
  setiw ← widget_newTypeIdName (Some (lit "setitem")) None None (Some setw);
  set_uint setiw EMO_FIELD_FIELDVALUE 4;;
  _ ← dobjFromFile (lit "signal4.png") (Some setiw);
  mret ().

Definition root_gprs (dobj1 : oloc) : UM () :=
  gprsstack ← widget_newTypeIdName (Some (lit "stack")) None None (Some dobj1);
  setw ← widget_newTypeIdName (Some (lit "set")) None None (Some gprsstack);
  set setw EMO_FIELD_FIELDNAME (lit "gprs-on");;
  set setw EMO_FIELD_REFERENCE (lit "system://local/gprs");;
  setiw ← widget_newTypeIdName (Some (lit "setitem")) None None (Some setw);
  set_uint setiw EMO_FIELD_FIELDVALUE 0;;
  _ ← dobjFromFile (lit "edge_off.png") (Some setiw);
  setiw ← widget_newTypeIdName (Some (lit "setitem")) None None (Some setw);
  set_uint setiw EMO_FIELD_FIELDVALUE 1;;
  _ ← dobjFromFile (lit "edge_on.png") (Some setiw);
  mret ().

Definition root_emobiix (dobj1 : oloc) : UM () :=
  emostack ← widget_newTypeIdName (Some (lit "stack")) None None (Some dobj1);
  setw ← widget_newTypeIdName (Some (lit "set")) None None (Some emostack);
  set setw EMO_FIELD_MARGINTOP (lit "6");;
  set setw EMO_FIELD_FIELDNAME (lit "emobiix-on");;
  set setw EMO_FIELD_REFERENCE (lit "system://local/gprs");;
  setiw ← widget_newTypeIdName (Some (lit "setitem")) None None (Some setw);
  set_uint setiw EMO_FIELD_FIELDVALUE 0;;
  _ ← dobjFromFile (lit "emo_off.png") (Some setiw);
  setiw ← widget_newTypeIdName (Some (lit "setitem")) None None (Some setw);
  set_uint setiw EMO_FIELD_FIELDVALUE 1;;
  _ ← dobjFromFile (lit "emo_on.png") (Some setiw);
  mret ().

Definition root_time (dobj1 : oloc) : UM () :=
  setw ← widget_newTypeIdName (Some (lit "box")) None None (Some dobj1);
  widget_setPacking (Some setw) WP_VERTICAL;;
  set setw EMO_FIELD_WIDTH (lit "200");;
  settd ← widget_newTypeIdName (Some (lit "label")) None None (Some setw);
  set settd EMO_FIELD_REFERENCE (lit "system://local/time");;
  set settd EMO_FIELD_WEIGHT (lit "bold");;
  set settd EMO_FIELD_FONT_COLOR (lit "#FFFFFF00");;
  set settd EMO_FIELD_ALIGNMENT (lit "center");;
  set settd EMO_FIELD_MARGINTOP (lit "4").

Definition root_battery (dobj1 : oloc) : UM () :=
  batterystack ← widget_newTypeIdName (Some (lit "stack")) None None (Some dobj1);
  setw ← widget_newTypeIdName (Some (lit "set")) None None (Some batterystack);
  set setw EMO_FIELD_MARGINLEFT (lit "33");;
  set setw EMO_FIELD_FIELDNAME (lit "charge-level");;
  set setw EMO_FIELD_REFERENCE (lit "system://local/battery");;
  setiw ← widget_newTypeIdName (Some (lit "setitem")) None None (Some setw);
  set_uint setiw EMO_FIELD_FIELDVALUE 0;;
  _ ← dobjFromFile (lit "battery0.png") (Some setiw);
  setiw ← widget_newTypeIdName (Some (lit "setitem")) None None (Some setw);
  set_uint setiw EMO_FIELD_FIELDVALUE 1;;
  _ ← dobjFromFile (lit "battery1.png") (Some setiw);
  setiw ← widget_newTypeIdName (Some (lit "setitem")) None None (Some setw);
  set_uint setiw EMO_FIELD_FIELDVALUE 2;;
  _ ← dobjFromFile (lit "battery2.png") (Some setiw);
  setiw ← widget_newTypeIdName (Some (lit "setitem")) None None (Some setw);
  set_uint setiw EMO_FIELD_FIELDVALUE 3;;
  _ ← dobjFromFile (lit "battery3.png") (Some setiw);
  setiw ← widget_newTypeIdName (Some (lit "setitem")) None None (Some setw);
  set_uint setiw EMO_FIELD_FIELDVALUE 4;;
  _ ← dobjFromFile (lit "battery4.png") (Some setiw);
  setiw ← widget_newTypeIdName (Some (lit "setitem")) None None (Some setw);
  set_uint setiw EMO_FIELD_FIELDVALUE 5;;
  _ ← dobjFromFile (lit "battery5.png") (Some setiw);
  setiw ← widget_newTypeIdName (Some (lit "setitem")) None None (Some setw);
  set_uint setiw EMO_FIELD_FIELDVALUE 6;;
  _ ← dobjFromFile (lit "battery6.png") (Some setiw);
  mret ().

Definition root_application_box (root : oloc) : UM () :=
  dobj1 ← widget_newTypeIdName (Some (lit "box")) None None (Some root);
  set dobj1 EMO_FIELD_WIDTH (lit "320");;
  set dobj1 EMO_FIELD_HEIGHT (lit "215");;
  widget_setPacking (Some dobj1) WP_VERTICAL;;
  dobj2 ← widget_newTypeIdName (Some (lit "stack")) None None (Some dobj1);
  set dobj2 EMO_FIELD_WIDTH (lit "320");;
  set dobj2 EMO_FIELD_HEIGHT (lit "215");;
  widget_setPacking (Some dobj2) WP_VERTICAL;;
  frame_ ← widget_newTypeIdName (Some (lit "frame")) None (Some (lit "placeholder")) (Some dobj2);
  set frame_ EMO_FIELD_WIDTH (lit "320");;
  set frame_ EMO_FIELD_HEIGHT (lit "215");;
  widget_setPacking (Some frame_) WP_VERTICAL;;
  frame_ ← widget_newTypeIdName (Some (lit "box")) None (Some (lit "menuholder")) (Some dobj2);
  set frame_ EMO_FIELD_WIDTH (lit "320");;
  set frame_ EMO_FIELD_HEIGHT (lit "215");;
  widget_setPacking (Some frame_) WP_VERTICAL;;
  frame_ ← widget_newTypeIdName (Some (lit "reference")) None (Some (lit "dialogholder")) (Some dobj2);
  set frame_ EMO_FIELD_WIDTH (lit "320");;
  set frame_ EMO_FIELD_HEIGHT (lit "215");;
  widget_setPacking (Some frame_) WP_VERTICAL.

Definition RootApplication (output : option oloc) : UM oloc :=
  match output with
  | Some output => mret output
  | None =>
      output ← in_world dataobject_new;
      '(root, dobj1) ← root_topbar output;
      root_signal dobj1;; root_gprs dobj1;; root_emobiix dobj1;; root_time dobj1;; root_battery dobj1;;
      root_application_box root;;
      mret output
  end.

(** ** StaticApplications.c *)

Definition loading_objects (output : oloc) : UM () :=
  set output EMO_FIELD_TYPE (lit "application");;
  set output EMO_FIELD_NAME (lit "Load Screen");;
  set output EMO_FIELD_DESCRIPTION (lit "load mobile");;
  set output EMO_FIELD_STARTUPVIEW (lit "mainview");;
  set output EMO_FIELD_FULLSCREEN (lit "true");;
  root ← widget_newTypeIdName (Some (lit "view")) None (Some (lit "mainview")) (Some output);
  widget_setPacking (Some root) WP_VERTICAL;;
  dobj1 ← widget_newTypeIdName (Some (lit "box")) (Some (lit "gradbox")) None (Some root);
  set dobj1 EMO_FIELD_WIDTH (lit "320");;
  set dobj1 EMO_FIELD_HEIGHT (lit "240");;
  set dobj1 EMO_FIELD_ALIGNMENT (lit "center");;
  widget_setPacking (Some dobj1) WP_VERTICAL;;
  setw ← widget_newTypeIdName (Some (lit "label")) None None (Some dobj1);
  set setw EMO_FIELD_DATA (lit "Downloading Application");;
  set setw EMO_FIELD_ALIGNMENT (lit "center").

Definition LoadingApplication (output : option oloc) : UM oloc :=
  match output with
  | Some output => mret output
  | None => output ← in_world dataobject_new; loading_objects output;; mret output
  end.

Definition lock_objects (output : oloc) : UM () :=
  set output EMO_FIELD_TYPE (lit "application");;
  set output EMO_FIELD_NAME (lit "Lock Screen");;
  set output EMO_FIELD_DESCRIPTION (lit "Lock screen for mobile");;
  set output EMO_FIELD_STARTUPVIEW (lit "mainview");;
  set output EMO_FIELD_FULLSCREEN (lit "true");;
  root ← widget_newTypeIdName (Some (lit "view")) None (Some (lit "mainview")) (Some output);
  widget_setPacking (Some root) WP_VERTICAL;;
  dobj1 ← dobjFromFile (lit "background.png") (Some root);
  widget_setPacking (Some dobj1) WP_VERTICAL.

Definition LockApplication (output : option oloc) : UM oloc :=
  match output with
  | Some output => mret output
  | None => output ← in_world dataobject_new; lock_objects output;; mret output
  end.
End Screens.

(** ** RootStyle.c *)

Definition font_object : UM oloc :=
  fontObject1 ← in_world dataobject_new;
  set fontObject1 EMO_FIELD_TYPE (lit "font");;
  set fontObject1 EMO_FIELD_DATA (lit "DroidSans.ttf");;
  mret fontObject1.

(** The gradient of the renderer. *)
Definition gradient_new : list GradientStop := [].
Definition gradient_addStop (g : list GradientStop) (position : Z) (color : Color) : list GradientStop :=
  g ++ [mkStop position color].
Definition defaultGradient : list GradientStop :=
  let g := gradient_addStop gradient_new 0 (color_of_value 0xF9F9F9FF) in
  let g := gradient_addStop g 50 (color_of_value 0xC9C9C9FF) in
  let g := gradient_addStop g 50 (color_of_value 0xB1B1B1FF) in
  gradient_addStop g 100 (color_of_value 0xDEDEDEFF).

Definition style_entry (defaultStyle : oloc) : UM () :=
  solidbox ← widget_newTypeIdName (Some (lit "entry")) None None (Some defaultStyle);
  set solidbox EMO_FIELD_RENDERER (lit "entry");;
  set_int solidbox EMO_FIELD_FONT_COLOR 0;;
  set_int solidbox EMO_FIELD_MARGIN 2;;
  set solidbox EMO_FIELD_MULTILINE (lit "0");;
  set solidbox EMO_FIELD_BOX_RENDERER (lit "box");;
  set solidbox EMO_FIELD_ROUNDED (lit "1234");;
  set_int solidbox EMO_FIELD_BACKGROUND_COLOR 0xFFFFFFFF;;
  set solidbox EMO_FIELD_BORDER_CORNERS (lit "1234");;
  set_uint solidbox EMO_FIELD_BORDER_COLOR 0x696969FF;;
  set solidbox EMO_FIELD_BORDER (lit "1234");;
  set solidbox EMO_FIELD_FILL (lit "solid").

Definition style_entry_focused (defaultStyle : oloc) : UM () :=
  solidbox ← widget_newTypeIdName (Some (lit "entry")) None None (Some defaultStyle);
  widget_setFocus (Some solidbox) true;;
  set solidbox EMO_FIELD_RENDERER (lit "entry");;
  set_int solidbox EMO_FIELD_FONT_COLOR 0;;
  set_int solidbox EMO_FIELD_MARGIN 2;;
  set solidbox EMO_FIELD_MULTILINE (lit "0");;
  set solidbox EMO_FIELD_BOX_RENDERER (lit "box");;
  set solidbox EMO_FIELD_ROUNDED (lit "1234");;
  set_int solidbox EMO_FIELD_BACKGROUND_COLOR 0xb7f1ffFF;;
  set solidbox EMO_FIELD_BORDER_CORNERS (lit "1234");;
  set_uint solidbox EMO_FIELD_BORDER_COLOR 0x696969FF;;
  set solidbox EMO_FIELD_BORDER (lit "1234");;
  set solidbox EMO_FIELD_FILL (lit "solid");;
  set_int solidbox EMO_FIELD_CURSOR_COLOR 0x0000FFFF.

Definition style_label_checkbox (defaultStyle : oloc) : UM () :=
  solidbox ← widget_newTypeIdName (Some (lit "label")) None None (Some defaultStyle);
  set solidbox EMO_FIELD_RENDERER (lit "label");;
  set_int solidbox EMO_FIELD_FONT_COLOR 0;;
  solidbox ← widget_newTypeIdName (Some (lit "checkbox")) None None (Some defaultStyle);
  set solidbox EMO_FIELD_RENDERER (lit "checkbox");;
  set solidbox EMO_FIELD_BOX_RENDERER (lit "box");;
  set_uint solidbox EMO_FIELD_BACKGROUND_COLOR 0xFFFFFFFF;;
  set_uint solidbox EMO_FIELD_BORDER_COLOR 0x000000FF;;
  set solidbox EMO_FIELD_BORDER (lit "1234");;
  set solidbox EMO_FIELD_FILL (lit "solid");;
  set_int solidbox EMO_FIELD_CHECK_COLOR 0x5050FFFF;;
  solidbox ← widget_newTypeIdName (Some (lit "checkbox")) None None (Some defaultStyle);
  widget_setFocus (Some solidbox) true;;
  set solidbox EMO_FIELD_RENDERER (lit "checkbox");;
  set solidbox EMO_FIELD_BOX_RENDERER (lit "box");;
  set_uint solidbox EMO_FIELD_BACKGROUND_COLOR 0xCFCFFFFF;;
  set_uint solidbox EMO_FIELD_BORDER_COLOR 0x000000FF;;
  set solidbox EMO_FIELD_BORDER (lit "1234");;
  set solidbox EMO_FIELD_FILL (lit "solid");;
  set_int solidbox EMO_FIELD_CHECK_COLOR 0x5050FFFF.

Definition style_plain (defaultStyle : oloc) : UM () :=
  solidbox ← widget_newTypeIdName (Some (lit "text")) None None (Some defaultStyle);
  set solidbox EMO_FIELD_RENDERER (lit "text");;
  set_int solidbox EMO_FIELD_FONT_COLOR 0;;
  solidbox ← widget_newTypeIdName (Some (lit "scrollbar")) None None (Some defaultStyle);
  set solidbox EMO_FIELD_RENDERER (lit "scrollbar");;
  set_int solidbox EMO_FIELD_THUMB_COLOR 0xAAAAAAFF;;
  set_int solidbox EMO_FIELD_TRACK_COLOR 0x444444FF;;
  solidbox ← widget_newTypeIdName (Some (lit "scrolled")) None None (Some defaultStyle);
  set solidbox EMO_FIELD_RENDERER (lit "scrolled");;
  solidbox ← widget_newTypeIdName (Some (lit "array")) None None (Some defaultStyle);
  set solidbox EMO_FIELD_RENDERER (lit "array");;
  solidbox ← widget_newTypeIdName (Some (lit "image")) None None (Some defaultStyle);
  set solidbox EMO_FIELD_RENDERER (lit "image");;
  solidbox ← widget_newTypeIdName (Some (lit "solid")) None None (Some defaultStyle);
  set solidbox EMO_FIELD_RENDERER (lit "box");;
  set solidbox EMO_FIELD_FILL (lit "solid").

Definition style_gradbox (defaultStyle : oloc) : UM () :=
  gradbox ← widget_newTypeIdName (Some (lit "gradbox")) None None (Some defaultStyle);
  set gradbox EMO_FIELD_RENDERER (lit "box");;
  set gradbox EMO_FIELD_FILL (lit "gradient");;
  set_uint gradbox EMO_FIELD_BACKGROUND_COLOR 0x878787FF;;
  gradient ← widget_newTypeIdName (Some (lit "gradient")) None None (Some gradbox);
  gradientStop ← widget_newTypeIdName (Some (lit "stop")) None None (Some gradient);
  set_int gradientStop EMO_FIELD_POSITION 0;;
  set_uint gradientStop EMO_FIELD_COLOR 0xF9F9F9FF;;
  gradientStop ← widget_newTypeIdName (Some (lit "stop")) None None (Some gradient);
  set_int gradientStop EMO_FIELD_POSITION 50;;
  set_uint gradientStop EMO_FIELD_COLOR 0xC9C9C9FF;;
  gradientStop ← widget_newTypeIdName (Some (lit "stop")) None None (Some gradient);
  set_int gradientStop EMO_FIELD_POSITION 50;;
  set_uint gradientStop EMO_FIELD_COLOR 0xB1B1B1FF;;
  gradientStop ← widget_newTypeIdName (Some (lit "stop")) None None (Some gradient);
  set_int gradientStop EMO_FIELD_POSITION 100;;
  set_uint gradientStop EMO_FIELD_COLOR 0xDEDEDEFF.

Definition style_darkgradbox (defaultStyle : oloc) : UM () :=
  gradbox ← widget_newTypeIdName (Some (lit "darkgradbox")) None None (Some defaultStyle);
  set gradbox EMO_FIELD_RENDERER (lit "box");;
  set gradbox EMO_FIELD_FILL (lit "gradient");;
  set_uint gradbox EMO_FIELD_BACKGROUND_COLOR 0x878787FF;;
  gradient ← widget_newTypeIdName (Some (lit "gradient")) None None (Some gradbox);
  gradientStop ← widget_newTypeIdName (Some (lit "stop")) None None (Some gradient);
  set_int gradientStop EMO_FIELD_POSITION 0;;
  set_uint gradientStop EMO_FIELD_COLOR 0x666666FF;;
  gradientStop ← widget_newTypeIdName (Some (lit "stop")) None None (Some gradient);
  set_int gradientStop EMO_FIELD_POSITION 100;;
  set_uint gradientStop EMO_FIELD_COLOR 0x000000FF.

Definition style_gradboxr (defaultStyle : oloc) : UM () :=
  gradbox ← widget_newTypeIdName (Some (lit "gradboxr")) None None (Some defaultStyle);
  set gradbox EMO_FIELD_RENDERER (lit "box");;
  set gradbox EMO_FIELD_FILL (lit "gradient");;
  set_int gradbox EMO_FIELD_RADIUS 7;;
  set gradbox EMO_FIELD_ROUNDED (lit "1234");;
  set gradbox EMO_FIELD_BORDER (lit "1234");;
  set gradbox EMO_FIELD_BORDER_CORNERS (lit "1234");;
  set_uint gradbox EMO_FIELD_BORDER_COLOR 0x696969FF;;
  gradient ← widget_newTypeIdName (Some (lit "gradient")) None None (Some gradbox);
  gradientStop ← widget_newTypeIdName (Some (lit "stop")) None None (Some gradient);
  set_int gradientStop EMO_FIELD_POSITION 0;;
  set_uint gradientStop EMO_FIELD_COLOR 0xF9F9F9FF;;
  gradientStop ← widget_newTypeIdName (Some (lit "stop")) None None (Some gradient);
  set_int gradientStop EMO_FIELD_POSITION 50;;
  set_uint gradientStop EMO_FIELD_COLOR 0xC9C9C9FF;;
  gradientStop ← widget_newTypeIdName (Some (lit "stop")) None None (Some gradient);
  set_int gradientStop EMO_FIELD_POSITION 50;;
  set_uint gradientStop EMO_FIELD_COLOR 0xB1B1B1FF;;
  gradientStop ← widget_newTypeIdName (Some (lit "stop")) None None (Some gradient);
  set_int gradientStop EMO_FIELD_POSITION 100;;
  set_uint gradientStop EMO_FIELD_COLOR 0xDEDEDEFF.

Definition style_gradboxr_focused (defaultStyle : oloc) : UM () :=
  gradbox ← widget_newTypeIdName (Some (lit "gradboxr")) None None (Some defaultStyle);
  widget_setFocus (Some gradbox) true;;
  set gradbox EMO_FIELD_RENDERER (lit "box");;
  set gradbox EMO_FIELD_FILL (lit "gradient");;
  set_int gradbox EMO_FIELD_RADIUS 7;;
  set gradbox EMO_FIELD_ROUNDED (lit "1234");;
  set gradbox EMO_FIELD_BORDER (lit "1234");;
  set gradbox EMO_FIELD_BORDER_CORNERS (lit "1234");;
  set_uint gradbox EMO_FIELD_BORDER_COLOR 0x696989FF;;
  gradient ← widget_newTypeIdName (Some (lit "gradient")) None None (Some gradbox);
  gradientStop ← widget_newTypeIdName (Some (lit "stop")) None None (Some gradient);
  set_int gradientStop EMO_FIELD_POSITION 0;;
  set_uint gradientStop EMO_FIELD_COLOR 0xF9F9F9FF;;
  gradientStop ← widget_newTypeIdName (Some (lit "stop")) None None (Some gradient);
  set_int gradientStop EMO_FIELD_POSITION 50;;
  set_uint gradientStop EMO_FIELD_COLOR 0x59DFFEFF;;
  gradientStop ← widget_newTypeIdName (Some (lit "stop")) None None (Some gradient);
  set_int gradientStop EMO_FIELD_POSITION 50;;
  set_uint gradientStop EMO_FIELD_COLOR 0x35dcfbFF;;
  gradientStop ← widget_newTypeIdName (Some (lit "stop")) None None (Some gradient);
  set_int gradientStop EMO_FIELD_POSITION 100;;
  set_uint gradientStop EMO_FIELD_COLOR 0xb7f1ffFF.

Definition style_button (defaultStyle : oloc) : UM () :=
  gradbox ← widget_newTypeIdName (Some (lit "button")) None None (Some defaultStyle);
  set_int gradbox EMO_FIELD_MARGIN 2;;
  set gradbox EMO_FIELD_RENDERER (lit "box");;
  set gradbox EMO_FIELD_FILL (lit "gradient");;
  set_int gradbox EMO_FIELD_RADIUS 7;;
  set gradbox EMO_FIELD_ROUNDED (lit "1234");;
  set gradbox EMO_FIELD_BORDER (lit "1234");;
  set gradbox EMO_FIELD_BORDER_CORNERS (lit "1234");;
  set_uint gradbox EMO_FIELD_BORDER_COLOR 0x696969FF;;
  gradient ← widget_newTypeIdName (Some (lit "gradient")) None None (Some gradbox);
  gradientStop ← widget_newTypeIdName (Some (lit "stop")) None None (Some gradient);
  set_int gradientStop EMO_FIELD_POSITION 0;;
  set_uint gradientStop EMO_FIELD_COLOR 0xF9F9F9FF;;
  gradientStop ← widget_newTypeIdName (Some (lit "stop")) None None (Some gradient);
  set_int gradientStop EMO_FIELD_POSITION 50;;
  set_uint gradientStop EMO_FIELD_COLOR 0xC9C9C9FF;;
  gradientStop ← widget_newTypeIdName (Some (lit "stop")) None None (Some gradient);
  set_int gradientStop EMO_FIELD_POSITION 50;;
  set_uint gradientStop EMO_FIELD_COLOR 0xB1B1B1FF;;
  gradientStop ← widget_newTypeIdName (Some (lit "stop")) None None (Some gradient);
  set_int gradientStop EMO_FIELD_POSITION 100;;
  set_uint gradientStop EMO_FIELD_COLOR 0xDEDEDEFF.

Definition style_button_focused (defaultStyle : oloc) : UM () :=
  gradbox ← widget_newTypeIdName (Some (lit "button")) None None (Some defaultStyle);
  widget_setFocus (Some gradbox) true;;
  set gradbox EMO_FIELD_RENDERER (lit "box");;
  set_int gradbox EMO_FIELD_MARGIN 2;;
  set gradbox EMO_FIELD_FILL (lit "gradient");;
  set_int gradbox EMO_FIELD_RADIUS 7;;
  set gradbox EMO_FIELD_ROUNDED (lit "1234");;
  set gradbox EMO_FIELD_BORDER (lit "1234");;
  set gradbox EMO_FIELD_BORDER_CORNERS (lit "1234");;
  set_uint gradbox EMO_FIELD_BORDER_COLOR 0x696989FF;;
  gradient ← widget_newTypeIdName (Some (lit "gradient")) None None (Some gradbox);
  gradientStop ← widget_newTypeIdName (Some (lit "stop")) None None (Some gradient);
  set_int gradientStop EMO_FIELD_POSITION 0;;
  set_uint gradientStop EMO_FIELD_COLOR 0xF9F9F9FF;;
  gradientStop ← widget_newTypeIdName (Some (lit "stop")) None None (Some gradient);
  set_int gradientStop EMO_FIELD_POSITION 50;;
  set_uint gradientStop EMO_FIELD_COLOR 0x59DFFEFF;;
  gradientStop ← widget_newTypeIdName (Some (lit "stop")) None None (Some gradient);
  set_int gradientStop EMO_FIELD_POSITION 50;;
  set_uint gradientStop EMO_FIELD_COLOR 0x35dcfbFF;;
  gradientStop ← widget_newTypeIdName (Some (lit "stop")) None None (Some gradient);
  set_int gradientStop EMO_FIELD_POSITION 100;;
  set_uint gradientStop EMO_FIELD_COLOR 0xb7f1ffFF.

(** The fonts are loaded by FreeType. *)
Definition RootStyle (defaultStyle : option oloc) : UM oloc :=
  match defaultStyle with
  | Some defaultStyle => mret defaultStyle
  | None =>
      _ ← font_object;
      defaultStyle ← in_world dataobject_new;
      set defaultStyle EMO_FIELD_TYPE (lit "style");;
      style_entry defaultStyle;;
      style_entry_focused defaultStyle;;
      style_label_checkbox defaultStyle;;
      style_plain defaultStyle;;
      style_gradbox defaultStyle;;
      style_darkgradbox defaultStyle;;
      style_gradboxr defaultStyle;;
      style_gradboxr_focused defaultStyle;;
      style_button defaultStyle;;
      style_button_focused defaultStyle;;
      mret defaultStyle
  end.
