(* ===== verification/Clock.v ===== *)
(** * time.c (hwtask): the clock of the device and the time of the network

    The network sends the time in UTC and a time zone in quarters of an hour, as a
    decimal number with swapped digits and a sign bit; [nm_signal] adds the zone, with
    the carries into the date, and sets the clock, which counts twelve hours.  The
    members are bytes, so every store wraps.  The driver of the clock is the class
    [RTC]. *)
From S2P Require Import Prelude CStrings FieldNames.

(** ** Data *)
Inductive T_RTC_TIME_FORMAT := RTC_TIME_FORMAT_12HOUR | RTC_TIME_FORMAT_24HOUR.
Record T_RTC_DATE := mkDate { d_day : Z; d_month : Z; d_year : Z }.
Record T_RTC_TIME := mkTime { t_minute : Z; t_hour : Z; t_second : Z; t_format : T_RTC_TIME_FORMAT; t_PM_flag : bool }.
(** The year counts from 2000. *)
Record T_HW_TIME_IND := mkInd {
  ti_year : Z; ti_month : Z; ti_day : Z; ti_hour : Z; ti_minute : Z; ti_second : Z; ti_timezone : Z }.
Definition set_ymd (y m d : Z) (t : T_HW_TIME_IND) : T_HW_TIME_IND :=
  mkInd (uint8 y) (uint8 m) (uint8 d) (ti_hour t) (ti_minute t) (ti_second t) (ti_timezone t).
Definition set_hm (h m : Z) (t : T_HW_TIME_IND) : T_HW_TIME_IND :=
  mkInd (ti_year t) (ti_month t) (ti_day t) (uint8 h) (uint8 m) (ti_second t) (ti_timezone t).

(** ** The time zone *)
Definition zone_quarters (tz : Z) : Z :=
  let v := 10 * Z.land tz 0x7 + Z.land (Z.shiftr tz 4) 0xF in
  if Z.land tz 0x08 =? 0 then v else - v.

(** East of Greenwich: the new time, with an hour of 24 and more when the day changes. *)
Definition add_quarters (q : Z) (t : T_HW_TIME_IND) : T_HW_TIME_IND :=
  let t := set_hm (ti_hour t + Z.quot q 4) (ti_minute t + Z.rem q 4 * 15) t in
  let t := if 60 <? ti_minute t then set_hm (ti_hour t + 1) (ti_minute t - 60) t else t in
  if ti_minute t =? 60 then set_hm (ti_hour t + 1) 0 t else t.
(** West of it: the new time, and whether the day changes; then the hour is not final. *)
Definition subtract_quarters (q : Z) (t : T_HW_TIME_IND) : T_HW_TIME_IND * bool :=
  let m := Z.abs (Z.rem q 4 * 15) in
  let h := Z.abs (Z.quot q 4) in
  let t := if ti_minute t - m <? 0 then set_hm (ti_hour t - 1) (60 - (m - ti_minute t)) t
           else if ti_minute t - m =? 0 then set_hm (ti_hour t - 1) 0 t
           else set_hm (ti_hour t) (ti_minute t - m) t in
  if ti_hour t - h <? 0 then (t, true) else (set_hm (ti_hour t - h) (ti_minute t) t, false).

Definition leap_february (year : Z) : bool :=
  (Z.rem (year + 2000) 4 =? 0) && negb (Z.rem (year + 2000) 100 =? 0).
Definition odd_month (m : Z) : bool := negb (Z.rem m 2 =? 0).
(** The last day of the month before, when the day has become 0. *)
Definition month_before (t : T_HW_TIME_IND) : T_HW_TIME_IND :=
  let y := ti_year t in
  let m := ti_month t in
  let t := if odd_month m && (m <=? 7) then set_ymd y (m - 1) (if m =? 1 then 31 else 30) t
           else if negb (odd_month m) && (m <? 7) then set_ymd y (m - 1) 31 t else t in
  let m := ti_month t in
  let t := if negb (odd_month m) && (7 <? m) then set_ymd y (m - 1) (if m =? 8 then 31 else 30) t else t in
  let t := if ti_month t =? 2 then set_ymd y 2 (if leap_february y then 29 else 28) t else t in
  if ti_month t <=? 0 then set_ymd (y - 1) 12 (ti_day t) t else t.
Definition previous_day (q : Z) (t : T_HW_TIME_IND) : T_HW_TIME_IND :=
  let t := set_hm (24 - Z.abs (ti_hour t - Z.abs (Z.quot q 4))) (ti_minute t) t in
  let t := set_ymd (ti_year t) (ti_month t) (ti_day t - 1) t in
  if ti_day t =? 0 then month_before t else t.
(** The first day of the next month, when the day is past the end of its month. *)
Definition february_ends (t : T_HW_TIME_IND) : T_HW_TIME_IND :=
  let t := if ti_day t =? 30 then set_ymd (ti_year t) 3 1 t else t in
  if ti_day t =? 29 then (if leap_february (ti_year t) then t else set_ymd (ti_year t) 3 1 t) else t.
Definition month_ends (t : T_HW_TIME_IND) : T_HW_TIME_IND :=
  let m := ti_month t in
  if 31 <=? ti_day t then
    if ti_day t =? 31 then
      if odd_month m && (m <=? 7) then t
      else if negb (odd_month m) && (7 <? m) then t
      else set_ymd (ti_year t) (m + 1) 1 t
    else set_ymd (ti_year t) (m + 1) 1 t
  else t.
Definition next_day (t : T_HW_TIME_IND) : T_HW_TIME_IND :=
  let t := set_hm (ti_hour t - 24) (ti_minute t) t in
  let t := set_ymd (ti_year t) (ti_month t) (ti_day t + 1) t in
  let t := if ti_month t =? 2 then february_ends t else month_ends t in
  if 12 <? ti_month t then set_ymd (ti_year t + 1) 1 (ti_day t) t else t.

Definition local_time (t : T_HW_TIME_IND) : T_HW_TIME_IND :=
  let q := zone_quarters (ti_timezone t) in
  if 0 <? q then
    let t := add_quarters q t in
    if 24 <=? ti_hour t then next_day t else t
  else if q <? 0 then
    let '(t, crossed) := subtract_quarters q t in
    if crossed then previous_day q t else t
  else t.

(** Twelve hours: midnight is 12, noon is 0 in the afternoon. *)
Definition clock_time (t : T_HW_TIME_IND) (format : T_RTC_TIME_FORMAT) : T_RTC_TIME :=
  let h := ti_hour t in
  if h =? 0 then mkTime (ti_minute t) 12 (ti_second t) format false
  else if h <? 12 then mkTime (ti_minute t) h (ti_second t) format false
  else mkTime (ti_minute t) (h - 12) (ti_second t) format true.
Definition clock_date (t : T_HW_TIME_IND) : T_RTC_DATE := mkDate (ti_day t) (ti_month t) (ti_year t + 2000).

(** ** The clock *)
Class RTC (R : Type) := {
  rtc_set_time_date : T_RTC_DATE → T_RTC_TIME → R → Z * R;
  rtc_get_time_date : R → option (T_RTC_DATE * T_RTC_TIME) }.
Section Clock.
Context {R : Type} `{RTC R}.
(** [simAutoDetect]: on the device, not in the emulator. *)
Variable simAutoDetect : bool.
Record clock := mkClock { current_date : T_RTC_DATE; current_time : T_RTC_TIME; rtc : R }.

(** Without an answer the variables stay. *)
Definition read_clock (c : clock) : clock :=
  if simAutoDetect then
    match rtc_get_time_date (rtc c) with
    | Some (d, t) => mkClock d t (rtc c)
    | None => c
    end
  else c.
Definition hw_td_get_date (c : clock) : T_RTC_DATE * clock := let c := read_clock c in (current_date c, c).
Definition hw_td_get_time (c : clock) : T_RTC_TIME * clock := let c := read_clock c in (current_time c, c).
Definition decimal_digit (n : Z) : Z := 48 + Z.rem n 10.
Definition decimal_02 (n : Z) : cstring :=
  if n <? 100 then [decimal_digit (Z.quot n 10); decimal_digit n]
  else [decimal_digit (Z.quot n 100); decimal_digit (Z.quot n 10); decimal_digit n].
Definition decimal_04 (n : Z) : cstring :=
  if n <? 10000 then map decimal_digit [Z.quot n 1000; Z.quot n 100; Z.quot n 10; n]
  else map decimal_digit [Z.quot n 10000; Z.quot n 1000; Z.quot n 100; Z.quot n 10; n].
Definition hw_td_get_clock_str (c : clock) : cstring * clock :=
  let c := read_clock c in
  let t := current_time c in
  (decimal_02 (t_hour t) ++ lit ":" ++ decimal_02 (t_minute t) ++ (if t_PM_flag t then lit " pm " else lit " am "), c).
Definition hw_td_get_date_str (c : clock) : cstring :=
  let d := current_date c in
  decimal_02 (d_month d) ++ lit "/" ++ decimal_02 (d_day d) ++ lit "/" ++ decimal_04 (d_year d).
(** The debug print at the end reads the clock. *)
Definition hw_td_set_time (t : T_RTC_TIME) (c : clock) : clock :=
  let c := if simAutoDetect then
             let '(result, r) := rtc_set_time_date (current_date c) t (rtc c) in
             mkClock (current_date c) (if result =? 0 then t else current_time c) r
           else c in
  (hw_td_get_clock_str c).2.
Definition hw_td_set_date (d : T_RTC_DATE) (c : clock) : clock :=
  if simAutoDetect then
    let '(result, r) := rtc_set_time_date d (current_time c) (rtc c) in
    mkClock (if result =? 0 then d else current_date c) (current_time c) r
  else c.
Definition hw_td_init (c : clock) : clock :=
  if simAutoDetect then read_clock c
  else
    let c := mkClock (mkDate 22 9 2010) (mkTime 20 4 0 RTC_TIME_FORMAT_12HOUR (t_PM_flag (current_time c))) (rtc c) in
    hw_td_set_date (current_date c) (hw_td_set_time (current_time c) c).

(** The format is that of the clock before it is set to twelve hours. *)
Definition nm_signal_time (ind : T_HW_TIME_IND) (c : clock) : clock :=
  let t := local_time ind in
  let '(before, c) := hw_td_get_time c in
  let newTime := clock_time t (t_format before) in
  let c := mkClock (current_date c) (mkTime (t_minute before) (t_hour before) (t_second before) RTC_TIME_FORMAT_12HOUR (t_PM_flag before)) (rtc c) in
  hw_td_set_date (clock_date t) (hw_td_set_time newTime c).
(** What the network sends: a zone and a time, each with a mark that it is there. *)
Record T_MMR_INFO_IND := mkInfo { mi_v_tz : bool; mi_tz : Z; mi_v_time : bool; mi_time : T_HW_TIME_IND }.
Definition nm_nitz_info_ind (i : T_MMR_INFO_IND) (c : clock) : clock :=
  let t := mi_time i in
  if mi_v_tz i && mi_v_time i then
    nm_signal_time (mkInd (ti_year t) (ti_month t) (ti_day t) (ti_hour t) (ti_minute t) (ti_second t) (mi_tz i)) c
  else if mi_v_tz i then nm_signal_time (mkInd 0 0 0 0 0 0 (mi_tz i)) c
  else c.
End Clock.
