(* ===== verification/ClockRules.v ===== *)
(** * Properties of the clock

    The time of the network in minutes since the start of the year 2000, by the Gregorian
    calendar: where the correction by the time zone adds the zone to it, and where not. *)
From S2P Require Import Prelude CStrings FieldNames Clock.

#[local] Ltac Zify.zify_post_hook ::= Z.to_euclidean_division_equations.

(** ** The calendar *)
Definition leap (y : Z) : bool :=
  (((y + 2000) mod 4 =? 0) && negb ((y + 2000) mod 100 =? 0)) || ((y + 2000) mod 400 =? 0).
Definition month_length (is_leap : bool) (m : Z) : Z :=
  if m =? 2 then (if is_leap then 29 else 28)
  else if bool_decide (m ∈ [4; 6; 9; 11]) then 30 else 31.
Abbreviation month_days y := (month_length (leap y)).
Definition days_before_month (y m : Z) : Z := foldr Z.add 0 (month_days y <$> seqZ 1 (m - 1)).
Fixpoint days_before_year (y : nat) : Z :=
  match y with O => 0 | S y => days_before_year y + (if leap (Z.of_nat y) then 366 else 365) end.
Definition day_number (y m d : Z) : Z := days_before_year (Z.to_nat y) + days_before_month y m + d.
Definition minutes (t : T_HW_TIME_IND) : Z :=
  day_number (ti_year t) (ti_month t) (ti_day t) * 1440 + ti_hour t * 60 + ti_minute t.
Record valid_date (y m d : Z) : Prop := {
  vd_year : 0 ≤ y ≤ 254;
  vd_month : 1 ≤ m ≤ 12;
  vd_day : 1 ≤ d ≤ month_days y m }.
Record valid_time (t : T_HW_TIME_IND) : Prop := {
  vt_date : valid_date (ti_year t) (ti_month t) (ti_day t);
  vt_hour : 0 ≤ ti_hour t < 24;
  vt_minute : 0 ≤ ti_minute t < 60 }.

Lemma uint8_id z : 0 ≤ z < 256 → uint8 z = z.
Proof. intros. by apply uint8_small. Qed.
Lemma year_step y : 0 ≤ y → days_before_year (Z.to_nat (y + 1)) = days_before_year (Z.to_nat y) + (if leap y then 366 else 365).
Proof. intros. replace (Z.to_nat (y + 1)) with (S (Z.to_nat y)) by lia. cbn [days_before_year]. by rewrite Z2Nat.id by lia. Qed.
Lemma month_cases m : 1 ≤ m ≤ 12 →
  m = 1 ∨ m = 2 ∨ m = 3 ∨ m = 4 ∨ m = 5 ∨ m = 6 ∨ m = 7 ∨ m = 8 ∨ m = 9 ∨ m = 10 ∨ m = 11 ∨ m = 12.
Proof. lia. Qed.
Lemma leap_february_ok y : 1 ≤ y ≤ 254 → leap_february y = leap y.
Proof.
  intros. unfold leap_february, leap. apply eq_true_iff_eq.
  rewrite orb_true_iff, !andb_true_iff, !negb_true_iff, !Z.eqb_eq, !Z.eqb_neq. lia.
Qed.
Lemma month_days_range y m : 28 ≤ month_days y m ≤ 31.
Proof. unfold month_length. destruct (_ =? _), (leap y); try case_bool_decide; lia. Qed.
(** The day after the last of a month is the first of the next. *)
Lemma month_step y m : 1 ≤ m < 12 → day_number y (m + 1) 1 = day_number y m (month_days y m) + 1.
Proof.
  intros Hm. unfold day_number, days_before_month. replace (m + 1 - 1) with m by lia.
  assert (seqZ 1 m = seqZ 1 (m - 1) ++ [m]) as ->.
  { replace m with (m - 1 + 1) at 1 by lia. rewrite seqZ_app by lia. f_equal.
    replace (1 + (m - 1)) with m by lia. done. }
  rewrite fmap_app, foldr_app. cbn [fmap list_fmap foldr].
  assert (∀ l x, foldr Z.add x l = foldr Z.add 0 l + x) as Hf by (induction l as [|z l IH]; intros; cbn; [lia|rewrite IH; lia]).
  rewrite (Hf _ (month_days y m + 0)). lia.
Qed.
Lemma year_end y : 0 ≤ y → day_number (y + 1) 1 1 = day_number y 12 31 + 1.
Proof.
  intros. unfold day_number. rewrite year_step by done. change (days_before_month (y + 1) 1) with 0.
  assert (days_before_month y 12 = if leap y then 335 else 334) as ->
    by (unfold days_before_month; by destruct (leap y)).
  destruct (leap y); lia.
Qed.

(** ** Stores that fit *)
Lemma set_ymd_fits y m d t : 0 ≤ y < 256 → 0 ≤ m < 256 → 0 ≤ d < 256 →
  set_ymd y m d t = mkInd y m d (ti_hour t) (ti_minute t) (ti_second t) (ti_timezone t).
Proof. intros. unfold set_ymd. by rewrite !uint8_id by lia. Qed.
Lemma set_hm_fits h m t : 0 ≤ h < 256 → 0 ≤ m < 256 →
  set_hm h m t = mkInd (ti_year t) (ti_month t) (ti_day t) h m (ti_second t) (ti_timezone t).
Proof. intros. unfold set_hm. by rewrite !uint8_id by lia. Qed.
Lemma with_day_eta t : mkInd (ti_year t) (ti_month t) (ti_day t) (ti_hour t) (ti_minute t) (ti_second t) (ti_timezone t) = t.
Proof. by destruct t. Qed.

(** ** Adding *)
Definition same_day (t t' : T_HW_TIME_IND) : Prop :=
  ti_year t' = ti_year t ∧ ti_month t' = ti_month t ∧ ti_day t' = ti_day t ∧ ti_second t' = ti_second t.
Lemma add_quarters_ok q t : valid_time t → 0 < q ≤ 85 →
  let t' := add_quarters q t in
  same_day t t' ∧ 0 ≤ ti_hour t' < 48 ∧ 0 ≤ ti_minute t' < 60 ∧
  ti_hour t' * 60 + ti_minute t' = ti_hour t * 60 + ti_minute t + 15 * q.
Proof.
  intros [_ Hh Hm] Hq. unfold add_quarters. rewrite set_hm_fits by lia. cbn [ti_minute ti_hour].
  destruct (Z.ltb_spec 60 (ti_minute t + Z.rem q 4 * 15)).
  - rewrite set_hm_fits by (cbn; lia). cbn. destruct (Z.eqb_spec (ti_minute t + Z.rem q 4 * 15 - 60) 60); [lia|].
    cbn. unfold same_day. split_and!; try done; lia.
  - cbn [ti_minute]. destruct (Z.eqb_spec (ti_minute t + Z.rem q 4 * 15) 60).
    + rewrite set_hm_fits by (cbn; lia). unfold same_day. cbn. split_and!; try done; lia.
    + unfold same_day. cbn. split_and!; try done; lia.
Qed.
(** The date rules, away from February of 2000. *)
Lemma month_ends_ok t m : ti_month t = m → m ≠ 2 → valid_date (ti_year t) m (ti_day t - 1) →
  let t' := month_ends t in
  ti_year t' = ti_year t ∧ ti_hour t' = ti_hour t ∧ ti_minute t' = ti_minute t ∧ ti_second t' = ti_second t ∧
  (if decide (ti_day t ≤ month_days (ti_year t) m) then ti_month t' = m ∧ ti_day t' = ti_day t
   else ti_month t' = m + 1 ∧ ti_day t' = 1).
Proof.
  intros Em Hm2 [Hy Hm Hd]. pose proof (month_days_range (ti_year t) m) as Hr. unfold month_ends. rewrite Em.
  assert (∀ b, (31 <=? ti_day t) = b → b = true → set_ymd (ti_year t) (m + 1) 1 t =
    mkInd (ti_year t) (m + 1) 1 (ti_hour t) (ti_minute t) (ti_second t) (ti_timezone t)) as Hset
    by (intros; apply set_ymd_fits; lia).
  destruct (Z.leb_spec 31 (ti_day t)) as [H31|H31].
  - specialize (Hset true eq_refl eq_refl). rewrite !Hset. destruct (Z.eqb_spec (ti_day t) 31) as [E|E].
    + rewrite E. apply month_cases in Hm. destruct_or! Hm; subst; rewrite Hm; cbn; rewrite ?decide_True, ?decide_False by done; try done; by split_and!.
    + rewrite decide_False by lia. by split_and!.
  - rewrite decide_True; [by split_and!|]. unfold month_length. destruct (Z.eqb_spec m 2); [done|].
    case_bool_decide; lia.
Qed.
Lemma february_ends_ok t : ti_month t = 2 → 1 ≤ ti_year t → valid_date (ti_year t) 2 (ti_day t - 1) →
  let t' := february_ends t in
  ti_year t' = ti_year t ∧ ti_hour t' = ti_hour t ∧ ti_minute t' = ti_minute t ∧ ti_second t' = ti_second t ∧
  (if decide (ti_day t ≤ month_days (ti_year t) 2) then ti_month t' = 2 ∧ ti_day t' = ti_day t
   else ti_month t' = 3 ∧ ti_day t' = 1).
Proof.
  intros Em Hy1 [Hy _ Hd]. unfold february_ends. change (month_days (ti_year t) 2) with (if leap (ti_year t) then 29 else 28) in *.
  destruct (Z.eqb_spec (ti_day t) 30) as [E|E].
  - rewrite set_ymd_fits by lia. cbn. rewrite decide_False by (destruct (leap _); lia). by split_and!.
  - destruct (Z.eqb_spec (ti_day t) 29) as [E'|E'].
    + rewrite leap_february_ok, E' by lia. destruct (leap (ti_year t)); [by rewrite decide_True by lia; split_and!|].
      rewrite set_ymd_fits by lia. by split_and!.
    + rewrite decide_True by (destruct (leap _); lia). by split_and!.
Qed.
Lemma next_day_ok t : valid_date (ti_year t) (ti_month t) (ti_day t) → ti_year t ≤ 253 → (ti_month t = 2 → 1 ≤ ti_year t) →
  24 ≤ ti_hour t < 48 → 0 ≤ ti_minute t < 60 →
  let t' := next_day t in
  valid_time t' ∧ minutes t' = minutes t ∧ ti_second t' = ti_second t.
Proof.
  intros Hd Hy Hf Hh Hm t'. pose proof Hd as [Hy0 Hm0 Hd0]. pose proof (month_days_range (ti_year t) (ti_month t)) as Hr.
  unfold t', next_day. rewrite set_hm_fits by lia. rewrite set_ymd_fits by (cbn; lia). cbn.
  set (t1 := mkInd _ _ _ _ _ _ _).
  assert (∃ t2, (if ti_month t =? 2 then february_ends t1 else month_ends t1) = t2 ∧
    ti_year t2 = ti_year t ∧ ti_hour t2 = ti_hour t - 24 ∧ ti_minute t2 = ti_minute t ∧ ti_second t2 = ti_second t ∧
    if decide (ti_day t + 1 ≤ month_days (ti_year t) (ti_month t)) then ti_month t2 = ti_month t ∧ ti_day t2 = ti_day t + 1
    else ti_month t2 = ti_month t + 1 ∧ ti_day t2 = 1) as (t2 & -> & Ey & Eh & Em & Es & Ed).
  { eexists. split; [reflexivity|]. assert (valid_date (ti_year t1) (ti_month t1) (ti_day t1 - 1)) as Hv.
    { cbn. by replace (ti_day t + 1 - 1) with (ti_day t) by lia. }
    destruct (Z.eqb_spec (ti_month t) 2) as [E|E].
    - rewrite E. apply (february_ends_ok t1 E); [cbn; auto|]. cbn. rewrite <-E. exact Hv.
    - by apply (month_ends_ok t1 (ti_month t)). }
  destruct (decide (ti_day t + 1 ≤ month_days (ti_year t) (ti_month t))) as [Hin|Hout]; destruct Ed as [Em2 Ed2].
  - rewrite (proj2 (Z.ltb_ge 12 (ti_month t2))) by lia. split; [|split; [|done]].
    + split; [split|..]; rewrite ?Ey, ?Em2, ?Ed2; lia.
    + unfold minutes, day_number. rewrite Ey, Em2, Ed2, Eh, Em. lia.
  - assert (ti_day t = month_days (ti_year t) (ti_month t)) as Elast by lia.
    destruct (Z.ltb_spec 12 (ti_month t2)) as [H12|H12].
    + assert (ti_month t = 12) as E12 by lia. rewrite set_ymd_fits by lia. cbn. split; [|split; [|done]].
      * split; [split|..]; cbn [ti_year ti_month ti_day ti_hour ti_minute]; rewrite ?Ed2; try lia. pose proof (month_days_range (ti_year t2 + 1) 1). lia.
      * unfold minutes. cbn. rewrite Ey, Ed2, Eh, Em, year_end, E12, Elast, E12 by lia.
        change (month_days (ti_year t) 12) with 31. lia.
    + split; [|split; [|done]].
      * split; [split|..]; rewrite ?Ey, ?Em2, ?Ed2; try lia. pose proof (month_days_range (ti_year t) (ti_month t + 1)). lia.
      * unfold minutes. rewrite Ey, Em2, Ed2, Eh, Em, month_step, <-Elast by lia. lia.
Qed.

(** ** Subtracting *)
(** The part of the zone that is less than an hour, in minutes, and the whole hours. *)
Definition zone_minutes (q : Z) : Z := Z.abs (Z.rem q 4 * 15).
Definition zone_hours (q : Z) : Z := Z.abs (Z.quot q 4).
Lemma zone_split q : q < 0 → 15 * q = - (zone_hours q * 60 + zone_minutes q) ∧ 0 ≤ zone_minutes q ≤ 45 ∧ 0 ≤ zone_hours q.
Proof. unfold zone_hours, zone_minutes. lia. Qed.
Definition borrows (q : Z) (t : T_HW_TIME_IND) : bool :=
  ti_hour t * 60 + ti_minute t <? zone_hours q * 60 + zone_minutes q.
Lemma subtract_quarters_ok q t : valid_time t → -85 ≤ q < 0 →
  ti_minute t ≠ zone_minutes q → (ti_minute t < zone_minutes q → 1 ≤ ti_hour t) →
  let '(t', crossed) := subtract_quarters q t in
  let h := if crossed then ti_hour t' - zone_hours q else ti_hour t' in
  crossed = borrows q t ∧ same_day t t' ∧ 0 ≤ ti_hour t' < 24 ∧ 0 ≤ ti_minute t' < 60 ∧ - 24 < h ∧ (crossed = true → h < 0) ∧
  h * 60 + ti_minute t' = ti_hour t * 60 + ti_minute t + 15 * q.
Proof.
  intros [_ Hh Hm] Hq Hne Hhour. destruct (zone_split q) as (Hz & Hzm & Hzh); [lia|].
  assert (zone_hours q ≤ 21) by (unfold zone_hours; lia).
  unfold subtract_quarters. fold (zone_minutes q) (zone_hours q).
  set (t1 := if ti_minute t - zone_minutes q <? 0 then _ else _).
  assert (∃ h1 m1, t1 = mkInd (ti_year t) (ti_month t) (ti_day t) h1 m1 (ti_second t) (ti_timezone t) ∧
    0 ≤ h1 < 24 ∧ 0 ≤ m1 < 60 ∧ h1 * 60 + m1 = ti_hour t * 60 + ti_minute t - zone_minutes q) as (h1 & m1 & -> & Hh1 & Hm1 & E).
  { unfold t1. destruct (Z.ltb_spec (ti_minute t - zone_minutes q) 0).
    - rewrite set_hm_fits by lia. eexists _, _. split; [reflexivity|]. lia.
    - destruct (Z.eqb_spec (ti_minute t - zone_minutes q) 0); [lia|].
      rewrite set_hm_fits by lia. eexists _, _. split; [reflexivity|]. lia. }
  cbn [ti_hour ti_minute]. unfold borrows. destruct (Z.ltb_spec (h1 - zone_hours q) 0).
  - rewrite (proj2 (Z.ltb_lt _ _)) by lia. split_and!; try done; cbn; lia.
  - rewrite (proj2 (Z.ltb_ge _ _)) by lia. rewrite set_hm_fits by lia. split_and!; try done; cbn; lia.
Qed.
Ltac closed_z k := let v := eval vm_compute in k in
  match v with Zpos _ => idtac | Z0 => idtac | Zneg _ => idtac end.
Ltac decide_month :=
  cbv zeta; cbn [andb negb ti_year ti_month ti_day ti_hour ti_minute ti_second ti_timezone];
  repeat (match goal with
  | |- context [odd_month ?k] => closed_z k; let v := eval vm_compute in (odd_month k) in change (odd_month k) with v
  | |- context [Z.eqb ?a ?b] => closed_z a; let v := eval vm_compute in (Z.eqb a b) in change (Z.eqb a b) with v
  | |- context [Z.leb ?a ?b] => closed_z a; let v := eval vm_compute in (Z.leb a b) in change (Z.leb a b) with v
  | |- context [Z.ltb ?a ?b] => closed_z a; closed_z b; let v := eval vm_compute in (Z.ltb a b) in change (Z.ltb a b) with v
  end; cbn [andb negb ti_year ti_month ti_day ti_hour ti_minute ti_second ti_timezone]).
Lemma month_before_ok t : valid_date (ti_year t) (ti_month t) 1 → 1 ≤ ti_year t → ti_month t ≠ 9 → ti_month t ≠ 11 →
  let t' := month_before t in
  valid_date (ti_year t') (ti_month t') (ti_day t') ∧
  day_number (ti_year t') (ti_month t') (ti_day t') = day_number (ti_year t) (ti_month t) 0 ∧
  ti_hour t' = ti_hour t ∧ ti_minute t' = ti_minute t ∧ ti_second t' = ti_second t.
Proof.
  intros [Hy Hm _] Hy1 H9 H11.
  assert (∃ y d m, month_before t = mkInd y m d (ti_hour t) (ti_minute t) (ti_second t) (ti_timezone t) ∧
    ((ti_month t = 1 ∧ y = ti_year t - 1 ∧ m = 12 ∧ d = 31) ∨
     (2 ≤ ti_month t ∧ y = ti_year t ∧ m = ti_month t - 1 ∧ d = month_days (ti_year t) m))) as (y & d & m & -> & Hcase).
  { unfold month_before. apply month_cases in Hm.
    assert (0 ≤ (if leap_february (ti_year t) then 29 else 28) < 256) as Hl by (destruct (leap_february _); lia).
    destruct_or! Hm; rewrite Hm; try done; decide_month;
      repeat first [rewrite Hm; decide_month | rewrite (set_ymd_fits _ _ _ t) by lia; decide_month
        | rewrite (set_ymd_fits _ _ _ (mkInd _ _ _ _ _ _ _)) by lia; decide_month];
      do 3 eexists; (split; [reflexivity|]); (left; lia) || (right; rewrite ?leap_february_ok by lia; split_and!; done || lia). }
  cbn. split; [|split; [|done]].
  - destruct Hcase as [(_ & -> & -> & ->)|(Hm2 & -> & -> & ->)]; split; try lia.
    + change (month_days (ti_year t - 1) 12) with 31. lia.
    + pose proof (month_days_range (ti_year t) (ti_month t - 1)). lia.
  - destruct Hcase as [(E & -> & -> & ->)|(Hm2 & -> & -> & ->)].
    + rewrite E. pose proof (year_end (ti_year t - 1)) as Hye. replace (ti_year t - 1 + 1) with (ti_year t) in Hye by lia.
      unfold day_number in *. lia.
    + pose proof (month_step (ti_year t) (ti_month t - 1)) as Hms. replace (ti_month t - 1 + 1) with (ti_month t) in Hms by lia.
      unfold day_number in *. lia.
Qed.
Lemma previous_day_ok q t : valid_time t → -85 ≤ q < 0 → 1 ≤ ti_year t → -24 < ti_hour t - zone_hours q < 0 →
  (ti_day t = 1 → ti_month t ≠ 9 ∧ ti_month t ≠ 11) →
  let t' := previous_day q t in
  valid_time t' ∧ minutes t' = minutes t - zone_hours q * 60 ∧ ti_second t' = ti_second t.
Proof.
  intros [[Hy Hm Hd] Hh Hmin] Hq Hy1 Hneg H1. pose proof (month_days_range (ti_year t) (ti_month t)) as Hr.
  assert (0 ≤ zone_hours q ≤ 21) by (unfold zone_hours; lia).
  unfold previous_day. fold (zone_hours q). rewrite set_hm_fits by lia.
  rewrite set_ymd_fits by (cbn [ti_year ti_month ti_day]; lia). cbn [ti_year ti_month ti_day ti_hour ti_minute ti_second ti_timezone].
  set (t1 := mkInd _ _ _ _ _ _ _).
  destruct (Z.eqb_spec (ti_day t - 1) 0) as [E|E].
  - assert (ti_day t = 1) as E1 by lia. destruct (H1 E1) as [H9 H11].
    destruct (month_before_ok t1) as (Hv & Hn & Eh & Em & Es); try done.
    { split; cbn; lia. }
    cbn [t1 ti_year ti_month ti_hour ti_minute ti_second] in Hn, Eh, Em, Es.
    split; [split; [done|lia..]|]. split; [|done].
    unfold minutes. rewrite Hn, Eh, Em, E1. unfold day_number. lia.
  - split; [|split; [|done]].
    + split; [split|..]; cbn [t1 ti_year ti_month ti_day ti_hour ti_minute]; lia.
    + unfold minutes, day_number. cbn [t1 ti_year ti_month ti_day ti_hour ti_minute]. lia.
Qed.

(** ** The correction *)
Lemma zone_quarters_range tz : -85 ≤ zone_quarters tz ≤ 85.
Proof.
  unfold zone_quarters. change 0x7 with (Z.ones 3). change 0xF with (Z.ones 4). rewrite !Z.land_ones by lia.
  pose proof (Z.mod_pos_bound tz (2 ^ 3)). pose proof (Z.mod_pos_bound (Z.shiftr tz 4) (2 ^ 4)).
  destruct (_ =? _); lia.
Qed.
(** Zones in the west for which the correction is right. *)
Definition west_ok (q : Z) (t : T_HW_TIME_IND) : Prop :=
  ti_minute t ≠ zone_minutes q ∧ (ti_minute t < zone_minutes q → 1 ≤ ti_hour t) ∧
  (borrows q t = true → ti_day t = 1 → ti_month t ≠ 9 ∧ ti_month t ≠ 11).

(** In the other cases the clock is wrong: with the minutes of the zone it is an hour
    late, the first of September and of November become day 0 of the month, and between
    midnight and the minutes of the zone the hour wraps around to one above 230. *)
Theorem time_zone_west_misses t :
  valid_time t → 1 ≤ ti_year t ≤ 253 →
  let q := zone_quarters (ti_timezone t) in q < 0 →
  (ti_minute t = zone_minutes q → zone_hours q < ti_hour t →
     minutes (local_time t) = minutes t + 15 * q - 60) ∧
  (ti_minute t ≠ zone_minutes q → (ti_minute t < zone_minutes q → 1 ≤ ti_hour t) → borrows q t = true →
     ti_day t = 1 → ti_month t = 9 ∨ ti_month t = 11 → ti_day (local_time t) = 0 ∧ ti_month (local_time t) = ti_month t) ∧
  (ti_hour t = 0 → ti_minute t < zone_minutes q → ti_hour (local_time t) = 255 - zone_hours q).
Proof.
  intros Hv Hy q Hneg. pose proof (zone_quarters_range (ti_timezone t)) as Hq. fold q in Hq.
  pose proof Hv as [[Hyr Hmo Hd] Hh Hm]. destruct (zone_split q Hneg) as (Hz & Hzm & Hzh).
  assert (zone_hours q ≤ 21) by (unfold zone_hours; lia).
  unfold local_time. fold q. rewrite (proj2 (Z.ltb_ge 0 q)), (proj2 (Z.ltb_lt q 0)) by lia. split_and!.
  - intros E Hlt. unfold subtract_quarters. fold (zone_minutes q) (zone_hours q). rewrite E.
    rewrite Z.sub_diag, Z.eqb_refl. change (0 <? 0) with false.
    rewrite (set_hm_fits (ti_hour t - 1) 0 t) by lia. cbn [ti_hour ti_minute].
    rewrite (proj2 (Z.ltb_ge _ 0)), set_hm_fits by lia. unfold minutes. cbn [ti_year ti_month ti_day ti_hour ti_minute]. lia.
  - intros Hne Hb Hbor Hd1 H9. pose proof (subtract_quarters_ok q t Hv ltac:(lia) Hne Hb) as HS.
    destruct (subtract_quarters q t) as [t1 crossed]. cbv zeta in HS. rewrite Hbor in HS.
    destruct HS as (-> & (Ey & Emo & Ed & Es) & Hh1 & Hm1 & Hlow & Hc & E). specialize (Hc eq_refl).
    unfold previous_day. fold (zone_hours q). rewrite set_hm_fits by lia.
    rewrite set_ymd_fits by (cbn [ti_year ti_month ti_day]; lia). cbn [ti_year ti_month ti_day ti_hour ti_minute ti_second ti_timezone].
    rewrite Ed, Hd1. unfold month_before. cbn [ti_year ti_month ti_day]. rewrite Emo. by destruct H9 as [-> | ->].
  - intros E Hlt. unfold subtract_quarters. fold (zone_minutes q) (zone_hours q).
    rewrite (proj2 (Z.ltb_lt (ti_minute t - zone_minutes q) 0)) by lia.
    set (t1 := set_hm (ti_hour t - 1) (60 - (zone_minutes q - ti_minute t)) t).
    assert (ti_hour t1 = 255) as Et1 by (unfold t1, set_hm; cbn [ti_hour]; by rewrite E).
    rewrite Et1, (proj2 (Z.ltb_ge _ 0)) by lia. cbn [ti_hour set_hm]. apply uint8_id. lia.
Qed.

(** ** The clock of the device *)
Section Device.
Context {R : Type} `{RTC R}.
(** The driver gives back what was set. *)
Hypothesis rtc_set_get : ∀ d t r, ∃ r', rtc_set_time_date d t r = (0, r') ∧ rtc_get_time_date r' = Some (d, t).

Lemma set_time_sets t (c : clock) :
  ∃ r, hw_td_set_time true t c = mkClock (current_date (hw_td_set_time true t c)) t r ∧
    rtc_get_time_date r = Some (current_date c, t).
Proof.
  unfold hw_td_set_time, hw_td_get_clock_str, read_clock.
  destruct (rtc_set_get (current_date c) t (rtc c)) as (r & -> & Hg). cbn. rewrite Hg. cbn. by exists r.
Qed.
Lemma signal_sets ind (c : clock) :
  let c' := nm_signal_time true ind c in
  ∃ f, rtc_get_time_date (rtc c') = Some (clock_date (local_time ind), clock_time (local_time ind) f) ∧
    current_date c' = clock_date (local_time ind).
Proof.
  unfold nm_signal_time, hw_td_get_time. cbv zeta beta iota. set (c0 := read_clock true c).
  set (f := t_format (current_time c0)). set (c1 := mkClock _ _ _). exists f.
  destruct (set_time_sets (clock_time (local_time ind) f) c1) as (r & -> & _). unfold hw_td_set_date. cbn.
  destruct (rtc_set_get (clock_date (local_time ind)) (clock_time (local_time ind) f) r) as (r' & E1 & E2).
  rewrite E1. cbn. by rewrite E2.
Qed.
End Device.

(** ** Instances *)
Definition half_past_nine : T_HW_TIME_IND := mkInd 10 2 28 21 30 0 0.
(** Nine hours and a half east: 38 quarters, the digits swapped. *)
Definition adelaide : Z := 0x83.
Lemma half_past_nine_valid : valid_time half_past_nine.
Proof. repeat split; vm_compute; done. Qed.
Definition in_zone (tz : Z) (t : T_HW_TIME_IND) : T_HW_TIME_IND :=
  mkInd (ti_year t) (ti_month t) (ti_day t) (ti_hour t) (ti_minute t) (ti_second t) tz.
Lemma in_zone_valid tz t : valid_time t → valid_time (in_zone tz t).
Proof. by destruct 1. Qed.
(** Half an hour west. *)
Definition west : Z := 0x28.
Lemma time_zone_west_misses_witness :
  minutes (local_time (in_zone west half_past_nine)) = minutes half_past_nine - 30 - 60.
Proof.
  refine (proj1 (time_zone_west_misses (in_zone west half_past_nine) (in_zone_valid _ _ half_past_nine_valid) _ _) _ _); vm_compute; done.
Defined.
(** A driver that remembers. *)
#[local] Instance remembering : RTC (option (T_RTC_DATE * T_RTC_TIME)) :=
  {| rtc_set_time_date := λ d t _, (0, Some (d, t)); rtc_get_time_date := λ r, r |}.
Lemma remembering_ok d t (r : option (T_RTC_DATE * T_RTC_TIME)) :
  ∃ r', rtc_set_time_date d t r = (0, r') ∧ rtc_get_time_date r' = Some (d, t).
Proof. by exists (Some (d, t)). Qed.
Definition unset : clock (R := option (T_RTC_DATE * T_RTC_TIME)) :=
  mkClock (mkDate 1 1 2000) (mkTime 0 12 0 RTC_TIME_FORMAT_12HOUR false) None.
