(* ===== verification/Timers.v ===== *)
(** * timer.c, tmr.c (hwtask): several timers on one timer of the operating system

    A queue (a list of List.c) holds the timers in the order in which they run out; the
    member [tm_left] of a timer is what remains when the timer of the system, which runs for
    the first of them, has run out.  The timer of the system is the class [VSI].  The code
    behind the pointers is the parameter [callback]; [junk] is what the uninitialised
    local [timeout] of [timerSignal] holds. *)
From S2P Require Import Prelude Lists.

Abbreviation tloc := positive.
Record tDS := mkTimer { tCB : bool; tm_left : Z; tm_time : Z }.
Class VSI (V : Type) := {
  vsi_t_start : Z → V → V;
  vsi_t_stop : V → V;
  vsi_t_status : V → Z }.

Section Timers.
Context {V : Type} `{VSI V}.
(** The statics of timer.c and tmr.c; [sig] is set by [tmrInit]. *)
Record timers := mkTimers {
  timer_queue : option loc;
  timer_r_queue : option loc;
  timerTimeoutCount : Z;
  timerTimeoutBusy : bool;
  timerPrecMs : Z;
  sig : bool;
  tm_heap : heap tloc;
  tm_data : gmap tloc tDS;
  tm_vsi : V }.
Abbreviation TM := (M timers).
Variable callback : tloc → TM ().
Variable junk : Z.

Definition with_heap (h : heap tloc) (s : timers) : timers :=
  mkTimers (timer_queue s) (timer_r_queue s) (timerTimeoutCount s) (timerTimeoutBusy s) (timerPrecMs s) (sig s) h (tm_data s) (tm_vsi s).
Definition in_heap {B} (m : M (heap tloc) B) : TM B := λ s,
  match m (tm_heap s) with
  | Ok (b, h) => Ok (b, with_heap h s)
  | Abort => Abort | Fault => Fault | NoFuel => NoFuel
  end.
Definition set_queues (q r : option loc) (s : timers) : timers :=
  mkTimers q r (timerTimeoutCount s) (timerTimeoutBusy s) (timerPrecMs s) (sig s) (tm_heap s) (tm_data s) (tm_vsi s).
Definition set_timeouts (n : Z) (busy : bool) (s : timers) : timers :=
  mkTimers (timer_queue s) (timer_r_queue s) n busy (timerPrecMs s) (sig s) (tm_heap s) (tm_data s) (tm_vsi s).
Definition set_tmr (prec : Z) (sg : bool) (v : V) (s : timers) : timers :=
  mkTimers (timer_queue s) (timer_r_queue s) (timerTimeoutCount s) (timerTimeoutBusy s) prec sg (tm_heap s) (tm_data s) v.
Definition set_data (d : gmap tloc tDS) (s : timers) : timers :=
  mkTimers (timer_queue s) (timer_r_queue s) (timerTimeoutCount s) (timerTimeoutBusy s) (timerPrecMs s) (sig s) (tm_heap s) d (tm_vsi s).
Definition get_timer (t : tloc) : TM tDS := λ s, match tm_data s !! t with Some d => Ok (d, s) | None => Fault end.
Definition upd_timer (t : tloc) (f : tDS → tDS) : TM () := d ← get_timer t; modify (λ s, set_data (<[t := f d]> (tm_data s)) s).
Definition set_left (i : Z) (d : tDS) : tDS := mkTimer (tCB d) (int32 i) (tm_time d).
Definition set_time (i : Z) (d : tDS) : tDS := mkTimer (tCB d) (tm_left d) (int32 i).

(** ** tmr.c *)
Definition tmrInit (s : bool) : TM Z := modify (λ st, set_tmr (timerPrecMs st) s (tm_vsi st) st);; mret (if s then 1 else 0).
Definition tmrStart (ms : Z) : TM () :=
  s ← get;
  when (sig s) (let ms := uint32 ms in
                modify (λ s, set_tmr (timerPrecMs s) (sig s) (vsi_t_start (if ms <? 5 then 5 else ms) (tm_vsi s)) s)).
Definition tmrStop : TM Z :=
  s ← get;
  if sig s then (let remaining := vsi_t_status (tm_vsi s) in
                 modify (λ s, set_tmr (timerPrecMs s) (sig s) (vsi_t_stop (tm_vsi s)) s);; mret remaining)
  else mret 0.
Definition tmrLeft : TM Z := s ← get; mret (if sig s then vsi_t_status (tm_vsi s) else 0).
Definition tmrExit : TM Z :=
  s ← get; (if sig s then _ ← tmrStop; mret () else mret ());;
  modify (λ s, set_tmr (timerPrecMs s) false (tm_vsi s) s);; mret 1.

(** ** The queues *)
Definition timer_get_queue : TM (option loc) :=
  s ← get;
  match timer_queue s with
  | Some q => mret (Some q)
  | None => q ← in_heap list_new; modify (λ s, set_queues q (timer_r_queue s) s);; mret q
  end.
Definition timer_get_r_queue : TM (option loc) :=
  s ← get;
  match timer_r_queue s with
  | Some q => mret (Some q)
  | None => q ← in_heap list_new; modify (λ s, set_queues (timer_queue s) q s);; mret q
  end.
Definition timerInit : TM () :=
  modify (set_timeouts 0 false);; _ ← tmrInit true; tmrStart 1;;
  p ← tmrStop; modify (λ s, set_tmr (int32 p) (sig s) (tm_vsi s) s).
Definition timerCreate (cb : bool) : TM tloc :=
  _ ← timer_get_queue; s ← get;
  let t := fresh (dom (tm_data s)) in modify (set_data (<[t := mkTimer cb 0 0]> (tm_data s)));; mret t.

(** The items of a list are timers. *)
Definition item (iter : ListIterator) : TM tloc := i ← in_heap (listIterator_item iter); deref i.
Definition list_bound : TM nat := s ← get; mret (loop_fuel (tm_heap s)).
(** A loop over a list whose body leaves the list alone, up to a body that ends it. *)
Fixpoint each (fuel : nat) (f : ListIterator → tloc → TM bool) (iter : ListIterator) : TM bool :=
  match fuel with
  | O => no_fuel
  | S fuel =>
      if listIterator_finished iter then mret false else
      t ← item iter;
      ended ← f iter t;
      if ended : bool then mret true else
      iter ← in_heap (listIterator_next iter); each fuel f iter
  end.
Definition for_all (q : option loc) (f : tloc → TM ()) : TM () :=
  iter ← in_heap (list_begin q); n ← list_bound; _ ← each n (λ _ t, f t;; mret false) iter; mret ().

Definition timerInsert (t : tloc) : TM () :=
  q ← timer_get_queue;
  n ← in_heap (list_size q);
  if n =? 0 then in_heap (list_append q (Some t)) else
  iter ← in_heap (list_rbegin q); n ← list_bound;
  done ← each n (λ iter i, d ← get_timer t; di ← get_timer i;
                           if tm_left di <=? tm_left d then in_heap (listIterator_insertAfter iter (Some t));; mret true
                           else mret false) iter;
  if done : bool then mret () else in_heap (list_prepend q (Some t)).
Definition add_left (i : Z) (t : tloc) : TM () := upd_timer t (λ d, set_left (tm_left d + i) d).
Definition timersAdjust (i : Z) : TM () := q ← timer_get_queue; for_all q (add_left i).
Definition remove_from (q : option loc) (t : tloc) : TM bool :=
  iter ← in_heap (list_begin q); n ← list_bound;
  each n (λ iter i, if decide (i = t) then _ ← in_heap (listIterator_remove iter); mret true else mret false) iter.
Definition timerRemove (t : tloc) : TM () :=
  q ← timer_get_queue; r ← timer_get_r_queue;
  removed ← remove_from q t;
  if removed : bool then mret () else _ ← remove_from r t; mret ().
Definition timerStop (t : tloc) : TM () := upd_timer t (λ d, set_time 0 (set_left 0 d));; timerRemove t.

(** What remains for the timer of the system, after the queue was adjusted to it. *)
Definition adjust_for (t : tloc) (running : Z) : TM Z :=
  d ← get_timer t;
  if running <=? tm_left d then upd_timer t (λ d, set_left (tm_left d - running) d);; mret running
  else timersAdjust (int32 (running - tm_left d));; mret (tm_left d).
(** Nothing was running: the timer of the system is for the first of the queue. *)
Definition sync_all (q : option loc) : TM (option Z) :=
  first ← in_heap (list_firstItem q);
  match first with
  | None => mret None
  | Some f => d ← get_timer f; for_all q (add_left (- tm_left d));; mret (Some (tm_left d))
  end.
Definition timerStart (t : tloc) (i : Z) : TM Z :=
  q ← timer_get_queue;
  upd_timer t (set_time i);;
  d ← get_timer t;
  if tm_time d <=? 0 then mret (-1) else
  s ← get;
  when (tm_time d <? timerPrecMs s) (upd_timer t (set_time (timerPrecMs s)));;
  upd_timer t (λ d, set_left (tm_time d) d);;
  running ← tmrStop;
  timerRemove t;;
  remaining ← adjust_for t (int32 running);
  timerInsert t;;
  if remaining =? 0 then
    first ← sync_all q;
    match first with None => mret (-1) | Some remaining => tmrStart remaining;; mret 0 end
  else tmrStart remaining;; mret 0.

(** ** Expiry *)
(** The timers that have run out go to the running list; the loop goes on at the node
    before a removed one.  The result is [timeout], if it was set. *)
Fixpoint expire (fuel : nat) (r : option loc) (iter : ListIterator) : TM (option Z) :=
  match fuel with
  | O => no_fuel
  | S fuel =>
      if listIterator_finished iter then mret None else
      t ← item iter; d ← get_timer t;
      if tm_left d <=? 0 then
        upd_timer t (set_left (-1));;
        in_heap (list_append r (Some t));;
        iter ← in_heap (listIterator_remove iter);
        iter ← in_heap (listIterator_next iter);
        expire fuel r iter
      else mret (Some (tm_left d))
  end.
Fixpoint run_expired (fuel : nat) (iter : ListIterator) : TM () :=
  match fuel with
  | O => no_fuel
  | S fuel =>
      if listIterator_finished iter then mret () else
      t ← item iter;
      iter ← in_heap (listIterator_remove iter);
      d ← get_timer t;
      when (tCB d) (callback t);;
      iter ← in_heap (listIterator_next iter);
      run_expired fuel iter
  end.
Definition timerSignal : TM () :=
  q ← timer_get_queue; r ← timer_get_r_queue;
  n ← in_heap (list_size q);
  if n =? 0 then mret () else
  iter ← in_heap (list_begin q); fuel ← list_bound;
  timeout ← expire fuel r iter;
  n ← in_heap (list_size q);
  (if n =? 0 then mret ()
   else let timeout := default junk timeout in for_all q (add_left (- timeout));; tmrStart timeout);;
  n ← in_heap (list_size r);
  if n =? 0 then mret () else
  iter ← in_heap (list_begin r); fuel ← list_bound; run_expired fuel iter.
Fixpoint signal_loop (fuel : nat) : TM () :=
  match fuel with
  | O => no_fuel
  | S fuel =>
      s ← get;
      if timerTimeoutCount s =? 0 then mret () else
      modify (set_timeouts (int32 (timerTimeoutCount s - 1)) (timerTimeoutBusy s));; timerSignal;; signal_loop fuel
  end.
(** Callbacks do not raise the count. *)
Definition timerTimeout : TM () :=
  modify (λ s, set_timeouts (int32 (timerTimeoutCount s + 1)) (timerTimeoutBusy s) s);;
  s ← get;
  if timerTimeoutBusy s : bool then mret () else
  modify (λ s, set_timeouts (timerTimeoutCount s) true s);;
  signal_loop (S (Z.to_nat (timerTimeoutCount s)));;
  modify (λ s, set_timeouts (timerTimeoutCount s) false s).
(** A timer of the system has run out; [mine]: it is [MFW_TIMER].  The function in [sig] is
    [timerTimeout]. *)
Definition mfw_timeout (mine : bool) : TM Z :=
  s ← get; if sig s && mine then timerTimeout;; mret 1 else mret 0.
End Timers.
