(* ===== verification/TimerRules.v ===== *)
(** * Properties of the timers

    What starting and expiring a timer does to the queue and to the timer of the system:
    a timer alone runs out after the time it was given; at most one timer runs out per
    timeout; what goes wrong as soon as several are queued. *)
From S2P Require Import Prelude Lists Timers.

(** ** The order of the queue *)
Implicit Types (t u : tloc) (ts : list tloc).
Definition left_of (m : gmap tloc tDS) t : Z := from_option tm_left 0 (m !! t).
(** The reference: behind every timer that does not run out later. *)
Fixpoint insert_timer (m : gmap tloc tDS) t ts : list tloc :=
  match ts with
  | [] => [t]
  | u :: ts' => if left_of m u <=? left_of m t then u :: insert_timer m t ts' else t :: ts
  end.
Fixpoint in_order (m : gmap tloc tDS) ts : Prop :=
  match ts with [] => True | u :: ts' => Forall (λ v, left_of m u ≤ left_of m v) ts' ∧ in_order m ts' end.
Lemma insert_split m t ts : in_order m ts → ∃ ts1 ts2, ts = ts1 ++ ts2 ∧ insert_timer m t ts = ts1 ++ t :: ts2 ∧
  Forall (λ u, left_of m u ≤ left_of m t) ts1 ∧ Forall (λ u, left_of m t < left_of m u) ts2.
Proof.
  induction ts as [|u ts IH]; [intros _; by exists [], []|]. intros [Hu Hs]. cbn [insert_timer].
  destruct (Z.leb_spec (left_of m u) (left_of m t)) as [Hle|Hlt].
  - destruct (IH Hs) as (ts1 & ts2 & -> & -> & ? & ?). exists (u :: ts1), ts2. split_and!; try done. by constructor.
  - exists [], (u :: ts). split_and!; try done. constructor; [done|]. eapply Forall_impl; [exact Hu|]. cbn. lia.
Qed.
Lemma in_order_app m ts1 ts2 : in_order m (ts1 ++ ts2) ↔
  in_order m ts1 ∧ in_order m ts2 ∧ Forall (λ u, Forall (λ v, left_of m u ≤ left_of m v) ts2) ts1.
Proof.
  induction ts1 as [|u ts1 IH]; [cbn; rewrite Forall_nil; tauto|]. cbn [app in_order].
  rewrite Forall_app, IH, Forall_cons. tauto.
Qed.
Lemma insert_in_order m t ts : in_order m ts → in_order m (insert_timer m t ts).
Proof.
  intros Hs. destruct (insert_split m t ts Hs) as (ts1 & ts2 & -> & -> & H1 & H2).
  apply in_order_app in Hs as (Ho1 & Ho2 & H12). apply in_order_app. split; [done|]. split.
  - split; [|done]. eapply Forall_impl; [exact H2|]. cbn. lia.
  - apply Forall_forall. intros u Hu. rewrite Forall_forall in H1, H12. constructor; [by apply H1|by apply H12].
Qed.

Set Default Proof Using "Type".
Section Rules.
Context {V : Type} `{VSI V}.
Variable callback : tloc → M (timers (V := V)) ().
Variable junk : Z.
Implicit Types (s : timers (V := V)) (l : loc).

(** The list at [l] holds the timers [ts], with their data. *)
Record queue_is s l (cs : list (loc * option tloc)) ts : Prop := {
  qi_list : is_list (tm_heap s) l cs;
  qi_items : cs.*2 = Some <$> ts;
  qi_data : Forall (λ t, is_Some (tm_data s !! t)) ts }.
(** Two queues over a heap in order; their nodes are not shared. *)
Record ready s q r : Prop := {
  rd_queue : timer_queue s = Some q;
  rd_r_queue : timer_r_queue s = Some r;
  rd_apart : q ≠ r;
  rd_heap : heap_ok (tm_heap s) }.

(** The data of the timers [ts] when [i] was added to what is left of each. *)
Definition shifted i ts (m : gmap tloc tDS) : gmap tloc tDS :=
  foldl (λ m t, alter (λ d, set_left (tm_left d + i) d) t m) m ts.

(** ** Running the steps *)
Lemma in_heap_Ok {B} (m : M (heap tloc) B) s b h : m (tm_heap s) = Ok (b, h) → in_heap m s = Ok (b, with_heap h s).
Proof. unfold in_heap. by intros ->. Qed.
Lemma with_heap_same s : with_heap (tm_heap s) s = s.
Proof. by destruct s. Qed.
Lemma in_heap_same {B} (m : M (heap tloc) B) s b : m (tm_heap s) = Ok (b, tm_heap s) → in_heap m s = Ok (b, s).
Proof. intros E. rewrite (in_heap_Ok _ _ _ _ E), with_heap_same. done. Qed.
Lemma get_queue_ready s q r : ready s q r → timer_get_queue s = Ok (Some q, s).
Proof. intros [E _ _ _]. unfold timer_get_queue, mbind, M_bind, get. by rewrite E. Qed.
Lemma get_r_queue_ready s q r : ready s q r → timer_get_r_queue s = Ok (Some r, s).
Proof. intros [_ E _ _]. unfold timer_get_r_queue, mbind, M_bind, get. by rewrite E. Qed.
Lemma list_begin_ok (h : heap tloc) l cs : is_list h l cs → list_begin (Some l) h = Ok (mkIter l (first_loc cs None) OffsetNext, h).
Proof. intros [E _ _]. unfold list_begin. run_bind. reflexivity. Qed.
Lemma list_rbegin_ok (h : heap tloc) l cs : is_list h l cs → list_rbegin (Some l) h = Ok (mkIter l (last_loc None cs) OffsetPrev, h).
Proof. intros [E _ _]. unfold list_rbegin. run_bind. reflexivity. Qed.
Lemma list_size_ok (h : heap tloc) l cs : is_list h l cs → list_size (Some l) h = Ok (int32 (Z.of_nat (length cs)), h).
Proof. intros [E _ _]. unfold list_size. run_bind. reflexivity. Qed.
Lemma list_firstItem_ok (h : heap tloc) l n a cs : is_list h l ((n, a) :: cs) → list_firstItem (Some l) h = Ok (a, h).
Proof. intros [E _ [Hn _]]. unfold list_firstItem. run_bind. cbn [first_loc fst]. run_bind. reflexivity. Qed.
Lemma upd_timer_ok s t d f : tm_data s !! t = Some d → upd_timer t f s = Ok ((), set_data (<[t := f d]> (tm_data s)) s).
Proof. intros E. unfold upd_timer, get_timer, mbind, M_bind. by rewrite E. Qed.
Lemma get_timer_ok s t d : tm_data s !! t = Some d → get_timer t s = Ok (d, s).
Proof. intros E. unfold get_timer. by rewrite E. Qed.
Lemma item_ok s l n t c d : nodes (tm_heap s) !! n = Some c → data c = Some t → item (mkIter l (Some n) d) s = Ok (t, s).
Proof.
  intros E Ec. unfold item. erewrite bind_Ok.
  2:{ apply in_heap_same. unfold listIterator_item. cbn [it_node]. run_bind. reflexivity. }
  by rewrite Ec.
Qed.
Lemma next_ok s l n c d : nodes (tm_heap s) !! n = Some c →
  in_heap (listIterator_next (mkIter l (Some n) d)) s =
    Ok (mkIter l (match d with OffsetNext => next c | OffsetPrev => prev c end) d, s).
Proof. intros E. apply in_heap_same. unfold listIterator_next. cbn [it_node]. run_bind. reflexivity. Qed.

Lemma alter_present (f : tDS → tDS) t d (m : gmap tloc tDS) : m !! t = Some d → alter f t m = <[t := f d]> m.
Proof.
  intros E. apply map_eq. intros k. rewrite lookup_insert, lookup_alter. case_decide; [subst; by rewrite E|done].
Qed.
Lemma finished_some l n d : listIterator_finished (mkIter l (Some n) d) = false.
Proof. done. Qed.
Lemma set_data_twice m m' s : set_data m (set_data m' s) = set_data m s.
Proof. done. Qed.

(** ** Loops over a queue *)
Lemma shift_loop l i : ∀ cs ts p s fuel, seg (nodes (tm_heap s)) p cs None → (length cs < fuel)%nat →
  cs.*2 = Some <$> ts → Forall (λ t, is_Some (tm_data s !! t)) ts →
  each fuel (λ _ t, add_left i t;; mret false) (mkIter l (first_loc cs None) OffsetNext) s =
    Ok (false, set_data (shifted i ts (tm_data s)) s).
Proof.
  induction cs as [|[n a] cs IH]; intros [|t ts] p s [|fuel] Hs Hf Hi Hd; try done; try (cbn in Hf; lia).
  - by destruct s.
  - cbn in Hi. injection Hi as -> Hi. destruct Hs as [Hn Hs]. apply Forall_cons in Hd as [[d Hd] Hd'].
    cbn [each first_loc fst]. rewrite finished_some.
    erewrite bind_Ok by (eapply item_ok; [exact Hn|done]).
    rewrite bind_assoc. erewrite bind_Ok by (unfold add_left; eapply upd_timer_ok; exact Hd).
    erewrite bind_Ok by reflexivity. cbv iota beta.
    erewrite bind_Ok by (eapply next_ok; exact Hn). cbn [next].
    rewrite (IH ts (Some n)); [|done|cbn in Hf; lia|done|].
    + cbn [shifted foldl]. by rewrite set_data_twice, (alter_present _ _ _ _ Hd).
    + eapply Forall_impl; [exact Hd'|]. intros k Hk. cbn [set_data tm_data]. rewrite lookup_insert. case_decide; eauto.
Qed.
Lemma for_all_shift s l cs ts i : queue_is s l cs ts →
  for_all (Some l) (add_left i) s = Ok ((), set_data (shifted i ts (tm_data s)) s).
Proof.
  intros [Hl Hi Hd]. unfold for_all. erewrite bind_Ok by (apply in_heap_same, list_begin_ok; exact Hl).
  erewrite bind_Ok by reflexivity. erewrite bind_Ok; [done|].
  eapply shift_loop; [exact (il_seg _ _ _ Hl)|by eapply cells_le_fuel|done|done].
Qed.
Lemma shifted_lookup i ts m t : NoDup ts →
  shifted i ts m !! t = if decide (t ∈ ts) then (λ d, set_left (tm_left d + i) d) <$> m !! t else m !! t.
Proof.
  revert m; induction ts as [|u ts IH]; intros m Hd; [done|]. apply NoDup_cons in Hd as [Hu Hd].
  cbn [shifted foldl]. fold (shifted i ts (alter (λ d, set_left (tm_left d + i) d) u m)). rewrite IH by done.
  rewrite lookup_alter. destruct (decide (u = t)) as [->|Hne].
  - rewrite decide_False by done. by rewrite decide_True by (left; done).
  - destruct (decide (t ∈ ts)) as [Hin|Hin]; [by rewrite decide_True by (by right)|].
    rewrite decide_False; [done|]. rewrite elem_of_cons. intros [?|?]; congruence.
Qed.

(** ** Taking a timer out of a list *)
Lemma remove_loop_absent l t : ∀ cs ts p s fuel, seg (nodes (tm_heap s)) p cs None → (length cs < fuel)%nat →
  cs.*2 = Some <$> ts → t ∉ ts →
  each fuel (λ iter i, if decide (i = t) then _ ← in_heap (listIterator_remove iter); mret true else mret false)
    (mkIter l (first_loc cs None) OffsetNext) s = Ok (false, s).
Proof.
  induction cs as [|[n a] cs IH]; intros [|u ts] p s [|fuel] Hs Hf Hi Ht; try done; try (cbn in Hf; lia).
  cbn in Hi. injection Hi as -> Hi. destruct Hs as [Hn Hs]. apply not_elem_of_cons in Ht as [Hut Ht].
  cbn [each first_loc fst]. rewrite finished_some. erewrite bind_Ok by (eapply item_ok; [exact Hn|done]).
  rewrite decide_False by congruence. erewrite bind_Ok by reflexivity. cbv iota beta.
  erewrite bind_Ok by (eapply next_ok; exact Hn). cbn [next]. eapply IH; try done. cbn in Hf; lia.
Qed.
Lemma remove_from_absent s l cs ts t : queue_is s l cs ts → t ∉ ts → remove_from (Some l) t s = Ok (false, s).
Proof.
  intros [Hl Hi Hd] Ht. unfold remove_from. erewrite bind_Ok by (apply in_heap_same, list_begin_ok; exact Hl).
  erewrite bind_Ok by reflexivity.
  eapply remove_loop_absent; [exact (il_seg _ _ _ Hl)|by eapply cells_le_fuel|done|done].
Qed.
Lemma timerRemove_absent s q r cs ts t : ready s q r → queue_is s q cs ts → queue_is s r [] [] → t ∉ ts →
  timerRemove t s = Ok ((), s).
Proof.
  intros Hr Hq He Ht. unfold timerRemove. erewrite bind_Ok by (eapply get_queue_ready; exact Hr).
  erewrite bind_Ok by (eapply get_r_queue_ready; exact Hr).
  erewrite bind_Ok by (eapply remove_from_absent; [exact Hq|done]). cbv iota beta.
  erewrite bind_Ok by (eapply remove_from_absent; [exact He|by apply not_elem_of_nil]). done.
Qed.

(** ** The heap steps, on queues *)
Lemma queue_kept s h' l l' cs cs' ts' : queue_is s l' cs' ts' → only_touches (tm_heap s) h' l cs → l' ≠ l →
  (∀ n, n ∈ cs'.*1 → n ∉ cs.*1) → queue_is (with_heap h' s) l' cs' ts'.
Proof. intros [Hl Hi Hd] Ht Hne Hn. split; [by apply Ht|done|done]. Qed.
Lemma ready_heap s q r h' : ready s q r → heap_ok h' → ready (with_heap h' s) q r.
Proof. intros [] ?. by split. Qed.
Lemma append_step s q r l cs ts t : ready s q r → queue_is s l cs ts → is_Some (tm_data s !! t) →
  ∃ n h', in_heap (list_append (Some l) (Some t)) s = Ok ((), with_heap h' s) ∧ ready (with_heap h' s) q r ∧
    queue_is (with_heap h' s) l (cs ++ [(n, Some t)]) (ts ++ [t]) ∧ nodes (tm_heap s) !! n = None ∧
    only_touches (tm_heap s) h' l cs.
Proof.
  intros Hr [Hl Hi Hd] Ht. destruct (list_append_ok _ _ _ (Some t) (rd_heap _ _ _ Hr) Hl) as (n & h' & E & Hok & Hl' & Hn & Ho).
  exists n, h'. split; [by apply in_heap_Ok|]. split; [by apply ready_heap|]. split; [|done]. split; [done| |].
  - by rewrite fmap_app, Hi, fmap_app.
  - apply Forall_app; split; [done|by apply Forall_singleton].
Qed.
Lemma remove_step s q r l cs1 n t cs2 ts1 ts2 : ready s q r → queue_is s l (cs1 ++ (n, Some t) :: cs2) (ts1 ++ t :: ts2) →
  length cs1 = length ts1 →
  ∃ h', in_heap (listIterator_remove (mkIter l (Some n) OffsetNext)) s =
      Ok (mkIter l (last_loc None cs1) OffsetNext, with_heap h' s) ∧ ready (with_heap h' s) q r ∧
    queue_is (with_heap h' s) l (cs1 ++ cs2) (ts1 ++ ts2) ∧ only_touches (tm_heap s) h' l (cs1 ++ (n, Some t) :: cs2).
Proof.
  intros Hr [Hl Hi Hd] Hlen.
  destruct (listIterator_remove_ok _ _ _ _ _ _ OffsetNext (rd_heap _ _ _ Hr) Hl) as (h' & E & Hok & Hl' & _ & Ho).
  exists h'. split; [by apply in_heap_Ok|]. split; [by apply ready_heap|]. split; [|done]. split; [done| |].
  - rewrite !fmap_app in *. apply app_inj_1 in Hi as [-> Hi]; [|by rewrite !length_fmap].
    rewrite fmap_cons in Hi. injection Hi as ->. done.
  - apply Forall_app in Hd as [? Hd]. apply Forall_cons in Hd as [_ ?]. by apply Forall_app.
Qed.
Lemma ready_data s q r m : ready s q r → ready (set_data m s) q r.
Proof. by intros []. Qed.
Lemma queue_data s l cs ts t d : queue_is s l cs ts → queue_is (set_data (<[t := d]> (tm_data s)) s) l cs ts.
Proof.
  intros [Hl Hi Hd]. split; [done|done|]. eapply Forall_impl; [exact Hd|]. intros k Hk.
  cbn [set_data tm_data]. rewrite lookup_insert. case_decide; eauto.
Qed.

(** ** Expiry *)
Lemma fresh_notin s l cs ts n : queue_is s l cs ts → nodes (tm_heap s) !! n = None → n ∉ cs.*1.
Proof. intros [Hl _ _] Hn Hin. destruct (seg_lookup _ _ _ _ _ (il_seg _ _ _ Hl) Hin). congruence. Qed.
Lemma finished_none l d : listIterator_finished (mkIter l None d) = true.
Proof. done. Qed.
Lemma next_none s l d : in_heap (listIterator_next (mkIter l None d)) s = Ok (mkIter l None d, s).
Proof. by apply in_heap_same. Qed.
Lemma expire_head s q r n t cs ts d fuel : ready s q r → queue_is s q ((n, Some t) :: cs) (t :: ts) →
  queue_is s r [] [] → tm_data s !! t = Some d → tm_left d ≤ 0 →
  ∃ h' m, expire (S (S fuel)) (Some r) (mkIter q (Some n) OffsetNext) s =
      Ok (None, with_heap h' (set_data (<[t := set_left (-1) d]> (tm_data s)) s)) ∧
    let s' := with_heap h' (set_data (<[t := set_left (-1) d]> (tm_data s)) s) in
    ready s' q r ∧ queue_is s' q cs ts ∧ queue_is s' r [(m, Some t)] [t] ∧ m ∉ cs.*1.
Proof.
  intros Hr Hq He Hd Hle. pose proof (il_seg _ _ _ (qi_list _ _ _ _ Hq)) as [Hn _].
  set (s1 := set_data (<[t := set_left (-1) d]> (tm_data s)) s).
  assert (is_Some (tm_data s1 !! t)) as Ht by (cbn; rewrite lookup_insert_eq; eauto).
  destruct (append_step s1 q r r [] [] t (ready_data _ _ _ _ Hr) (queue_data _ _ _ _ _ _ He) Ht)
    as (m & h1 & E1 & Hr1 & Hrun & Hm & Ho1). set (s2 := with_heap h1 s1) in *.
  assert (queue_is s2 q ((n, Some t) :: cs) (t :: ts)) as Hq2.
  { eapply queue_kept; [by apply queue_data|exact Ho1|by eapply rd_apart|intros k _; apply not_elem_of_nil]. }
  destruct (remove_step s2 q r q [] n t cs [] ts Hr1 Hq2 eq_refl) as (h2 & E2 & Hr2 & Hq3 & Ho2).
  exists h2, m. split.
  - cbn [expire]. rewrite finished_some. erewrite bind_Ok by (eapply item_ok; [exact Hn|done]).
    erewrite bind_Ok by (eapply get_timer_ok; exact Hd). rewrite (proj2 (Z.leb_le _ _)) by done.
    erewrite bind_Ok by (eapply upd_timer_ok; exact Hd). erewrite bind_Ok by exact E1.
    erewrite bind_Ok by exact E2. erewrite bind_Ok by apply next_none. by rewrite finished_none.
  - cbv zeta. split; [exact Hr2|]. split; [exact Hq3|].
    assert (m ∉ ((n, Some t) :: cs).*1) as Hmn by exact (fresh_notin s1 q _ _ m (queue_data s q _ _ t _ Hq) Hm).
    split; [|cells; done].
    eapply (queue_kept s2 h2 q r); [exact Hrun|exact Ho2|apply not_eq_sym; by eapply rd_apart|].
    cbn [app fmap list_fmap]. intros k ->%list_elem_of_singleton.
    exact Hmn.
Qed.
(** The loop over the running list runs the callback of its only timer, when the timer
    has left the list. *)
Lemma run_one s q r m t d fuel : ready s q r → queue_is s r [(m, Some t)] [t] → tm_data s !! t = Some d →
  ∃ h', run_expired callback (S (S fuel)) (mkIter r (Some m) OffsetNext) s =
      when (tCB d) (callback t) (with_heap h' s) ∧ ready (with_heap h' s) q r ∧ queue_is (with_heap h' s) r [] [] ∧
    only_touches (tm_heap s) h' r [(m, Some t)].
Proof.
  intros Hr Hq Hd. pose proof (il_seg _ _ _ (qi_list _ _ _ _ Hq)) as [Hn _].
  destruct (remove_step s q r r [] m t [] [] [] Hr Hq eq_refl) as (h' & E & Hr' & Hq' & Ho).
  exists h'. split; [|done]. cbn [run_expired]. rewrite finished_some.
  erewrite bind_Ok by (eapply item_ok; [exact Hn|done]). erewrite bind_Ok by exact E.
  erewrite bind_Ok by (apply get_timer_ok; exact Hd). cbn [last_loc last].
  destruct (when (tCB d) (callback t) (with_heap h' s)) as [[[] s']| | |] eqn:Ec;
    [|by erewrite bind_Abort by done|by erewrite bind_Fault by done|by erewrite bind_NoFuel by done].
  erewrite bind_Ok by exact Ec. erewrite bind_Ok by apply next_none. by rewrite finished_none.
Qed.

(** ** A timeout of the timer of the system *)
(** The timer of the system, started for [ms]; it takes no less than 5. *)
Definition started ms s : timers := set_tmr (timerPrecMs s) (sig s) (vsi_t_start (Z.max 5 (uint32 ms)) (tm_vsi s)) s.
Lemma tmrStart_ok s ms : sig s = true → tmrStart ms s = Ok ((), started ms s).
Proof.
  intros E. unfold tmrStart. erewrite bind_Ok by reflexivity. rewrite E. cbn [when]. unfold modify, started. rewrite E.
  destruct (Z.ltb_spec (uint32 ms) 5); [by rewrite Z.max_l by lia|by rewrite Z.max_r by lia].
Qed.
Lemma size_step s l cs ts : queue_is s l cs ts → Z.of_nat (length cs) < 2 ^ 31 →
  in_heap (list_size (Some l)) s = Ok (Z.of_nat (length cs), s).
Proof.
  intros [Hl _ _] Hlen. apply in_heap_same. rewrite (list_size_ok _ _ _ Hl), int32_small by lia. done.
Qed.
Lemma begin_step s l cs ts : queue_is s l cs ts →
  in_heap (list_begin (Some l)) s = Ok (mkIter l (first_loc cs None) OffsetNext, s).
Proof. intros [Hl _ _]. by apply in_heap_same, list_begin_ok. Qed.
(** What remains queued is shifted and the timer of the system restarted. *)
Definition restarted i ts s : timers := started i (set_data (shifted (- i) ts (tm_data s)) s).
Lemma restart_step s l cs ts o : queue_is s l cs ts → sig s = true → ts ≠ [] →
  (let timeout := default junk o in for_all (Some l) (add_left (- timeout));; tmrStart timeout) s =
    Ok ((), restarted (default junk o) ts s).
Proof.
  intros Hq Hs _. cbv zeta. erewrite bind_Ok by (eapply for_all_shift; exact Hq).
  by rewrite (tmrStart_ok (set_data (shifted (- default junk o) ts (tm_data s)) s)).
Qed.
Lemma same_length s l cs ts : queue_is s l cs ts → length cs = length ts.
Proof. intros [_ Hi _]. apply (f_equal length) in Hi. by rewrite !length_fmap in Hi. Qed.
Lemma shifted_is_Some i ts m t : is_Some (shifted i ts m !! t) ↔ is_Some (m !! t).
Proof.
  revert m; induction ts as [|u ts IH]; intros m; [done|]. cbn [shifted foldl].
  fold (shifted i ts (alter (λ d, set_left (tm_left d + i) d) u m)). rewrite IH, lookup_alter_is_Some. done.
Qed.
Lemma shifted_tCB i ts m t d : shifted i ts m !! t = Some d → ∃ d', m !! t = Some d' ∧ tCB d = tCB d'.
Proof.
  revert m; induction ts as [|u ts IH]; intros m; [by eauto|]. cbn [shifted foldl].
  fold (shifted i ts (alter (λ d, set_left (tm_left d + i) d) u m)). intros (d' & Hd' & ->)%IH.
  rewrite lookup_alter in Hd'. case_decide; [|by eauto]. subst. apply fmap_Some in Hd' as (d1 & E & ->). by exists d1.
Qed.
Lemma queue_restarted s l cs ts i us : queue_is s l cs ts → queue_is (restarted i us s) l cs ts.
Proof.
  intros [Hl Hi Hd]. split; [done|done|]. eapply Forall_impl; [exact Hd|]. intros k Hk. by apply shifted_is_Some.
Qed.

(** The first of the queue has run out: its callback is the only one to run.  With others
    behind it the timer of the system starts for an indeterminate time. *)
Lemma signal_expired s q r n t cs ts d : ready s q r → queue_is s q ((n, Some t) :: cs) (t :: ts) →
  queue_is s r [] [] → sig s = true → tm_data s !! t = Some d → tm_left d ≤ 0 →
  Z.of_nat (length cs) + 1 < 2 ^ 31 →
  ∃ h' s', timerSignal callback junk s = when (tCB d) (callback t) s' ∧
    s' = with_heap h' ((if decide (ts = []) then id else restarted junk ts) (set_data (<[t := set_left (-1) d]> (tm_data s)) s)) ∧
    ready s' q r ∧ queue_is s' q cs ts ∧ queue_is s' r [] [].
Proof.
  intros Hr Hq He Hs Hd Hle Hlen.
  unfold timerSignal. erewrite bind_Ok by (eapply get_queue_ready; exact Hr).
  erewrite bind_Ok by (eapply get_r_queue_ready; exact Hr).
  erewrite bind_Ok by (eapply size_step; [exact Hq|cbn [length]; lia]). rewrite (proj2 (Z.eqb_neq _ _)) by (cbn [length]; lia).
  erewrite bind_Ok by (eapply begin_step; exact Hq). erewrite bind_Ok by reflexivity. cbn [first_loc fst].
  pose proof (cells_le_fuel _ _ _ (qi_list _ _ _ _ Hq)) as Hf. cbn [length] in Hf.
  destruct (loop_fuel (tm_heap s)) as [|[|fuel]] eqn:Ef; [lia|lia|].
  destruct (expire_head s q r n t cs ts d fuel Hr Hq He Hd Hle) as (h1 & m & E1 & Hr1 & Hq1 & Hrun & Hmn).
  erewrite bind_Ok by exact E1. set (s1 := with_heap h1 _) in *. change (queue_is s1 q cs ts) in Hq1.
  erewrite bind_Ok by (eapply size_step; [exact Hq1|lia]).
  set (s2 := if decide (ts = []) then s1 else restarted junk ts s1).
  assert (ready s2 q r ∧ queue_is s2 q cs ts ∧ queue_is s2 r [(m, Some t)] [t] ∧ is_Some (tm_data s2 !! t)) as (Hr2 & Hq2 & Hrun2 & [d2 Hd2]).
  { pose proof (qi_data _ _ _ _ Hrun) as Ht. rewrite Forall_singleton in Ht.
    unfold s2. case_decide; [done|]. split_and!; [by destruct Hr1; split|by apply queue_restarted|by apply queue_restarted|].
    by apply shifted_is_Some. }
  assert (tCB d2 = tCB d) as Hcb.
  { unfold s2 in Hd2. case_decide; [|apply shifted_tCB in Hd2 as (d1 & Hd2 & ->)];
      cbn in Hd2; rewrite lookup_insert_eq in Hd2; by injection Hd2 as <-. }
  erewrite (bind_Ok _ _ _ _ s2).
  2:{ unfold s2. pose proof (same_length _ _ _ _ Hq1) as El. case_decide as Ets.
      - subst ts. destruct cs; [done|discriminate].
      - rewrite (proj2 (Z.eqb_neq _ _)) by (destruct ts; [done|cbn in El; lia]).
        exact (restart_step s1 q cs ts None Hq1 Hs Ets). }
  erewrite bind_Ok by (eapply size_step; [exact Hrun2|cbn; lia]). cbn [length]. rewrite (proj2 (Z.eqb_neq (Z.of_nat 1) 0)) by lia.
  erewrite bind_Ok by (eapply begin_step; exact Hrun2). erewrite bind_Ok by reflexivity. cbn [first_loc fst].
  pose proof (cells_le_fuel _ _ _ (qi_list _ _ _ _ Hrun2)) as Hf2. cbn [length] in Hf2.
  destruct (loop_fuel (tm_heap s2)) as [|[|fuel2]] eqn:Ef2; [lia|lia|].
  destruct (run_one s2 q r m t d2 fuel2 Hr2 Hrun2 Hd2) as (h2 & E2 & Hr3 & He3 & Ho). rewrite <-Hcb.
  exists h2, (with_heap h2 s2). split; [exact E2|]. split; [unfold s2, s1; case_decide; reflexivity|]. split; [done|]. split; [|done].
  eapply queue_kept; [exact Hq2|exact Ho|by eapply rd_apart|]. intros k Hk ->%list_elem_of_singleton. done.
Qed.

(** The first of the queue has not run out: nothing runs, and the timer of the system
    starts once more, for what was left of it. *)
Lemma signal_waiting s q r n t cs ts d : ready s q r → queue_is s q ((n, Some t) :: cs) (t :: ts) →
  queue_is s r [] [] → sig s = true → tm_data s !! t = Some d → 0 < tm_left d →
  Z.of_nat (length cs) + 1 < 2 ^ 31 →
  timerSignal callback junk s = Ok ((), restarted (tm_left d) (t :: ts) s).
Proof.
  intros Hr Hq He Hs Hd Hlt Hlen. pose proof (il_seg _ _ _ (qi_list _ _ _ _ Hq)) as [Hn _].
  unfold timerSignal. erewrite bind_Ok by (eapply get_queue_ready; exact Hr).
  erewrite bind_Ok by (eapply get_r_queue_ready; exact Hr).
  erewrite bind_Ok by (eapply size_step; [exact Hq|cbn [length]; lia]). rewrite (proj2 (Z.eqb_neq _ _)) by (cbn [length]; lia).
  erewrite bind_Ok by (eapply begin_step; exact Hq). erewrite bind_Ok by reflexivity. cbn [first_loc fst].
  destruct (loop_fuel (tm_heap s)) as [|fuel] eqn:Ef; [discriminate|].
  erewrite (bind_Ok _ _ _ (Some (tm_left d)) s).
  2:{ cbn [expire]. rewrite finished_some. erewrite bind_Ok by (eapply item_ok; [exact Hn|done]).
      erewrite bind_Ok by (eapply get_timer_ok; exact Hd). by rewrite (proj2 (Z.leb_gt _ _)) by lia. }
  erewrite bind_Ok by (eapply size_step; [exact Hq|cbn [length]; lia]). rewrite (proj2 (Z.eqb_neq _ _)) by (cbn [length]; lia).
  erewrite bind_Ok by (exact (restart_step s q _ _ (Some (tm_left d)) Hq Hs ltac:(done))). cbn [default].
  erewrite bind_Ok by (eapply size_step; [apply queue_restarted; exact He|done]). done.
Qed.

(** ** Insertion *)
(** The loop of [timerInsert] passes the timers that run out later, from the end. *)
Abbreviation insert_body t := (λ (iter : ListIterator) (i : tloc),
  d ← get_timer t; di ← get_timer i;
  if tm_left di <=? tm_left d then in_heap (listIterator_insertAfter iter (Some t));; mret true else mret false).
Lemma insert_passes s l t d cs1 : ∀ cs2 ts2 fuel, bwd (nodes (tm_heap s)) None (cs1 ++ cs2) →
  cs2.*2 = Some <$> ts2 → Forall (λ u, is_Some (tm_data s !! u)) ts2 → tm_data s !! t = Some d →
  Forall (λ u, tm_left d < left_of (tm_data s) u) ts2 →
  each (length cs2 + fuel) (insert_body t) (mkIter l (last_loc None (cs1 ++ cs2)) OffsetPrev) s =
    each fuel (insert_body t) (mkIter l (last_loc None cs1) OffsetPrev) s.
Proof.
  induction cs2 as [|[n a] cs2 IH] using rev_ind; intros ts2 fuel Hb Hi Hd Ht Hlt; [by rewrite app_nil_r|].
  rewrite fmap_app in Hi. destruct ts2 as [|u ts2 _] using rev_ind; [by destruct cs2|].
  rewrite fmap_app in Hi. apply app_inj_2 in Hi as [Hi [= ->]]; [|done].
  apply Forall_app in Hd as [Hd [du Hu]%Forall_singleton]. apply Forall_app in Hlt as [Hlt Hltu].
  rewrite Forall_singleton in Hltu. unfold left_of in Hltu. rewrite Hu in Hltu. cbn in Hltu.
  rewrite app_assoc in Hb |- *. apply bwd_app in Hb as [Hb [[qn Hn] _]]. rewrite last_loc_snoc, length_app, Nat.add_1_r.
  cbn [Nat.add each fst]. rewrite finished_some. erewrite bind_Ok by (eapply item_ok; [exact Hn|done]).
  rewrite bind_assoc. erewrite bind_Ok by (apply get_timer_ok; exact Ht). rewrite bind_assoc. erewrite bind_Ok by (apply get_timer_ok; exact Hu).
  rewrite (proj2 (Z.leb_gt _ _)) by lia. erewrite bind_Ok by reflexivity. cbv iota beta.
  erewrite bind_Ok by (eapply next_ok; exact Hn). cbn [prev]. by eapply IH.
Qed.

Lemma insert_body_stops s l n c u t d du : nodes (tm_heap s) !! n = Some c → data c = Some u →
  tm_data s !! t = Some d → tm_data s !! u = Some du → tm_left du ≤ tm_left d → ∀ h' fuel,
  listIterator_insertAfter (mkIter l (Some n) OffsetPrev) (Some t) (tm_heap s) = Ok ((), h') →
  each (S fuel) (insert_body t) (mkIter l (Some n) OffsetPrev) s = Ok (true, with_heap h' s).
Proof.
  intros Hn Hc Ht Hu Hle h' fuel E. cbn [each]. rewrite finished_some. erewrite bind_Ok by (eapply item_ok; [exact Hn|exact Hc]).
  rewrite bind_assoc. erewrite bind_Ok by (apply get_timer_ok; exact Ht). rewrite bind_assoc. erewrite bind_Ok by (apply get_timer_ok; exact Hu).
  rewrite (proj2 (Z.leb_le _ _)) by lia. rewrite bind_assoc. erewrite bind_Ok by (apply in_heap_Ok; exact E). done.
Qed.
Lemma insert_unfold s q r cs ts t : ready s q r → queue_is s q cs ts → cs ≠ [] → Z.of_nat (length cs) < 2 ^ 31 →
  timerInsert t s = (done ← each (loop_fuel (tm_heap s)) (insert_body t) (mkIter q (last_loc None cs) OffsetPrev);
                     if done : bool then mret () else in_heap (list_prepend (Some q) (Some t))) s.
Proof.
  intros Hr Hq Hne Hlen. unfold timerInsert. erewrite bind_Ok by (eapply get_queue_ready; exact Hr).
  erewrite bind_Ok by (eapply size_step; [exact Hq|lia]). rewrite (proj2 (Z.eqb_neq _ _)) by (destruct cs; [done|cbn [length]; lia]).
  erewrite bind_Ok by (apply in_heap_same, list_rbegin_ok, (qi_list _ _ _ _ Hq)). by erewrite bind_Ok by reflexivity.
Qed.
(** Into an empty queue, before all, after all, and between two. *)
Lemma insert_empty s q r t : ready s q r → queue_is s q [] [] → is_Some (tm_data s !! t) →
  ∃ n h', timerInsert t s = Ok ((), with_heap h' s) ∧ ready (with_heap h' s) q r ∧
    queue_is (with_heap h' s) q [(n, Some t)] [t] ∧ only_touches (tm_heap s) h' q [].
Proof.
  intros Hr Hq Ht. destruct (append_step s q r q [] [] t Hr Hq Ht) as (n & h' & E & Hr' & Hq' & _ & Ho).
  exists n, h'. split; [|done]. unfold timerInsert. erewrite bind_Ok by (eapply get_queue_ready; exact Hr).
  by erewrite bind_Ok by (eapply size_step; [exact Hq|done]).
Qed.
Lemma insert_front s q r cs ts t d : ready s q r → queue_is s q cs ts → cs ≠ [] → Z.of_nat (length cs) < 2 ^ 31 →
  tm_data s !! t = Some d → Forall (λ u, tm_left d < left_of (tm_data s) u) ts →
  ∃ n h', timerInsert t s = Ok ((), with_heap h' s) ∧ ready (with_heap h' s) q r ∧
    queue_is (with_heap h' s) q ((n, Some t) :: cs) (t :: ts) ∧ only_touches (tm_heap s) h' q cs.
Proof.
  intros Hr Hq Hne Hlen Ht Hlt. pose proof Hq as [Hl Hi Hd].
  destruct (list_prepend_ok _ _ _ (Some t) (rd_heap _ _ _ Hr) Hl) as (n & h' & E & Hok & Hl' & Ho).
  exists n, h'. split; [|split; [by apply ready_heap|split; [|done]]].
  - rewrite (insert_unfold s q r cs ts t Hr Hq Hne Hlen). erewrite (bind_Ok _ _ _ false s); [by apply in_heap_Ok|].
    pose proof (cells_le_fuel _ _ _ Hl) as Hf.
    replace (loop_fuel (tm_heap s)) with (length cs + S (loop_fuel (tm_heap s) - length cs - 1))%nat by lia.
    by erewrite (insert_passes s q t d [] cs ts _ (seg_bwd _ _ _ _ (il_seg _ _ _ Hl)) Hi Hd Ht Hlt).
  - split; [done| |]; [by rewrite fmap_cons, Hi|]. apply Forall_cons; split; [by exists d|done].
Qed.
Lemma insertAfter_last (h : heap tloc) l cs1 n a d obj : heap_ok h → is_list h l (cs1 ++ [(n, a)]) →
  ∃ h', listIterator_insertAfter (mkIter l (Some n) d) obj h = Ok ((), h') ∧ heap_ok h' ∧
    is_list h' l ((cs1 ++ [(n, a)]) ++ [(brk h, obj)]).
Proof.
  intros Hok Hl. pose proof (fresh_node _ Hok) as Hf. pose proof (is_list_fresh _ _ _ Hok Hl) as Hnew.
  eexists. split; [exact (listIterator_insertAfter_run h l cs1 n a [] d obj Hok Hl)|].
  destruct Hl as [H1 H2 H3]. apply seg_app in H3 as [S1 [Hn _]]. cbn [first_loc fst] in *. split; [heap_ok_tac|].
  split; cbn [lists nodes].
  - rewrite lookup_insert_eq, last_loc_snoc, !length_app. f_equal. f_equal.
    + f_equal. cbn [length]. lia.
    + by destruct cs1.
  - apply NoDup_cells_middle. rewrite app_nil_r. split_and!; [done|apply not_elem_of_nil|done].
  - apply NoDup_cells_middle in H2 as (H2 & _ & _). rewrite <-app_assoc, seg_app. cells.
    assert (n ≠ brk h) by (intros ->; congruence). cbn [seg app first_loc fst]. split_and!; try done.
    + eapply seg_frame; [|exact S1]. intros k Hk. rewrite lookup_insert_ne by (intros ->; done).
      rewrite lookup_insert_ne; [done|]. intros <-. done.
    + by rewrite lookup_insert_eq.
    + rewrite lookup_insert_ne by done. by rewrite lookup_insert_eq.
Qed.

Lemma cells_split (cs : list (loc * option tloc)) ts1 u ts2 : cs.*2 = Some <$> (ts1 ++ u :: ts2) →
  ∃ cs1 n cs2, cs = cs1 ++ (n, Some u) :: cs2 ∧ cs2.*2 = Some <$> ts2.
Proof.
  revert cs; induction ts1 as [|v ts1 IH]; intros [|[n a] cs]; try done; cbn; intros [= -> Hi].
  - by exists [], n, cs.
  - destruct (IH _ Hi) as (cs1 & m & cs2 & -> & ?). by exists ((n, Some v) :: cs1), m, cs2.
Qed.
Lemma insert_after s q r cs1 n u cs2 ts1 ts2 t d : ready s q r → queue_is s q (cs1 ++ (n, Some u) :: cs2) (ts1 ++ u :: ts2) →
  cs2.*2 = Some <$> ts2 → Z.of_nat (length (cs1 ++ (n, Some u) :: cs2)) < 2 ^ 31 → tm_data s !! t = Some d →
  left_of (tm_data s) u ≤ tm_left d → Forall (λ v, tm_left d < left_of (tm_data s) v) ts2 →
  ∃ h', timerInsert t s = Ok ((), with_heap h' s) ∧ list_items q h' = Ok (Some <$> (ts1 ++ u :: t :: ts2), h').
Proof.
  intros Hr Hq Hi2 Hlen Ht Hu H2. pose proof Hq as [Hl Hi Hd]. pose proof (rd_heap _ _ _ Hr) as Hok.
  assert (∃ h', listIterator_insertAfter (mkIter q (Some n) OffsetPrev) (Some t) (tm_heap s) = Ok ((), h') ∧
    list_items q h' = Ok (Some <$> (ts1 ++ u :: t :: ts2), h')) as (h' & E & El).
  { replace (Some <$> (ts1 ++ u :: t :: ts2)) with (((cs1 ++ [(n, Some u)]) ++ (brk (tm_heap s), Some t) :: cs2).*2).
    2:{ rewrite !fmap_app in Hi. csimpl in Hi. rewrite Hi2 in Hi. apply app_inj_2 in Hi as [Hi _]; [|done].
        rewrite !fmap_app. csimpl. rewrite Hi, Hi2, <-app_assoc. done. }
    destruct cs2 as [|[k b] cs2].
    - destruct (insertAfter_last _ _ _ _ _ OffsetPrev (Some t) Hok Hl) as (h' & E & _ & Hl').
      exists h'. split; [done|]. exact (list_items_ok _ _ _ Hl').
    - destruct (insertAfter_chains _ _ _ _ _ _ _ _ OffsetPrev (Some t) Hok Hl) as (h' & E & Hsz & Hf & _ & Hh).
      exists h'. split; [done|]. unfold list_items, list_begin. run_bind. rewrite <-app_assoc. cbn [app].
      replace (first_loc (cs1 ++ (n, Some u) :: (k, b) :: cs2) None)
        with (first_loc (cs1 ++ (n, Some u) :: (brk (tm_heap s), Some t) :: (k, b) :: cs2) None) by (by destruct cs1).
      apply fwd_items; [done|]. pose proof (cells_le_fuel _ _ _ Hl) as Hc. unfold loop_fuel in *. rewrite Hsz.
      rewrite !length_app in *. cbn [length] in *. lia. }
  exists h'. split; [|done]. assert (cs1 ++ (n, Some u) :: cs2 ≠ []) as Hne by (by destruct cs1).
  rewrite (insert_unfold s q r _ _ t Hr Hq Hne Hlen). erewrite (bind_Ok _ _ _ true (with_heap h' s)); [done|].
  apply Forall_app in Hd as [_ [[du Hdu] Hd2]%Forall_cons]. pose proof (cells_le_fuel _ _ _ Hl) as Hc. rewrite length_app in Hc. cbn [length] in Hc.
  replace (loop_fuel (tm_heap s)) with (length cs2 + S (loop_fuel (tm_heap s) - length cs2 - 1))%nat by lia.
  pose proof (il_seg _ _ _ Hl) as Hseg. pose proof (seg_bwd _ _ _ _ Hseg) as Hb.
  assert (cs1 ++ (n, Some u) :: cs2 = (cs1 ++ [(n, Some u)]) ++ cs2) as Ec by by rewrite <-app_assoc.
  rewrite Ec in Hb |- *. erewrite (insert_passes s q t d (cs1 ++ [(n, Some u)]) cs2 ts2 _ Hb Hi2 Hd2 Ht H2).
  rewrite last_loc_snoc. apply seg_app in Hseg as [_ [Hn _]]. unfold left_of in Hu. rewrite Hdu in Hu.
  eapply insert_body_stops; [exact Hn|done|exact Ht|exact Hdu|done|done].
Qed.


(** ** Starting *)
Definition stopped s : timers := set_tmr (timerPrecMs s) (sig s) (vsi_t_stop (tm_vsi s)) s.
Lemma ready_stopped s q r : ready s q r → ready (stopped s) q r.
Proof. by intros []. Qed.
Lemma queue_stopped s l cs ts : queue_is s l cs ts → queue_is (stopped s) l cs ts.
Proof. by intros []. Qed.
(** A timer takes no less than the precision found by [timerInit]. *)
Definition duration i s : Z := Z.max i (timerPrecMs s).
Lemma start_unfold s q r cs ts t i d : ready s q r → queue_is s q cs ts → queue_is s r [] [] → t ∉ ts → sig s = true →
  tm_data s !! t = Some d → 0 < i < 2 ^ 31 → timerPrecMs s < 2 ^ 31 →
  timerStart t i s =
    (remaining ← adjust_for t (int32 (vsi_t_status (tm_vsi s)));
     timerInsert t;;
     if remaining =? 0 then
       first ← sync_all (Some q);
       match first with None => mret (-1) | Some remaining => tmrStart remaining;; mret 0 end
     else tmrStart remaining;; mret 0)
    (stopped (set_data (<[t := mkTimer (tCB d) (duration i s) (duration i s)]> (tm_data s)) s)).
Proof.
  intros Hr Hq He Ht Hs Hd Hi Hp. set (D := duration i s). assert (int32 D = D) as HD by (apply int32_small; unfold D, duration; lia).
  unfold timerStart. erewrite bind_Ok by (eapply get_queue_ready; exact Hr).
  erewrite bind_Ok by (apply upd_timer_ok; exact Hd). set (d1 := set_time i d). set (s1 := set_data _ s).
  assert (tm_data s1 !! t = Some d1) as Hd1 by (cbn; by rewrite lookup_insert_eq).
  erewrite bind_Ok by (apply get_timer_ok; exact Hd1).
  assert (tm_time d1 = i) as Ed1 by (cbn; by apply int32_small; lia). rewrite Ed1, (proj2 (Z.leb_gt _ _)) by lia.
  erewrite bind_Ok by reflexivity.
  set (s2 := set_data (<[t := mkTimer (tCB d) (tm_left d) D]> (tm_data s)) s).
  erewrite (bind_Ok _ _ _ tt s2).
  2:{ change (timerPrecMs s1) with (timerPrecMs s). unfold s2, D, duration. destruct (Z.ltb_spec i (timerPrecMs s)); cbn [when].
      - erewrite upd_timer_ok by exact Hd1. do 2 f_equal. unfold s1. rewrite set_data_twice. cbn [set_data tm_data].
        rewrite insert_insert_eq. unfold d1, set_time. cbn. rewrite Z.max_r, int32_small by lia. done.
      - rewrite Z.max_l by lia. unfold s1, d1, set_time. by rewrite int32_small by lia. }
  assert (tm_data s2 !! t = Some (mkTimer (tCB d) (tm_left d) D)) as Hd2 by (cbn; by rewrite lookup_insert_eq).
  erewrite bind_Ok by (apply upd_timer_ok; exact Hd2).
  erewrite (bind_Ok _ _ _ (vsi_t_status (tm_vsi s)) (stopped (set_data (<[t := mkTimer (tCB d) D D]> (tm_data s)) s))).
  2:{ unfold tmrStop. erewrite bind_Ok by reflexivity. set (s3 := set_data _ s2).
      assert (s3 = set_data (<[t := mkTimer (tCB d) D D]> (tm_data s)) s) as ->.
      { unfold s3, s2. rewrite set_data_twice. cbn [set_data tm_data]. rewrite insert_insert_eq. unfold set_left. cbn [tCB tm_time].
        by rewrite HD. }
      cbn [set_data sig]. by rewrite Hs. }
  erewrite bind_Ok; [done|]. eapply (timerRemove_absent _ q r cs ts); [by destruct Hr; split|by apply queue_stopped, queue_data|by apply queue_stopped, queue_data|done].
Qed.

Lemma start_alone s q r t i d : ready s q r → queue_is s q [] [] → queue_is s r [] [] → sig s = true →
  tm_data s !! t = Some d → 0 < i < 2 ^ 31 → timerPrecMs s < 2 ^ 31 → vsi_t_status (tm_vsi s) = 0 →
  ∃ n s1, timerStart t i s = Ok (0, s1) ∧ tm_vsi s1 = vsi_t_start (Z.max 5 (duration i s)) (vsi_t_stop (tm_vsi s)) ∧
    ready s1 q r ∧ queue_is s1 q [(n, Some t)] [t] ∧ queue_is s1 r [] [] ∧ sig s1 = true ∧
    tm_data s1 !! t = Some (mkTimer (tCB d) 0 (duration i s)).
Proof.
  intros Hr Hq He Hs Hd Hi Hp Hv. set (D := duration i s). assert (0 < D < 2 ^ 31) as HD by (unfold D, duration; lia).
  rewrite (start_unfold s q r [] [] t i d Hr Hq He (not_elem_of_nil _) Hs Hd Hi Hp), Hv. fold D.
  set (m1 := <[t := mkTimer (tCB d) D D]> (tm_data s)). set (s1 := stopped (set_data m1 s)).
  assert (tm_data s1 !! t = Some (mkTimer (tCB d) D D)) as Hd1 by apply lookup_insert_eq.
  erewrite (bind_Ok _ _ _ 0 s1).
  2:{ unfold adjust_for. erewrite bind_Ok by (apply get_timer_ok; exact Hd1). cbn [tm_left].
      rewrite (int32_small 0), (proj2 (Z.leb_le _ _)) by lia. erewrite bind_Ok by (apply upd_timer_ok; exact Hd1).
      unfold set_left. cbn [tCB tm_left tm_time]. rewrite Z.sub_0_r, int32_small by lia.
      replace (set_data _ s1) with s1; [done|]. unfold s1, m1, stopped, set_data, set_tmr. cbn. by rewrite insert_insert_eq. }
  destruct (insert_empty s1 q r t) as (n & h' & E & Hr2 & Hq2 & Ho); [by apply ready_stopped, ready_data|by apply queue_stopped, queue_data|by eexists|].
  erewrite bind_Ok by exact E. rewrite Z.eqb_refl. set (s2 := with_heap h' s1) in *.
  erewrite (bind_Ok _ _ _ (Some D) (set_data (shifted (- D) [t] m1) s2)).
  2:{ unfold sync_all. erewrite bind_Ok by (apply in_heap_same; eapply list_firstItem_ok; exact (qi_list _ _ _ _ Hq2)).
      cbv beta iota. erewrite bind_Ok by (apply get_timer_ok; exact Hd1). cbn [tm_left].
      erewrite bind_Ok by (eapply for_all_shift; exact Hq2). done. }
  erewrite bind_Ok by (apply tmrStart_ok; exact Hs). set (s3 := started D _).
  assert (tm_data s3 !! t = Some (mkTimer (tCB d) 0 D)) as Hd3.
  { cbn. unfold m1. rewrite lookup_alter, decide_True by done. rewrite lookup_insert_eq. cbn. unfold set_left. cbn [tCB tm_time].
    by rewrite Z.add_opp_diag_r. }
  exists n, s3. split; [done|]. split; [cbn; by rewrite uint32_small by lia|]. split; [by destruct Hr2|].
  split; [destruct Hq2; split; [done|done|apply Forall_singleton; by eexists]|]. split; [|done].
  destruct (queue_kept s1 h' q r [] [] []) as [Hl' Hi' Hf']; [by apply queue_stopped, queue_data|exact Ho|apply not_eq_sym; by eapply rd_apart| |done].
  intros k Hk. by apply not_elem_of_nil in Hk.
Qed.
(** C29: a timer that is alone runs out after the time it was given: starting it stops the
    timer of the system and starts it for that time (no less than the precision of the
    system, nor than 5), and the next timeout, whatever the state of the timer of the
    system by then, takes the timer out of the queue and runs its callback, once. *)
Theorem lone_timer_runs s q r t i d : ready s q r → queue_is s q [] [] → queue_is s r [] [] → sig s = true →
  tm_data s !! t = Some d → 0 < i < 2 ^ 31 → timerPrecMs s < 2 ^ 31 → vsi_t_status (tm_vsi s) = 0 →
  ∃ s1, timerStart t i s = Ok (0, s1) ∧ tm_vsi s1 = vsi_t_start (Z.max 5 (duration i s)) (vsi_t_stop (tm_vsi s)) ∧
    ∀ v, ∃ s2, timerSignal callback junk (set_tmr (timerPrecMs s) true v s1) = when (tCB d) (callback t) s2 ∧
      queue_is s2 q [] [] ∧ queue_is s2 r [] [] ∧ tm_vsi s2 = v.
Proof.
  intros Hr Hq He Hs Hd Hi Hp Hv.
  destruct (start_alone s q r t i d Hr Hq He Hs Hd Hi Hp Hv) as (n & s1 & E & Ev & Hr1 & Hq1 & He1 & _ & Hd1).
  exists s1. split; [exact E|]. split; [exact Ev|]. intros v. set (s2 := set_tmr _ _ _ _).
  destruct (signal_expired s2 q r n t [] [] (mkTimer (tCB d) 0 (duration i s))) as (h3 & s3 & E3 & -> & _ & Hq3 & He3).
  - by destruct Hr1.
  - by destruct Hq1.
  - by destruct He1.
  - done.
  - exact Hd1.
  - done.
  - done.
  - eexists. split; [exact E3|]. split; [exact Hq3|]. split; [exact He3|]. done.
Qed.

Lemma start_shorter s q r n a t i d da : ready s q r → queue_is s q [(n, Some a)] [a] → queue_is s r [] [] →
  sig s = true → t ≠ a → tm_data s !! t = Some d → tm_data s !! a = Some da → tm_left da = 0 →
  0 < i < 2 ^ 31 → timerPrecMs s ≤ i → 2 * i < vsi_t_status (tm_vsi s) < 2 ^ 31 → 5 ≤ i →
  ∃ n' s1, timerStart t i s = Ok (0, s1) ∧ tm_vsi s1 = vsi_t_start i (vsi_t_stop (tm_vsi s)) ∧
    ready s1 q r ∧ queue_is s1 q [(n', Some t); (n, Some a)] [t; a] ∧ queue_is s1 r [] [] ∧ sig s1 = true ∧
    tm_data s1 !! t = Some (mkTimer (tCB d) i i) ∧
    tm_data s1 !! a = Some (mkTimer (tCB da) (vsi_t_status (tm_vsi s) - i) (tm_time da)).
Proof.
  intros Hr Hq He Hs Hne Hd Hda Hla Hi Hp Hv H5. set (R := vsi_t_status (tm_vsi s)) in *.
  assert (duration i s = i) as HD by (unfold duration; lia).
  rewrite (start_unfold s q r _ _ t i d Hr Hq He ltac:(by apply not_elem_of_cons; split; [|apply not_elem_of_nil]) Hs Hd Hi ltac:(lia)), HD.
  set (m1 := <[t := mkTimer (tCB d) i i]> (tm_data s)). set (s1 := stopped (set_data m1 s)).
  assert (tm_data s1 !! t = Some (mkTimer (tCB d) i i)) as Hd1 by apply lookup_insert_eq.
  fold R. rewrite (int32_small R) by lia.
  assert (queue_is s1 q [(n, Some a)] [a]) as Hq1 by (by apply queue_stopped, queue_data).
  set (m2 := shifted (int32 (R - i)) [a] m1). set (s2 := set_data m2 s1).
  erewrite (bind_Ok _ _ _ i s2).
  2:{ unfold adjust_for. erewrite bind_Ok by (apply get_timer_ok; exact Hd1). cbn [tm_left].
      rewrite (proj2 (Z.leb_gt _ _)) by lia. unfold timersAdjust. rewrite bind_assoc.
      erewrite bind_Ok by (eapply get_queue_ready; apply ready_stopped, ready_data; exact Hr).
      erewrite bind_Ok by (eapply for_all_shift; exact Hq1). done. }
  assert (m2 !! a = Some (mkTimer (tCB da) (R - i) (tm_time da))) as Ha2.
  { unfold m2. rewrite shifted_lookup by apply NoDup_singleton. rewrite decide_True by (by left).
    unfold m1. rewrite lookup_insert_ne, Hda by done. cbn. unfold set_left. by rewrite Hla, Z.add_0_l, !(int32_small (R - i)) by lia. }
  assert (m2 !! t = Some (mkTimer (tCB d) i i)) as Ht2.
  { unfold m2. rewrite shifted_lookup by apply NoDup_singleton. rewrite decide_False; [exact Hd1|].
    apply not_elem_of_cons. split; [done|apply not_elem_of_nil]. }
  destruct (insert_front s2 q r [(n, Some a)] [a] t (mkTimer (tCB d) i i)) as (n' & h' & E & Hr3 & Hq3 & Ho).
  { by apply ready_data, ready_stopped, ready_data. }
  { split; [apply Hq1|done|]. apply Forall_singleton. eexists. exact Ha2. }
  { done. } { done. } { exact Ht2. }
  { apply Forall_singleton. unfold left_of. change (tm_data s2) with m2. rewrite Ha2. cbn. lia. }
  erewrite bind_Ok by exact E. rewrite (proj2 (Z.eqb_neq i 0)) by lia. erewrite bind_Ok by (apply tmrStart_ok; exact Hs).
  set (s3 := started i _). exists n', s3. split; [done|]. split; [cbn; by rewrite uint32_small, Z.max_r by lia|].
  split; [by destruct Hr3|]. split; [by destruct Hq3|]. split; [|done].
  destruct (queue_kept s2 h' q r [(n, Some a)] [] []) as [Hl' Hi' Hf']; [|exact Ho|apply not_eq_sym; by eapply rd_apart| |done].
  - split; [apply He|done|done].
  - intros k Hk. by apply not_elem_of_nil in Hk.
Qed.

(** A timer started for less than what remains of the running one takes twice its
    time: it keeps its full time in [tm_left], so that the first timeout, after that time,
    only restarts the timer of the system for as long again. *)
Theorem short_timer_takes_twice s q r n a t i d da : ready s q r → queue_is s q [(n, Some a)] [a] → queue_is s r [] [] →
  sig s = true → t ≠ a → tm_data s !! t = Some d → tm_data s !! a = Some da → tm_left da = 0 →
  0 < i < 2 ^ 31 → timerPrecMs s ≤ i → 2 * i < vsi_t_status (tm_vsi s) < 2 ^ 31 → 5 ≤ i →
  ∃ s1, timerStart t i s = Ok (0, s1) ∧ tm_vsi s1 = vsi_t_start i (vsi_t_stop (tm_vsi s)) ∧
    ∀ v, ∃ s2, timerSignal callback junk (set_tmr (timerPrecMs s) true v s1) = Ok ((), s2) ∧ tm_vsi s2 = vsi_t_start i v ∧
      left_of (tm_data s2) t = 0 ∧ left_of (tm_data s2) a = vsi_t_status (tm_vsi s) - 2 * i.
Proof.
  intros Hr Hq He Hs Hne Hd Hda Hla Hi Hp Hv H5.
  destruct (start_shorter s q r n a t i d da Hr Hq He Hs Hne Hd Hda Hla Hi Hp Hv H5)
    as (n' & s1 & E & Ev & Hr1 & Hq1 & He1 & _ & Ht1 & Ha1).
  exists s1. split; [exact E|]. split; [exact Ev|]. intros v. set (s2 := set_tmr _ _ _ _).
  exists (restarted i [t; a] s2). split.
  { apply (signal_waiting s2 q r n' t [(n, Some a)] [a] (mkTimer (tCB d) i i));
      [by destruct Hr1|by destruct Hq1|by destruct He1|done|exact Ht1|cbn; lia|done]. }
  split; [cbn [restarted started set_tmr tm_vsi]; by rewrite uint32_small, Z.max_r by lia|].
  assert (NoDup [t; a]) as Hnd by (repeat constructor; set_solver).
  unfold left_of. cbn [restarted started set_tmr set_data tm_data]. rewrite !shifted_lookup by exact Hnd.
  rewrite !decide_True by set_solver. change (tm_data s2) with (tm_data s1). rewrite Ha1, Ht1. cbn.
  rewrite !int32_small by lia. lia.
Qed.

(** C31: once the first of several timers has run out, the queue is shifted by, and the timer
    of the system started for, the indeterminate value of an uninitialised variable. *)
Theorem expiry_before_others_uninitialised s q r n t cs ts d : ready s q r → queue_is s q ((n, Some t) :: cs) (t :: ts) →
  queue_is s r [] [] → sig s = true → tm_data s !! t = Some d → tm_left d ≤ 0 → ts ≠ [] → NoDup (t :: ts) →
  Z.of_nat (length cs) + 1 < 2 ^ 31 →
  ∃ s', timerSignal callback junk s = when (tCB d) (callback t) s' ∧ queue_is s' q cs ts ∧ queue_is s' r [] [] ∧
    tm_vsi s' = vsi_t_start (Z.max 5 (uint32 junk)) (tm_vsi s) ∧
    ∀ u, u ∈ ts → left_of (tm_data s') u = int32 (left_of (tm_data s) u - junk).
Proof.
  intros Hr Hq He Hs Hd Hle Hne Hnd Hlen.
  destruct (signal_expired s q r n t cs ts d Hr Hq He Hs Hd Hle Hlen) as (h' & s' & E & Es & _ & Hq' & He').
  exists s'. split; [exact E|]. split; [done|]. split; [done|]. rewrite Es, decide_False by done. split; [done|].
  apply NoDup_cons in Hnd as [Ht Hnd]. intros u Hu. cbn [with_heap restarted started set_tmr set_data tm_data]. unfold left_of.
  rewrite shifted_lookup, decide_True, lookup_insert_ne by (done || congruence).
  destruct (proj1 (Forall_forall _ _) (qi_data _ _ _ _ Hq) u ltac:(by right)) as [du ->]. done.
Qed.
End Rules.

(** ** Instances *)
(** A timer of the system that counts down from what it was started for. *)
#[local] Instance countdown : VSI Z :=
  {| vsi_t_start := λ ms _, ms; vsi_t_stop := λ v, v; vsi_t_status := λ v, v |}.
Definition fired (t : tloc) : M (timers (V := Z)) () := modify (λ s, set_timeouts (Zpos t) (timerTimeoutBusy s) s).
Definition idle (data : gmap tloc tDS) (v : Z) : timers (V := Z) :=
  mkTimers (Some 1%positive) (Some 2%positive) 0 false 1 true
    (mkHeap ∅ {[1%positive := mkList 0 None None; 2%positive := mkList 0 None None]} 3) data v.
Definition two_timers : gmap tloc tDS := {[7%positive := mkTimer true 0 60; 8%positive := mkTimer true 5 0]}.
Lemma idle_ready data v : ready (idle data v) 1 2.
Proof.
  split; [done|done|done|]. split; intros n; cbn [idle tm_heap nodes lists brk];
    rewrite ?lookup_insert_is_Some', ?lookup_singleton_is_Some; [intros [? Hn]; by rewrite lookup_empty in Hn|lia].
Qed.
Lemma idle_queues data v : queue_is (idle data v) 1 [] [] ∧ queue_is (idle data v) 2 [] [].
Proof. split; (split; [by split; [vm_compute|constructor|]|done|constructor]). Qed.
(** Timer 7 alone in the queue. *)
Definition waiting (v : Z) : timers (V := Z) :=
  mkTimers (Some 1%positive) (Some 2%positive) 0 false 1 true
    (mkHeap {[3%positive := mkNode (Some 7%positive) None None]}
            {[1%positive := mkList 1 (Some 3%positive) (Some 3%positive); 2%positive := mkList 0 None None]} 4) two_timers v.
Lemma waiting_ready v : ready (waiting v) 1 2.
Proof.
  split; [done|done|done|]. split; intros n; cbn [waiting tm_heap nodes lists brk];
    rewrite ?lookup_insert_is_Some', ?lookup_singleton_is_Some; lia.
Qed.
Lemma waiting_queues v : queue_is (waiting v) 1 [(3%positive, Some 7%positive)] [7%positive] ∧ queue_is (waiting v) 2 [] [].
Proof.
  split; (split; [split|done|]); try done; try apply NoDup_singleton; try constructor; vm_compute; try done; by eexists.
Qed.

Lemma lone_timer_runs_witness :
  ∃ s1 s2, timerStart 7 60 (idle two_timers 0) = Ok (0, s1) ∧ tm_vsi s1 = 60 ∧
    timerSignal fired 99 (set_tmr 1 true 0 s1) = Ok ((), set_timeouts 7 (timerTimeoutBusy s2) s2) ∧ queue_is s2 1 [] [].
Proof.
  destruct (lone_timer_runs (H := countdown) fired 99 (idle two_timers 0) 1 2 7 60 (mkTimer true 0 60) (idle_ready _ _)
    (proj1 (idle_queues _ _)) (proj2 (idle_queues _ _)) eq_refl eq_refl ltac:(lia) ltac:(cbn; lia) ltac:(reflexivity)) as (s1 & E & Ev & F).
  destruct (F 0) as (s2 & E2 & Hq & _). exists s1, s2. split; [exact E|]. split; [exact Ev|]. split; [exact E2|exact Hq].
Defined.
Lemma short_timer_takes_twice_witness :
  ∃ s1 s2, timerStart 8 100 (waiting 1000) = Ok (0, s1) ∧ tm_vsi s1 = 100 ∧
    timerSignal fired 99 (set_tmr 1 true 0 s1) = Ok ((), s2) ∧ tm_vsi s2 = 100 ∧ left_of (tm_data s2) 8 = 0.
Proof.
  destruct (short_timer_takes_twice (H := countdown) fired 99 (waiting 1000) 1 2 3 7 8 100 (mkTimer true 5 0) (mkTimer true 0 60) (waiting_ready _)
    (proj1 (waiting_queues _)) (proj2 (waiting_queues _)) eq_refl ltac:(done) eq_refl eq_refl eq_refl ltac:(lia) ltac:(cbn; lia) ltac:(cbn; lia) ltac:(lia))
    as (s1 & E & Ev & F).
  destruct (F 0) as (s2 & E2 & Ev2 & Ht & _). exists s1, s2. split_and!; [exact E|exact Ev|exact E2|exact Ev2|exact Ht].
Defined.
(** Timer 8 behind timer 7. *)
Definition two_waiting : timers (V := Z) :=
  mkTimers (Some 1%positive) (Some 2%positive) 0 false 1 true
    (mkHeap {[3%positive := mkNode (Some 7%positive) None (Some 4%positive); 4%positive := mkNode (Some 8%positive) (Some 3%positive) None]}
            {[1%positive := mkList 2 (Some 3%positive) (Some 4%positive); 2%positive := mkList 0 None None]} 5) two_timers 0.
Lemma two_waiting_ready : ready two_waiting 1 2.
Proof.
  split; [done|done|done|]. split; intros n; cbn [two_waiting tm_heap nodes lists brk];
    rewrite ?lookup_insert_is_Some', ?lookup_singleton_is_Some; lia.
Qed.
Lemma two_waiting_queues :
  queue_is two_waiting 1 [(3%positive, Some 7%positive); (4%positive, Some 8%positive)] [7%positive; 8%positive] ∧
  queue_is two_waiting 2 [] [].
Proof.
  split; (split; [split|done|]); try done; try (apply (bool_decide_unpack _); done); repeat constructor; vm_compute; try done; by eexists.
Qed.
Lemma expiry_before_others_uninitialised_witness :
  ∃ s', timerSignal fired 99 two_waiting = Ok ((), set_timeouts 7 (timerTimeoutBusy s') s') ∧
    tm_vsi s' = 99 ∧ left_of (tm_data s') 8 = 5 - 99.
Proof.
  destruct (expiry_before_others_uninitialised (H := countdown) fired 99 two_waiting 1 2 3 7 [(4%positive, Some 8%positive)] [8%positive] (mkTimer true 0 60)
    two_waiting_ready (proj1 two_waiting_queues) (proj2 two_waiting_queues) eq_refl eq_refl ltac:(done) ltac:(done)
    ltac:(apply (bool_decide_unpack _); done) ltac:(done)) as (s' & E & _ & _ & Ev & F).
  exists s'. split; [exact E|]. split; [exact Ev|]. rewrite (F 8%positive ltac:(by left)). done.
Defined.
