(* ===== verification/System.v ===== *)
(** * The device: system_time.c, system_battery.c, Gprs.c, backlight.c, mmi.c, manager_init

    [system] is the manager with the clock, the objects in which the device publishes its
    state, the light and the operating system.  The timers run on top of it: their
    operating system ([VSI]) is the whole [system], so that a callback can change all of it.
    [handler] says which C function is behind the callback of a timer.  [mmi_main] is the
    program, up to the start of the radio. *)
From S2P Require Import Prelude Lists Maps Arrays Pixels Lgui BitmapCache CStrings Url Text.
From S2P Require Import RenderManager FieldNames Fields DataObjects Sync Protocol SyncSend Ui Modify Focus Styles.
From S2P Require Import Layout Placing Connection Entry Keys Drawing Mime Manager Screen Screens Clock Timers.

(** ** The published objects, and the other statics *)
Record time_object := mkTimeObject {
  SYSTEM_TIME : oloc; SYSTEM_TIME_NOW : floc;
  SYSTEM_TIME_H1 : floc; SYSTEM_TIME_H2 : floc; SYSTEM_TIME_M1 : floc; SYSTEM_TIME_M2 : floc }.
Record battery_object := mkBatteryObject {
  SYSTEM_BATTERY : oloc; BATTERY_CHARGE_LEVEL : floc; BATTERY_CHARGE_STATE : floc }.
Record gprs_object := mkGprsObject {
  GPRS_DO : oloc; GPRS_SIGNAL_LEVEL : floc; GPRS_STATUS : floc; GPRS_ON : floc;
  GPRS_EMOBIIX_ON : floc; GPRS_LOCATION_LAC : floc; GPRS_LOCATION_CI : floc }.
Inductive handler := UpdateTime | IdleBacklight | UiTimer.
(** The calls of the driver of the light, the newest last. *)
Inductive light_call := light_SetStatus (level : Z) | light_setBacklightIdle.
Record backlight := mkBacklight {
  mme_backlightStatus : list Z;
  backlight_timer : Z;
  backlight_sleep : bool;
  idleTime : option tloc;
  light_calls : list light_call }.
(** The time of the operating system in milliseconds. *)
Class VSI_TIME (V : Type) := vsi_t_time : V → Z.

Definition GPRS_NOT_REGISTERED : Z := 0.
Definition TIME_UPDATE_INTERVAL : Z := 45 * 1000.
Definition BACKLIGHT_IDLE : Z := 60000.
Definition UI_SYNC_LOOP : Z := 3 * 1000.
Definition BL_MAX_LIGHT : Z := 255.
Definition BL_SET_IDLE : Z := -1.
Definition BL_NO_CHANGE : Z := -2.
Definition BL_LAST_OPTION : Z := 9.

Section System.
Context {St : Type} `{MapStore St Bitmap} `{Fonts} {R : Type} `{RTC R} {V : Type} `{VSI V} `{VSI_TIME V}.
(** The parameters of the parts; [files]: the file system; [pin]: [simAutoDetect]. *)
Variable ft : Z → bool → option ft_glyph.
Variable defaultFont : option Z.
Variable cos_radius : Z → Z → Z.
Variable junk : junk_values.
Variable layout_junk : Z.
Variable encodes : FRIPacketP → bool.
Variable script : oloc → cstring → UM ().
Variable endpoint_text : cstring.
Variable png : list Z → png_result.
Variable online : bool.
Variable files : cstring → option (list Z).
Variable simAutoDetect : bool.
Abbreviation manager := (manager (St := St)).
Abbreviation clock := (clock (R := R)).
Abbreviation MM := (M manager).

Record system := mkSystem {
  sy_manager : manager;
  sy_clock : clock;
  sy_time : option time_object;
  sy_battery : option battery_object;
  sy_gprs : option gprs_object;
  sy_weather : option oloc;
  sy_level : Z;
  sy_handlers : gmap tloc handler;
  sy_backlight : backlight;
  sy_vsi : V }.
Abbreviation SYM := (M system).
Definition set_manager (m : manager) (s : system) : system :=
  mkSystem m (sy_clock s) (sy_time s) (sy_battery s) (sy_gprs s) (sy_weather s) (sy_level s) (sy_handlers s) (sy_backlight s) (sy_vsi s).
Definition set_clock (c : clock) (s : system) : system :=
  mkSystem (sy_manager s) c (sy_time s) (sy_battery s) (sy_gprs s) (sy_weather s) (sy_level s) (sy_handlers s) (sy_backlight s) (sy_vsi s).
Definition set_objects (t : option time_object) (b : option battery_object) (g : option gprs_object) (w : option oloc)
    (level : Z) (s : system) : system :=
  mkSystem (sy_manager s) (sy_clock s) t b g w level (sy_handlers s) (sy_backlight s) (sy_vsi s).
Definition set_handlers (h : gmap tloc handler) (s : system) : system :=
  mkSystem (sy_manager s) (sy_clock s) (sy_time s) (sy_battery s) (sy_gprs s) (sy_weather s) (sy_level s) h (sy_backlight s) (sy_vsi s).
Definition set_backlight (b : backlight) (s : system) : system :=
  mkSystem (sy_manager s) (sy_clock s) (sy_time s) (sy_battery s) (sy_gprs s) (sy_weather s) (sy_level s) (sy_handlers s) b (sy_vsi s).
Definition set_vsi (v : V) (s : system) : system :=
  mkSystem (sy_manager s) (sy_clock s) (sy_time s) (sy_battery s) (sy_gprs s) (sy_weather s) (sy_level s) (sy_handlers s) (sy_backlight s) v.
#[export] Instance system_vsi : VSI system := {|
  vsi_t_start := λ ms s, set_vsi (vsi_t_start ms (sy_vsi s)) s;
  vsi_t_stop := λ s, set_vsi (vsi_t_stop (sy_vsi s)) s;
  vsi_t_status := λ s, vsi_t_status (sy_vsi s) |}.

(** ** The levels of the state *)
Abbreviation device := (timers (V := system)).
Abbreviation DVM := (M device).
Definition in_system {B} (m : SYM B) : DVM B := λ s,
  match m (tm_vsi s) with
  | Ok (b, y) => Ok (b, set_tmr (timerPrecMs s) (sig s) y s)
  | Abort => Abort | Fault => Fault | NoFuel => NoFuel
  end.
Definition in_manager {B} (m : MM B) : SYM B := λ s,
  match m (sy_manager s) with
  | Ok (b, x) => Ok (b, set_manager x s)
  | Abort => Abort | Fault => Fault | NoFuel => NoFuel
  end.
Definition on_clock {B} (f : clock → B * clock) : SYM B := λ s,
  let '(b, c) := f (sy_clock s) in Ok (b, set_clock c s).
Definition fields_ {B} (m : FM B) : SYM B := in_manager (ui_ (in_fields m)).
(** [field.uinteger = i], whatever the type of the field. *)
Definition put_uinteger (f : floc) (i : Z) : FM () := set_integer f (int32 i).
Definition draw_now : MM () :=
  updateScreen ft defaultFont (Some defaultGradient) cos_radius junk layout_junk encodes script endpoint_text png online.
Definition force_dataobject_redraw : SYM () := in_manager (gui_ lgui_set_dirty);; in_manager draw_now.
Definition modified (d : oloc) (fs : list floc) : SYM () :=
  mfor (λ f, fields_ (dataobjectfield_setIsModified (Some f) true)) fs;;
  in_manager (ui_ (dataobject_setIsModified (Some d) true)).
Definition set_named (d : oloc) (key : string) (f : floc) : SYM () :=
  in_manager (ui_ (in_world (dataobject_setValue (Some d) (Some (lit key)) (Some f)))).
Definition construct_at (uri : string) (isLocal : bool) : SYM oloc :=
  url ← in_manager (in_conn (parse_url (Some (lit uri))));
  in_manager (in_conn (dataobject_construct url isLocal)).

(** ** The clock on the screen (system_time.c) *)
Definition system_time_set_components (o : time_object) : SYM () :=
  time ← on_clock (hw_td_get_clock_str simAutoDetect);
  timev ← on_clock (hw_td_get_time simAutoDetect);
  fields_ (dataobjectfield_setString (Some (SYSTEM_TIME_NOW o)) (Some (SHeap time)));;
  fields_ (put_uinteger (SYSTEM_TIME_H1 o) (Z.quot (t_hour timev) 10));;
  fields_ (put_uinteger (SYSTEM_TIME_H2 o) (Z.rem (t_hour timev) 10));;
  fields_ (put_uinteger (SYSTEM_TIME_M1 o) (Z.quot (t_minute timev) 10));;
  fields_ (put_uinteger (SYSTEM_TIME_M2 o) (Z.rem (t_minute timev) 10)).
Definition publish_time : SYM time_object :=
  d ← construct_at "system://local/time" true;
  now ← fields_ (dataobjectfield_string (Some (SHeap [])));
  h1 ← fields_ (dataobjectfield_uint 0); h2 ← fields_ (dataobjectfield_uint 0);
  m1 ← fields_ (dataobjectfield_uint 0); m2 ← fields_ (dataobjectfield_uint 0);
  let o := mkTimeObject d now h1 h2 m1 m2 in
  modify (λ s, set_objects (Some o) (sy_battery s) (sy_gprs s) (sy_weather s) (sy_level s) s);;
  system_time_set_components o;;
  set_named d "data" now;; set_named d "H1" h1;; set_named d "H2" h2;; set_named d "M1" m1;; set_named d "M2" m2;;
  mret o.
Definition add_handler (t : tloc) (h : handler) : SYM () :=
  modify (λ s, set_handlers (<[t := h]> (sy_handlers s)) s).
Definition system_time_init : DVM () :=
  _ ← in_system publish_time;
  t ← timerCreate true;
  in_system (add_handler t UpdateTime);;
  _ ← timerStart t TIME_UPDATE_INTERVAL;
  mret ().
Definition refresh_time (o : time_object) : SYM () :=
  system_time_set_components o;;
  modified (SYSTEM_TIME o) [SYSTEM_TIME_NOW o; SYSTEM_TIME_H1 o; SYSTEM_TIME_H2 o; SYSTEM_TIME_M1 o; SYSTEM_TIME_M2 o];;
  in_manager (gui_ lgui_set_dirty);; in_manager draw_now.
Definition updateTimeCB (t : tloc) : DVM () :=
  s ← get;
  match sy_time (tm_vsi s) with Some _ => mret () | None => system_time_init end;;
  s ← get;
  o ← deref (sy_time (tm_vsi s));
  in_system (refresh_time o);;
  _ ← timerStart t TIME_UPDATE_INTERVAL;
  mret ().

(** ** The battery (system_battery.c) *)
Definition system_battery_init : SYM battery_object :=
  d ← construct_at "system://local/battery" true;
  level ← fields_ (dataobjectfield_uint 0); state ← fields_ (dataobjectfield_uint 0);
  let o := mkBatteryObject d level state in
  modify (λ s, set_objects (sy_time s) (Some o) (sy_gprs s) (sy_weather s) (sy_level s) s);;
  set_named d "charge-level" level;; set_named d "charge-state" state;;
  mret o.
Definition the_battery : SYM battery_object :=
  s ← get; match sy_battery s with Some o => mret o | None => system_battery_init end.
Definition system_battery_set_battery_level (level : Z) : SYM () :=
  o ← the_battery;
  fields_ (put_uinteger (BATTERY_CHARGE_LEVEL o) level);;
  modified (SYSTEM_BATTERY o) [BATTERY_CHARGE_LEVEL o];;
  force_dataobject_redraw.
Definition system_battery_set_charge_state (state : Z) : SYM () :=
  o ← the_battery;
  fields_ (put_uinteger (BATTERY_CHARGE_STATE o) state);;
  modified (SYSTEM_BATTERY o) [BATTERY_CHARGE_STATE o].
(** [mmePrimHandler]: [MMI_BATTERY_IND] with the two members of the signal. *)
Definition mmePrimHandler (volt temp : Z) : SYM () :=
  system_battery_set_battery_level (uint8 volt);; system_battery_set_charge_state (uint8 temp).

(** ** The radio (Gprs.c, at.c) *)
Definition gprs_dataobject_init : SYM gprs_object :=
  d ← construct_at "system://local/gprs" true;
  signal ← fields_ (dataobjectfield_uint GPRS_NOT_REGISTERED); status ← fields_ (dataobjectfield_uint GPRS_NOT_REGISTERED);
  on ← fields_ (dataobjectfield_uint 0); emobiix ← fields_ (dataobjectfield_uint 0);
  lac ← fields_ (dataobjectfield_uint 0); ci ← fields_ (dataobjectfield_uint 0);
  let o := mkGprsObject d signal status on emobiix lac ci in
  modify (λ s, set_objects (sy_time s) (sy_battery s) (Some o) (sy_weather s) (sy_level s) s);;
  set_named d "signal-level" signal;; set_named d "status" status;; set_named d "gprs-on" on;;
  set_named d "emobiix-on" emobiix;; set_named d "lac" lac;; set_named d "ci" ci;;
  when (negb simAutoDetect) (fields_ (put_uinteger on 1);; fields_ (put_uinteger signal 3));;
  mret o.
Definition the_gprs : SYM gprs_object :=
  s ← get; match sy_gprs s with Some o => mret o | None => gprs_dataobject_init end.
Definition weather_url : SYM (option URL) := in_manager (in_conn (parse_url (Some (lit "tcp://remote/weather")))).
Definition weather_script : cstring :=
  text_lines ["me = DataObject.this()"; "d = DataObject.locate(`weatherinfo`)";
    "lbl = `ZIP: ` .. me:getValue(`zipcode`) .. ` TEMP:` .. me:getValue(`temp`)"; "print(lbl)";
    "d:setValue(`data`, lbl)"; EmptyString].
(** The object is made once, with the place of the phone at that moment. *)
Definition weather_object (g : gprs_object) : SYM oloc :=
  s ← get;
  match sy_weather s with
  | Some d => mret d
  | None =>
      d ← construct_at "tcp://remote/weather" false;
      modify (λ s, set_objects (sy_time s) (sy_battery s) (sy_gprs s) (Some d) (sy_level s) s);;
      v ← fields_ (dataobjectfield_string (Some (SHeap []))); set_named d "data" v;;
      v ← fields_ (dataobjectfield_string (Some (SHeap weather_script))); set_named d "onsyncfinished" v;;
      lac ← fields_ (get_integer (GPRS_LOCATION_LAC g));
      v ← fields_ (dataobjectfield_uint (uint32 lac)); set_named d "lac" v;;
      ci ← fields_ (get_integer (GPRS_LOCATION_CI g));
      v ← fields_ (dataobjectfield_uint (uint32 ci)); set_named d "ci" v;;
      mret d
  end.
Definition system_weather_request (g : gprs_object) : SYM () :=
  d ← weather_object g;
  if online then
    url ← weather_url;
    _ ← in_manager (in_conn (connectionContext_syncRequestForce encodes endpoint_text online url (Some d))); mret ()
  else mret ().
Definition gprs_set_status (status : Z) : SYM () :=
  o ← the_gprs;
  fields_ (put_uinteger (GPRS_STATUS o) status);;
  modified (GPRS_DO o) [GPRS_STATUS o];;
  force_dataobject_redraw.
Definition gprs_set_on (status : Z) : SYM () :=
  o ← the_gprs;
  fields_ (put_uinteger (GPRS_ON o) status);;
  modified (GPRS_DO o) [GPRS_ON o];;
  force_dataobject_redraw.
Definition gprs_set_emobiix_on (status : Z) : SYM () :=
  o ← the_gprs;
  fields_ (put_uinteger (GPRS_EMOBIIX_ON o) status);;
  modified (GPRS_DO o) [GPRS_EMOBIIX_ON o];;
  when (status =? 1) (system_weather_request o);;
  force_dataobject_redraw.
Definition gprs_set_signal_level (level : Z) : SYM () :=
  o ← the_gprs;
  fields_ (put_uinteger (GPRS_SIGNAL_LEVEL o) level);;
  modified (GPRS_DO o) [GPRS_SIGNAL_LEVEL o];;
  force_dataobject_redraw.
Definition gprs_set_location (lac ci : Z) : SYM () :=
  o ← the_gprs;
  fields_ (put_uinteger (GPRS_LOCATION_LAC o) lac);;
  fields_ (put_uinteger (GPRS_LOCATION_CI o) ci);;
  modified (GPRS_DO o) [GPRS_LOCATION_LAC o; GPRS_LOCATION_CI o].
Definition rAT_PercentCGREG (lac ci : Z) : SYM () := gprs_set_location (uint16 lac) (uint16 ci).
Definition MMI_MIN_RXLEV_FAULT : Z := 99.
Definition set_prelevel (level : Z) : SYM () :=
  modify (λ s, set_objects (sy_time s) (sy_battery s) (sy_gprs s) (sy_weather s) level s).
(** The arguments are bytes; the last level is a static. *)
Definition rAT_PercentCSQ (rssi actlevel min_access_level : Z) : SYM () :=
  s ← get;
  if negb (min_access_level =? MMI_MIN_RXLEV_FAULT) && (rssi <? min_access_level) then
    set_prelevel 0;; gprs_set_signal_level 0
  else if sy_level s =? actlevel then mret ()
  else gprs_set_signal_level actlevel;; set_prelevel actlevel.

(** ** The light (backlight.c) *)
Definition with_status (l : list Z) (b : backlight) : backlight :=
  mkBacklight l (backlight_timer b) (backlight_sleep b) (idleTime b) (light_calls b).
Definition with_timer (i : Z) (b : backlight) : backlight :=
  mkBacklight (mme_backlightStatus b) i (backlight_sleep b) (idleTime b) (light_calls b).
Definition with_sleep (sleep : bool) (b : backlight) : backlight :=
  mkBacklight (mme_backlightStatus b) (backlight_timer b) sleep (idleTime b) (light_calls b).
Definition with_idleTime (t : tloc) (b : backlight) : backlight :=
  mkBacklight (mme_backlightStatus b) (backlight_timer b) (backlight_sleep b) (Some t) (light_calls b).
Definition with_call (c : light_call) (b : backlight) : backlight :=
  mkBacklight (mme_backlightStatus b) (backlight_timer b) (backlight_sleep b) (idleTime b) (light_calls b ++ [c]).
Definition on_backlight (f : V → backlight → backlight) : SYM () :=
  modify (λ s, set_backlight (f (sy_vsi s) (sy_backlight s)) s).
Definition light (c : light_call) : SYM () := on_backlight (λ _, with_call c).
Definition set_sleep (sleep : bool) : SYM () := on_backlight (λ _, with_sleep sleep).
Definition is_light_event (event : Z) : bool := (0 <=? event) && (event <? BL_LAST_OPTION).
Definition mme_backlightEvent (event : Z) : SYM () :=
  s ← get;
  if is_light_event event then
    level ← deref (mme_backlightStatus (sy_backlight s) !! Z.to_nat event);
    if level =? BL_SET_IDLE then light light_setBacklightIdle
    else if level =? BL_NO_CHANGE then mret ()
    else when ((0 <=? level) && (level <=? BL_MAX_LIGHT)) (light (light_SetStatus (uint8 level)))
  else mret ().
Definition mme_setBacklightEvent (event lightLevel : Z) : SYM () :=
  when (is_light_event event)
    (on_backlight (λ _ b, with_status (<[Z.to_nat event := lightLevel]> (mme_backlightStatus b)) b)).
(** The time of the last key; a light that sleeps is woken. *)
Definition snap_time : SYM () := on_backlight (λ v, with_timer (uint32 (vsi_t_time v))).
Definition blightSnaptime : DVM () :=
  in_system snap_time;;
  s ← get; let b := sy_backlight (tm_vsi s) in
  if backlight_sleep b then
    in_system (set_sleep false);; in_system (light (light_SetStatus BL_MAX_LIGHT));;
    match idleTime b with Some t => _ ← timerStart t BACKLIGHT_IDLE; mret () | None => mret () end
  else mret ().
Definition idleBacklight (t : tloc) : DVM () :=
  s ← get;
  let timeElapsed := int32 (uint32 (vsi_t_time (sy_vsi (tm_vsi s))) - backlight_timer (sy_backlight (tm_vsi s))) in
  if BACKLIGHT_IDLE <=? timeElapsed then
    in_system (light light_setBacklightIdle);; in_system (light light_setBacklightIdle);; in_system (set_sleep true)
  else _ ← timerStart t (int32 (BACKLIGHT_IDLE - timeElapsed)); mret ().
Definition backlightInit : DVM () :=
  blightSnaptime;;
  t ← timerCreate true; in_system (add_handler t IdleBacklight);; in_system (on_backlight (λ _, with_idleTime t));;
  _ ← timerStart t BACKLIGHT_IDLE;
  in_system (light (light_SetStatus BL_MAX_LIGHT)).

(** ** The connection (UITask.c) *)
Definition ui_timer_cb (t : tloc) : DVM () :=
  _ ← in_system (in_manager (in_conn (connectionContext_loopIteration encodes)));
  _ ← timerStart t UI_SYNC_LOOP;
  mret ().
Definition uiAppSent : SYM () := _ ← in_manager (in_conn (connectionContext_loopIteration encodes)); mret ().

(** ** The start (ApplicationManager.c, UITask.c, mmi.c) *)
Definition set_style (style : oloc) : UM () := λ u,
  Ok ((), mkUi (u_world u) (u_renderman u) (u_apps u) (u_applications u) (u_focus u) style (u_window u)).
Definition set_window (w : option oloc) : UM () := λ u,
  Ok ((), mkUi (u_world u) (u_renderman u) (u_apps u) (u_applications u) (u_focus u) (u_style u) w).
Definition set_rootApplication (a : aloc) : MM () := modify (λ m,
  mkManager (mg_conn m) (mg_text m) (Some a) (mg_bootApp m) (mg_placeHolder m) (mg_dialogHolder m) (mg_topBar m)
    (mg_sent_rects m) (mg_netsurf m) (mg_netsurf_queue m)).
Definition set_bootApp (a : aloc) : MM () := modify (λ m,
  mkManager (mg_conn m) (mg_text m) (mg_rootApplication m) (Some a) (mg_placeHolder m) (mg_dialogHolder m) (mg_topBar m)
    (mg_sent_rects m) (mg_netsurf m) (mg_netsurf_queue m)).
Definition set_holders (place dialog bar : option oloc) : MM () := modify (λ m,
  mkManager (mg_conn m) (mg_text m) (mg_rootApplication m) (mg_bootApp m) place dialog bar
    (mg_sent_rects m) (mg_netsurf m) (mg_netsurf_queue m)).
Definition load_object (d : oloc) : MM aloc := application_load encodes script endpoint_text online (Some d).
(** The name is looked for below the window, which must be there. *)
Definition named (w : option oloc) (name : string) : MM (option oloc) :=
  w ← emo_nonnull w; find_in_tree w (lit name).
Definition init_root : MM () :=
  rootApplicationObj ← ui_ (RootApplication png files None);
  rootApplication ← load_object rootApplicationObj;
  set_rootApplication rootApplication;;
  rurl ← in_conn (parse_url (Some (lit "xml://local/RootApplication/RootApplication.xml")));
  application_setURL (Some rootApplication) rurl;;
  w ← ui_ (application_getCurrentScreen (Some rootApplication)); ui_ (set_window w);;
  place ← named w "placeholder"; _ ← named w "menuholder"; dialog ← named w "dialogholder"; bar ← named w "topbar";
  set_holders place dialog bar;;
  ui_ (set_applications []).
Definition init_boot : MM () :=
  boot ← ui_ (BootApplication png files None);
  bootApp ← load_object boot;
  burl ← in_conn (parse_url (Some (lit "xml://local/RootApplication/BootApplication.xml")));
  again ← ui_ (BootApplication png files (Some boot));
  in_conn (dataobject_exportGlobal (Some again) burl true);;
  application_setURL (Some bootApp) burl;;
  manager_launchApplication (Some bootApp);;
  manager_focusApplication layout_junk encodes endpoint_text online (Some bootApp);;
  set_bootApp bootApp;;
  in_conn (set_loading None).
Definition manager_init : MM () :=
  ui_ (set_applications []);; ui_ (set_focus None);; in_conn (set_loading None);;
  style ← ui_ (RootStyle None); ui_ (set_style style);;
  init_root;;
  init_boot.
(** The picture is filled with ones; the drivers of the display and the keypad are not here. *)
Definition display_init : MM () :=
  gui_ (modify (set_buffer (λ _, 0xFFFF)));; emo_BitBlt 0 0 320 240.
Definition UIInit : DVM () :=
  when simAutoDetect backlightInit;;
  in_system (in_manager display_init);;
  in_system (in_manager (ui_ (in_renderman renderman_init)));;
  in_system (in_manager (gui_ lgui_clip_identity));;
  in_system (in_manager manager_init);;
  in_system (in_manager (gui_ lgui_set_dirty));;
  in_system (in_manager draw_now).
(** Up to the start of the radio. *)
Definition mmi_main : DVM () :=
  timerInit;;
  system_time_init;;
  _ ← in_system system_battery_init;
  _ ← in_system gprs_dataobject_init;
  UIInit.

(** ** Events *)
(** The function a timer was made with. *)
Definition device_callback (t : tloc) : DVM () :=
  s ← get;
  match sy_handlers (tm_vsi s) !! t with
  | Some UpdateTime => updateTimeCB t
  | Some IdleBacklight => idleBacklight t
  | Some UiTimer => ui_timer_cb t
  | None => mret ()
  end.
Definition device_timeout (junk : Z) : DVM Z := mfw_timeout device_callback junk true.
Definition device_key (MsgId key : Z) : DVM () :=
  blightSnaptime;;
  in_system (in_manager (UiHandleKeyEvents ft defaultFont (Some defaultGradient) cos_radius junk layout_junk encodes
                           script endpoint_text png online MsgId key)).
End System.
