(* ===== verification/SystemRules.v ===== *)
(** * Properties of the device

    The light sleeps only when no key was pressed for a minute, in every run of keys,
    timeouts, messages of the radio and passing time: an invariant by induction on the run,
    from what each operation leaves alone.  And what the first change of a published object
    does: these objects have no type. *)
From S2P Require Import Prelude Lists Maps Lgui BitmapCache CStrings Text RenderManager FieldNames Fields DataObjects.
From S2P Require Import Sync Protocol SyncSend Ui Modify Styles Frames Layout Connection Drawing Mime Manager Screen Screens Clock Timers.
From S2P Require Import System FocusTrees ScreenRules.

(** The structure of a term first, then the parts. *)
Ltac parts :=
  repeat (intros; lazymatch goal with
    | |- respects _ (mbind _ _) => apply respects_bind; [exact _| |]
    | |- respects _ (mret _) => apply respects_ret; exact _
    | |- respects _ (when _ _) => apply respects_when; [exact _|]
    | |- respects _ (mfor _ _) => apply respects_mfor; [exact _|]
    | |- respects _ get => apply respects_get; exact _
    | |- respects _ (deref _) => apply respects_deref; exact _
    | |- respects _ (modify _) => solve [intros ? ? ? [= ? <-]; reflexivity | eauto 2 with respects nocore]
    | |- respects _ (match _ with _ => _ end) => case_match
    | |- respects _ (let '(_, _) := _ in _) => case_match
    | |- respects _ _ => solve [eauto 2 with respects nocore]
    end).
(** ** What the timers leave alone *)
Set Default Proof Using "Type".
Section TimerFrames.
Context {V : Type} `{VSI V}.
Variable R : relation (timers (V := V)).
Context `{!PreOrder R}.
Hypothesis R_own : ∀ s s', tm_vsi s' = tm_vsi s → R s s'.
Hypothesis R_vsi : ∀ s ms, R s (set_tmr (timerPrecMs s) (sig s) (vsi_t_start ms (tm_vsi s)) s) ∧
  R s (set_tmr (timerPrecMs s) (sig s) (vsi_t_stop (tm_vsi s)) s).
Abbreviation tframe := (respects R).

Lemma frame_in_heap {B} (m : M (heap tloc) B) : tframe (in_heap m).
Proof using R_own.
  intros s b s' E. unfold in_heap in E. destruct (m (tm_heap s)) as [[x h]| | |]; [|done..].
  injection E as <- <-. by apply R_own.
Qed.
Lemma frame_own (f : timers → timers) : (∀ s, tm_vsi (f s) = tm_vsi s) → tframe (modify f).
Proof using R_own. intros Hf s [] s' [= <-]. by apply R_own. Qed.
Lemma frame_get_timer t : tframe (get_timer t).
Proof using R_own. intros s a s' E. unfold get_timer in E. case_match; [|done]. injection E as <- <-. by apply R_own. Qed.
Lemma frame_tmrStop : tframe tmrStop.
Proof using All.
  unfold tmrStop. intros s a s' E. rewrite (bind_Ok _ _ _ _ _ eq_refl) in E. destruct (sig s); [|injection E as <- <-; reflexivity].
  apply bind_Ok_inv in E as ([] & s1 & [= <-] & [= <- <-]). apply (R_vsi s 0).
Qed.
Lemma frame_tmrStart ms : tframe (tmrStart ms).
Proof using All.
  unfold tmrStart. intros s [] s' E. rewrite (bind_Ok _ _ _ _ _ eq_refl) in E. destruct (sig s); cbn [when] in E.
  - injection E as <-. apply R_vsi.
  - injection E as <-. reflexivity.
Qed.
#[local] Hint Resolve frame_in_heap frame_get_timer frame_tmrStop frame_tmrStart : respects.
#[local] Hint Extern 1 (respects _ (modify _)) => apply frame_own; intros; reflexivity : respects.
Lemma frame_upd t f : tframe (upd_timer t f).
Proof using All. unfold upd_timer. respects. Qed.
Lemma frame_queues : tframe timer_get_queue ∧ tframe timer_get_r_queue.
Proof using All. unfold timer_get_queue, timer_get_r_queue. split; respects. Qed.
Lemma frame_queue : tframe timer_get_queue.
Proof using All. apply frame_queues. Qed.
Lemma frame_r_queue : tframe timer_get_r_queue.
Proof using All. apply frame_queues. Qed.
Lemma frame_each fuel f iter : (∀ i t, tframe (f i t)) → tframe (each fuel f iter).
Proof using All. intros Hf. revert iter; induction fuel as [|fuel IH]; intros iter; cbn [each]; unfold item; respects. Qed.
#[local] Hint Resolve frame_upd frame_queue frame_r_queue : respects.
Ltac loops := repeat first [respects_step | progress cbv beta | eapply frame_each].
Lemma frame_for_all q f : (∀ t, tframe (f t)) → tframe (for_all q f).
Proof using All. intros Hf. unfold for_all, list_bound. loops. Qed.
#[local] Hint Resolve frame_for_all : respects.
Lemma frame_timerInsert t : tframe (timerInsert t).
Proof using All. unfold timerInsert, list_bound. loops. Qed.
Lemma frame_timerRemove t : tframe (timerRemove t).
Proof using All. unfold timerRemove, remove_from, list_bound. loops. Qed.
Lemma frame_timersAdjust i : tframe (timersAdjust i).
Proof using All. unfold timersAdjust, add_left. respects. Qed.
#[local] Hint Resolve frame_timerInsert frame_timerRemove frame_timersAdjust : respects.
Lemma frame_adjust_for t i : tframe (adjust_for t i).
Proof using All. unfold adjust_for. respects. Qed.
Lemma frame_sync_all q : tframe (sync_all q).
Proof using All. unfold sync_all, add_left. respects. Qed.
#[local] Hint Resolve frame_adjust_for frame_sync_all : respects.
Lemma frame_timerStart t i : tframe (timerStart t i).
Proof using All. unfold timerStart. respects. Qed.
Lemma frame_timerCreate b : tframe (timerCreate b).
Proof using All. unfold timerCreate. respects. Qed.

Variable callback : tloc → M (timers (V := V)) ().
Variable junk : Z.
Hypothesis callback_frame : ∀ t, tframe (callback t).
Lemma frame_expire fuel r iter : tframe (expire fuel r iter).
Proof using All. revert iter; induction fuel as [|fuel IH]; intros iter; cbn [expire]; unfold item; respects. Qed.
Lemma frame_run_expired fuel iter : tframe (run_expired callback fuel iter).
Proof using All. revert iter; induction fuel as [|fuel IH]; intros iter; cbn [run_expired]; unfold item; respects. Qed.
#[local] Hint Resolve frame_expire frame_run_expired : respects.
Lemma frame_timerSignal : tframe (timerSignal callback junk).
Proof using All. unfold timerSignal, list_bound, add_left. respects. Qed.
#[local] Hint Resolve frame_timerSignal : respects.
Lemma frame_signal_loop fuel : tframe (signal_loop callback junk fuel).
Proof using All. induction fuel; cbn [signal_loop]; respects. Qed.
#[local] Hint Resolve frame_signal_loop : respects.
Lemma frame_mfw_timeout mine : tframe (mfw_timeout callback junk mine).
Proof using All. unfold mfw_timeout, timerTimeout. respects. Qed.
End TimerFrames.

(** ** The operations of the device
    What each keeps, from what the calls it is made of keep: [Rs] for the system, [Rd] for
    the device. *)
Section Operations.
Context {St : Type} `{MapStore St Bitmap} `{Fonts} {R : Type} `{RTC R} {V : Type} `{VSI V} `{VSI_TIME V}.
Context (ft : Z → bool → option ft_glyph) (defaultFont : option Z) (cos_radius : Z → Z → Z) (junk : junk_values) (layout_junk : Z).
Context (encodes : FRIPacketP → bool) (script : oloc → cstring → UM ()) (endpoint_text : cstring) (png : list Z → png_result).
Context (online simAutoDetect : bool).
Abbreviation system := (system (St := St) (R := R) (V := V)).
Abbreviation device := (timers (V := system)).
Definition unmanaged (y : system) := (sy_manager y, sy_backlight y, sy_vsi y).
(** The calls of the parts below. *)
Record modest (Rs : relation system) : Prop := {
  md_clock {B} (f : clock (R := R) → B * clock) : respects Rs (on_clock f);
  md_own f : (∀ y, unmanaged (f y) = unmanaged y) → respects Rs (modify f);
  md_ui {B} (m : UM B) : respects Rs (in_manager (ui_ m));
  md_parse s : respects Rs (in_manager (in_conn (parse_url s)));
  md_construct url b : respects Rs (in_manager (in_conn (dataobject_construct url b)));
  md_request b url d : respects Rs (in_manager (in_conn (connectionContext_syncRequestForce encodes endpoint_text b url d)));
  md_loop : respects Rs (in_manager (in_conn (connectionContext_loopIteration encodes)));
  md_dirty : respects Rs (in_manager (gui_ lgui_set_dirty));
  md_draw : respects Rs (in_manager (draw_now ft defaultFont cos_radius junk layout_junk encodes script endpoint_text png online)) }.
Variable Rs : relation system.
Context `{!PreOrder Rs}.
Hypothesis Hmod : modest Rs.
Lemma modest_fields {B} (m : FM B) : respects Rs (fields_ m).
Proof using Hmod. by apply md_ui. Qed.
#[local] Hint Resolve md_clock md_ui md_parse md_construct md_request md_loop md_dirty md_draw Hmod : respects.
#[local] Hint Extern 1 (respects _ (modify _)) => solve [by apply (md_own Rs Hmod)] : respects.
#[local] Hint Resolve modest_fields : respects.
Lemma modest_construct uri b : respects Rs (construct_at uri b).
Proof using All. unfold construct_at. parts. Qed.
Lemma modest_named o key f : respects Rs (set_named o key f).
Proof using All. by apply Hmod. Qed.
Lemma modest_modified o fs : respects Rs (modified o fs).
Proof using All. unfold modified. parts. Qed.
#[local] Hint Resolve modest_construct modest_named modest_modified : respects.
Lemma modest_components o : respects Rs (system_time_set_components simAutoDetect o).
Proof using All. unfold system_time_set_components. parts. Qed.
Lemma modest_redraw : respects Rs
  (force_dataobject_redraw ft defaultFont cos_radius junk layout_junk encodes script endpoint_text png online).
Proof using All. unfold force_dataobject_redraw. parts. Qed.
Lemma modest_weather g : respects Rs (system_weather_request encodes endpoint_text online g).
Proof using All. unfold system_weather_request, weather_object, weather_url. parts. Qed.
Lemma modest_battery_init : respects Rs system_battery_init.
Proof using All. unfold system_battery_init. parts. Qed.
Lemma modest_gprs_init : respects Rs (gprs_dataobject_init simAutoDetect).
Proof using All. unfold gprs_dataobject_init. parts. Qed.
#[local] Hint Resolve modest_components modest_redraw modest_weather modest_battery_init modest_gprs_init : respects.
Lemma modest_battery : respects Rs the_battery.
Proof using All. unfold the_battery. parts. Qed.
Lemma modest_gprs : respects Rs (the_gprs simAutoDetect).
Proof using All. unfold the_gprs. parts. Qed.
#[local] Hint Resolve modest_battery modest_gprs : respects.
Lemma modest_level i : respects Rs
  (gprs_set_signal_level ft defaultFont cos_radius junk layout_junk encodes script endpoint_text png online simAutoDetect i).
Proof using All. unfold gprs_set_signal_level. parts. Qed.
#[local] Hint Resolve modest_level : respects.
(** The messages of the radio and of the battery. *)
Inductive message :=
  | Battery (volt temp : Z) | Quality (rssi actlevel min_access_level : Z) | Registration (lac ci : Z)
  | Status (status : Z) | On (status : Z) | Emobiix (status : Z) | Sent.
Definition on_message (m : message) : M system () :=
  match m with
  | Battery volt temp => mmePrimHandler ft defaultFont cos_radius junk layout_junk encodes script endpoint_text png online volt temp
  | Quality rssi actlevel least => rAT_PercentCSQ ft defaultFont cos_radius junk layout_junk encodes script endpoint_text png
                                     online simAutoDetect rssi actlevel least
  | Registration lac ci => rAT_PercentCGREG simAutoDetect lac ci
  | Status i => gprs_set_status ft defaultFont cos_radius junk layout_junk encodes script endpoint_text png online simAutoDetect i
  | On i => gprs_set_on ft defaultFont cos_radius junk layout_junk encodes script endpoint_text png online simAutoDetect i
  | Emobiix i => gprs_set_emobiix_on ft defaultFont cos_radius junk layout_junk encodes script endpoint_text png online simAutoDetect i
  | Sent => uiAppSent encodes
  end.
Lemma modest_message m : respects Rs (on_message m).
Proof using All.
  destruct m; unfold on_message, mmePrimHandler, system_battery_set_battery_level, system_battery_set_charge_state, rAT_PercentCSQ,
    set_prelevel, rAT_PercentCGREG, gprs_set_location, gprs_set_status, gprs_set_on, gprs_set_emobiix_on, uiAppSent; parts.
Qed.
Lemma modest_publish : respects Rs (publish_time simAutoDetect).
Proof using All. unfold publish_time. parts. Qed.
Lemma modest_refresh o : respects Rs
  (refresh_time ft defaultFont cos_radius junk layout_junk encodes script endpoint_text png online simAutoDetect o).
Proof using All. unfold refresh_time. parts. Qed.
Lemma modest_handler t h : respects Rs (add_handler t h).
Proof using All. unfold add_handler. parts. Qed.
Variable Rd : relation device.
Context `{!PreOrder Rd}.
Hypothesis Rd_system : ∀ B (m : M system B), respects Rs m → respects Rd (in_system m).
Hypothesis Rd_start : ∀ t i, respects Rd (timerStart t i).
Hypothesis Rd_create : ∀ b, respects Rd (timerCreate b).
#[local] Hint Resolve modest_publish modest_refresh modest_handler Rd_system Rd_start Rd_create : respects.
Lemma modest_time_init : respects Rd (system_time_init simAutoDetect).
Proof using All. unfold system_time_init. parts; apply Rd_system; parts. Qed.
#[local] Hint Resolve modest_time_init : respects.
Lemma modest_tick t : respects Rd
  (updateTimeCB ft defaultFont cos_radius junk layout_junk encodes script endpoint_text png online simAutoDetect t).
Proof using All. unfold updateTimeCB. parts; apply Rd_system; parts. Qed.
Lemma modest_round t : respects Rd (ui_timer_cb encodes t).
Proof using All. unfold ui_timer_cb. parts; apply Rd_system; parts. Qed.
End Operations.

(** ** The light *)
Section Light.
Context {St : Type} `{MapStore St Bitmap} `{Fonts} {R : Type} `{RTC R} {V : Type} `{VSI V} `{VSI_TIME V}.
Variable ft : Z → bool → option ft_glyph.
Variable defaultFont : option Z.
Variable cos_radius : Z → Z → Z.
Variable junk : junk_values.
Variable layout_junk : Z.
Variable encodes : FRIPacketP → bool.
Variable script : oloc → cstring → UM ().
Variable endpoint_text : cstring.
Variable png : list Z → png_result.
Variable online : bool.
Variable simAutoDetect : bool.
(** The milliseconds since the start; the operating system tells them modulo 2^32, and
    its timer does not change them. *)
Variable now : V → Z.
Hypothesis now_told : ∀ v, vsi_t_time v = uint32 (now v).
Hypothesis now_kept : ∀ ms v, now (vsi_t_start ms v) = now v ∧ now (vsi_t_stop v) = now v.
Abbreviation system := (system (St := St) (R := R) (V := V)).
Abbreviation device := (timers (V := system)).
Implicit Types (d : device) (y : system).

Definition time_of d : Z := now (sy_vsi (tm_vsi d)).
(** [K]: the time of the last key.  The light was told to idle when it sleeps, and to be
    at its maximum otherwise; it sleeps only a minute after the last key. *)
Record lamp (K : Z) d : Prop := {
  lamp_timer : backlight_timer (sy_backlight (tm_vsi d)) = uint32 K;
  lamp_past : K ≤ time_of d;
  lamp_sleep : if backlight_sleep (sy_backlight (tm_vsi d))
              then K + BACKLIGHT_IDLE ≤ time_of d ∧ last (light_calls (sy_backlight (tm_vsi d))) = Some light_setBacklightIdle
              else last (light_calls (sy_backlight (tm_vsi d))) = Some (light_SetStatus BL_MAX_LIGHT) }.

Definition light_state d := (sy_backlight (tm_vsi d), time_of d).
Definition light_stays (d d' : device) : Prop := light_state d' = light_state d.
#[local] Instance light_stays_preorder : PreOrder light_stays.
Proof. split; unfold light_stays; [by intros d|intros d1 d2 d3 E1 E2; by rewrite E2]. Qed.
Definition lamp_after K (d d' : device) : Prop := lamp K d → lamp K d'.
#[local] Instance lit_after_preorder K : PreOrder (lamp_after K).
Proof. split; unfold lamp_after; [by intros d|intros d1 d2 d3 E1 E2 Hl; by apply E2, E1]. Qed.
Lemma lamp_stays K d d' : light_stays d d' → lamp_after K d d'.
Proof. intros E [E1 E2 E3]. injection E as Eb Et. split; by rewrite ?Eb, ?Et. Qed.
Lemma stays_own d d' : tm_vsi d' = tm_vsi d → light_stays d d'.
Proof. intros E. unfold light_stays, light_state, time_of. by rewrite E. Qed.
Lemma stays_vsi d ms : light_stays d (set_tmr (timerPrecMs d) (sig d) (vsi_t_start ms (tm_vsi d)) d) ∧
  light_stays d (set_tmr (timerPrecMs d) (sig d) (vsi_t_stop (tm_vsi d)) d).
Proof using now_kept.
  pose proof (now_kept ms (sy_vsi (tm_vsi d))) as [E1 E2].
  split; unfold light_stays, light_state, time_of; cbn [set_tmr tm_vsi system_vsi vsi_t_start vsi_t_stop set_vsi sy_backlight sy_vsi];
    f_equal; assumption.
Qed.
(** What a computation on the system keeps. *)
Definition apart (y : system) := (sy_backlight y, sy_vsi y).
Lemma stays_in_system {B} (m : M system B) : respects (keeping apart) m → respects light_stays (in_system m).
Proof.
  intros Hm d b d' E. unfold in_system in E. destruct (m (tm_vsi d)) as [[x y]| | |] eqn:Em; [|done..].
  injection E as <- <-. apply Hm in Em. injection Em as E1 E2. unfold light_stays, light_state, time_of. cbn. by rewrite E1, E2.
Qed.
Lemma apart_manager {B} (m : M (manager (St := St)) B) : respects (keeping apart) (in_manager m).
Proof. intros y b y' E. unfold in_manager in E. by repeat case_match; simplify_eq. Qed.
Lemma apart_clock {B} (f : clock (R := R) → B * clock) : respects (keeping apart) (on_clock f).
Proof. intros y b y' E. unfold on_clock in E. by repeat case_match; simplify_eq. Qed.
Lemma apart_modify f : (∀ y, apart (f y) = apart y) → respects (keeping apart) (modify f).
Proof. intros Hf y [] y' [= <-]. apply Hf. Qed.
Lemma apart_fields {B} (m : FM B) : respects (keeping apart) (fields_ m).
Proof. apply apart_manager. Qed.
Lemma apart_modest : modest ft defaultFont cos_radius junk layout_junk encodes script endpoint_text png online (keeping apart).
Proof.
  split; intros; try apply apart_manager; [apply apart_clock|]. apply apart_modify. intros y.
  match goal with Hf : ∀ _, unmanaged _ = _ |- _ => injection (Hf y) as _ Eb Ev end. unfold apart. by rewrite Eb, Ev.
Qed.
#[local] Hint Resolve apart_manager apart_modest : respects.

(** *** The operations of the device *)
Lemma stays_timerStart t i : respects light_stays (timerStart t i).
Proof using now_kept. apply frame_timerStart; [exact _|exact stays_own|exact stays_vsi]. Qed.
Lemma stays_timerCreate b : respects light_stays (timerCreate (V := system) b).
Proof using now_kept. apply frame_timerCreate; [exact _|exact stays_own|exact stays_vsi]. Qed.
#[local] Hint Resolve stays_timerStart stays_timerCreate : respects.
Abbreviation tick := (updateTimeCB ft defaultFont cos_radius junk layout_junk encodes script endpoint_text png online simAutoDetect).
Lemma stays_tick t : respects light_stays (tick t).
Proof using H3 now_kept.
  eapply (modest_tick _ _ _ _ _ _ _ _ _ _ _ _ apart_modest); intros; first [exact _|by apply stays_in_system|apply stays_timerStart|apply stays_timerCreate].
Qed.
Lemma stays_round t : respects light_stays (ui_timer_cb encodes t).
Proof using All.
  eapply (modest_round _ _ _ _ _ _ _ _ _ _ simAutoDetect _ apart_modest); intros; first [exact _|by apply stays_in_system|apply stays_timerStart|apply stays_timerCreate].
Qed.

(** The difference of the times as the code computes it. *)
Lemma elapsed_is a b : int32 (uint32 a - uint32 b) = int32 (a - b).
Proof.
  unfold int32, uint32. f_equal. rewrite <-(Z.add_mod_idemp_l (a mod 2 ^ 32 - b mod 2 ^ 32)) by done.
  by rewrite <-Zminus_mod, Z.add_mod_idemp_l by done.
Qed.
Lemma uint32_idem a : uint32 (uint32 a) = uint32 a.
Proof. unfold uint32. by rewrite Z.mod_mod. Qed.
Lemma elapsed_real x : 0 ≤ x → BACKLIGHT_IDLE ≤ int32 x → BACKLIGHT_IDLE ≤ x.
Proof. unfold BACKLIGHT_IDLE. intros H0' Hx. destruct (decide (x < 2 ^ 31)); [rewrite int32_small in Hx; lia|lia]. Qed.

Definition asleep d : bool := backlight_sleep (sy_backlight (tm_vsi d)).
Definition told d : list light_call := light_calls (sy_backlight (tm_vsi d)).
(** [d] with two more calls, asleep. *)
Definition put_to_sleep d : device :=
  let y := tm_vsi d in let b := sy_backlight y in
  set_tmr (timerPrecMs d) (sig d)
    (set_backlight (with_sleep true (with_call light_setBacklightIdle (with_call light_setBacklightIdle b))) y) d.
Lemma idle_unfold K t d : backlight_timer (sy_backlight (tm_vsi d)) = uint32 K →
  idleBacklight t d = if BACKLIGHT_IDLE <=? int32 (time_of d - K) then Ok ((), put_to_sleep d)
                      else (_ ← timerStart t (int32 (BACKLIGHT_IDLE - int32 (time_of d - K))); mret ()) d.
Proof using now_told.
  intros E. unfold idleBacklight. erewrite bind_Ok by reflexivity. cbv zeta. rewrite now_told, E, uint32_idem, elapsed_is.
  fold (time_of d).
  case_match; [|done]. unfold put_to_sleep, light, set_sleep, on_backlight, modify, in_system, mbind, M_bind. done.
Qed.
Lemma lamp_idle K t : respects (lamp_after K) (idleBacklight t).
Proof using now_told now_kept.
  intros d [] d' E Hl. pose proof Hl as [Et Ep Es]. rewrite (idle_unfold K) in E by done.
  destruct (Z.leb_spec BACKLIGHT_IDLE (int32 (time_of d - K))) as [Ee|Ee].
  - injection E as <-. apply elapsed_real in Ee; [|lia]. split; [done|done|].
    cbn. split; [unfold time_of in *; cbn; lia|]. by rewrite last_app.
  - refine (lamp_stays K d d' _ Hl). revert E. apply (respects_bind light_stays); [apply stays_timerStart|parts].
Qed.
Abbreviation callback :=
  (device_callback ft defaultFont cos_radius junk layout_junk encodes script endpoint_text png online simAutoDetect).
Lemma lamp_callback K t : respects (lamp_after K) (callback t).
Proof using H3 now_told now_kept.
  unfold device_callback. apply respects_bind; [exact _|apply respects_get; exact _|]. intros d.
  destruct (sy_handlers (tm_vsi d) !! t) as [[]|]; [|apply lamp_idle| |apply respects_ret; exact _];
    intros d1 a d2 E; apply lamp_stays; [by eapply stays_tick|by eapply stays_round].
Qed.
Abbreviation timeout j :=
  (device_timeout ft defaultFont cos_radius junk layout_junk encodes script endpoint_text png online simAutoDetect j).
Lemma lamp_timeout K j : respects (lamp_after K) (timeout j).
Proof using now_told now_kept.
  apply frame_mfw_timeout; [exact _| | |by apply lamp_callback].
  - intros d d' E. by apply lamp_stays, stays_own.
  - intros d ms. destruct (stays_vsi d ms). split; by apply lamp_stays.
Qed.

(** *** Keys and the start *)
Lemma stays_back d d' : light_stays d d' → time_of d' = time_of d ∧ sy_backlight (tm_vsi d') = sy_backlight (tm_vsi d).
Proof. by injection 1. Qed.
Lemma on_backlight_ok f d d' : in_system (on_backlight f) d = Ok ((), d') →
  time_of d' = time_of d ∧ sy_backlight (tm_vsi d') = f (sy_vsi (tm_vsi d)) (sy_backlight (tm_vsi d)).
Proof. by intros [= <-]. Qed.
Lemma snapped d d' : blightSnaptime d = Ok ((), d') →
  let b := sy_backlight (tm_vsi d') in
  time_of d' = time_of d ∧ backlight_timer b = uint32 (time_of d) ∧ backlight_sleep b = false ∧
  light_calls b = told d ++ (if asleep d then [light_SetStatus BL_MAX_LIGHT] else []).
Proof using now_told now_kept.
  unfold blightSnaptime. intros ([] & d1 & [Et Eb]%on_backlight_ok & E)%bind_Ok_inv.
  rewrite (bind_Ok _ _ _ _ _ eq_refl) in E. cbv zeta in E. rewrite now_told, uint32_idem in Eb. fold (time_of d) in Eb.
  rewrite Eb in E. cbn [with_timer backlight_sleep idleTime] in E. fold (asleep d) in E. destruct (asleep d) eqn:Es.
  - apply bind_Ok_inv in E as ([] & d2 & [Et2 Eb2]%on_backlight_ok & E).
    apply bind_Ok_inv in E as ([] & d3 & [Et3 Eb3]%on_backlight_ok & E).
    assert (light_stays d3 d') as [Et4 Eb4]%stays_back.
    { destruct (idleTime _); [|by injection E as <-]. revert E. apply (respects_bind light_stays); [apply stays_timerStart|parts]. }
    cbv zeta. rewrite Eb4, Eb3, Eb2, Eb. split; [congruence|done].
  - injection E as <-. cbv zeta. rewrite Eb. split; [done|]. cbn. rewrite app_nil_r. done.
Qed.
Lemma lamp_key K d d' : lamp K d → blightSnaptime d = Ok ((), d') → lamp (time_of d) d'.
Proof using now_told now_kept.
  intros [_ _ Hs] (Et & Eb & Es & El)%snapped. split; [done|lia|]. rewrite Es, El. unfold told, asleep in *.
  destruct (backlight_sleep (sy_backlight (tm_vsi d))); [by rewrite last_app|by rewrite app_nil_r].
Qed.
Lemma lamp_start d d' : asleep d = false → backlightInit d = Ok ((), d') → lamp (time_of d) d'.
Proof using now_told now_kept.
  unfold backlightInit. intros Hs ([] & d1 & (Et & Eb & Es & _)%snapped & E)%bind_Ok_inv.
  apply bind_Ok_inv in E as (t & d2 & [Et2 Eb2]%(stays_timerCreate true)%stays_back & E).
  apply bind_Ok_inv in E as ([] & d3 & E3 & E).
  assert (light_stays d2 d3) as [Et3 Eb3]%stays_back by (injection E3 as <-; reflexivity).
  apply bind_Ok_inv in E as ([] & d4 & [Et4 Eb4]%on_backlight_ok & E).
  apply bind_Ok_inv in E as (z & d5 & [Et5 Eb5]%stays_timerStart%stays_back & [Et6 Eb6]%on_backlight_ok).
  split; rewrite ?Eb6, ?Eb5, ?Eb4, ?Eb3, ?Eb2; cbn; [done|lia|]. by rewrite Es, last_app.
Qed.

(** *** Runs *)
Definition wait (v : V) d : device := set_tmr (timerPrecMs d) (sig d) (set_vsi v (tm_vsi d)) d.
Abbreviation key MsgId k :=
  (device_key ft defaultFont cos_radius junk layout_junk encodes script endpoint_text png online MsgId k).
Abbreviation radio := (on_message ft defaultFont cos_radius junk layout_junk encodes script endpoint_text png online simAutoDetect).
(** Keys, timeouts, messages and waiting, after the start of the light; [K] is the time of
    the last key. *)
Inductive run (d0 : device) : Z → device → Prop :=
  | run_start d : asleep d0 = false → backlightInit d0 = Ok ((), d) → run d0 (time_of d0) d
  | run_key K d MsgId k d' : run d0 K d → key MsgId k d = Ok ((), d') → run d0 (time_of d) d'
  | run_timeout K d j n d' : run d0 K d → timeout j d = Ok (n, d') → run d0 K d'
  | run_message K d m d' : run d0 K d → in_system (radio m) d = Ok ((), d') → run d0 K d'
  | run_wait K d v : run d0 K d → time_of d ≤ now v → run d0 K (wait v d).
Lemma run_lamp d0 K d : run d0 K d → lamp K d.
Proof using now_told now_kept.
  induction 1 as [d Hs E|K d MsgId k d' _ IH E|K d j n d' _ IH E|K d m d' _ IH E|K d v _ IH Hv].
  - by apply lamp_start.
  - unfold device_key in E. apply bind_Ok_inv in E as ([] & d1 & E1 & E). apply (lamp_key K) in E1; [|done].
    revert E1. apply lamp_stays. revert E. apply stays_in_system. parts.
  - by eapply lamp_timeout.
  - revert IH. apply lamp_stays. revert E. apply stays_in_system, modest_message; [exact _|apply apart_modest].
  - destruct IH as [E1 E2 E3]. split; [done|cbn; unfold time_of in *; cbn; lia|].
    change (sy_backlight (tm_vsi (wait v d))) with (sy_backlight (tm_vsi d)). case_match; [|done].
    split; [|apply E3]. unfold time_of in *. cbn. lia.
Qed.
(** C15: in every run of keys, timeouts, messages and waiting, the light is asleep only if
    the last key is a minute ago, and the last order the driver got is to idle when it is
    asleep and to shine otherwise.  A check that finds the minute gone puts it to sleep, an
    earlier one starts its timer for what is left of the minute. *)
Theorem light_sleeps_after_a_minute d0 K d : run d0 K d →
  (asleep d = true → K + BACKLIGHT_IDLE ≤ time_of d) ∧
  last (told d) = Some (if asleep d then light_setBacklightIdle else light_SetStatus BL_MAX_LIGHT) ∧
  ∀ t, time_of d < K + 2 ^ 31 →
    if K + BACKLIGHT_IDLE <=? time_of d then ∃ d', idleBacklight t d = Ok ((), d') ∧ asleep d' = true
    else idleBacklight t d = (_ ← timerStart t (K + BACKLIGHT_IDLE - time_of d); mret ()) d.
Proof using now_told now_kept.
  intros [E1 E2 E3]%run_lamp. unfold asleep, told. split; [|split].
  - intros Hs. rewrite Hs in E3. apply E3.
  - case_match; [apply E3|exact E3].
  - intros t Ht. rewrite (idle_unfold K) by done. unfold BACKLIGHT_IDLE in *. rewrite !(int32_small (time_of d - K)) by lia.
    destruct (Z.leb_spec (K + 60000) (time_of d)).
    + rewrite (proj2 (Z.leb_le _ _)) by lia. by exists (put_to_sleep d).
    + rewrite (proj2 (Z.leb_gt _ _)), int32_small by lia. by replace (60000 - (time_of d - K)) with (K + 60000 - time_of d) by lia.
Qed.
End Light.

(** ** Changes of the published objects *)
Section Published.
Context {St : Type} `{MapStore St Bitmap} `{Fonts} {R : Type} `{RTC R} {V : Type} `{VSI V} `{VSI_TIME V}.
Variable ft : Z → bool → option ft_glyph.
Variable defaultFont : option Z.
Variable cos_radius : Z → Z → Z.
Variable junk : junk_values.
Variable layout_junk : Z.
Variable encodes : FRIPacketP → bool.
Variable script : oloc → cstring → UM ().
Variable endpoint_text : cstring.
Variable png : list Z → png_result.
Variable online : bool.
Variable simAutoDetect : bool.
Abbreviation system := (system (St := St) (R := R) (V := V)).
Abbreviation device := (timers (V := system)).
Implicit Types (y : system).

Definition never {S A} (m : M S A) (s : S) : Prop := ∀ r, m s ≠ Ok r.
Lemma never_bind {S A B} (m : M S A) (f : A → M S B) s :
  (∀ a s', m s = Ok (a, s') → never (f a) s') → never (m ≫= f) s.
Proof. intros Hf [b s2] (a & s1 & E1 & E2)%bind_Ok_inv. by apply (Hf a s1 E1 (b, s2)). Qed.

Definition untyped_in (w : world) (d : oloc) : Prop :=
  ∃ o, w_objs w !! d = Some o ∧ o_state o = DOS_OK ∧ al_find (enum_value EMO_FIELD_TYPE) (o_enumData o) = None.
(** The type is followed although there is none. *)
Lemma untyped_modified u d b fuel : untyped_in (u_world u) d → never (setIsModified_loop fuel d b) u.
Proof.
  intros (o & Ho & Hs & Hn). destruct fuel as [|fuel]; [by intros r|]. cbn [setIsModified_loop]. unfold setIsModified_step.
  apply never_bind. intros o' u' E. unfold obj, in_world, get_obj in E. rewrite Ho in E. injection E as <- <-. rewrite Hs.
  apply never_bind. intros [] u1 E1. apply never_bind. intros f u2 E2.
  enough (f = None) as -> by (apply never_bind; by intros a u3 E3).
  assert (∃ o1, w_objs (u_world u1) !! d = Some o1 ∧ o_enumData o1 = o_enumData o) as (o1 & Ho1 & He).
  { assert (∀ (r : RM ()) g, (in_renderman r;; upd d (λ o, with_flags1 (g o) o)) (set_world (u_world u) u) = Ok ((), u1) →
      ∃ o1, w_objs (u_world u1) !! d = Some o1 ∧ o_enumData o1 = o_enumData o) as Hany.
    { intros r g ([] & v & Ev & E)%bind_Ok_inv. unfold in_renderman in Ev. case_match; simplify_eq. case_match; simplify_eq.
      unfold upd, in_world, upd_obj, get_obj, mbind, M_bind in E. cbn in E. rewrite Ho in E. cbn in E. injection E as <-.
      cbn. rewrite lookup_insert_eq. by eexists. }
    destruct b; exact (Hany _ _ E1). }
  assert (locate (u_world u1) d (enum_value EMO_FIELD_TYPE) = None) as Hl by (unfold locate; by rewrite Ho1; cbn; rewrite He).
  rewrite (getField_none u1 d o1 EMO_FIELD_TYPE ltac:(done) Ho1 Hl) in E2. by injection E2 as <- _.
Qed.

Definition world_of y : world := u_world (c_ui (mg_conn (sy_manager y))).
Definition published_part y := (w_objs (world_of y), sy_time y, sy_battery y, sy_gprs y).
Lemma part_fields {B} (m : FM B) : respects (keeping published_part) (fields_ m).
Proof.
  intros y b y' E. unfold fields_, in_manager, ui_, in_conn, in_ui, in_fields, in_world, on_fields in E.
  by repeat case_match; simplify_eq.
Qed.
Lemma part_world y y' : keeping published_part y y' → w_objs (world_of y') = w_objs (world_of y) ∧
  sy_time y' = sy_time y ∧ sy_battery y' = sy_battery y ∧ sy_gprs y' = sy_gprs y.
Proof. by injection 1. Qed.
Lemma never_modified d fs y : untyped_in (world_of y) d → never (modified d fs) y.
Proof.
  intros Hu. unfold modified. apply never_bind. intros [] y1 E1.
  assert (keeping published_part y y1) as (Ew & _)%part_world.
  { revert E1. apply respects_mfor; [exact _|]. intros f. apply part_fields. }
  unfold untyped_in in Hu. rewrite <-Ew in Hu. intros [[] y2] E2. unfold in_manager, ui_, in_conn, in_ui in E2.
  destruct (dataobject_setIsModified (Some d) true (c_ui (mg_conn (sy_manager y1)))) as [[[] u]| | |] eqn:E; [|done..].
  unfold dataobject_setIsModified in E. eapply (untyped_modified _ _ _ _ Hu). exact E.
Qed.
Lemma part_clock {B} (f : clock (R := R) → B * clock) : respects (keeping published_part) (on_clock f).
Proof. intros y b y' E. unfold on_clock in E. by repeat case_match; simplify_eq. Qed.
#[local] Hint Resolve part_fields part_clock : respects.
Lemma part_components o : respects (keeping published_part) (system_time_set_components simAutoDetect o).
Proof. unfold system_time_set_components. parts. Qed.
(** The objects of the device are there, without a type. *)
Record published y : Prop := {
  pb_time : ∃ o, sy_time y = Some o ∧ untyped_in (world_of y) (SYSTEM_TIME o);
  pb_battery : ∃ o, sy_battery y = Some o ∧ untyped_in (world_of y) (SYSTEM_BATTERY o);
  pb_gprs : ∃ o, sy_gprs y = Some o ∧ untyped_in (world_of y) (GPRS_DO o) }.
Lemma never_after {B} (m : M system B) (f : B → M system ()) d y : respects (keeping published_part) m →
  untyped_in (world_of y) d → (∀ b y', untyped_in (world_of y') d → never (f b) y') → never (m ≫= f) y.
Proof.
  intros Hm Hu Hf. apply never_bind. intros b y' (Ew & _)%Hm%part_world. apply Hf. unfold untyped_in. by rewrite Ew.
Qed.
Lemma never_first {S} (m m' : M S ()) s : never m s → never (m;; m') s.
Proof. intros Hm. apply never_bind. intros [] s' E. by destruct (Hm _ E). Qed.
Lemma the_battery_ok y o : sy_battery y = Some o → the_battery y = Ok (o, y).
Proof. intros E. unfold the_battery. erewrite bind_Ok by reflexivity. by rewrite E. Qed.
Lemma the_gprs_ok y o : sy_gprs y = Some o → the_gprs simAutoDetect y = Ok (o, y).
Proof. intros E. unfold the_gprs. erewrite bind_Ok by reflexivity. by rewrite E. Qed.
Ltac at_object E := intros r; erewrite bind_Ok by (first [apply the_gprs_ok|apply the_battery_ok]; exact E); revert r.
Ltac never_changes Hu := repeat (eapply never_after; [apply part_fields|exact Hu|clear Hu; intros ? ? Hu]);
  first [by apply never_modified|apply never_first; by apply never_modified].
Abbreviation message := (on_message ft defaultFont cos_radius junk layout_junk encodes script endpoint_text png online simAutoDetect).
Lemma never_level y i : published y → never (gprs_set_signal_level ft defaultFont cos_radius junk layout_junk encodes script
  endpoint_text png online simAutoDetect i) y.
Proof. intros [_ _ (o & E & Hu)]. unfold gprs_set_signal_level. at_object E. never_changes Hu. Qed.
End Published.

(** ** Instances: a device whose light is started, and one whose objects are published *)
(** An operating system with a time and a timer. *)
Record os := mkOs { os_time : Z; os_timer : Z }.
#[local] Instance os_vsi : VSI os :=
  {| vsi_t_start := λ ms o, mkOs (os_time o) ms; vsi_t_stop := λ o, mkOs (os_time o) 0; vsi_t_status := os_timer |}.
#[local] Instance os_vsi_time : VSI_TIME os := λ o, uint32 (os_time o).
#[local] Instance quartz : RTC (T_RTC_DATE * T_RTC_TIME) :=
  {| rtc_set_time_date := λ d t _, (0, (d, t)); rtc_get_time_date := Some |}.
Definition nine_forty : T_RTC_DATE * T_RTC_TIME := (mkDate 22 9 2010, mkTime 40 9 0 RTC_TIME_FORMAT_12HOUR false).
Definition off_manager : manager (St := mstate Bitmap) :=
  mkManager (mkConn (mkUi (mkWorld ∅ 1 (mkFH ∅ 1)) None ∅ [] None 1 None) [] [] [] [] NA_UNKNOWN false [] 1 None)
    (mkText (gui_with 0 screen) demo_cache) None None None None None [] false [].
Definition off_system : system (V := os) :=
  mkSystem off_manager (mkClock nine_forty.1 nine_forty.2 nine_forty) None None None None 0 ∅
    (mkBacklight (replicate 9 0) 0 false None []) (mkOs 1000 0).
Definition off_device : timers (V := system (V := os)) :=
  mkTimers None None 0 false 1 true (mkHeap ∅ ∅ 1%positive) ∅ off_system.
Definition done {S A} (s : S) (m : M S A) : S := match m s with Ok (_, s') => s' | _ => s end.
Definition light_on := done off_device backlightInit.
Definition later (t : Z) : os := mkOs t 0.
Abbreviation off_timeout := (device_timeout (H0 := fixed_fonts) no_font None (λ _ _, 0) no_junk 0 (λ _, true) (λ _ _, mret ()) [] (λ _, PNG_none) false true 0).
Definition minute_later := wait (later 61000) light_on.
Definition slept := done minute_later off_timeout.
Lemma slept_ok : backlightInit off_device = Ok ((), light_on) ∧ off_timeout minute_later = Ok (1, slept) ∧ asleep slept = true.
Proof. split_and!; vm_compute; reflexivity. Qed.
Lemma os_time_told v : vsi_t_time v = uint32 (os_time v).
Proof. done. Qed.
Lemma os_time_kept ms v : os_time (vsi_t_start ms v) = os_time v ∧ os_time (vsi_t_stop v) = os_time v.
Proof. done. Qed.
Lemma light_sleeps_after_a_minute_witness : asleep slept = true ∧ 1000 + BACKLIGHT_IDLE ≤ time_of os_time slept.
Proof.
  destruct slept_ok as (E1 & E2 & Es). split; [exact Es|].
  refine (proj1 (light_sleeps_after_a_minute _ _ _ _ _ _ _ _ _ _ _ os_time os_time_told os_time_kept off_device 1000 slept _) Es).
  eapply run_timeout; [|exact E2]. apply run_wait; [|vm_compute; discriminate]. exact (run_start _ _ _ _ _ _ _ _ _ _ _ _ off_device light_on eq_refl E1).
Defined.
Definition published_device :=
  done off_device (system_time_init true;; _ ← in_system system_battery_init; _ ← in_system (gprs_dataobject_init true); mret ()).
Lemma is_published : published (tm_vsi published_device).
Proof. split; eexists; (split; [vm_compute; reflexivity|]); eexists; split_and!; vm_compute; reflexivity. Qed.
