(* ===== verification/BootRules.v ===== *)
(** * Properties of the start

    The program is run up to the start of the radio, on a clock that shows twenty to ten and
    with no picture files.  The result does not depend on uninitialised variables, on the
    connection, on the encoder or on the table of square roots, which are arbitrary here. *)
From S2P Require Import Prelude Lists Maps Lgui BitmapCache CStrings Url Text RenderManager FieldNames Fields DataObjects.
From S2P Require Import Sync Protocol SyncSend Ui Modify Focus Styles Layout Connection ObjectTrees Drawing Mime Manager ObjectFields.
From S2P Require Import Screen Screens Clock Timers System ScreenRules SystemRules.

#[local] Existing Instances os_vsi os_vsi_time quartz fixed_fonts.
#[export] Instance light_call_eq_dec : EqDecision light_call.
Proof. solve_decision. Defined.
#[export] Instance handler_eq_dec : EqDecision handler.
Proof. solve_decision. Defined.

(** ** Trees by computation *)
Fixpoint tree_of (fuel : nat) (objs : gmap oloc DataObject) (d : oloc) : tree :=
  match fuel with
  | O => Node d []
  | S fuel => Node d (map (tree_of fuel objs) (default [] (o_children <$> objs !! d)))
  end.
Fixpoint links_agree (objs : gmap oloc DataObject) (p : option oloc) (t : tree) : bool :=
  let 'Node l ts := t in
  match objs !! l with
  | Some o => bool_decide (o_parent o = p) && bool_decide (o_children o = map root ts) && forallb (links_agree objs (Some l)) ts
  | None => false
  end.
Lemma links_agree_rep objs p t : links_agree objs p t = true → rep objs p t.
Proof.
  revert p; induction t as [l ts IH] using tree_ind'. intros p E. cbn in E. destruct (objs !! l) as [o|] eqn:Eo; [|done].
  apply andb_true_iff in E as [[E1 E2]%andb_true_iff E3]. apply bool_decide_eq_true in E1, E2.
  econstructor; [exact Eo|done|done|]. rewrite forallb_forall in E3. rewrite Forall_forall in IH |- *.
  intros t Ht. apply (IH t Ht), E3. by apply list_elem_of_In.
Qed.
Definition is_tree (w : world) (d : oloc) : bool :=
  let t := tree_of (size (w_objs w)) (w_objs w) d in
  links_agree (w_objs w) None t && bool_decide (NoDup (preorder t)) && (Z.of_nat (length (preorder t)) <? 2 ^ 31).
Lemma is_tree_in w d : is_tree w d = true → ∃ t, root t = d ∧ tree_in w t.
Proof.
  unfold is_tree. intros [[E1 E2]%andb_true_iff E3]%andb_true_iff. exists (tree_of (size (w_objs w)) (w_objs w) d).
  split; [by destruct (size (w_objs w))|]. split_and!; [by apply links_agree_rep|by apply bool_decide_eq_true in E2|by apply Z.ltb_lt].
Qed.
Definition is_wf (w : world) : bool :=
  bool_decide (map_Forall (λ x _, (x < w_brk w)%positive) (w_objs w)) &&
  bool_decide (map_Forall (λ x _, (x < fh_brk (w_fields w))%positive) (fh (w_fields w))).
Lemma below_none {A} (m : gmap positive A) b x : map_Forall (λ x _, (x < b)%positive) m → (b ≤ x)%positive → m !! x = None.
Proof. intros Hm Hx. destruct (m !! x) as [a|] eqn:E; [|done]. pose proof (Hm x a E) as Hlt. cbn in Hlt. lia. Qed.
Lemma is_wf_ok w : is_wf w = true → wf w.
Proof.
  unfold is_wf. intros [E1 E2]%andb_true_iff. apply bool_decide_eq_true in E1, E2.
  split; intros x; by apply below_none.
Qed.

(** ** The start *)
Abbreviation device := (timers (V := system (St := mstate Bitmap) (R := T_RTC_DATE * T_RTC_TIME) (V := os))).
Implicit Types d : device.
Definition manager_of d := sy_manager (tm_vsi d).
Definition connection_of d := mg_conn (manager_of d).
Definition ui_of d : ui := c_ui (connection_of d).
Definition object_at d (path : string) : option oloc := al_find (lit path) (c_globals (connection_of d)).
Definition shown_in d (w : option oloc) : option oloc := w ≫= λ w, w_objs (u_world (ui_of d)) !! w ≫= o_widgetData.
Definition queue_of d : option (list (option tloc)) :=
  match timer_queue d with
  | Some q => match list_items q (tm_heap d) with Ok (l, _) => Some l | _ => None end
  | None => None
  end.
Definition app_object d (a : aloc) : option oloc := app_dobj <$> u_apps (ui_of d) !! a.
Definition whole_screen : Z * Z * Z * Z := (0, 0, LGUI_WIDTH, LGUI_HEIGHT).
Definition BOOT_PATH : string := "/RootApplication/BootApplication.xml".
(** The boot application is the only one, has the focus, and its object, under which it is
    found by its path, is in the placeholder of the root screen; the window is the screen of
    the root application; the whole screen was sent twice and nothing is left to draw; the
    timers of the clock and of the light are queued for 45 and 60 seconds; the light is on. *)
Definition boot_screen d (boot root clock idle : positive) : Prop :=
  let m := manager_of d in
  (u_applications (ui_of d) = [boot] ∧ u_focus (ui_of d) = Some boot ∧ mg_bootApp m = Some boot ∧
   mg_rootApplication m = Some root) ∧
  (is_Some (app_object d boot) ∧ app_object d boot = object_at d BOOT_PATH ∧ shown_in d (mg_placeHolder m) = object_at d BOOT_PATH ∧
   is_Some (u_window (ui_of d)) ∧ u_window (ui_of d) = u_apps (ui_of d) !! root ≫= app_currentScreen) ∧
  (mg_sent_rects m = [whole_screen; whole_screen] ∧ lguiDirty (the_gui m) = false) ∧
  (queue_of d = Some [Some clock; Some idle] ∧ os_timer (sy_vsi (tm_vsi d)) = TIME_UPDATE_INTERVAL ∧
   tm_data d !! clock = Some (mkTimer true 0 TIME_UPDATE_INTERVAL) ∧
   tm_data d !! idle = Some (mkTimer true (BACKLIGHT_IDLE - TIME_UPDATE_INTERVAL) BACKLIGHT_IDLE) ∧
   sy_handlers (tm_vsi d) !! clock = Some UpdateTime ∧ sy_handlers (tm_vsi d) !! idle = Some IdleBacklight) ∧
  (asleep d = false ∧ told d = [light_SetStatus BL_MAX_LIGHT]).
#[export] Instance tDS_eq_dec : EqDecision tDS.
Proof. solve_decision. Defined.
#[export] Instance boot_screen_dec d a b c e : Decision (boot_screen d a b c e).
Proof. unfold boot_screen. apply _. Defined.
Definition tree_at d (a : aloc) : bool := match app_object d a with Some o => is_tree (u_world (ui_of d)) o | None => false end.
Definition boots d (boot root clock idle : positive) : bool :=
  bool_decide (boot_screen d boot root clock idle) && is_wf (u_world (ui_of d)) && tree_at d boot && tree_at d root.
Lemma tree_at_in d a : tree_at d a = true → ∃ o t, app_object d a = Some o ∧ ObjectTrees.root t = o ∧ tree_in (u_world (ui_of d)) t.
Proof. unfold tree_at. destruct (app_object d a) as [o|]; [|done]. intros (t & Er & Ht)%is_tree_in. by exists o, t. Qed.

(** ** What a set shows *)
Definition attribute (w : oloc) (f : EmoField) : UM Z := as_int_or w f (-1).
(** The set of a field below [top], the value of the item it shows, and the part of the
    picture that is cut out. *)
Definition the_set (top : option oloc) (field : string) : UM (option oloc) :=
  widget_findStringField top (enum_value EMO_FIELD_FIELDNAME) (Some (lit field)).
Definition shown_value (top : option oloc) (field : string) : UM (option Z) :=
  w ← the_set top field; item ← setwidget_activeItem w;
  match item with
  | None => mret None
  | Some i => o ← obj i; parent ← deref (o_parent o); v ← attribute parent EMO_FIELD_FIELDVALUE; mret (Some v)
  end.
Definition part_of_picture (w : oloc) : UM Rectangle :=
  x ← attribute w EMO_FIELD_IMGX; y ← attribute w EMO_FIELD_IMGY;
  width ← attribute w EMO_FIELD_IMGWIDTH; height ← attribute w EMO_FIELD_IMGHEIGHT; mret (mkRect x y width height).
Definition evaluate {A} (m : UM A) d : option A := match m (ui_of d) with Ok (a, _) => Some a | _ => None end.
Definition boot_object d : option oloc := mg_bootApp (manager_of d) ≫= app_object d.
Definition root_object d : option oloc := mg_rootApplication (manager_of d) ≫= app_object d.

Definition clock_at (h m : Z) : clock (R := T_RTC_DATE * T_RTC_TIME) :=
  let t := mkTime m h 0 RTC_TIME_FORMAT_12HOUR false in mkClock nine_forty.1 t (nine_forty.1, t).
(** The time [h]:[m] is published. *)
Definition at_time (h m : Z) d : device :=
  match sy_time (tm_vsi d) with
  | Some o => set_tmr (timerPrecMs d) (sig d) (done (set_clock (clock_at h m) (tm_vsi d)) (system_time_set_components true o)) d
  | None => d
  end.
Definition clock_fields : list string := ["H1"; "H2"; "M1"; "M2"]%string.
Definition shown_digits d : list (option (option Z)) :=
  (λ f, evaluate (shown_value (boot_object d) f) d) <$> clock_fields.
Definition digits_of (h m : Z) : list (option (option Z)) :=
  [Some (if h <? 10 then None else Some (h / 10)); Some (Some (h mod 10)); Some (Some (m / 10)); Some (Some (m mod 10))].

(** The parts of the picture the items of a set show. *)
Definition parts (top : option oloc) (field : string) : UM (list Rectangle) :=
  w ← the_set top field; w ← deref w; items ← children_of w;
  foldr (λ i rest, cs ← children_of i; l ← rest;
                   match cs with c :: _ => r ← part_of_picture c; mret (r :: l) | [] => mret l end) (mret []) items.
(** The size of clock-numbers.png. *)
Definition inside_picture (r : Rectangle) : Prop :=
  0 ≤ rx r ∧ 0 ≤ ry r ∧ 0 < rwidth r ∧ 0 < rheight r ∧ rx r + rwidth r ≤ 398 ∧ ry r + rheight r ≤ 209.
Definition parts_ok (l : list Rectangle) : Prop := Forall inside_picture l ∧ NoDup (rx <$> l).
#[export] Instance inside_picture_dec r : Decision (inside_picture r).
Proof. unfold inside_picture. apply _. Defined.
#[export] Instance parts_ok_dec l : Decision (parts_ok l).
Proof. unfold parts_ok. apply _. Defined.
Definition clock_parts d : list (list Rectangle) :=
  (λ f, default [] (evaluate (parts (boot_object d) f) d)) <$> clock_fields.

(** The fields with the level of the signal and so on are all set to [v]. *)
Definition put_level (f : floc) (v : Z) : M (system (St := mstate Bitmap) (R := T_RTC_DATE * T_RTC_TIME) (V := os)) () :=
  fields_ (put_uinteger f v).
Definition at_levels (v : Z) d : device :=
  match sy_gprs (tm_vsi d), sy_battery (tm_vsi d) with
  | Some g, Some b =>
      set_tmr (timerPrecMs d) (sig d)
        (done (tm_vsi d) (put_level (GPRS_SIGNAL_LEVEL g) v;; put_level (GPRS_ON g) v;; put_level (GPRS_EMOBIIX_ON g) v;;
                          put_level (BATTERY_CHARGE_LEVEL b) v)) d
  | _, _ => d
  end.
Definition shown_icons d : list (option (option Z)) :=
  (λ f, evaluate (shown_value (root_object d) f) d) <$> ["signal-level"; "gprs-on"; "emobiix-on"; "charge-level"]%string.
Definition icons_of (v : Z) : list (option (option Z)) :=
  (λ n, Some (if v <=? n then Some v else None)) <$> [4; 1; 1; 6].

(** The renderer and the background a new widget gets from the root style. *)
Definition dress (type : string) (focused : bool) : UM (option renderer * option Z) :=
  root ← manager_getRootStyle; w ← widget_new;
  '(s, _) ← style_getID (Some root) (Some (interned (lit type))) None (int_of_bool focused);
  r ← style_getRenderer (Some s) (Some w) EMO_FIELD_RENDERER;
  background ← style_getColor (Some s) (Some w) EMO_FIELD_BACKGROUND_COLOR; mret (r, background).
Definition wardrobe : list (string * (bool → option renderer * option Z)) :=
  [("entry", λ f, (Some R_entry, Some (if f : bool then 0xb7f1ffFF else 0xFFFFFFFF)));
   ("checkbox", λ f, (Some R_checkbox, Some (if f : bool then 0xCFCFFFFF else 0xFFFFFFFF)));
   ("label", λ _, (Some R_label, None)); ("text", λ _, (Some R_text, None)); ("image", λ _, (Some R_image, None));
   ("scrolled", λ _, (Some R_scrolled, None)); ("scrollbar", λ _, (Some R_scrollbar, None));
   ("button", λ _, (Some R_box, None)); ("solid", λ _, (Some R_box, None)); ("gradboxr", λ _, (Some R_box, None));
   ("gradbox", λ _, (Some R_box, Some 0x878787FF)); ("darkgradbox", λ _, (Some R_box, Some 0x878787FF))]%string.
(** Types that only hold or place others, and arrays, whose renderer is not there. *)
Definition undressed : list string := ["box"; "view"; "stack"; "set"; "setitem"; "frame"; "reference"; "array"]%string.
Definition dressed d (f : bool) : Prop :=
  Forall (λ p, evaluate (dress p.1 f) d = Some (p.2 f)) wardrobe ∧ Forall (λ t, evaluate (dress t f) d = Some (None, None)) undressed.

Section Boot.
Variable encodes : FRIPacketP → bool.
Variable cos_radius : Z → Z → Z.
Variable junk : junk_values.
Variable layout_junk : Z.
Variable endpoint_text : cstring.
Variable png : list Z → png_result.
Abbreviation main := (mmi_main no_font None cos_radius junk layout_junk encodes (λ _ _, mret ()) endpoint_text png false (λ _, None) true).
(** Something computed from the state after the start. *)
Definition after_start (f : device → bool) : bool := match main off_device with Ok (_, d) => f d | _ => false end.
Lemma after_start_inv f : after_start f = true → ∃ d, main off_device = Ok ((), d) ∧ f d = true.
Proof. unfold after_start. destruct (main off_device) as [[[] d]| | |]; [|done..]. by exists d. Qed.
Lemma boots_here : after_start (λ d, boots d 2 1 1 2) = true.
Proof. vm_compute. reflexivity. Qed.
Lemma digits_here : after_start (λ d,
  forallb (λ h, forallb (λ m, bool_decide (shown_digits (at_time h m d) = digits_of h m)) (seqZ 0 60)) (seqZ 0 13) &&
  bool_decide (length <$> clock_parts d = [1; 10; 6; 10]%nat ∧ Forall parts_ok (clock_parts d))) = true.
Proof. vm_compute. reflexivity. Qed.
Lemma in_seqZ i n : 0 ≤ i < n → In i (seqZ 0 n).
Proof. intros Hi. apply list_elem_of_In, elem_of_seqZ. lia. Qed.
Lemma icons_here : after_start (λ d, forallb (λ v, bool_decide (shown_icons (at_levels v d) = icons_of v)) (seqZ 0 256)) = true.
Proof. vm_compute. reflexivity. Qed.
Lemma dress_here : after_start (λ d, bool_decide (dressed d true ∧ dressed d false)) = true.
Proof. vm_compute. reflexivity. Qed.
(** After the start the root style gives every type of widget the renderer for it, with
    a background that tells the focus for entries and check boxes; types that only hold
    others have none, and neither have arrays, whose renderer array does not exist. *)
Theorem root_style_dresses focused : ∃ d, main off_device = Ok ((), d) ∧ dressed d focused.
Proof.
  destruct (after_start_inv _ dress_here) as (d & E & Hd%(bool_decide_eq_true_1 _)). exists d. split; [exact E|]. clear E.
  by destruct focused; apply Hd.
Qed.
End Boot.

Abbreviation demo_main :=
  (mmi_main no_font None (λ _ _, 0) no_junk 0 (λ _, true) (λ _ _, mret ()) [] (λ _, PNG_none) false (λ _, None) true).
