(* ===== verification/Messages.v ===== *)
(** * sms.c: short messages as AT commands

    The radio answers AT+CMGL with a line for each message, in which the number is the
    first quoted text behind the second comma, a line with the text, and OK at the end.
    [ati_response_cb] gets each line; it holds two messages and reports them at the end.
    The arrays have 20 and 200 bytes.  The radio library behind [ati_execute] and
    [atPlusCMGS] is not here: what it is given is recorded. *)
From S2P Require Import Prelude CStrings FieldNames.

Record SMSMsg := mkMsg { txtnumber : cstring; txtmsg : cstring }.
Definition no_msg : SMSMsg := mkMsg [] [].
(** [tweets]: the calls of [tweetRecvSMS]; [commands]: the texts given to the radio; the
    newest last. *)
Record sms := mkSms {
  s_awaitingSMS : Z;
  msg_cb : bool;
  msgList : SMSMsg * SMSMsg;
  tweets : list (cstring * cstring);
  commands : list cstring }.
Abbreviation SMM := (M sms).

Definition NUMBER_SIZE : Z := 20.
Definition TEXT_SIZE : Z := 200.
Definition BUF_SIZE : Z := 256.
(** [strcpy] into an array of [size] bytes. *)
Definition strcpy (size : Z) (s : cstring) : SMM cstring :=
  if Z.of_nat (length s) <? size then mret s else fault.
Definition set_awaiting (i : Z) (s : sms) : sms := mkSms i (msg_cb s) (msgList s) (tweets s) (commands s).
Definition set_cb (b : bool) (s : sms) : sms := mkSms (s_awaitingSMS s) b (msgList s) (tweets s) (commands s).
Definition set_list (l : SMSMsg * SMSMsg) (s : sms) : sms := mkSms (s_awaitingSMS s) (msg_cb s) l (tweets s) (commands s).
Definition tweetRecvSMS (m : SMSMsg) : SMM () :=
  modify (λ s, mkSms (s_awaitingSMS s) (msg_cb s) (msgList s) (tweets s ++ [(txtnumber m, txtmsg m)]) (commands s)).
Definition command (text : cstring) : SMM () :=
  modify (λ s, mkSms (s_awaitingSMS s) (msg_cb s) (msgList s) (tweets s) (commands s ++ [text])).
(** [msgList[s_awaitingSMS % 2]]. *)
Definition upd_slot (f : SMSMsg → SMSMsg) : SMM () :=
  modify (λ s, let '(a, b) := msgList s in set_list (if Z.rem (s_awaitingSMS s) 2 =? 0 then (f a, b) else (a, f b)) s).

(** [strchr (p, c)], and the text behind the character. *)
Fixpoint behind (c : Z) (p : cstring) : option cstring :=
  match p with
  | [] => None
  | a :: p => if a =? c then Some p else behind c p
  end.
Fixpoint before (c : Z) (p : cstring) : option cstring :=
  match p with
  | [] => None
  | a :: p => if a =? c then Some [] else cons a <$> before c p
  end.
Definition COMMA : Z := 44.
Definition QUOTE : Z := 34.
Definition number_of (output : cstring) : option cstring :=
  p ← behind COMMA output; p ← behind COMMA p; p ← behind QUOTE p; before QUOTE p.

Definition report (m : SMSMsg) : SMM () := when (bool_decide (txtnumber m ≠ [])) (tweetRecvSMS m).
Definition ati_response_cb (output : cstring) : SMM () :=
  when (bool_decide (output = lit "OK"))
    (modify (set_awaiting (-1));; s ← get; report (msgList s).1;; report (msgList s).2);;
  s ← get;
  (* the size is that of one element *)
  when (s_awaitingSMS s =? -1) (modify (λ s, set_list (no_msg, (msgList s).2) (set_awaiting 0 s)));;
  s ← get;
  if msg_cb s then
    text ← strcpy TEXT_SIZE output;
    upd_slot (λ m, mkMsg (txtnumber m) text);;
    modify (λ s, set_awaiting (Z.rem (s_awaitingSMS s + 1) 2) (set_cb false s))
  else
    match number_of output with
    | None => mret ()
    | Some p => number ← strcpy NUMBER_SIZE p; upd_slot (λ m, mkMsg number (txtmsg m));; modify (set_cb true)
    end.

(** The search for the end of the line counts in a byte. *)
Fixpoint find_cr (fuel : nat) (chars : cstring) (len i : Z) : option (option bool) :=
  match fuel with
  | O => None
  | S fuel =>
      if len <=? i then Some (Some false) else
      match chars !! Z.to_nat i with
      | None => Some None
      | Some c => if c =? 13 then Some (Some true) else find_cr fuel chars len (uint8 (i + 1))
      end
  end.
(** The part behind the checks of the source: a line without its end is given with the
    terminator. *)
Definition ATCMD (chars : cstring) (len : Z) : SMM () :=
  match find_cr (S (length chars)) (chars ++ [nul]) len 0 with
  | None => no_fuel
  | Some None => fault
  | Some (Some found) => command (take (Z.to_nat (uint16 (if found : bool then len else len + 1))) (chars ++ [nul]))
  end.
Definition recv_sms : SMM () :=
  let buf := lit "AT+CMGL=" ++ QUOTE :: lit "ALL" ++ [QUOTE] in ATCMD buf (Z.of_nat (length buf)).
Definition handleSmsSend (pszNumber pszMsg : cstring) : SMM () :=
  szNumber ← strcpy BUF_SIZE (QUOTE :: pszNumber ++ QUOTE :: lit ",129");
  szMsg ← strcpy BUF_SIZE (pszMsg ++ [10; 10] ++ lit "Sent from my Peek" ++ [26]);
  command szNumber;; command szMsg.
