(* ===== verification/MessageRules.v ===== *)
(** * Properties of the short messages

    A listing as the radio prints it is read back: the messages of a listing of at most two
    are reported, in order; the search for the end of a command ends for up to 255
    characters and no further. *)
From S2P Require Import Prelude CStrings FieldNames Messages.

(** ** A listing *)
(** [+CMGL: 1,"REC READ",,"number",...]: what is before and behind the number. *)
Record entry := mkEntry { e_index : cstring; e_status : cstring; e_gap : cstring; e_rest : cstring; e_number : cstring; e_text : cstring }.
Definition header (e : entry) : cstring :=
  e_index e ++ COMMA :: e_status e ++ COMMA :: e_gap e ++ QUOTE :: e_number e ++ QUOTE :: e_rest e.
Record entry_ok (e : entry) : Prop := {
  eo_index : COMMA ∉ e_index e;
  eo_status : COMMA ∉ e_status e;
  eo_gap : QUOTE ∉ e_gap e;
  eo_number : QUOTE ∉ e_number e ∧ e_number e ≠ [] ∧ Z.of_nat (length (e_number e)) < NUMBER_SIZE;
  eo_text : e_text e ≠ lit "OK" ∧ Z.of_nat (length (e_text e)) < TEXT_SIZE }.
Definition listing (es : list entry) : list cstring := flat_map (λ e, [header e; e_text e]) es ++ [lit "OK"].
Definition as_msg (e : entry) : SMSMsg := mkMsg (e_number e) (e_text e).
Definition as_tweet (e : entry) : cstring * cstring := (e_number e, e_text e).

Lemma behind_app c l r : c ∉ l → behind c (l ++ c :: r) = Some r.
Proof.
  induction l as [|a l IH]; intros Hc; cbn; [by rewrite Z.eqb_refl|]. apply not_elem_of_cons in Hc as [Ha Hl].
  rewrite (proj2 (Z.eqb_neq a c)) by done. by apply IH.
Qed.
Lemma before_app c l r : c ∉ l → before c (l ++ c :: r) = Some l.
Proof.
  induction l as [|a l IH]; intros Hc; cbn; [by rewrite Z.eqb_refl|]. apply not_elem_of_cons in Hc as [Ha Hl].
  rewrite (proj2 (Z.eqb_neq a c)) by done. by rewrite IH.
Qed.
Lemma number_of_header e : entry_ok e → number_of (header e) = Some (e_number e).
Proof.
  intros [Hi Hs Hg (Hn & _) _]. unfold number_of, header. rewrite (behind_app _ _ _ Hi). cbn [mbind option_bind].
  rewrite (behind_app _ _ _ Hs). cbn [mbind option_bind]. rewrite (behind_app _ _ _ Hg). cbn [mbind option_bind].
  by apply before_app.
Qed.
Lemma header_not_ok e : header e ≠ lit "OK".
Proof.
  intros E. apply (f_equal length) in E. unfold header in E. rewrite !length_app in E. cbn in E. rewrite !length_app in E. cbn in E.
  rewrite !length_app in E. cbn in E. rewrite !length_app in E. cbn in E. lia.
Qed.
Lemma strcpy_ok size t s : Z.of_nat (length t) < size → strcpy size t s = Ok (t, s).
Proof. intros Ht. unfold strcpy. by rewrite (proj2 (Z.ltb_lt _ _)). Qed.

(** The lines of a listing, one after the other. *)
Definition lines (ls : list cstring) : M sms () := mfor ati_response_cb ls.
(** A state between two lines. *)
Definition at_slot (i : Z) (a b : SMSMsg) (tw : list (cstring * cstring)) (cs : list cstring) : sms := mkSms i false (a, b) tw cs.
Definition put (i : Z) (m : SMSMsg) (l : SMSMsg * SMSMsg) : SMSMsg * SMSMsg := if i =? 0 then (m, l.2) else (l.1, m).
Lemma header_line e i l tw cs : entry_ok e → i = 0 ∨ i = 1 →
  ati_response_cb (header e) (mkSms i false l tw cs) =
    Ok ((), mkSms i true (put i (mkMsg (e_number e) (txtmsg (if i =? 0 then l.1 else l.2))) l) tw cs).
Proof.
  intros He Hi. pose proof (number_of_header e He) as En. destruct He as [_ _ _ (_ & _ & Hn) _]. destruct l as [a b].
  unfold ati_response_cb. rewrite bool_decide_false by apply header_not_ok. rewrite En.
  destruct Hi as [-> | ->]; unfold mbind, M_bind, mret, M_ret, get, modify, upd_slot; cbn;
    by rewrite (strcpy_ok NUMBER_SIZE (e_number e)) by done.
Qed.
Lemma text_line t i l tw cs : t ≠ lit "OK" → Z.of_nat (length t) < TEXT_SIZE → i = 0 ∨ i = 1 →
  ati_response_cb t (mkSms i true l tw cs) =
    Ok ((), mkSms (1 - i) false (put i (mkMsg (txtnumber (if i =? 0 then l.1 else l.2)) t) l) tw cs).
Proof.
  intros Ht Hl Hi. destruct l as [a b]. unfold ati_response_cb. rewrite bool_decide_false by exact Ht.
  destruct Hi as [-> | ->]; unfold mbind, M_bind, mret, M_ret, get, modify, upd_slot; cbn;
    by rewrite (strcpy_ok TEXT_SIZE t) by done.
Qed.
Lemma entry_read e i l tw cs : entry_ok e → i = 0 ∨ i = 1 →
  lines [header e; e_text e] (mkSms i false l tw cs) = Ok ((), mkSms (1 - i) false (put i (as_msg e) l) tw cs).
Proof.
  intros He Hi. unfold lines. cbn [mfor]. erewrite bind_Ok by (by apply header_line). destruct He as [_ _ _ _ (Ht & Hl)].
  erewrite bind_Ok by (by apply text_line). destruct l. by destruct Hi as [-> | ->].
Qed.
Lemma ok_line i a b tw cs : i = 0 ∨ i = 1 →
  ati_response_cb (lit "OK") (mkSms i false (a, b) tw cs) =
    Ok ((), mkSms 0 false (no_msg, b)
              (tw ++ (if decide (txtnumber a = []) then [] else [(txtnumber a, txtmsg a)]) ++
               (if decide (txtnumber b = []) then [] else [(txtnumber b, txtmsg b)])) cs).
Proof.
  intros _. unfold ati_response_cb. rewrite bool_decide_true by done. cbn [when].
  unfold report, tweetRecvSMS, mbind, M_bind, mret, M_ret, get, modify. cbn.
  destruct (decide (txtnumber a = [])) as [Ea|Ea]; [rewrite (bool_decide_false (txtnumber a ≠ [])) by tauto|rewrite (bool_decide_true (txtnumber a ≠ [])) by done];
    (destruct (decide (txtnumber b = [])) as [Eb|Eb]; [rewrite (bool_decide_false (txtnumber b ≠ [])) by tauto|rewrite (bool_decide_true (txtnumber b ≠ [])) by done]);
    cbn; rewrite ?app_nil_r, <-?app_assoc; done.
Qed.
Lemma lines_app ls1 ls2 s s1 : lines ls1 s = Ok ((), s1) → lines (ls1 ++ ls2) s = lines ls2 s1.
Proof.
  revert s; induction ls1 as [|l ls1 IH]; intros s E; [by injection E as <-|]. unfold lines in *. cbn [app mfor] in E |- *.
  apply bind_Ok_inv in E as ([] & s2 & E1 & E2). erewrite bind_Ok by exact E1. by apply IH.
Qed.
Lemma first_line out f b tw cs :
  ati_response_cb out (mkSms (-1) f (no_msg, b) tw cs) = ati_response_cb out (mkSms 0 f (no_msg, b) tw cs).
Proof. unfold ati_response_cb. by destruct (decide (out = lit "OK")) as [->|Hne]; [|rewrite bool_decide_false by done]. Qed.
Lemma listing_start es i tw cs : i = -1 ∨ i = 0 →
  lines (listing es) (mkSms i false (no_msg, no_msg) tw cs) = lines (listing es) (mkSms 0 false (no_msg, no_msg) tw cs).
Proof.
  intros [-> | ->]; [|done]. unfold listing, lines. destruct es as [|e es]; cbn [flat_map app mfor]; unfold mbind, M_bind; by rewrite first_line.
Qed.
Lemma one_more e b tw cs : entry_ok e → lines (listing [e]) (mkSms 0 false (no_msg, b) tw cs) =
  Ok ((), mkSms 0 false (no_msg, b) (tw ++ as_tweet e :: (if decide (txtnumber b = []) then [] else [(txtnumber b, txtmsg b)])) cs).
Proof.
  intros He. change (listing [e]) with ([header e; e_text e] ++ [lit "OK"]).
  rewrite (lines_app _ _ _ _ (entry_read e 0 _ _ _ He (or_introl eq_refl))). unfold lines. cbn [mfor put Z.eqb snd].
  erewrite bind_Ok by (apply ok_line; by right). destruct He as [_ _ _ (_ & Hn & _) _]. cbn [as_msg txtnumber txtmsg].
  by rewrite decide_False by done.
Qed.
(** C39: a listing of at most two messages, as the radio prints it, is read back: with no
    message left from before, exactly its messages are reported, in their order.  The
    second one is not forgotten: the next listing of one message reports it again. *)
Theorem listing_is_reported es tw cs i : Forall entry_ok es → (length es ≤ 2)%nat → i = -1 ∨ i = 0 →
  ∃ b, lines (listing es) (mkSms i false (no_msg, no_msg) tw cs) = Ok ((), mkSms 0 false (no_msg, b) (tw ++ (as_tweet <$> es)) cs) ∧
    b = (if es is [_; e] then as_msg e else no_msg) ∧
    ∀ e, entry_ok e → lines (listing [e]) (mkSms 0 false (no_msg, b) tw cs) =
      Ok ((), mkSms 0 false (no_msg, b) (tw ++ as_tweet e :: (if es is [_; e2] then [as_tweet e2] else [])) cs).
Proof.
  intros He Hl Hi. rewrite (listing_start es i) by done. destruct es as [|e1 [|e2 [|e3 es]]]; [| | |cbn in Hl; lia].
  - exists no_msg. split; [cbn; by rewrite app_nil_r|]. split; [done|]. intros e He'. by rewrite one_more.
  - rewrite Forall_singleton in He. exists no_msg. split; [by rewrite one_more|]. split; [done|]. intros e He'. by rewrite one_more.
  - apply Forall_cons in He as [He1 He2]. rewrite Forall_singleton in He2. exists (as_msg e2).
    pose proof (eo_number _ He1) as (_ & Hn1 & _). pose proof (eo_number _ He2) as (_ & Hn2 & _). split_and!.
    + change (listing [e1; e2]) with ([header e1; e_text e1] ++ [header e2; e_text e2] ++ [lit "OK"]).
      rewrite (lines_app _ _ _ _ (entry_read e1 0 _ _ _ He1 (or_introl eq_refl))).
      rewrite (lines_app _ _ _ _ (entry_read e2 (1 - 0) _ _ _ He2 (or_intror eq_refl))). unfold lines. cbn [mfor put Z.eqb fst snd Z.sub].
      erewrite bind_Ok by (apply ok_line; by left). cbn [as_msg txtnumber txtmsg]. by rewrite !decide_False by done.
    + done.
    + intros e He'. rewrite one_more by done. cbn [as_msg txtnumber txtmsg]. by rewrite decide_False by done.
Qed.

(** ** Commands *)
Lemma lookup_before (chars : cstring) (i : Z) : 0 ≤ i < Z.of_nat (length chars) →
  ∃ c, (chars ++ [nul]) !! Z.to_nat i = Some c ∧ c ∈ chars ∧ drop (Z.to_nat i) chars = c :: drop (Z.to_nat (i + 1)) chars.
Proof.
  intros Hi. destruct (lookup_lt_is_Some_2 chars (Z.to_nat i)) as [c Hc]; [lia|]. exists c.
  split; [by apply lookup_app_l_Some|]. split; [by eapply list_elem_of_lookup_2|].
  rewrite (drop_S _ c) by done. do 2 f_equal. lia.
Qed.
Lemma find_cr_ends chars : ∀ fuel i, Z.of_nat (length chars) ≤ 255 → 0 ≤ i ≤ Z.of_nat (length chars) →
  (length chars - Z.to_nat i < fuel)%nat →
  find_cr fuel (chars ++ [nul]) (Z.of_nat (length chars)) i = Some (Some (bool_decide (13 ∈ drop (Z.to_nat i) chars))).
Proof.
  induction fuel as [|fuel IH]; intros i Hl Hi Hf; [lia|]. cbn [find_cr].
  destruct (Z.leb_spec (Z.of_nat (length chars)) i).
  - rewrite drop_ge by lia. by rewrite bool_decide_false by apply not_elem_of_nil.
  - destruct (lookup_before chars i ltac:(lia)) as (c & -> & _ & Ed). rewrite Ed.
    destruct (Z.eqb_spec c 13) as [->|Hc]; [by rewrite bool_decide_true by left|].
    unfold uint8. rewrite Z.mod_small by lia. rewrite IH by lia. do 2 f_equal. apply bool_decide_ext. rewrite elem_of_cons.
    naive_solver.
Qed.
Lemma find_cr_never chars len : 256 ≤ Z.of_nat (length chars) → 256 ≤ len → 13 ∉ take 256 chars →
  ∀ fuel i, 0 ≤ i < 256 → find_cr fuel (chars ++ [nul]) len i = None.
Proof.
  intros Hc Hl Hn. induction fuel as [|fuel IH]; intros i Hi; [done|]. cbn [find_cr].
  rewrite (proj2 (Z.leb_gt _ _)) by lia. destruct (lookup_before chars i ltac:(lia)) as (c & E & _ & _). rewrite E.
  rewrite (proj2 (Z.eqb_neq c 13)); [apply IH; unfold uint8; apply Z.mod_pos_bound; lia|].
  intros ->. apply Hn, list_elem_of_lookup. exists (Z.to_nat i). rewrite lookup_take_lt by lia.
  by rewrite lookup_app_l in E by lia.
Qed.
(** A command of at most 255 characters is given to the radio, with its
    terminator when it has no end of line; the search for the end never ends in a longer
    one, unless it comes within 256 characters. *)
Theorem command_is_given chars s :
  (Z.of_nat (length chars) ≤ 255 →
   ATCMD chars (Z.of_nat (length chars)) s =
     command (if bool_decide (13 ∈ chars) then chars else chars ++ [nul]) s) ∧
  (256 ≤ Z.of_nat (length chars) → 13 ∉ take 256 chars → ∀ fuel, find_cr fuel (chars ++ [nul]) (Z.of_nat (length chars)) 0 = None).
Proof.
  split.
  - intros Hl. unfold ATCMD. rewrite find_cr_ends by (cbn; lia). cbn [Z.to_nat drop]. change (drop 0 chars) with chars.
    destruct (decide (13 ∈ chars)) as [H|H]; [rewrite !bool_decide_true by done|rewrite !bool_decide_false by done];
      rewrite uint16_small by lia.
    + by rewrite Nat2Z.id, take_app_length.
    + by rewrite take_ge by (rewrite length_app; cbn; lia).
  - intros Hc Hn fuel. apply find_cr_never; [done|done|done|lia].
Qed.

(** ** Instances *)
Definition hello : entry := mkEntry (lit "+CMGL: 1") (lit "REC READ") [44] (lit ",today") (lit "+15551234") (lit "hello").
Definition bye : entry := mkEntry (lit "+CMGL: 2") (lit "REC READ") [44] [] (lit "+15559876") (lit "bye").
Lemma hello_ok : entry_ok hello.
Proof. split; try (apply (bool_decide_unpack _); vm_compute; reflexivity). Qed.
Lemma bye_ok : entry_ok bye.
Proof. split; try (apply (bool_decide_unpack _); vm_compute; reflexivity). Qed.
Lemma listing_is_reported_witness :
  ∃ s, lines (listing [hello; bye] ++ listing [hello]) (mkSms (-1) false (no_msg, no_msg) [] []) = Ok ((), s) ∧
    tweets s = [as_tweet hello; as_tweet bye; as_tweet hello; as_tweet bye].
Proof.
  destruct (listing_is_reported [hello; bye] [] [] (-1) (proj2 (Forall_cons _ _ _) (conj hello_ok (proj2 (Forall_singleton _ _) bye_ok)))
    ltac:(cbn; lia) ltac:(by left)) as (b & E & Eb & _).
  eexists. split; [rewrite (lines_app _ _ _ _ E), Eb; reflexivity|]. vm_compute. reflexivity.
Defined.
