(* ===== verification/Script.v ===== *)
(** * Script.c: what scripts can do

    The Lua engine is third-party code.  Here a piece of Lua text is what the engine makes
    of it, a [program]: it calls the functions that Script.c registers, one after the
    other, and goes on with what they return.  [chunk] is the engine: the program of a text in
    a state of the interpreter.  The functions themselves are those of Script.c, on the
    whole state; an argument of the wrong type raises an error of Lua, which is [None].
    None of them runs an event, so programs do not nest. *)
From S2P Require Import Prelude Lists Maps Arrays Pixels Lgui BitmapCache CStrings Utf8 Url Text.
From S2P Require Import RenderManager FieldNames Fields DataObjects Sync Protocol SyncSend Ui Modify Focus Styles.
From S2P Require Import Layout Placing Connection Entry Keys Drawing Mime Manager.

(** ** Values of Lua *)
(** The numbers of Lua are doubles: [number_of] is the conversion of a C integer,
    [enum_of] that to [EmoField], [text_of] and [read_number] those from and to texts. *)
Class LuaNumbers (N : Type) := {
  number_of : Z → N;
  enum_of : N → Z;
  text_of : N → cstring;
  read_number : cstring → option N }.
Inductive lua_value (N : Type) :=
  | LNil
  | LBoolean (b : bool)
  | LNumber (n : N)
  | LString (s : cstring)
  | LTable (rows : list (lua_value N * lua_value N))
  | LObject (d : oloc).
Arguments LNil {N}.
Arguments LBoolean {N} b.
Arguments LNumber {N} n.
Arguments LString {N} s.
Arguments LTable {N} rows.
Arguments LObject {N} d.

(** [script_methods]. *)
Inductive script_function :=
  | f_locate | f_netsurf | f_toScreen | f_find | f_getValue | f_getValueList | f_setValue | f_parent | f_children
  | f_sync | f_showDialog | f_finishDialog | f_this | f_data | f_new | f_append | f_remove.
Definition script_methods : list (cstring * script_function) :=
  [(lit "locate", f_locate); (lit "netsurf", f_netsurf); (lit "toScreen", f_toScreen); (lit "find", f_find);
   (lit "getValue", f_getValue); (lit "getValueList", f_getValueList); (lit "setValue", f_setValue);
   (lit "parent", f_parent); (lit "children", f_children); (lit "sync", f_sync); (lit "showDialog", f_showDialog);
   (lit "finishDialog", f_finishDialog); (lit "this", f_this); (lit "data", f_data); (lit "new", f_new);
   (lit "append", f_append); (lit "remove", f_remove)].
Inductive program (N A : Type) :=
  | Done (a : A)
  | Call (f : script_function) (args : list (lua_value N)) (k : option (list (lua_value N)) → program N A).
Arguments Done {N A} a.
Arguments Call {N A} f args k.

(** ** The stack of a call *)
Section Values.
Context {N : Type} `{LuaNumbers N}.
Definition lua_isnumber (v : lua_value N) : bool :=
  match v with LNumber _ => true | LString s => bool_decide (is_Some (read_number s)) | _ => false end.
Definition lua_isstring (v : lua_value N) : bool :=
  match v with LNumber _ | LString _ => true | _ => false end.
Definition lua_tonumber (v : lua_value N) : option N :=
  match v with LNumber n => Some n | LString s => read_number s | _ => None end.
Definition lua_tostring (v : lua_value N) : option cstring :=
  match v with LNumber n => Some (text_of n) | LString s => Some s | _ => None end.
(** The argument with the number [i], counted from 1; behind the last one is nothing. *)
Definition argument (i : nat) (args : list (lua_value N)) : lua_value N := default LNil (args !! (i - 1)%nat).
(** [lua_tolstring] replaces a number on the stack by its text. *)
Definition now_string (i : nat) (args : list (lua_value N)) : list (lua_value N) :=
  match argument i args with LNumber n => <[(i - 1)%nat := LString (text_of n)]> args | _ => args end.
(** What a function returns that leaves its stack as it is and returns 1. *)
Definition top (args : list (lua_value N)) : list (lua_value N) := [default LNil (last args)].
End Values.
(** The free places of the stack of a C function; Lua does not check them. *)
Definition LUA_MINSTACK : nat := 20.

(** ** The names of fields in scripts (protocol/emofield.lua.inc)

    The table [emo], in the order in which its constructor is written: the engine
    assigns the entries in this order. *)
Definition emo_table : list (string * Z) :=
  [("ERROR_NONE", 0); ("alignment", 1); ("alpha", 2); ("array", 3); ("arraysource", 4); ("autoscroll", 5);
   ("background_color", 6); ("bold", 7); ("border", 8); ("border_color", 9); ("border_corners", 10);
   ("bottom", 11); ("box", 12); ("box_renderer", 13); ("button", 14); ("canfocus", 15); ("center", 16);
   ("check_color", 17); ("checkbox", 18); ("checkfield", 19); ("checkvalue", 20); ("color", 21); ("cursor", 22);
   ("cursor_color", 23); ("data", 24); ("datafield", 25); ("direction", 26); ("endindex", 27); ("entry", 28);
   ("false_str", 29); ("fieldname", 30); ("fieldvalue", 31); ("fill", 32); ("filterfield", 33);
   ("filtervalue", 34); ("fixed", 35); ("focusindex", 36); ("focusstack", 37); ("font", 38);
   ("font_alignment", 39); ("font_color", 40); ("frame", 41); ("gradbox", 42); ("gradient", 43); ("hasfocus", 44);
   ("height", 45); ("hgrid", 46); ("horizontal", 47); ("id", 48); ("image", 49); ("imgheight", 50);
   ("imgwidth", 51); ("imgx", 52); ("imgy", 53); ("label", 54); ("left", 55); ("margin", 56); ("marginbottom", 57);
   ("marginleft", 58); ("marginright", 59); ("margintop", 60); ("multiline", 61); ("name", 62); ("none", 63);
   ("orientation", 64); ("packing", 65); ("pixelformat", 66); ("position", 67); ("prepend", 68); ("radius", 69);
   ("reference", 70); ("renderer", 71); ("right", 72); ("rounded", 73); ("scrollbar", 74); ("scrolled", 75);
   ("set", 76); ("solid", 77); ("stack", 78); ("startcount", 79); ("startindex", 80); ("stencil", 81);
   ("text", 82); ("thumb_color", 83); ("top", 84); ("track_color", 85); ("transparency", 86); ("type", 87);
   ("vertical", 88); ("vgrid", 89); ("view", 90); ("weight", 91); ("width", 92); ("x", 93); ("xoffset", 94);
   ("y", 95); ("yoffset", 96); ("iconified", 97); ("style", 98); ("startupview", 99); ("fullscreen", 100);
   ("url", 101); ("index", 102); ("mime_type", 103); ("font_color", 104); ("background_color", 105);
   ("description", 106); ("onload", 107); ("accesskey", 108); ("onreturn", 109); ("title", 110);
   ("box_renderer", 111); ("border_corners", 112); ("border_colors", 113); ("cursor_color", 114);
   ("check_color", 115); ("thumb_color", 116); ("track_color", 117); ("icon", 118); ("setitem", 119);
   ("font_alignment", 120); ("onsyncfinished", 121)].
Definition lua_constant (name : string) : option Z := snd <$> last (filter (λ p, p.1 = name) emo_table).

Section Script.
Context {St : Type} `{MapStore St Bitmap} `{Fonts} {N : Type} `{LuaNumbers N} {lua_State : Type}.
(** The parameters of the manager, and the engine: a state of the interpreter, the one
    after the libraries, [script_register] and the text [emoinit], and the program of a
    text. *)
Variable layout_junk : Z.
Variable encodes : FRIPacketP → bool.
Variable endpoint_text : cstring.
Variable online : bool.
Variable new_state : lua_State.
Variable chunk : lua_State → cstring → program N lua_State.
Abbreviation manager := (manager (St := St)).
Abbreviation MM := (M manager).
Abbreviation value := (lua_value N).

(** ** State *)
(** [sp_states]: the open states of the interpreter, by their addresses. *)
Record scripts := mkScripts {
  sp_manager : manager;
  contextObject : option oloc;
  sp_states : gmap Z lua_State }.
Abbreviation PM := (M scripts).
Definition mg {B} (m : MM B) : PM B := λ s,
  match m (sp_manager s) with
  | Ok (b, m) => Ok (b, mkScripts m (contextObject s) (sp_states s))
  | Abort => Abort | Fault => Fault | NoFuel => NoFuel
  end.
Definition set_context (d : oloc) : PM () := modify (λ s, mkScripts (sp_manager s) (Some d) (sp_states s)).
Definition set_states (l : gmap Z lua_State) : PM () := modify (λ s, mkScripts (sp_manager s) (contextObject s) l).

(** The functions: a state monad with the errors of Lua. *)
Definition LM (B : Type) : Type := scripts → outcome (option B * scripts).
#[export] Instance LM_ret : MRet LM := λ B b s, Ok (Some b, s).
#[export] Instance LM_bind : MBind LM := λ B C f m s,
  match m s with
  | Ok (Some b, s) => f b s
  | Ok (None, s) => Ok (None, s)
  | Abort => Abort | Fault => Fault | NoFuel => NoFuel
  end.
#[local] Typeclasses Opaque LM.
Definition lua_error {B} : LM B := λ s, Ok (None, s).
Definition go {B} (m : PM B) : LM B := λ s,
  match m s with Ok (b, s) => Ok (Some b, s) | Abort => Abort | Fault => Fault | NoFuel => NoFuel end.
Definition world_ {B} (m : DM B) : LM B := go (mg (ui_ (in_world m))).
Definition fields_ {B} (m : FM B) : LM B := world_ (on_fields m).
Definition checked {B} (v : option B) : LM B := match v with Some b => mret b | None => lua_error end.

(** ** Objects as values *)
Definition checkDataObject (v : value) : LM oloc := match v with LObject d => mret d | _ => lua_error end.
Definition pushDataObject (d : option oloc) : LM value := d ← go (emo_nonnull d); mret (LObject d).
Definition luaL_checknumber (v : value) : LM N := checked (lua_tonumber v).
Definition luaL_checkstring (v : value) : LM cstring := checked (lua_tostring v).
Definition push_object (d : option oloc) : LM (list value) :=
  match d with None => mret [LNil] | Some d => v ← pushDataObject (Some d); mret [v] end.

(** ** Fields *)
(** What the second argument names: a field by its number, by its name, or the data. *)
Definition field_key (v : value) : LM (Z + cstring) :=
  if lua_isnumber v then n ← luaL_checknumber v; mret (inl (enum_of n))
  else if lua_isstring v then s ← luaL_checkstring v; mret (inr s)
  else mret (inl (enum_value EMO_FIELD_DATA)).
Definition field_at (d : oloc) (key : Z + cstring) : LM (option floc) :=
  match key with
  | inl e => world_ (dataobject_getEnum (Some d) e)
  | inr name => world_ (dataobject_getValueReal (Some d) (Some name))
  end.
Definition __dataobject_getValue (args : list value) : LM (list value) :=
  dobj ← checkDataObject (argument 1 args);
  key ← field_key (argument 2 args);
  field ← field_at dobj key;
  field ← (match field with
           | Some f => mret (Some f)
           | None => own ← world_ (widget_getDataObject (Some dobj)); field_at own key
           end);
  match field with
  | None => mret [LNil]
  | Some f =>
      c ← fields_ (get_field f);
      match f_value c with
      | DOF_STRING p => s ← go (deref (str_content p)); mret [LString s]
      | DOF_INT i => mret [LNumber (number_of i)]
      | DOF_UINT u => mret [LNumber (number_of u)]
      | DOF_DATA _ _ => mret [LNil]
      end
  end.
(** The name of a field that is taken from another object is written behind an
    underscore, in an array of 128 bytes. *)
Definition row_key (key : cstring) (flags : Z) : LM cstring :=
  if has_flag DOFF_ARRAYSOURCE flags
  then (if Z.of_nat (length key) + 2 <=? 128 then mret (95 :: key) else go fault)
  else mret key.
Definition value_row (kf : cstring * floc) : LM (value * value) :=
  c ← fields_ (get_field kf.2);
  key ← row_key kf.1 (f_flags c);
  v ← (match f_value c with
       | DOF_INT i => mret (LNumber (number_of i))
       | DOF_UINT u => mret (LNumber (number_of u))
       | _ => p ← go (deref (field_string c)); s ← go (deref (str_content p)); mret (LString s)
       end);
  mret (LString key, v).
Fixpoint value_rows (l : list (cstring * floc)) : LM (list (value * value)) :=
  match l with [] => mret [] | kf :: l => row ← value_row kf; rows ← value_rows l; mret (row :: rows) end.
(** The table is filled and taken from the stack: what is returned is the last argument. *)
Definition __dataobject_getValueList (args : list value) : LM (list value) :=
  dobj ← checkDataObject (argument 1 args);
  o ← world_ (get_obj dobj);
  _ ← value_rows (o_data o);
  mret (top args).

(** The value is the third argument when that is a text or a number, otherwise the
    second; numbers are taken as texts. *)
Definition set_key (args : list value) : LM (Z + cstring) :=
  if lua_isnumber (argument 2 args) then n ← luaL_checknumber (argument 2 args); mret (inl (enum_of n))
  else s ← luaL_checkstring (argument 2 args); mret (inr s).
Definition set_field_at (d : oloc) (key : Z + cstring) (v : floc) : LM () :=
  match key with
  | inl e => world_ (dataobject_setEnum (Some d) e (Some v))
  | inr name => world_ (dataobject_setValue (Some d) (Some name) (Some v))
  end.
Definition new_value (v : value) : LM floc :=
  if lua_isstring v then s ← luaL_checkstring v; fields_ (dataobjectfield_string (Some (SHeap s)))
  else n ← luaL_checknumber v; fields_ (dataobjectfield_int (int32 (enum_of n))).
Definition store (dobj : oloc) (key : Z + cstring) (v : value) : LM () :=
  dstr ← new_value v;
  set_field_at dobj key dstr;;
  (if decide (key = inl (enum_value EMO_FIELD_REFERENCE))
   then go (mg (dataobject_resolveReferences encodes endpoint_text online (Some dobj))) else mret ());;
  fields_ (dataobjectfield_setIsModified (Some dstr) true);;
  go (mg (ui_ (dataobject_setIsModified (Some dobj) true))).
Definition __dataobject_setValue (args : list value) : LM (list value) :=
  dobj ← checkDataObject (argument 1 args);
  if lua_isstring (argument 3 args) then
    key ← set_key args;
    store dobj key (argument 3 args);; mret (top (now_string 3 args))
  else
    store dobj (inl (enum_value EMO_FIELD_DATA)) (argument 2 args);; mret (top (now_string 2 args)).

(** ** Finding objects *)
Definition context : LM (option oloc) := go (gets contextObject).
Definition context_root : LM oloc := c ← context; world_ (dataobject_superparent c).
Definition connection_ {B} (m : CM B) : LM B := go (mg (in_conn m)).
Definition __dataobject_locate (args : list value) : LM (list value) :=
  durl ← luaL_checkstring (argument 1 args);
  purl ← connection_ (parse_url (Some durl));
  match purl with
  | None => mret [LNil]
  | Some _ =>
      dobj ← connection_ (dataobject_locate purl);
      dobj ← (match dobj with
              | Some d => mret (Some d)
              | None => _ ← connection_ (connectionContext_syncRequest encodes endpoint_text online purl);
                        connection_ (dataobject_locate purl)
              end);
      push_object dobj
  end.
Definition __dataobject_find (args : list value) : LM (list value) :=
  root ← context_root;
  str ← luaL_checkstring (argument 1 args);
  dobj ← go (mg (find_in_tree root str));
  push_object dobj.
Definition __dataobject_parent (args : list value) : LM (list value) :=
  dobj ← checkDataObject (argument 1 args);
  parent ← world_ (dataobject_parent (Some dobj));
  v ← pushDataObject parent; mret [v].
(** Each child and its number, which stays 1, are left on the stack; the last push is the
    metatable of the child. *)
Fixpoint push_children (used : nat) (cs : list oloc) (stack : value) : LM value :=
  match cs with
  | [] => mret stack
  | c :: cs =>
      if (used + 3 <=? LUA_MINSTACK)%nat
      then v ← pushDataObject (Some c); push_children (used + 2) cs v
      else go fault
  end.
Definition __dataobject_children (args : list value) : LM (list value) :=
  dobj ← checkDataObject (argument 1 args);
  cs ← world_ (dataobject_childIterator (Some dobj));
  v ← push_children 1 cs (LTable []);
  mret [v].

(** ** The application *)
Definition root_application : LM (option aloc) :=
  root ← context_root; go (mg (ui_ (manager_applicationForDataObject (Some root)))).
Definition __dataobject_sync (args : list value) : LM (list value) :=
  app ← root_application;
  match app with
  | None => mret [LNil]
  | Some a =>
      purl ← go (mg (ui_ (application_getURL (Some a))));
      dobj ← checkDataObject (argument 1 args);
      _ ← connection_ (connectionContext_syncRequestForce encodes endpoint_text online purl (Some dobj));
      mret (top args)
  end.
Definition __toScreen (args : list value) : LM (list value) :=
  dobj ← checkDataObject (argument 1 args);
  app ← go (mg (ui_ manager_getFocusedApplication));
  match app with
  | None => mret []
  | Some a => go (mg (application_setCurrentScreen layout_junk encodes endpoint_text online (Some a) (Some dobj)));; mret []
  end.
Definition __showDialog (args : list value) : LM (list value) :=
  dialogName ← luaL_checkstring (argument 1 args);
  root ← context_root;
  app ← go (mg (ui_ (manager_applicationForDataObject (Some root))));
  match app with
  | None => mret [LNil]
  | Some a =>
      dobj ← go (mg (find_in_tree root dialogName));
      match dobj with
      | None => mret [LNil]
      | Some _ => go (mg (application_showDialog layout_junk encodes endpoint_text online (Some a) (Some dialogName)));; mret []
      end
  end.
Definition __finishDialog (args : list value) : LM (list value) :=
  app ← root_application;
  match app with
  | None => mret [LNil]
  | Some a => go (mg (application_finishDialog layout_junk encodes endpoint_text online (Some a)));; mret []
  end.

(** ** Objects *)
Definition __dataobject_this (args : list value) : LM (list value) := c ← context; v ← pushDataObject c; mret [v].
Definition __dataobject_data (args : list value) : LM (list value) :=
  dobj ← checkDataObject (argument 1 args);
  own ← world_ (widget_getDataObject (Some dobj));
  v ← pushDataObject (Some own); mret [v].
Definition __dataobject_new (args : list value) : LM (list value) :=
  d ← world_ dataobject_new; v ← pushDataObject (Some d); mret [v].
Definition mark_modified (d : oloc) : LM () := go (mg (ui_ (dataobject_setIsModified (Some d) true))).
Definition __dataobject_append (args : list value) : LM (list value) :=
  dobj ← checkDataObject (argument 1 args);
  nobj ← checkDataObject (argument 2 args);
  world_ (widget_pack (Some nobj) (Some dobj));;
  mark_modified dobj;; mark_modified nobj;; mret [].

(** The list behind [dataobject_childIterator]: that of the object or that of the array
    which is its first child. *)
Definition iterated (d : oloc) : DM (oloc * bool) :=
  o ← get_obj d;
  match o_children o with
  | [] => mret (d, false)
  | item :: _ =>
      ty ← dataobject_getEnum (Some item) (enum_value EMO_FIELD_TYPE);
      array ← on_fields (EMO_DOF_IS_TYPE ty EMO_TYPE_ARRAY);
      mret (if array : bool then (item, true) else (d, false))
  end.
Definition members (l : oloc * bool) : DM (list oloc) :=
  o ← get_obj l.1; mret (if l.2 : bool then o_arrayChildren o else o_children o).
Definition drop_member (l : oloc * bool) (i : nat) : DM () :=
  upd_obj l.1 (λ o, if l.2 : bool then with_arrayChildren (delete i (o_arrayChildren o)) o
                    else with_children (delete i (o_children o)) o).
(** After a removal the iterator stands on the member before, so the walk goes on behind
    the removed one; it ends when that was the first. *)
Fixpoint remove_loop (fuel : nat) (l : oloc * bool) (nobj : oloc) (i : nat) : LM () :=
  match fuel with
  | O => go no_fuel
  | S fuel =>
      cs ← world_ (members l);
      match cs !! i with
      | None => mret ()
      | Some c =>
          if decide (c = nobj) then
            world_ (drop_member l i);;
            go (mg (ui_ (dataobject_delete (Some nobj))));;
            match i with O => mret () | S _ => remove_loop fuel l nobj i end
          else remove_loop fuel l nobj (S i)
      end
  end.
Definition __dataobject_remove (args : list value) : LM (list value) :=
  dobj ← checkDataObject (argument 1 args);
  nobj ← checkDataObject (argument 2 args);
  l ← world_ (iterated dobj);
  cs ← world_ (members l);
  remove_loop (S (length cs)) l nobj 0;;
  mark_modified dobj;; mret [].
(** [netsurfStart] (peek/KeyHandler.c): the browser takes the keys and the screen. *)
Definition netsurfStart : MM () := modify (λ m,
  mkManager (mg_conn m) (mg_text m) (mg_rootApplication m) (mg_bootApp m) (mg_placeHolder m) (mg_dialogHolder m)
    (mg_topBar m) (mg_sent_rects m) true (mg_netsurf_queue m)).
Definition __dataobject_netsurf (args : list value) : LM (list value) := go (mg netsurfStart);; mret [].

(** ** Programs *)
Definition method (f : script_function) : list value → LM (list value) :=
  match f with
  | f_locate => __dataobject_locate | f_netsurf => __dataobject_netsurf | f_toScreen => __toScreen
  | f_find => __dataobject_find | f_getValue => __dataobject_getValue | f_getValueList => __dataobject_getValueList
  | f_setValue => __dataobject_setValue | f_parent => __dataobject_parent | f_children => __dataobject_children
  | f_sync => __dataobject_sync | f_showDialog => __showDialog | f_finishDialog => __finishDialog
  | f_this => __dataobject_this | f_data => __dataobject_data | f_new => __dataobject_new
  | f_append => __dataobject_append | f_remove => __dataobject_remove
  end.
Definition perform (f : script_function) (args : list value) : PM (option (list value)) := method f args.
Fixpoint run {A} (p : program N A) : PM A :=
  match p with
  | Done a => mret a
  | Call f args k => r ← perform f args; run (k r)
  end.
Definition dostring (L : Z) (text : cstring) : PM () :=
  s ← get; st ← deref (sp_states s !! L);
  st ← run (chunk st text);
  s ← get; set_states (<[L := st]> (sp_states s)).

(** ** Events *)
Definition lua_open : PM Z :=
  s ← get; let L := fresh (dom (sp_states s)) in
  set_states (<[L := new_state]> (sp_states s));; mret L.
Definition lua_close (L : Z) : PM () := s ← get; set_states (delete L (sp_states s)).
Definition find_script (cs : list oloc) : DM (option oloc) :=
  mfind (λ c, ty ← dataobject_getEnum (Some c) (enum_value EMO_FIELD_TYPE);
              script ← on_fields (EMO_DOF_IS_TYPE ty EMO_TYPE_SCRIPT);
              mret (if script : bool then Some c else None)) cs.
(** The text of a script: a string, or data with its size. *)
Definition script_text (sobj : oloc) : UM (option cstring) :=
  script ← getField sobj EMO_FIELD_DATA;
  match script with
  | None => mret None
  | Some f =>
      c ← in_fields (get_field f);
      match f_value c with
      | DOF_STRING p => s ← deref (str_content p); mret (Some s)
      | DOF_DATA bytes size =>
          if bool_decide (0 ≤ size ≤ Z.of_nat (length bytes)) then mret (Some (take (Z.to_nat size) bytes)) else fault
      | _ => mret None
      end
  end.
(** The state of the interpreter, and whether it is for this event only. *)
Definition script_getContext (dobj : option oloc) : PM (option Z * bool) :=
  dobj ← emo_nonnull dobj;
  output ← mg (ui_ (in_world (dataobject_findScriptContext (Some dobj))));
  match output with
  | Some L => mret (Some L, false)
  | None =>
      robj ← mg (ui_ (in_world (dataobject_superparent (Some dobj))));
      cs ← mg (ui_ (in_world (dataobject_childIterator (Some robj))));
      sobj ← mg (ui_ (in_world (find_script cs)));
      L ← lua_open;
      match sobj with
      | None => mret (Some L, true)
      | Some sobj =>
          text ← mg (ui_ (script_text sobj));
          match text with
          | None => mret (None, false)
          | Some text =>
              dostring L text;;
              mg (ui_ (in_world (dataobject_setScriptContext (Some robj) (Some L))));;
              mret (Some L, false)
          end
      end
  end.
(** The text of the handler is read when the script has run; the state is used without
    a test. *)
Definition script_event (context : option oloc) (eventname : EmoField) : PM Z :=
  context ← emo_nonnull context;
  field ← mg (ui_ (getField context eventname));
  match field with
  | None => mret 0
  | Some f =>
      c ← mg (ui_ (in_fields (get_field f)));
      match f_value c with
      | DOF_STRING _ =>
          set_context context;;
          '(L, isTemporary) ← script_getContext (Some context);
          L ← deref L;
          c ← mg (ui_ (in_fields (get_field f)));
          p ← deref (field_string c); text ← deref (str_content p);
          dostring L text;;
          when isTemporary (lua_close L);;
          mret 1
      | _ => mret 0
      end
  end.
End Script.
Arguments scripts {St} lua_State.
Arguments LM {St} lua_State B.
