(* ===== verification/ScriptRules.v ===== *)
(** * Properties of scripts

    Whatever a script does, it neither draws nor sends anything before the connection is
    authorized; a value that a script sets is what it gets afterwards; the numbers of the
    fields in scripts and in the C code are compared. *)
From S2P Require Import Prelude Lists Maps Arrays Pixels Lgui BitmapCache CStrings Utf8 Url Text.
From S2P Require Import RenderManager FieldNames Fields DataObjects ObjectTrees ObjectFields Sync Protocol SyncSend Ui Modify Focus.
From S2P Require Import FocusTrees EntryRules Styles.
From Stdlib Require Import Ascii.
From S2P Require Import Layout Placing Frames Connection ConnectionRules Entry Keys Drawing Mime Manager Screen ScreenRules Script.

(** ** The names of fields *)
(** The fields whose name stands for another number in scripts. *)
Definition misnamed : list EmoField :=
  [EMO_FIELD_BACKGROUND_COLOR; EMO_FIELD_BORDER_CORNERS; EMO_FIELD_BOX_RENDERER; EMO_FIELD_CHECK_COLOR;
   EMO_FIELD_CURSOR_COLOR; EMO_FIELD_FONT_ALIGNMENT; EMO_FIELD_FONT_COLOR; EMO_FIELD_THUMB_COLOR; EMO_FIELD_TRACK_COLOR;
   EMO_FIELD_DESCRIPTION; EMO_FIELD_ONLOAD; EMO_FIELD_ACCESSKEY; EMO_FIELD_ONRETURN; EMO_FIELD_ICON; EMO_FIELD_SETITEM;
   EMO_FIELD_ONSYNCFINISHED].
(** The name of a field in scripts, where a name is no operator and no reserved word. *)
Fixpoint underscores (s : string) : string :=
  match s with
  | EmptyString => EmptyString
  | String c s => String (if Ascii.eqb c "-"%char then "_"%char else c) (underscores s)
  end.
Definition lua_name (f : EmoField) : string :=
  match f with EMO_FIELD_FALSE => "false_str" | _ => underscores (field_str f) end.
Definition constant_ok (f : EmoField) : bool := bool_decide (lua_constant (lua_name f) = Some (enum_value f)).
Definition constant_wrong (f : EmoField) : bool :=
  match lua_constant (lua_name f) with Some v => bool_decide (v ≠ enum_value f ∧ 104 ≤ v) | None => false end.
Definition constant_check (f : EmoField) : bool :=
  (if bool_decide (f ∈ misnamed) then constant_wrong f else constant_ok f) &&
  bool_decide (lua_constant (lua_name f) = Some (enum_value EMO_FIELD_ONLOAD) → f = EMO_FIELD_BACKGROUND_COLOR) &&
  bool_decide (lua_constant (lua_name f) = Some (enum_value EMO_FIELD_ONRETURN) → f = EMO_FIELD_ONLOAD).
Lemma constants_checked f : named f → constant_check f = true.
Proof.
  intros Hf. pose proof (table_index f Hf) as E. apply list_elem_of_lookup_2 in E.
  assert (forallb (λ p, constant_check p.1) (tail EmoFieldMap) = true) as Hall by (vm_compute; reflexivity).
  rewrite forallb_forall in Hall. destruct Hf as [H1 _].
  apply (Hall (f, lit (field_str f))), list_elem_of_In.
  change EmoFieldMap with (hd (f, []) EmoFieldMap :: tail EmoFieldMap) in E. apply elem_of_cons in E as [E|E]; [|done].
  exfalso. apply H1. by apply (f_equal fst) in E.
Qed.
(** C40: in scripts [emo.<name>] is the number of the field of that name, but for sixteen
    names: these stand for the number of another field or of none.  The handler that a
    script stores under [emo.onload] is run when the key for return is pressed, and one
    stored under [emo.onreturn] never. *)
Theorem script_constants f : named f →
  (f ∉ misnamed → lua_constant (lua_name f) = Some (enum_value f)) ∧
  (f ∈ misnamed → ∃ v, lua_constant (lua_name f) = Some v ∧ v ≠ enum_value f ∧ 104 ≤ v) ∧
  lua_constant "onload" = Some (enum_value EMO_FIELD_ONRETURN) ∧
  (lua_constant (lua_name f) = Some (enum_value EMO_FIELD_ONLOAD) → f = EMO_FIELD_BACKGROUND_COLOR) ∧
  (lua_constant (lua_name f) = Some (enum_value EMO_FIELD_ONRETURN) → f = EMO_FIELD_ONLOAD).
Proof.
  intros Hf. pose proof (constants_checked f Hf) as E. unfold constant_check in E. apply andb_true_iff in E as [E E2].
  apply andb_true_iff in E as [E E1]. split_and!.
  - intros Hm. rewrite bool_decide_false in E by done. by apply bool_decide_eq_true in E.
  - intros Hm. rewrite bool_decide_true in E by done. unfold constant_wrong in E. case_match; [|done].
    apply bool_decide_eq_true in E as []. by eexists.
  - vm_compute. reflexivity.
  - by apply bool_decide_eq_true in E1.
  - by apply bool_decide_eq_true in E2.
Qed.
Lemma script_constants_witness :
  lua_constant "font_color" = Some 104 ∧ lua_constant "width" = Some (enum_value EMO_FIELD_WIDTH).
Proof.
  split.
  - vm_compute. reflexivity.
  - apply (proj1 (script_constants EMO_FIELD_WIDTH ltac:(done))). intros H.
    repeat (apply elem_of_cons in H as [H|H]; [done|]). by apply elem_of_nil in H.
Defined.

(** ** What scripts leave alone *)
(** A connection that is not authorized sends nothing and does not become authorized. *)
Definition polite : relation connection := λ c c',
  (c_needAuth c', c_hasAuth c') = (c_needAuth c, c_hasAuth c) ∧ (authorized_now c = false → c_sent c' = c_sent c).
#[export] Instance polite_preorder : PreOrder polite.
Proof.
  split; unfold polite; [done|]. intros c1 c2 c3 [E1 H1] [E2 H2]. split; [congruence|]. intros A.
  rewrite H2, H1; [done|done|]. revert A. unfold authorized_now. injection E1 as -> ->. done.
Qed.
Lemma silent_polite {B} (m : M connection B) : respects silent m → respects polite m.
Proof. intros Hm c b c' E. pose proof (Hm _ _ _ E) as [= E1 E2 E3]. split; [congruence|done]. Qed.
Lemma polite_other c u g q l : polite c (mkConn u g (c_requests c) (c_inprogress c) (c_sent c) (c_needAuth c) (c_hasAuth c)
  (c_buffer c) q l).
Proof. done. Qed.

Section Frame.
Context {St : Type} `{MapStore St Bitmap} `{Fonts}.
Context (layout_junk : Z) (encodes : FRIPacketP → bool) (endpoint_text : cstring) (online : bool).
Abbreviation manager := (manager (St := St)).
Abbreviation MM := (M manager).
#[local] Hint Resolve polite_other in_ui_respects parse_url_respects locate_respects next_sequenceID_respects
  syncRequest_new_respects : respects.
Lemma polite_requests l : respects polite (set_requests l).
Proof. by intros c b c' [= <- <-]. Qed.
#[local] Hint Resolve polite_requests : respects.
Lemma polite_loop : respects polite (connectionContext_loopIteration encodes).
Proof.
  intros c i c' E. pose proof (loopIteration_auth encodes _ _ _ E) as Ea. split; [exact Ea|]. intros A.
  unfold connectionContext_loopIteration in E. erewrite bind_Ok in E by reflexivity. rewrite A in E. by injection E as <- <-.
Qed.
#[local] Hint Resolve polite_loop : respects.
Lemma polite_syncRequestForce url d : respects polite (connectionContext_syncRequestForce encodes endpoint_text online url d).
Proof. unfold connectionContext_syncRequestForce, add_request. respects. Qed.

(** The picture, what was sent to the display, and the connection. *)
Definition behind : relation manager := λ m m', same_picture m m' ∧ polite (mg_conn m) (mg_conn m').
#[export] Instance behind_preorder : PreOrder behind.
Proof. split; [by split|]. intros m1 m2 m3 [] []. split; by etrans. Qed.
Abbreviation stays := (respects behind).
Lemma stays_in_conn {B} (m : CM B) : respects polite m → stays (in_conn m).
Proof.
  intros Hm s b s' E. unfold in_conn in E. destruct (m _) as [[b' c]| | |] eqn:E1; [|done..].
  injection E as <- <-. split; [done|]. by eapply Hm.
Qed.
Lemma stays_ui {B} (m : UM B) : stays (ui_ m).
Proof. apply stays_in_conn. by apply in_ui_respects, polite_other. Qed.
Lemma stays_parse s : stays (in_conn (parse_url s)).
Proof. apply stays_in_conn. respects. Qed.
Lemma stays_locate url : stays (in_conn (dataobject_locate url)).
Proof. apply stays_in_conn. respects. Qed.
Lemma stays_sync url d : stays (in_conn (connectionContext_syncRequestForce encodes endpoint_text online url d)).
Proof. apply stays_in_conn, polite_syncRequestForce. Qed.
#[local] Hint Resolve stays_ui stays_parse stays_locate stays_sync : respects.
Lemma stays_find_in_tree d name : stays (find_in_tree d name).
Proof. unfold find_in_tree. respects. Qed.
#[local] Hint Resolve stays_find_in_tree : respects.
Lemma stays_resolve_text d s : stays (resolve_text encodes endpoint_text online d s).
Proof. unfold resolve_text, connectionContext_syncRequest. respects. Qed.
#[local] Hint Resolve stays_resolve_text : respects.
Lemma stays_resolveReferences_loop fuel d : stays (resolveReferences_loop encodes endpoint_text online fuel d).
Proof. revert d. induction fuel as [|fuel IH]; intros; cbn [resolveReferences_loop]; unfold resolve_own; respects. Qed.
#[local] Hint Resolve stays_resolveReferences_loop : respects.
Lemma stays_resolveReferences d : stays (dataobject_resolveReferences encodes endpoint_text online d).
Proof. unfold dataobject_resolveReferences. respects. Qed.
#[local] Hint Resolve stays_resolveReferences : respects.
Lemma stays_focusApplication a : stays (manager_focusApplication layout_junk encodes endpoint_text online a).
Proof. unfold manager_focusApplication, set_top_bar. respects. Qed.
#[local] Hint Resolve stays_focusApplication : respects.
Lemma stays_setCurrentScreen a d : stays (application_setCurrentScreen layout_junk encodes endpoint_text online a d).
Proof. unfold application_setCurrentScreen. respects. Qed.
Lemma stays_showDialog a name : stays (application_showDialog layout_junk encodes endpoint_text online a name).
Proof. unfold application_showDialog, manager_showDialog, set_stack, relayout_all, redraw_all. respects. Qed.
Lemma stays_finishDialog a : stays (application_finishDialog layout_junk encodes endpoint_text online a).
Proof. unfold application_finishDialog, manager_finishDialog, set_stack, relayout_all, redraw_all. respects. Qed.
Lemma stays_netsurf : stays netsurfStart.
Proof. by intros m b m' [= <- <-]. Qed.
#[local] Hint Resolve stays_setCurrentScreen stays_showDialog stays_finishDialog stays_netsurf : respects.

(** ** Programs *)
Context {N : Type} `{LuaNumbers N} {lua_State : Type}.
Abbreviation scripts := (scripts (St := St) lua_State).
Abbreviation PM := (M scripts).
Definition inside : relation scripts := λ s s',
  behind (sp_manager s) (sp_manager s') ∧ contextObject s' = contextObject s ∧ sp_states s' = sp_states s.
#[export] Instance inside_preorder : PreOrder inside.
Proof. split; [by split|]. intros s1 s2 s3 (B1 & E1 & E2) (B2 & E3 & E4). split; [by etrans|split; congruence]. Qed.
#[local] Typeclasses Opaque LM.
Definition within {B} (m : LM (St := St) lua_State B) : Prop := respects (A := option B) inside m.
Lemma inside_mg {B} (m : MM B) : stays m → respects inside (mg (lua_State := lua_State) m).
Proof.
  intros Hm s b s' E. unfold mg in E. destruct (m _) as [[b' c]| | |] eqn:E1; [|done..].
  injection E as <- <-. split; [by eapply Hm|done].
Qed.
Lemma within_go {B} (m : PM B) : respects inside m → within (go m).
Proof.
  intros Hm s b s' E. unfold go in E. destruct (m _) as [[b' c]| | |] eqn:E1; [|done..].
  injection E as <- <-. by eapply Hm.
Qed.
Lemma within_ret {B} (b : B) : within (mret b).
Proof. by intros s r s' [= <- <-]. Qed.
Lemma within_bind {B C} (m : LM lua_State B) (f : B → LM lua_State C) : within m → (∀ b, within (f b)) → within (m ≫= f).
Proof.
  intros Hm Hf s r s' E. unfold mbind, LM_bind in E. destruct (m s) as [[[b|] s1]| | |] eqn:E1; [| |done..].
  - etrans; [by eapply Hm|by eapply Hf].
  - injection E as <- <-. by eapply Hm.
Qed.
Lemma within_checked {B} (v : option B) : within (checked v).
Proof. destruct v; [apply within_ret|by intros s r s' [= <- <-]]. Qed.
Lemma within_world {B} (m : DM B) : within (world_ m).
Proof. apply within_go, inside_mg, stays_ui. Qed.
Lemma within_fault {B} : within (go (fault (A := B))).
Proof. apply within_go. respects. Qed.
#[local] Hint Resolve inside_mg : respects.
Ltac within_step :=
  first [ progress intros
        | apply within_ret | apply within_checked | apply within_world | apply within_fault
        | apply within_bind | apply within_go; solve [respects] | solve [eauto 1 with within nocore] | case_match ].
Ltac within := repeat within_step.
Create HintDb within discriminated.
Lemma within_checkDataObject (v : lua_value N) : within (checkDataObject v).
Proof. destruct v; [..|apply within_ret]; by intros s1 r s' [= <- <-]. Qed.
Lemma within_push d : within (pushDataObject (N := N) d).
Proof. unfold pushDataObject. within. Qed.
#[local] Hint Resolve within_checkDataObject within_push : within.
Lemma within_value_rows l : within (value_rows (N := N) l).
Proof. induction l; cbn [value_rows]; unfold value_row, row_key, fields_; within. Qed.
Lemma within_push_children used cs (stack : lua_value N) : within (push_children used cs stack).
Proof. revert used stack; induction cs; intros; cbn [push_children]; within. Qed.
Lemma within_remove_loop fuel l nobj i : within (remove_loop fuel l nobj i).
Proof. revert i; induction fuel; intros; cbn [remove_loop]; within. Qed.
#[local] Hint Resolve within_value_rows within_push_children within_remove_loop : within.
Lemma within_method f (args : list (lua_value N)) : within (method layout_junk encodes endpoint_text online f args).
Proof.
  destruct f; cbn [method]; unfold __dataobject_locate, __dataobject_netsurf, __toScreen, __dataobject_find,
    __dataobject_getValue, __dataobject_getValueList, __dataobject_setValue, __dataobject_parent, __dataobject_children,
    __dataobject_sync, __showDialog, __finishDialog, __dataobject_this, __dataobject_data, __dataobject_new,
    __dataobject_append, __dataobject_remove, push_object, field_key, field_at, store, set_key, set_field_at, new_value,
    root_application, context_root, context, connection_, fields_, mark_modified, luaL_checkstring, luaL_checknumber,
    connectionContext_syncRequest; within.
Qed.
Lemma inside_perform f (args : list (lua_value N)) : respects inside (perform layout_junk encodes endpoint_text online f args).
Proof. apply within_method. Qed.
#[local] Hint Resolve inside_perform : respects.
Abbreviation run := (run layout_junk encodes endpoint_text online).
Lemma inside_run {A} (p : program N A) : respects inside (run p).
Proof. induction p as [a|f args k IH]; cbn [Script.run]; respects. Qed.

(** ** Events *)
Context (new_state : lua_State) (chunk : lua_State → cstring → program N lua_State).
Abbreviation dostring := (dostring layout_junk encodes endpoint_text online chunk).
Abbreviation script_getContext := (script_getContext layout_junk encodes endpoint_text online new_state chunk).
Abbreviation script_event := (script_event layout_junk encodes endpoint_text online new_state chunk).
(** The same with the states of the interpreter, which events use. *)
Definition during : relation scripts := λ s s',
  behind (sp_manager s) (sp_manager s') ∧ contextObject s' = contextObject s.
#[export] Instance during_preorder : PreOrder during.
Proof. split; [by split|]. intros s1 s2 s3 (B1 & E1) (B2 & E2). split; [by etrans|congruence]. Qed.
Lemma during_inside {B} (m : PM B) : respects inside m → respects during m.
Proof. intros Hm s b s' (E1 & E2 & _)%Hm. by split. Qed.
Lemma during_ui {B} (m : UM B) : respects during (mg (ui_ m)).
Proof. apply during_inside. respects. Qed.
Lemma during_run {A} (p : program N A) : respects during (run p).
Proof. apply during_inside, inside_run. Qed.
Lemma during_states l : respects during (set_states (St := St) l).
Proof. by intros s b s' [= <- <-]. Qed.
#[local] Hint Resolve during_ui during_run during_states : respects.
Lemma during_dostring L text : respects during (dostring L text).
Proof. unfold Script.dostring. respects. Qed.
#[local] Hint Resolve during_dostring : respects.
Lemma during_getContext d : respects during (script_getContext d).
Proof. unfold Script.script_getContext, lua_open. respects. Qed.
#[local] Hint Resolve during_getContext : respects.
Lemma during_after_context f d : respects during
  ('(L, isTemporary) ← script_getContext d;
   L ← deref L;
   c ← mg (ui_ (in_fields (get_field f)));
   p ← deref (field_string c); text ← deref (str_content p);
   dostring L text;; when isTemporary (lua_close L);; mret 1).
Proof. unfold lua_close. respects. Qed.

(** C8: whatever the engine makes of a script, a program that calls the functions of
    Script.c changes neither the picture nor what was sent to the display, does not
    authorize the connection, has nothing sent while the connection is not authorized,
    and runs no other event.  An event runs its text with the object as [this]. *)
Theorem scripts_stay_behind_the_interface d e (s : scripts) i s' :
  Script.script_event layout_junk encodes endpoint_text online new_state chunk (Some d) e s = Ok (i, s') →
  mg_text (sp_manager s') = mg_text (sp_manager s) ∧ mg_sent_rects (sp_manager s') = mg_sent_rects (sp_manager s) ∧
  c_needAuth (mg_conn (sp_manager s')) = c_needAuth (mg_conn (sp_manager s)) ∧
  c_hasAuth (mg_conn (sp_manager s')) = c_hasAuth (mg_conn (sp_manager s)) ∧
  (authorized_now (mg_conn (sp_manager s)) = false → c_sent (mg_conn (sp_manager s')) = c_sent (mg_conn (sp_manager s))) ∧
  contextObject s' = (if i =? 1 then Some d else contextObject s).
Proof.
  intros E. assert (behind (sp_manager s) (sp_manager s') ∧ contextObject s' = (if i =? 1 then Some d else contextObject s))
    as [[[Ht Hr] [[= Hn Hh] Hs]] Hc]; [|split_and!; done].
  unfold Script.script_event in E. erewrite bind_Ok in E by reflexivity.
  apply bind_Ok_inv in E as (field & s1 & [B1 C1]%during_ui & E).
  destruct field as [f|]; [|by injection E as <- <-].
  apply bind_Ok_inv in E as (c & s2 & [B2 C2]%during_ui & E).
  assert (behind (sp_manager s) (sp_manager s2)) as B12 by by etrans.
  destruct (f_value c); [|injection E as <- <-; (split; [done|cbn; congruence])..].
  apply bind_Ok_inv in E as ([] & s3 & [= <-] & E). pose proof (during_after_context _ _ _ _ _ E) as [B3 C3].
  assert (i = 1) as ->; [|split; [by etrans|exact C3]].
  apply bind_Ok_inv in E as ([L t] & s4 & _ & E). minv E. minv E. minv E. minv E. minv E. minv E. by injection E.
Qed.
End Frame.

(** ** Values *)
Definition field_in (o : DataObject) (key : Z + cstring) : option floc :=
  match key with inl k => al_find k (o_enumData o) | inr name => al_find name (o_data o) end.
Definition key_ok (key : Z + cstring) : Prop :=
  match key with
  | inl k => k ≠ 0 ∧ k ≠ -1 ∧ k ≠ TYPE ∧ k ≠ enum_value EMO_FIELD_REFERENCE
  | inr name => head name ≠ Some 95
  end.
Definition set_at (d : oloc) (key : Z + cstring) (v : floc) : DM () :=
  match key with inl e => dataobject_setEnum (Some d) e (Some v) | inr name => dataobject_setValue (Some d) (Some name) (Some v) end.
Lemma setEnum_ok w d o k v : w_objs w !! d = Some o → k ≠ 0 → k ≠ -1 → k ≠ TYPE →
  replaceable (al_find k (o_enumData o)) v (w_fields w) →
  dataobject_setEnum (Some d) k (Some v) w =
    Ok ((), mkWorld (<[d := with_enumData (match al_find k (o_enumData o) with
                                          | Some _ => al_replace k v (o_enumData o)
                                          | None => al_append k v (o_enumData o) end) o]> (w_objs w))
              (w_brk w) (without (al_find k (o_enumData o)) (w_fields w))).
Proof.
  intros Ho H0 H1 Ht Hold. unfold dataobject_setEnum. erewrite bind_Ok by reflexivity.
  destruct (Z.eqb_spec k (-1)); [done|]. do 2 erewrite bind_Ok by reflexivity. unfold enum_key.
  destruct (Z.eqb_spec k 0); [done|]. erewrite bind_Ok by reflexivity. run_with (get_obj_ok w d o Ho). cbv zeta.
  rewrite bool_decide_false by (intros E; rewrite E in Hold; by destruct Hold).
  destruct (Z.eqb_spec k TYPE); [done|]. cbn [when].
  destruct (al_find k (o_enumData o)) as [f|] eqn:Ef; cbn [without].
  - destruct Hold as (_ & cf & Hcf & Hfree). erewrite bind_Ok by (apply on_fields_ok; by apply free_ok with cf).
    erewrite bind_Ok by reflexivity. by rewrite (upd_obj_ok _ d o).
  - do 2 erewrite bind_Ok by reflexivity. by rewrite (upd_obj_ok _ d o).
Qed.
Lemma set_at_ok w d o key v c : w_objs w !! d = Some o → fh (w_fields w) !! v = Some c → key_ok key →
  replaceable (field_in o key) v (w_fields w) →
  ∃ o', set_at d key v w = Ok ((), mkWorld (<[d := o']> (w_objs w)) (w_brk w) (without (field_in o key) (w_fields w))) ∧
    (∀ key', field_in o' key' = if decide (key' = key) then Some v else field_in o key') ∧
    o_referenced o' = o_referenced o ∧ o_widgetData o' = o_widgetData o.
Proof.
  intros Ho Hv Hk Hold. destruct key as [k|name]; cbn [set_at field_in] in *.
  - destruct Hk as (? & ? & ? & _). eexists. split; [by apply setEnum_ok|]. split; [|done]. intros [k'|name]; cbn [field_in].
    + destruct (al_find k (o_enumData o)) as [f|] eqn:Ef; cbn [o_enumData with_enumData].
      * rewrite al_find_replace, Ef. repeat case_decide; naive_solver.
      * rewrite al_find_append. repeat case_decide; naive_solver.
    + by rewrite decide_False.
  - eexists. split; [rewrite (setValue_ok w d o name v c Ho Hv Hold), !bool_decide_false by done; reflexivity|].
    split; [|done]. intros [k'|name']; cbn [field_in]; [by rewrite decide_False|]. cbn [o_data with_data].
    rewrite al_find_append, al_find_remove. repeat case_decide; naive_solver.
Qed.

Lemma field_modified_ok f b c h : fh h !! f = Some c →
  dataobjectfield_setIsModified (Some f) b h =
    Ok ((), mkFH (<[f := mkField (f_value c) (set_flag b DOFF_CHANGED (f_flags c))]> (fh h)) (fh_brk h)).
Proof.
  intros Hf. unfold dataobjectfield_setIsModified, get_field, set_field. erewrite bind_Ok by reflexivity.
  erewrite bind_Ok by by rewrite Hf. by rewrite Hf.
Qed.

Section Values.
Context {St : Type} `{MapStore St Bitmap} `{Fonts} {N : Type} `{LuaNumbers N} {lua_State : Type}.
Context (layout_junk : Z) (encodes : FRIPacketP → bool) (endpoint_text : cstring) (online : bool).
Abbreviation scripts := (scripts (St := St) lua_State).
Abbreviation LM := (LM (St := St) lua_State).
Abbreviation method := (method (lua_State := lua_State) layout_junk encodes endpoint_text online).
#[local] Typeclasses Opaque Script.LM.
Definition the_ui (s : scripts) : ui := c_ui (mg_conn (sp_manager s)).
Definition put_ui (u : ui) (s : scripts) : scripts :=
  let c := mg_conn (sp_manager s) in
  mkScripts (with_conn (mkConn u (c_globals c) (c_requests c) (c_inprogress c) (c_sent c) (c_needAuth c) (c_hasAuth c)
    (c_buffer c) (c_sequenceID c) (c_loading c)) (sp_manager s)) (contextObject s) (sp_states s).
Lemma put_the_ui s : put_ui (the_ui s) s = s.
Proof. by destruct s as [[[] ] ]. Qed.
Lemma put_put u1 u2 s : put_ui u2 (put_ui u1 s) = put_ui u2 s.
Proof. done. Qed.
Lemma the_ui_put u s : the_ui (put_ui u s) = u.
Proof. done. Qed.
Lemma lbind_Ok {B C} (m : LM B) (f : B → LM C) s b s1 : m s = Ok (Some b, s1) → (m ≫= f) s = f b s1.
Proof. intros E. unfold mbind, LM_bind. by rewrite E. Qed.
Lemma go_ui {B} (m : UM B) s b u : m (the_ui s) = Ok (b, u) → go (mg (ui_ m)) s = Ok (Some b, put_ui u s).
Proof. intros E. unfold go, mg, ui_, in_conn, in_ui. unfold the_ui in E. by rewrite E. Qed.
Lemma world_ok {B} (m : DM B) s b w : m (u_world (the_ui s)) = Ok (b, w) → world_ m s = Ok (Some b, put_ui (set_world w (the_ui s)) s).
Proof. intros E. by apply go_ui, in_world_ok. Qed.
Lemma world_pure {B} (m : DM B) s b : m (u_world (the_ui s)) = Ok (b, u_world (the_ui s)) → world_ m s = Ok (Some b, s).
Proof. intros E. rewrite (world_ok _ _ _ _ E), set_world_same, put_the_ui. done. Qed.

(** The key that a value stands for. *)
Definition key_of (v : lua_value N) : option (Z + cstring) :=
  match lua_tonumber v with
  | Some n => Some (inl (enum_of n))
  | None => inr <$> lua_tostring v
  end.
(** An object whose field a script can set: it has a type other than that of arrays,
    nothing refers to it, the old value can be released, and the queue takes it. *)
Record settable (u : ui) (d : oloc) (o : DataObject) (h : floc) (key : Z + cstring) (n : nat) : Prop := {
  st_obj : w_objs (u_world u) !! d = Some o;
  st_referenced : o_referenced o = [];
  st_type : not_array (u_world u) d h;
  st_fresh : content (u_world u) (fh_brk (w_fields (u_world u))) = None;
  st_key : key_ok key;
  st_old : match field_in o key with Some f => f ≠ h ∧ ∃ c, content (u_world u) f = Some c ∧ freeable c | None => True end;
  st_queue : accepts (S n) (u_renderman u) }.
Lemma same_fields_in w w' d o : same_objects w w' → w_objs w !! d = Some o →
  ∃ o', w_objs w' !! d = Some o' ∧ ∀ key, field_in o' key = field_in o key.
Proof.
  intros Hs Ho. specialize (Hs d). rewrite Ho in Hs. destruct (w_objs w' !! d) as [o'|]; [|done]. exists o'. split; [done|].
  injection Hs as Hs. intros []; destruct o, o'; cbn in *; congruence.
Qed.
Lemma new_value_ok v t s : lua_tostring v = Some t →
  let h := w_fields (u_world (the_ui s)) in
  new_value v s = Ok (Some (fh_brk h), put_ui (set_world (mkWorld (w_objs (u_world (the_ui s))) (w_brk (u_world (the_ui s)))
    (mkFH (<[fh_brk h := mkField (DOF_STRING (SHeap t)) 0]> (fh h)) (Pos.succ (fh_brk h)))) (the_ui s)) s).
Proof.
  intros Ht h. unfold new_value. replace (lua_isstring v) with true by by destruct v.
  unfold luaL_checkstring. rewrite Ht. cbn [checked]. rewrite (lbind_Ok (mret t) _ s t s eq_refl). apply world_ok.
  by apply on_fields_ok.
Qed.
Lemma store_ok s d o h key n v t : settable (the_ui s) d o h key n → lua_tostring v = Some t →
  ∃ u' o' f fl, store encodes endpoint_text online d key v s = Ok (Some (), put_ui u' s) ∧
    w_objs (u_world u') !! d = Some o' ∧ (∀ key', field_in o' key' = if decide (key' = key) then Some f else field_in o key') ∧
    content (u_world u') f = Some (mkField (DOF_STRING (SHeap t)) fl) ∧ has_flag DOFF_ARRAYSOURCE fl = false ∧
    (∀ x, x ≠ d → with_flags1 0 <$> w_objs (u_world u') !! x = with_flags1 0 <$> w_objs (u_world (the_ui s)) !! x) ∧
    (∀ x, x ≠ f → content (u_world u') x = if decide (field_in o key = Some x) then None else content (u_world (the_ui s)) x) ∧
    accepts n (u_renderman u').
Proof.
  intros [Ho Hr (p & fl & Hl & Hc & Hfl & Hp) Hfresh Hk Hold Hq] Ht.
  set (u := the_ui s) in *. set (W := u_world u) in *. set (f := fh_brk (w_fields W)) in *.
  assert (h ≠ f) as Hhf by (intros ->; congruence).
  unfold store. rewrite (lbind_Ok _ _ _ _ _ (new_value_ok v t s Ht)). fold u W f.
  set (w1 := mkWorld (w_objs W) (w_brk W) (mkFH (<[f := mkField (DOF_STRING (SHeap t)) 0]> (fh (w_fields W))) (Pos.succ f))).
  assert (replaceable (field_in o key) f (w_fields w1)) as Hrep.
  { destruct (field_in o key) as [g|]; [|done]. destruct Hold as (_ & c & Hg & Hfree).
    assert (g ≠ f) by (intros ->; congruence). split; [done|]. exists c. split; [|done]. cbn. by rewrite lookup_insert_ne. }
  destruct (set_at_ok w1 d o key f (mkField (DOF_STRING (SHeap t)) 0) Ho (lookup_insert_eq _ _ _) Hk Hrep) as (o1 & E1 & Hin & Hr1 & Hd1).
  set (w2 := mkWorld _ _ _) in E1.
  rewrite (lbind_Ok _ _ _ () (put_ui (set_world w2 u) s)).
  2:{ unfold set_field_at. destruct key; rewrite (world_ok _ (put_ui (set_world w1 u) s) () w2) by exact E1; done. }
  rewrite decide_False by (intros ->; by destruct Hk as (_ & _ & _ & ?)).
  rewrite (lbind_Ok _ _ _ () (put_ui (set_world w2 u) s) eq_refl).
  assert (fh (w_fields w2) !! f = Some (mkField (DOF_STRING (SHeap t)) 0)) as Hf2.
  { unfold w2. cbn [w_fields]. rewrite without_ne by done. apply lookup_insert_eq. }
  set (c3 := mkField (DOF_STRING (SHeap t)) (set_flag true DOFF_CHANGED 0)).
  set (w3 := mkWorld (w_objs w2) (w_brk w2) (mkFH (<[f := c3]> (fh (w_fields w2))) (fh_brk (w_fields w2)))).
  rewrite (lbind_Ok _ _ _ () (put_ui (set_world w3 u) s)).
  2:{ unfold fields_. rewrite (world_ok _ _ () w3); [done|]. apply (on_fields_ok _ w2), (field_modified_ok _ _ _ _ Hf2). }
  assert (∀ x, x ≠ f → content w3 x = if decide (field_in o key = Some x) then None else content W x) as Hcont.
  { intros x Hx. unfold content, w3. cbn [w_fields fh]. rewrite lookup_insert_ne by done. unfold w2. cbn [w_fields].
    destruct (field_in o key) as [g|]; cbn [without drop_field fh].
    - destruct (decide (Some g = Some x)) as [[= ->]|Hne]; [apply lookup_delete_eq|].
      rewrite lookup_delete_ne by congruence. cbn. by rewrite lookup_insert_ne.
    - cbn. by rewrite lookup_insert_ne. }
  assert (w_objs w3 !! d = Some o1) as Ho3 by apply lookup_insert_eq.
  assert (not_array w3 d h) as Hna.
  { exists p, fl. split_and!; [| |done|done].
    - unfold locate in Hl |- *. rewrite Ho3. rewrite Ho in Hl.
      pose proof (Hin (inl TYPE)) as Hty. rewrite decide_False in Hty by (intros <-; by destruct Hk as (_ & _ & ? & _)).
      etrans; [exact Hty|exact Hl].
    - rewrite Hcont by done. rewrite decide_False; [done|]. intros E. rewrite E in Hold. by destruct Hold. }
  destruct (setIsModified_plain (set_world w3 u) d o1 h n Ho3 ltac:(by rewrite Hr1) Hna Hq) as (u' & E4 & Hs4 & Hf4 & Hq4).
  destruct (same_fields_in _ _ _ _ Hs4 Ho3) as (o' & Ho' & Hin').
  exists u', o', f, (set_flag true DOFF_CHANGED 0). split_and!; [| done | | | done | | | done].
  - rewrite (go_ui _ _ () u'); [by rewrite put_put|exact E4].
  - intros key'. by rewrite Hin', Hin.
  - unfold content. rewrite Hf4. apply lookup_insert_eq.
  - intros x Hx. rewrite Hs4. cbn [u_world set_world w3 w2 w_objs w1]. by rewrite lookup_insert_ne.
  - intros x Hx. rewrite <-Hcont by done. unfold content. by rewrite Hf4.
Qed.
(** What the arguments behind the object stand for: when the third is no text, the second
    is the value, and the field is the data. *)
Definition target (kv v : lua_value N) : option ((Z + cstring) * cstring) :=
  if lua_isstring v then key ← key_of kv; t ← lua_tostring v; Some (key, t)
  else t ← lua_tostring kv; Some (inl DATA, t).
Definition names_field (kv : lua_value N) (key : Z + cstring) : Prop := key_of kv = Some key ∨ kv = LNil ∧ key = inl DATA.
Lemma isnumber_key kv key : key_of kv = Some key →
  lua_isnumber kv = (if key is inl _ then true else false) ∧ lua_isstring kv = true ∧
  match key with inl e => enum_of <$> lua_tonumber kv = Some e | inr t => lua_tostring kv = Some t end.
Proof.
  unfold key_of. destruct kv as [| |x|t| |]; cbn; try done.
  - by intros [= <-].
  - destruct (read_number t) as [x|] eqn:E; cbn.
    + by intros [= <-].
    + by intros [= <-].
Qed.
Lemma field_key_ok kv key (s : scripts) : names_field kv key → field_key (lua_State := lua_State) kv s = Ok (Some key, s).
Proof.
  intros [Hk|[-> ->] ]; [|done]. destruct (isnumber_key kv key Hk) as (E1 & E2 & E3). unfold field_key. rewrite E1, E2.
  destruct key as [e|t]; unfold luaL_checknumber, luaL_checkstring.
  - destruct (lua_tonumber kv) as [x|]; [|done]. by injection E3 as <-.
  - by rewrite E3.
Qed.
Lemma set_key_ok d kv key v (s : scripts) : key_of kv = Some key → set_key (lua_State := lua_State) [LObject d; kv; v] s = Ok (Some key, s).
Proof.
  intros Hk. destruct (isnumber_key kv key Hk) as (E1 & E2 & E3). unfold set_key. cbn [argument Nat.sub]. 
  change (argument 2 [LObject d; kv; v]) with kv. rewrite E1.
  destruct key as [e|t]; unfold luaL_checknumber, luaL_checkstring.
  - destruct (lua_tonumber kv) as [x|]; [|done]. by injection E3 as <-.
  - by rewrite E3.
Qed.
Lemma getValue_ok (s : scripts) d o kv key f t fl : names_field kv key → (∀ e, key = inl e → e ≠ -1) →
  w_objs (u_world (the_ui s)) !! d = Some o → field_in o key = Some f →
  content (u_world (the_ui s)) f = Some (mkField (DOF_STRING (SHeap t)) fl) → has_flag DOFF_ARRAYSOURCE fl = false →
  method f_getValue [LObject d; kv] s = Ok (Some [LString t], s).
Proof.
  intros Hk He Ho Hf Hc Hfl. cbn [Script.method]. unfold __dataobject_getValue.
  rewrite (lbind_Ok _ _ s d s eq_refl). change (argument 2 [LObject d; kv]) with kv. rewrite (lbind_Ok _ _ _ _ _ (field_key_ok kv key s Hk)).
  rewrite (lbind_Ok _ _ s (Some f) s).
  2:{ unfold field_at. destruct key as [e|name]; apply world_pure.
      - apply (getEnum_plain _ d o e f (mkField (DOF_STRING (SHeap t)) fl)); [done|by apply He|done..].
      - unfold dataobject_getValueReal. erewrite bind_Ok by reflexivity. rewrite (bind_Ok _ _ _ (Some f) (u_world (the_ui s))); [done|].
        unfold dataobject_getValue. do 3 erewrite bind_Ok by reflexivity. unfold field_fuel. by eapply get_value_loop_plain. }
  rewrite (lbind_Ok _ _ s (Some f) s eq_refl). unfold fields_.
  rewrite (lbind_Ok _ _ s (mkField (DOF_STRING (SHeap t)) fl) s); [done|].
  apply world_pure, on_fields_pure. unfold get_field. unfold content in Hc. by rewrite Hc.
Qed.
(** C10: what a script stores in a field it gets back as a text, by number or by name, and
    no other field of the object and no other object changes but for flags.  Numbers
    become texts; a value that is neither a text nor a number does not clear the
    field: the name or number of the field is then stored as the data. *)
Theorem script_value_roundtrip s d o h kv v key t kg n :
  target kv v = Some (key, t) → settable (the_ui s) d o h key n → names_field kg key →
  ∃ u' o' f, method f_setValue [LObject d; kv; v] s = Ok (Some [if lua_isstring v then LString t else v], put_ui u' s) ∧
    method f_getValue [LObject d; kg] (put_ui u' s) = Ok (Some [LString t], put_ui u' s) ∧
    w_objs (u_world u') !! d = Some o' ∧ (∀ key', field_in o' key' = if decide (key' = key) then Some f else field_in o key') ∧
    (∀ x, x ≠ d → with_flags1 0 <$> w_objs (u_world u') !! x = with_flags1 0 <$> w_objs (u_world (the_ui s)) !! x) ∧
    (∀ x, x ≠ f → content (u_world u') x = if decide (field_in o key = Some x) then None else content (u_world (the_ui s)) x).
Proof.
  intros Ht Hs Hg. assert (∀ e, key = inl e → e ≠ -1) as He by (intros e ->; apply (st_key _ _ _ _ _ _ Hs)).
  unfold target in Ht. destruct (lua_isstring v) eqn:Ev.
  - destruct (key_of kv) as [key1|] eqn:Ek; [|done]. destruct (lua_tostring v) as [t1|] eqn:Et; [|done]. injection Ht as -> ->.
    destruct (store_ok s d o h key n v t Hs Et) as (u' & o' & f & fl & E & Ho' & Hin & Hc & Hfl & Hrest & Hcont & _).
    exists u', o', f. split_and!; [|by eapply getValue_ok; [..|by rewrite Hin, decide_True| |]|done..].
    cbn [Script.method]. unfold __dataobject_setValue. rewrite (lbind_Ok _ _ s d s eq_refl).
    change (argument 3 [LObject d; kv; v]) with v. rewrite Ev, (lbind_Ok _ _ _ _ _ (set_key_ok d kv key v s Ek)), (lbind_Ok _ _ _ _ _ E).
    destruct v; try done; cbn in Et |- *; by injection Et as ->.
  - destruct (lua_tostring kv) as [t1|] eqn:Et; [|done]. injection Ht as <- ->.
    destruct (store_ok s d o h (inl DATA) n kv t Hs Et) as (u' & o' & f & fl & E & Ho' & Hin & Hc & Hfl & Hrest & Hcont & _).
    exists u', o', f. split_and!; [|by eapply getValue_ok; [..|by rewrite Hin, decide_True| |]|done..].
    cbn [Script.method]. unfold __dataobject_setValue. rewrite (lbind_Ok _ _ s d s eq_refl).
    change (argument 3 [LObject d; kv; v]) with v. change (argument 2 [LObject d; kv; v]) with kv. rewrite Ev, (lbind_Ok _ _ _ _ _ E).
    destruct kv; try done; destruct v; done.
Qed.
(** ** Children and new objects *)
Lemma push_children_ok cs : ∀ used (v : lua_value N) (s : scripts),
  push_children used cs v s =
    (if bool_decide (cs = [] ∨ (used + 2 * length cs + 1 ≤ LUA_MINSTACK)%nat)
     then Ok (Some (default v (LObject <$> last cs)), s) else Fault).
Proof.
  induction cs as [|c cs IH]; intros used v s; [by rewrite bool_decide_true by by left|]. cbn [push_children].
  destruct (Nat.leb_spec (used + 3) LUA_MINSTACK).
  - rewrite (lbind_Ok _ _ s (LObject c) s eq_refl), IH.
    assert (cs = [] ∨ (used + 2 + 2 * length cs + 1 ≤ LUA_MINSTACK)%nat ↔
      c :: cs = [] ∨ (used + 2 * length (c :: cs) + 1 ≤ LUA_MINSTACK)%nat) as Hiff.
    { destruct cs; [split; [right; cbn; lia|by left]|]. cbn [length]. split; intros [?|?]; try done; right; lia. }
    rewrite (bool_decide_ext _ _ Hiff). case_bool_decide; [|done]. destruct cs as [|c2 cs]; [done|].
    rewrite last_cons_cons. destruct (last (c2 :: cs)) eqn:El; [done|by apply last_None in El].
  - rewrite bool_decide_false; [done|]. intros [?|?]; [done|]. cbn [length] in *. lia.
Qed.
(** [children] returns the last child, or an empty table when there is none; with ten
    children or more it runs over the end of its stack. *)
Theorem children_gives_last (s : scripts) d cs :
  dataobject_childIterator (Some d) (u_world (the_ui s)) = Ok (cs, u_world (the_ui s)) →
  method f_children [LObject d] s =
    (if bool_decide (length cs ≤ 9)%nat then Ok (Some [default (LTable []) (LObject <$> last cs)], s) else Fault).
Proof.
  intros E. cbn [Script.method]. unfold __dataobject_children. rewrite (lbind_Ok _ _ s d s eq_refl).
  rewrite (lbind_Ok _ _ s cs s) by by apply world_pure. unfold mbind at 1, LM_bind at 1. rewrite push_children_ok.
  assert (cs = [] ∨ (1 + 2 * length cs + 1 ≤ LUA_MINSTACK)%nat ↔ (length cs ≤ 9)%nat) as Hiff.
  { unfold LUA_MINSTACK. destruct cs; cbn [length]; split; [lia|by left|intros [?|?]; [done|lia]|right; lia]. }
  rewrite (bool_decide_ext _ _ Hiff). by case_bool_decide.
Qed.
End Values.

(** ** Instances: a box with a handler, in a window *)
Definition digits_only (s : cstring) : bool := negb (bool_decide (s = [])) && forallb (λ c, (48 <=? c) && (c <=? 57)) s.
#[export] Instance whole_numbers : LuaNumbers Z :=
  {| number_of := λ n, n; enum_of := λ n, n; text_of := λ n, default [] (emo_itoa n 10);
     read_number := λ s, if digits_only s then atoi s else None |}.
Definition box_obj : DataObject :=
  focus_obj [] (Some 1%positive) [(TYPE, 1%positive); (enum_value EMO_FIELD_ONRETURN, 2%positive)].
Definition script_world : world :=
  mkWorld (list_to_map [(1%positive, focus_obj [2%positive] None [(TYPE, 1%positive)]); (2%positive, box_obj)]) 3
    (mkFH (list_to_map [(1%positive, mkField (DOF_STRING (SBuiltin EMO_TYPE_BOX)) 0);
                        (2%positive, mkField (DOF_STRING (SHeap (lit "go"))) 0)]) 3).
Definition script_state : scripts (St := mstate Bitmap) () :=
  mkScripts (with_conn (mkConn (mkUi script_world (Some (mkRM (rm_queue one_queued) (rm_rectBefore one_queued) RM_COMPLETE_REDRAW))
    ∅ [] None 2 None) [] [] [] [] NA_UNKNOWN false [] 1 None) blue) None ∅.
Definition NAME : Z := enum_value EMO_FIELD_NAME.
Lemma box_settable : settable (the_ui script_state) 2 box_obj 1 (inl NAME) 0.
Proof.
  split; [reflexivity|reflexivity| |reflexivity| |exact I|].
  - exists (SBuiltin EMO_TYPE_BOX), 0. by split_and!.
  - by split_and!.
  - apply (accepts_pending (mkRM _ _ RM_COMPLETE_REDRAW) 1). reflexivity.
Qed.
Abbreviation script_method := (method (H0 := fixed_fonts) (H1 := whole_numbers) (lua_State := ()) 0 (λ _, true) [] true).
Lemma script_value_roundtrip_witness :
  ∃ s', script_method f_setValue [LObject 2%positive; LNumber NAME; LNumber 42] script_state = Ok (Some [LString (lit "42")], s') ∧
    script_method f_getValue [LObject 2%positive; LString (lit "62")] s' = Ok (Some [LString (lit "42")], s').
Proof.
  destruct (script_value_roundtrip (H0 := fixed_fonts) (H1 := whole_numbers) 0 (λ _, true) [] true script_state 2 box_obj 1 (LNumber NAME) (LNumber 42)
    (inl NAME) (lit "42") (LString (lit "62")) 0 ltac:(vm_compute; reflexivity) box_settable ltac:(left; vm_compute; reflexivity))
    as (u' & o' & f & E1 & E2 & _).
  by exists (put_ui u' script_state).
Defined.
(** The handler renames the box. *)
Definition rename_chunk (st : ()) (text : cstring) : program Z () :=
  Call f_this [] (λ r, match r with
                       | Some [b] => Call f_setValue [b; LNumber NAME; LString text] (λ _, Done st)
                       | _ => Done st end).
Abbreviation box_event := (script_event (H0 := fixed_fonts) (H1 := whole_numbers) 0 (λ _, true) [] true () rename_chunk).
Definition event_done : scripts (St := mstate Bitmap) () :=
  match box_event (Some 2%positive) EMO_FIELD_ONRETURN script_state with Ok (_, s) => s | _ => script_state end.
Lemma box_event_runs : box_event (Some 2%positive) EMO_FIELD_ONRETURN script_state = Ok (1, event_done).
Proof. vm_compute. reflexivity. Qed.
Lemma scripts_stay_behind_the_interface_witness :
  contextObject event_done = Some 2%positive ∧ c_sent (mg_conn (sp_manager event_done)) = [] ∧
  script_method f_getValue [LObject 2%positive; LNumber NAME] event_done = Ok (Some [LString (lit "go")], event_done).
Proof.
  destruct (scripts_stay_behind_the_interface (H0 := fixed_fonts) (H1 := whole_numbers) 0 (λ _, true) [] true () rename_chunk 2
    EMO_FIELD_ONRETURN script_state 1 event_done box_event_runs) as (_ & _ & _ & _ & Hs & Hc).
  split; [exact Hc|]. split; [by apply Hs|]. vm_compute. reflexivity.
Defined.
