(* ===== verification/ScriptEvents.v ===== *)
(** * Scripts that stay with the objects

    Connection takes what an event handler does as a parameter that changes the Ui only
    ([script]).  Here that parameter is justified: a program that neither asks the
    connection for objects nor changes the screen runs on the Ui alone, whatever the rest
    of the state is, and the event of Script.c is then that of Connection. *)
From S2P Require Import Prelude Lists Maps Arrays Pixels Lgui BitmapCache CStrings Utf8 Url Text.
From S2P Require Import RenderManager FieldNames Fields DataObjects ObjectTrees ObjectFields Sync Protocol SyncSend Ui Modify Focus.
From S2P Require Import FocusTrees Styles.
From S2P Require Import Layout Placing Frames Connection Entry Keys Drawing Mime Manager Screen ScreenRules Script ScriptRules.

(** ** Reading a field changes nothing *)
Abbreviation reads m := (respects eq m) (only parsing).
Lemma reads_on_fields {B} (m : M fheap B) : reads m → reads (on_fields m).
Proof.
  intros Hm w b w' E. unfold on_fields in E. destruct (m (w_fields w)) as [[b' h]| | |] eqn:E1; [|done..].
  injection E as <- <-. rewrite <-(Hm _ _ _ E1). by destruct w.
Qed.
Lemma reads_get_field f : reads (get_field f).
Proof. intros h c h'. unfold get_field. destruct (fh h !! f); [|done]. by intros [= _ <-]. Qed.
Lemma reads_get_obj d : reads (get_obj d).
Proof. intros w o w'. unfold get_obj. destruct (w_objs w !! d); [|done]. by intros [= _ <-]. Qed.
#[local] Hint Resolve reads_on_fields reads_get_field reads_get_obj : respects.
Lemma reads_data_loop fuel d : reads (widget_data_loop fuel d).
Proof. revert d. induction fuel; intros; cbn [widget_data_loop]; respects. Qed.
#[local] Hint Resolve reads_data_loop : respects.
Lemma reads_getDataObject d : reads (widget_getDataObject d).
Proof. unfold widget_getDataObject. respects. Qed.
#[local] Hint Resolve reads_getDataObject : respects.
Lemma reads_value_loop fuel d key : reads (get_value_loop fuel d key).
Proof. revert d key. induction fuel; intros; cbn [get_value_loop]; respects. Qed.
#[local] Hint Resolve reads_value_loop : respects.
Lemma reads_getEnum d e : reads (dataobject_getEnum d e).
Proof. unfold dataobject_getEnum, dataobject_getValue. respects. Qed.
Lemma reads_in_world {B} (m : M world B) : reads m → reads (in_world m).
Proof.
  intros Hm u b u' E. unfold in_world in E. destruct (m (u_world u)) as [[b' w]| | |] eqn:E1; [|done..].
  injection E as <- <-. rewrite <-(Hm _ _ _ E1). by destruct u.
Qed.
Lemma reads_getField d e : reads (getField d e).
Proof. apply reads_in_world, reads_getEnum. Qed.

Section Events.
Context {St : Type} `{MapStore St Bitmap} `{Fonts} {N : Type} `{LuaNumbers N} {lua_State : Type}.
Context (layout_junk : Z) (encodes : FRIPacketP → bool) (endpoint_text : cstring) (online : bool).
Abbreviation scripts := (scripts (St := St) lua_State).
Abbreviation PM := (M scripts).
Abbreviation LM := (LM (St := St) lua_State).
Abbreviation MM := (M (manager (St := St))).
#[local] Typeclasses Opaque Script.LM.

(** ** Computations on the Ui *)
(** The same Ui and the same object as [this]: a local computation does the same to both. *)
Definition twins (s1 s2 : scripts) : Prop := the_ui s1 = the_ui s2 ∧ contextObject s1 = contextObject s2.
Definition same_result {B} (s1 s2 : scripts) (r1 r2 : outcome (B * scripts)) : Prop :=
  match r1, r2 with
  | Ok (b1, t1), Ok (b2, t2) => b1 = b2 ∧ ∃ u, t1 = put_ui u s1 ∧ t2 = put_ui u s2
  | Abort, Abort | Fault, Fault | NoFuel, NoFuel => True
  | _, _ => False
  end.
Definition local {B} (m : PM B) : Prop := ∀ s1 s2, twins s1 s2 → same_result s1 s2 (m s1) (m s2).
Lemma twins_put u s1 s2 : twins s1 s2 → twins (put_ui u s1) (put_ui u s2).
Proof. intros [_ Hc]. by split. Qed.
Lemma same_result_put {B} u s1 s2 (r1 r2 : outcome (B * scripts)) :
  same_result (put_ui u s1) (put_ui u s2) r1 r2 → same_result s1 s2 r1 r2.
Proof.
  unfold same_result. by destruct r1 as [[b1 t1]| | |], r2 as [[b2 t2]| | |].
Qed.
Lemma local_pure {B} (m : PM B) (r : option oloc → outcome B) :
  (∀ s, m s = match r (contextObject s) with Ok b => Ok (b, s) | Abort => Abort | Fault => Fault | NoFuel => NoFuel end) → local m.
Proof.
  intros Hm s1 s2 [Hu Hc]. rewrite !Hm, Hc. destruct (r _); try done. split; [done|]. exists (the_ui s1).
  rewrite put_the_ui. by rewrite Hu, put_the_ui.
Qed.
Lemma local_ret {B} (b : B) : local (mret b).
Proof. by apply (local_pure _ (λ _, Ok b)). Qed.
Lemma local_bind {B C} (m : PM B) (f : B → PM C) : local m → (∀ b, local (f b)) → local (m ≫= f).
Proof.
  intros Hm Hf s1 s2 Hs. specialize (Hm s1 s2 Hs). unfold mbind, M_bind, same_result in *.
  destruct (m s1) as [[b1 t1]| | |], (m s2) as [[b2 t2]| | |]; try done. destruct Hm as (-> & u & -> & ->).
  eapply same_result_put, Hf. by apply twins_put.
Qed.
Lemma local_ui {B} (m : UM B) : local (mg (ui_ m)).
Proof.
  intros s1 s2 [Hu Hc]. unfold mg, ui_, in_conn, in_ui. unfold the_ui in Hu. rewrite Hu.
  destruct (m _) as [[b u]| | |]; try done. split; [done|]. by exists u.
Qed.
Lemma local_mg_bind {B C} (m : MM B) (f : B → MM C) : local (mg m) → (∀ b, local (mg (f b))) → local (mg (m ≫= f)).
Proof.
  intros Hm Hf s1 s2 Hs. specialize (local_bind _ _ Hm Hf s1 s2 Hs). unfold mg, mbind, M_bind.
  destruct (m (sp_manager s1)) as [[b1 m1]| | |], (m (sp_manager s2)) as [[b2 m2]| | |]; done.
Qed.
Definition local_L {B} (m : LM B) : Prop := local (B := option B) m.
Lemma local_go {B} (m : PM B) : local m → local_L (go m).
Proof.
  intros Hm s1 s2 Hs. specialize (Hm s1 s2 Hs). unfold go, same_result in *.
  destruct (m s1) as [[b1 t1]| | |], (m s2) as [[b2 t2]| | |]; try done. by destruct Hm as (-> & ?).
Qed.
Lemma local_lret {B} (b : B) : local_L (mret b).
Proof. by apply (local_pure _ (λ _, Ok (Some b))). Qed.
Lemma local_lbind {B C} (m : LM B) (f : B → LM C) : local_L m → (∀ b, local_L (f b)) → local_L (m ≫= f).
Proof.
  intros Hm Hf s1 s2 Hs. specialize (Hm s1 s2 Hs). unfold mbind, LM_bind, same_result in *.
  destruct (m s1) as [[b1 t1]| | |], (m s2) as [[b2 t2]| | |]; try done. destruct Hm as (-> & u & -> & ->).
  destruct b2 as [b2|]; [|split; [done|by exists u]]. eapply same_result_put, Hf. by apply twins_put.
Qed.
Lemma local_checked {B} (v : option B) : local_L (checked v).
Proof. destruct v; [apply local_lret|by apply (local_pure _ (λ _, Ok None))]. Qed.
Lemma local_world {B} (m : DM B) : local_L (world_ m).
Proof. apply local_go, local_ui. Qed.
Lemma local_context : local_L context.
Proof. apply local_go. by apply (local_pure _ (λ c, Ok c)). Qed.
Lemma local_deref {B} (p : option B) : local_L (go (deref p)).
Proof. apply local_go. apply (local_pure _ (λ _, match p with Some b => Ok b | None => Fault end)). by destruct p. Qed.
Lemma local_nonnull {B} (p : option B) : local_L (go (emo_nonnull p)).
Proof. apply local_go. apply (local_pure _ (λ _, match p with Some b => Ok b | None => Abort end)). by destruct p. Qed.
Lemma local_fault {B} : local_L (go (fault (A := B))).
Proof. apply local_go. by apply (local_pure _ (λ _, Fault)). Qed.
Lemma local_no_fuel {B} : local_L (go (no_fuel (A := B))).
Proof. apply local_go. by apply (local_pure _ (λ _, NoFuel)). Qed.
Lemma local_find_in_tree d name : local_L (go (mg (find_in_tree d name))).
Proof. apply local_go, local_mg_bind; intros; apply local_ui. Qed.
Lemma local_ui_go {B} (m : UM B) : local_L (go (mg (ui_ m))).
Proof. apply local_go, local_ui. Qed.

(** ** Local programs *)
(** A call that stays with the objects: it does not ask the connection, does not change
    the screen, and sets no reference, which may name an object that is not there yet. *)
Definition local_call (f : script_function) (args : list (lua_value N)) : Prop :=
  match f with
  | f_locate | f_sync | f_toScreen | f_showDialog | f_finishDialog | f_netsurf => False
  | f_setValue => key_of (argument 2 args) ≠ Some (inl (enum_value EMO_FIELD_REFERENCE))
  | _ => True
  end.
Fixpoint local_program {A} (p : program N A) : Prop :=
  match p with
  | Done _ => True
  | Call f args k => local_call f args ∧ ∀ r, local_program (k r)
  end.
Create HintDb local discriminated.
#[local] Hint Resolve local_find_in_tree local_ui_go : local.
Ltac local_step :=
  first [ progress intros
        | apply local_lret | apply local_checked | apply local_world | apply local_context | apply local_deref
        | apply local_nonnull | apply local_fault | apply local_no_fuel | apply local_lbind
        | solve [eauto 1 with local nocore] | case_match ].
Ltac local := repeat local_step.
Lemma local_checkDataObject (v : lua_value N) : local_L (checkDataObject v).
Proof. destruct v; [..|apply local_lret]; by apply (local_pure _ (λ _, Ok None)). Qed.
Lemma local_push d : local_L (pushDataObject (N := N) d).
Proof. unfold pushDataObject. local. Qed.
#[local] Hint Resolve local_checkDataObject local_push : local.
Lemma local_value_rows l : local_L (value_rows (N := N) l).
Proof. induction l; cbn [value_rows]; unfold value_row, row_key, fields_; local. Qed.
Lemma local_push_children used cs (stack : lua_value N) : local_L (push_children used cs stack).
Proof. revert used stack; induction cs; intros; cbn [push_children]; local. Qed.
Lemma local_remove_loop fuel l nobj i : local_L (remove_loop fuel l nobj i).
Proof. revert i; induction fuel; intros; cbn [remove_loop]; local. Qed.
#[local] Hint Resolve local_value_rows local_push_children local_remove_loop : local.
Lemma local_store d key (v : lua_value N) : key ≠ inl (enum_value EMO_FIELD_REFERENCE) →
  local_L (store encodes endpoint_text online d key v).
Proof.
  intros Hk. unfold store. rewrite decide_False by done.
  unfold new_value, luaL_checkstring, luaL_checknumber, set_field_at, fields_. local.
Qed.
Lemma set_key_checked args (s : scripts) : set_key args s = checked (key_of (argument 2 args)) s.
Proof.
  destruct (key_of (argument 2 args)) as [key|] eqn:Ek.
  - destruct (isnumber_key _ _ Ek) as (E1 & _ & E3). unfold set_key. rewrite E1.
    unfold luaL_checknumber, luaL_checkstring. destruct key as [e|t]; [|by rewrite E3].
    destruct (lua_tonumber _) as [x|]; [|done]. by injection E3 as <-.
  - unfold key_of in Ek. unfold set_key, luaL_checkstring, luaL_checknumber.
    destruct (argument 2 args) as [| | |t| |]; try done. cbn in *. by destruct (read_number t).
Qed.
Lemma local_setValue (args : list (lua_value N)) : local_call f_setValue args →
  local_L (__dataobject_setValue encodes endpoint_text online args).
Proof.
  intros Hk. unfold __dataobject_setValue. apply local_lbind; [apply local_checkDataObject|]. intros d.
  case_match; [|apply local_lbind; [by apply local_store|local] ].
  intros s1 s2 Hs. unfold mbind at 1 3, LM_bind at 1 3. rewrite !set_key_checked. unfold local_call in Hk.
  destruct (key_of (argument 2 args)) as [key|]; cbn [checked].
  - apply (local_lbind (store encodes endpoint_text online d key (argument 3 args)) (λ _, mret (top (now_string 3 args)))); [|local|done].
    apply local_store. congruence.
  - split; [done|]. exists (the_ui s1). destruct Hs as [Hu _]. rewrite put_the_ui. by rewrite Hu, put_the_ui.
Qed.
Lemma local_method f (args : list (lua_value N)) : local_call f args → local_L (method layout_junk encodes endpoint_text online f args).
Proof.
  intros Hf. destruct f; cbn [method local_call] in *; try done; try (apply local_setValue; exact Hf);
    unfold __dataobject_find, __dataobject_getValue, __dataobject_getValueList, __dataobject_parent, __dataobject_children,
    __dataobject_this, __dataobject_data, __dataobject_new, __dataobject_append, __dataobject_remove, push_object, field_key,
    field_at, context_root, fields_, mark_modified, luaL_checkstring, luaL_checknumber; local.
Qed.
Abbreviation run := (run layout_junk encodes endpoint_text online).
Lemma local_run {A} (p : program N A) : local_program p → local (run p).
Proof.
  induction p as [a|f args k IH]; cbn [local_program Script.run]; [intros; apply local_ret|].
  intros [Hf Hk]. apply local_bind; [by apply local_method|]. intros r. by apply IH.
Qed.

(** ** The parameter of Connection *)
Context (new_state : lua_State) (chunk : lua_State → cstring → program N lua_State).
Abbreviation script_event := (script_event layout_junk encodes endpoint_text online new_state chunk).
(** What the program of a text does to the Ui, in a state of the interpreter, on any
    state of the rest. *)
Definition handler (rest : scripts) (st : lua_State) (d : oloc) (text : cstring) : UM () := λ u,
  match run (chunk st text) (put_ui u (mkScripts (sp_manager rest) (Some d) (sp_states rest))) with
  | Ok (_, s) => Ok ((), the_ui s)
  | Abort => Abort | Fault => Fault | NoFuel => NoFuel
  end.
Lemma mg_ui_reads {B} (m : UM B) (s : scripts) : reads m →
  mg (ui_ m) s = match m (the_ui s) with Ok (b, _) => Ok (b, s) | Abort => Abort | Fault => Fault | NoFuel => NoFuel end.
Proof.
  intros Hm. unfold mg, ui_, in_conn, in_ui. fold (the_ui s). destruct (m (the_ui s)) as [[b u]| | |] eqn:E; [|done..].
  pose proof (Hm _ _ _ E) as <-. do 2 f_equal. apply put_the_ui.
Qed.
Lemma in_ui_reads {B} (m : UM B) c : reads m →
  in_ui m c = match m (c_ui c) with Ok (b, _) => Ok (b, c) | Abort => Abort | Fault => Fault | NoFuel => NoFuel end.
Proof.
  intros Hm. unfold in_ui. destruct (m (c_ui c)) as [[b u]| | |] eqn:E; [|done..]. pose proof (Hm _ _ _ E) as <-. by destruct c.
Qed.
Definition conn_of (s : scripts) : connection := mg_conn (sp_manager s).
(** What the event of Script.c comes to for a connection. *)
Definition event_of (r : outcome (Z * scripts)) : outcome (() * connection) :=
  match r with Ok (_, s') => Ok ((), conn_of s') | Abort => Abort | Fault => Fault | NoFuel => NoFuel end.
Lemma context_kept d L (s : scripts) :
  dataobject_findScriptContext (Some d) (u_world (the_ui s)) = Ok (Some L, u_world (the_ui s)) →
  script_getContext layout_junk encodes endpoint_text online new_state chunk (Some d) s = Ok ((Some L, false), s).
Proof.
  intros E. unfold script_getContext. erewrite bind_Ok by reflexivity. rewrite (bind_Ok _ _ s (Some L) s); [done|].
  unfold mg, ui_, in_conn, in_ui. fold (the_ui s). rewrite (in_world_pure _ _ _ E). do 2 f_equal. apply put_the_ui.
Qed.
(** Running the text: the interpreter and the object [this] do not matter to a local program. *)
Lemma dostring_as_handler rest st L d text (s : scripts) : sp_states s !! L = Some st → contextObject s = Some d →
  local_program (chunk st text) →
  match dostring layout_junk encodes endpoint_text online chunk L text s with
  | Ok (_, s') => in_ui (handler rest st d text) (conn_of s) = Ok ((), conn_of s') ∧
      ∃ u l, s' = mkScripts (sp_manager (put_ui u s)) (Some d) l
  | Abort => in_ui (handler rest st d text) (conn_of s) = Abort
  | Fault => in_ui (handler rest st d text) (conn_of s) = Fault
  | NoFuel => in_ui (handler rest st d text) (conn_of s) = NoFuel
  end.
Proof.
  intros HL Hd Hp. set (s0 := put_ui (the_ui s) (mkScripts (sp_manager rest) (Some d) (sp_states rest))).
  assert (twins s s0) as Ht by by split.
  pose proof (local_run _ Hp s s0 Ht) as Hr. unfold dostring, mbind, M_bind, get. rewrite HL. cbn [deref mret M_ret].
  unfold in_ui, handler, conn_of. fold (the_ui s). fold s0. unfold same_result in Hr.
  destruct (run (chunk st text) s) as [[a t]| | |], (run (chunk st text) s0) as [[a0 t0]| | |]; try done.
  destruct Hr as (-> & u & -> & ->). split; [done|]. rewrite <-Hd. by exists u, (<[L := a0]> (sp_states s)).
Qed.
End Events.

(** ** Instance: the box of ScriptRules, in an open state of the interpreter *)
Definition open_state : scripts (St := mstate Bitmap) () :=
  let u := the_ui script_state in
  let o := with_scriptContext (Some 7) (focus_obj [2%positive] None [(TYPE, 1%positive)]) in
  let w := u_world u in
  let s := put_ui (set_world (mkWorld (<[1%positive := o]> (w_objs w)) (w_brk w) (w_fields w)) u) script_state in
  mkScripts (sp_manager s) None {[7 := ()]}.
Lemma rename_local text : local_program (rename_chunk () text).
Proof. split; [done|]. intros [[|b [|] ]|]; done. Qed.
