(* ===== verification/Network.v ===== *)
(** * The network: Transport.c, StaticList.c, ConnectionManager.c, BalTCPTransport.c, UITask.c

    The transport of the device is a record of functions over endpoints, found by its name
    in a list.  What is written to it goes to the socket task as a message.  [network] is
    the device with the connection context, which is missing until the socket is connected:
    there the parameter [online] of the other parts becomes a part of the state.
    [appdata_response_cb] is the handler of the messages of the user interface task. *)
From S2P Require Import Prelude Lists Maps Arrays Pixels Lgui BitmapCache CStrings Url Text.
From S2P Require Import RenderManager FieldNames Fields DataObjects Sync Protocol SyncSend Ui Modify Focus Styles.
From S2P Require Import Layout Placing Connection Entry Keys Drawing Mime Manager Screen Screens Clock Timers System.

(** ** Transports *)
(** [staticlist_find]: up to the entry without a key. *)
Fixpoint staticlist_find {A} (l : list (option cstring * A)) (key : cstring) : outcome (option A) :=
  match l with
  | [] => Fault
  | (None, _) :: _ => Ok None
  | (Some k, a) :: l => if decide (k = key) then Ok (Some a) else staticlist_find l key
  end.
Record Endpoint := mkEndpoint { ep_fd : Z; ep_sequenceID : Z }.
(** The functions of a transport.  [tr_socket] gets what its memory held; a write gives the
    result and the message to the socket task. *)
Record Transport := mkTransport {
  tr_socket : Z → option Endpoint;
  tr_connect : Endpoint → Z * Endpoint;
  tr_listen : Z;
  tr_bind : Z;
  tr_accept : option Endpoint;
  tr_write : option Endpoint → option (list Z) → Z * option (list Z);
  tr_read : option Endpoint → bool → Z → Z;
  tr_peek : Z;
  tr_close : option Endpoint → Z;
  tr_sequenceID : Endpoint → Z * Endpoint }.
Definition TCPSocket (junk : Z) : option Endpoint :=
  let fd := 0 in if fd =? -1 then None else Some (mkEndpoint fd junk).
Definition TCPConnect (ep : Endpoint) : Z * Endpoint := (0, mkEndpoint (ep_fd ep) 1).
Definition TCPWrite (ep : option Endpoint) (buffer : option (list Z)) : Z * option (list Z) :=
  match ep, buffer with
  | Some _, Some b => if bool_decide (b = []) then (0, None) else (0, Some b)
  | _, _ => (-1, None)
  end.
Definition TCPRead (ep : option Endpoint) (output : bool) (len : Z) : Z :=
  match ep with Some _ => if output then 0 else -1 | None => -1 end.
Definition TCPClose (ep : option Endpoint) : Z := match ep with Some _ => 0 | None => -1 end.
Definition TCPSequenceID (ep : Endpoint) : Z * Endpoint :=
  let next := uint32 (ep_sequenceID ep + 2) in (uint32 (next - 2), mkEndpoint (ep_fd ep) next).
Definition TCPTransport : Transport :=
  mkTransport TCPSocket TCPConnect (-1) 0 None TCPWrite TCPRead 0 TCPClose TCPSequenceID.
Definition transports : list (option cstring * option Transport) := [(Some (lit "tcp"), Some TCPTransport); (None, None)].
Definition transport_get (name : option cstring) : outcome (option Transport) :=
  match name with
  | None => Abort
  | Some name => match staticlist_find transports name with
                 | Ok (Some t) => Ok t | Ok None => Ok None
                 | Abort => Abort | Fault => Fault | NoFuel => NoFuel
                 end
  end.

(** ** The connection manager: endpoints by authority *)
Definition connectionmanager_getConnection (junk : Z) (connections : list (cstring * Endpoint)) (url : option URL)
    : outcome (option Endpoint) :=
  match url with
  | Some u =>
      match u_authority u, u_scheme u with
      | Some authority, Some scheme =>
          match al_find authority connections with
          | Some ep => Ok (Some ep)
          | None =>
              match transport_get (Some scheme) with
              | Ok (Some transport) =>
                  match tr_socket transport junk with
                  | Some ep => let '(r, ep) := tr_connect transport ep in Ok (if r <? 0 then None else Some ep)
                  | None => Ok None
                  end
              | Ok None => Ok None
              | Abort => Abort | Fault => Fault | NoFuel => NoFuel
              end
          end
      | _, _ => Ok None
      end
  | None => Ok None
  end.

(** ** The connection context *)
(** A new context; [c_sent] is what was sent with it. *)
Definition connectionContext_new (ep : option Endpoint) : CM () :=
  ep ← emo_nonnull ep;
  modify (λ c, mkConn (c_ui c) (c_globals c) [] [] [] NA_UNKNOWN false [] (ep_sequenceID ep) (c_loading c)).

(** The messages of the user interface task. *)
Inductive app_message :=
  | EMOBIIX_SOCK_RECV (data : list Z) | EMOBIIX_SOCK_CREA | EMOBIIX_SOCK_SENT | EMOBIIX_SOCK_CONN | EMOBIIX_SOCK_DCON
  | EMOBIIX_NETSURF_START | EMOBIIX_KEY_EVENT (state key : Z) | other_message (opc : Z).

Section Network.
Context {St : Type} `{MapStore St Bitmap} `{Fonts} {R : Type} `{RTC R} {V : Type} `{VSI V} `{VSI_TIME V}.
Variable ft : Z → bool → option ft_glyph.
Variable defaultFont : option Z.
Variable cos_radius : Z → Z → Z.
Variable junk : junk_values.
Variable layout_junk : Z.
Variable encodes : FRIPacketP → bool.
Variable script : oloc → cstring → UM ().
Variable imei : option cstring.
Variable endpoint_text : cstring.
Variable decode : list Z → decoded.
Variable png : list Z → png_result.
Variable simAutoDetect : bool.
(** What the memory of a new endpoint holds. *)
Variable endpoint_junk : Z.
Abbreviation device := (timers (V := system (St := St) (R := R) (V := V))).

(** ** State *)
(** [nw_context]: the global [connectionContext] is there; it is part of the manager. *)
Record network := mkNetwork { nw_device : device; nw_context : bool; recvProcess : Z }.
Abbreviation NM := (M network).
Definition in_device {B} (m : M device B) : NM B := λ s,
  match m (nw_device s) with
  | Ok (b, d) => Ok (b, mkNetwork d (nw_context s) (recvProcess s))
  | Abort => Abort | Fault => Fault | NoFuel => NoFuel
  end.
Definition conn_ {B} (m : CM B) : NM B := in_device (in_system (in_manager (in_conn m))).
(** The context is asserted to be there. *)
Definition with_context {B} (m : CM B) : NM B := s ← get; emo_assert (nw_context s);; conn_ m.
Definition hold_context : NM () := modify (λ s, mkNetwork (nw_device s) true (recvProcess s)).
Definition setRecvProcess (recv : Z) : NM () := modify (λ s, mkNetwork (nw_device s) (nw_context s) recv).
(** The operations of the device, with the connection there is. *)
Definition updateScreen_now : NM () :=
  s ← get;
  in_device (in_system (in_manager (draw_now ft defaultFont cos_radius junk layout_junk encodes script endpoint_text png
    (nw_context s)))).

(** ** Messages (UITask.c) *)
(** The new endpoint is used without a test; the result of [connect] is not read. *)
Definition uiAppConn : NM () :=
  tm ← in_device (timerCreate true);
  in_device (in_system (add_handler tm UiTimer));;
  url ← conn_ (parse_url (Some (lit "tcp://10.150.9.6:12345/dataobject")));
  url ← deref url;
  transport ← (λ s, match transport_get (u_scheme url) with
                    | Ok t => Ok (t, s) | Abort => Abort | Fault => Fault | NoFuel => NoFuel end);
  match transport with
  | None => mret ()
  | Some transport =>
      ep ← deref (tr_socket transport endpoint_junk);
      conn_ (connectionContext_new (Some (tr_connect transport ep).2));; hold_context;;
      when (negb simAutoDetect) (setRecvProcess 0);;
      _ ← in_device (timerStart tm UI_SYNC_LOOP);
      mret ()
  end.
Definition uiAppSent_ : NM () := _ ← with_context (connectionContext_loopIteration encodes); mret ().
Definition uiAppRecv_ (data : list Z) : NM () :=
  with_context (uiAppRecv encodes script imei endpoint_text decode data);;
  updateScreen_now;;
  when (negb simAutoDetect) (setRecvProcess 0).
Definition emo_FullDraw : NM () :=
  s ← get;
  in_device (in_system (in_manager (manager_focusBootApp ft defaultFont (Some defaultGradient) cos_radius junk layout_junk
    encodes script endpoint_text png (nw_context s)))).
Definition key_event (state key : Z) : NM () :=
  s ← get;
  in_device (device_key ft defaultFont cos_radius junk layout_junk encodes script endpoint_text png (nw_context s) state key).
Definition appdata_response_cb (opc : app_message) : NM bool :=
  match opc with
  | EMOBIIX_SOCK_RECV data => uiAppRecv_ data;; mret true
  | EMOBIIX_SOCK_CREA => mret true
  | EMOBIIX_SOCK_SENT => uiAppSent_;; mret true
  | EMOBIIX_SOCK_CONN => uiAppConn;; mret true
  | EMOBIIX_SOCK_DCON => mret true
  | EMOBIIX_NETSURF_START => emo_FullDraw;; mret true
  | EMOBIIX_KEY_EVENT state key => key_event state key;; mret true
  | other_message _ => mret false
  end.

(** ** The events of the device, with the connection there is *)
Definition network_timeout (timer_junk : Z) : NM () :=
  s ← get;
  _ ← in_device (device_timeout ft defaultFont cos_radius junk layout_junk encodes script endpoint_text png (nw_context s)
                   simAutoDetect timer_junk);
  mret ().
End Network.
