(* ===== verification/NetworkRules.v ===== *)
(** * Properties of the network

    The whole device: in every run of messages of the sockets and the radio, keys and
    timeouts, nothing of an object is sent on a connection before the other side of that
    connection waived identification or identified itself, or accepted ours. *)
From S2P Require Import Prelude Lists Maps Lgui BitmapCache CStrings Url Text RenderManager FieldNames Fields DataObjects.
From S2P Require Import Sync Protocol SyncSend Ui Modify Styles Frames Layout Connection ConnectionRules Drawing Mime Manager Screen Screens.
From S2P Require Import Clock Timers System FocusTrees ScreenRules SystemRules Script ScriptRules Network.

(** ** The packets in a buffer *)
Section Packets.
Variable encodes : FRIPacketP → bool.
Variable script : oloc → cstring → UM ().
Variable imei : option cstring.
Variable endpoint_text : cstring.
Variable decode : list Z → decoded.
(** Those the loop takes from the front, one after the other. *)
Fixpoint packets_in (fuel : nat) (bytes : list Z) : list FRIPacketP :=
  match fuel with
  | O => []
  | S fuel =>
      match bytes with
      | [] => []
      | _ => match decode bytes with
             | RC_OK p n => p :: (if (0 <? n)%nat then packets_in fuel (drop n bytes) else [])
             | _ => []
             end
      end
  end.
Lemma gated_polite tr c c' : polite c c' → gated tr c → gated tr c'.
Proof.
  intros [[= En Eh] Hs] HG. pose proof HG as [Hn Hh Hd]. split; rewrite ?En, ?Eh; [done|done|].
  destruct (authorized_now c) eqn:A; [by intros; apply (gated_open _ c)|]. by rewrite Hs.
Qed.
Lemma consume_loop_gated fuel : ∀ tr c c', gated tr c →
  consume_loop encodes script imei endpoint_text decode fuel c = Ok ((), c') →
  gated (tr ++ (EPacket <$> packets_in fuel (c_buffer c))) c'.
Proof.
  induction fuel as [|fuel IH]; intros tr c c' HG E; [done|]. cbn [consume_loop] in E.
  apply bind_Ok_inv in E as (status & c1 & E1 & E). unfold connectionContext_consumePacket in E1.
  erewrite bind_Ok in E1 by reflexivity. cbn [packets_in].
  destruct (c_buffer c) as [|b bs] eqn:Eb; [injection E1 as <- <-; injection E as <-; by rewrite app_nil_r|].
  destruct (decode (b :: bs)) as [p n| |]; [|injection E1 as <- <-; injection E as <-; by rewrite app_nil_r..].
  apply bind_Ok_inv in E1 as ([] & c2 & E2 & E1). pose proof (processPacket_buffer _ _ _ _ p _ _ _ E2) as Hb.
  minv E1. injection H as <- <-. minv E1. injection H as <-. injection E1 as <- <-. subst. unfold keeping in Hb. rewrite Eb in Hb.
  pose proof (perform_gated encodes script imei endpoint_text tr c (EPacket p) c2 HG E2) as HG2.
  assert (gated (tr ++ [EPacket p]) (mkConn (c_ui c2) (c_globals c2) (c_requests c2) (c_inprogress c2) (c_sent c2) (c_needAuth c2)
    (c_hasAuth c2) (drop n (c_buffer c2)) (c_sequenceID c2) (c_loading c2))) as HG3 by (by destruct HG2 as [G1 G2 G3]; split).
  cbn [fmap list_fmap]. rewrite cons_middle, app_assoc.
  destruct (Nat.ltb_spec 0 n).
  - rewrite (proj2 (Z.ltb_lt 0 (Z.of_nat n))) in E by lia. specialize (IH _ _ _ HG3 E). cbn [c_buffer] in IH. by rewrite Hb in IH.
  - rewrite (proj2 (Z.ltb_ge 0 (Z.of_nat n))) in E by lia. injection E as <-. by rewrite app_nil_r.
Qed.
Lemma uiAppRecv_gated tr bytes c c' : gated tr c → uiAppRecv encodes script imei endpoint_text decode bytes c = Ok ((), c') →
  gated (tr ++ (EPacket <$> packets_in (S (length (c_buffer c ++ bytes))) (c_buffer c ++ bytes))) c'.
Proof.
  intros HG E. unfold uiAppRecv in E. apply bind_Ok_inv in E as ([] & c1 & E1 & E). unfold connectionContext_setBuffer in E1.
  erewrite bind_Ok in E1 by reflexivity. case_decide; [|done]. injection E1 as <-. erewrite bind_Ok in E by reflexivity.
  apply bind_Ok_inv in E as ([] & c2 & E2 & E). apply bind_Ok_inv in E as (i & c3 & E3%polite_loop & [= <-]).
  eapply gated_polite; [exact E3|]. eapply consume_loop_gated in E2; [exact E2|]. by destruct HG as [G1 G2 G3]; split.
Qed.
End Packets.

(** ** The screen, the keys and the events of the manager *)
Section Polite.
Context {St : Type} `{MapStore St Bitmap} `{Fonts} {R : Type} `{RTC R} {V : Type} `{VSI V} `{VSI_TIME V}.
Context (ft : Z → bool → option ft_glyph) (defaultFont : option Z) (cos_radius : Z → Z → Z) (junk : junk_values) (layout_junk : Z).
Context (encodes : FRIPacketP → bool) (script : oloc → cstring → UM ()) (imei : option cstring) (endpoint_text : cstring).
Context (decode : list Z → decoded) (png : list Z → png_result) (simAutoDetect : bool) (endpoint_junk : Z).
Abbreviation manager := (manager (St := St)).
Abbreviation MM := (M manager).
Definition courteous : relation manager := λ m m', polite (mg_conn m) (mg_conn m').
#[local] Instance courteous_preorder : PreOrder courteous.
Proof. split; unfold courteous; [by intros m|intros m1 m2 m3 E1 E2; by etrans]. Qed.
Abbreviation calm := (respects courteous).
Lemma calm_in_conn {B} (m : CM B) : respects polite m → calm (in_conn m).
Proof.
  intros Hm s b s' E. unfold in_conn in E. destruct (m _) as [[b' c]| | |] eqn:E1; [|done..].
  injection E as <- <-. by eapply Hm.
Qed.
Lemma polite_in_ui {B} (m : UM B) : respects polite (in_ui m).
Proof. by apply in_ui_respects, polite_other. Qed.
Lemma calm_ui {B} (m : UM B) : calm (ui_ m).
Proof. apply calm_in_conn, polite_in_ui. Qed.
Lemma calm_text {B} (m : M text_state B) : calm (text_ m).
Proof. intros s b s' E. unfold text_ in E. destruct (m _) as [[b' t]| | |]; [|done..]. by injection E as <- <-. Qed.
Lemma calm_gui {B} (m : GM B) : calm (gui_ m).
Proof. apply calm_text. Qed.
Lemma calm_display {B} (m : M (display (St := St)) B) : calm (display_ m).
Proof.
  intros s b s' E. unfold display_ in E. destruct (m _) as [[b' d]| | |]; [|done..].
  destruct (in_ui _ _) as [[b2 c]| | |] eqn:E1; [|done..]. injection E as <- <-. by eapply polite_in_ui.
Qed.
Lemma calm_behind {B} (m : MM B) : respects behind m → calm m.
Proof. by intros Hm s b s' [_ E]%Hm. Qed.
Lemma calm_modify (f : manager → manager) : (∀ m, mg_conn (f m) = mg_conn m) → calm (modify f).
Proof. intros Hf m [] m' [= <-]. unfold courteous. by rewrite Hf. Qed.
Lemma calm_conn_other {B} (m : CM B) : (∀ c b c', m c = Ok (b, c') → ∃ u g q l, c' = mkConn u g (c_requests c) (c_inprogress c) (c_sent c)
  (c_needAuth c) (c_hasAuth c) (c_buffer c) q l) → calm (in_conn m).
Proof. intros Hm. apply calm_in_conn. intros c b c' (u & g & q & l & ->)%Hm. apply polite_other. Qed.
#[local] Hint Resolve calm_ui calm_text calm_gui calm_display : respects.
Lemma polite_event d e : respects polite (run_event script d e).
Proof. apply run_event_respects; [exact _|apply polite_other]. Qed.
Lemma polite_set_loading l : respects polite (set_loading l).
Proof. apply set_loading_respects, polite_other. Qed.
Lemma polite_parse s : respects polite (parse_url s).
Proof. apply parse_url_respects; exact _. Qed.
Lemma polite_get : respects polite get.
Proof. apply respects_get; exact _. Qed.
#[local] Hint Resolve polite_event polite_set_loading polite_parse polite_get calm_in_conn : respects.
Section Online.
Variable online : bool.
Lemma calm_focusApplication a : calm (manager_focusApplication layout_junk encodes endpoint_text online a).
Proof. apply calm_behind, stays_focusApplication. Qed.
Lemma calm_resolve d : calm (dataobject_resolveReferences encodes endpoint_text online d).
Proof. apply calm_behind, stays_resolveReferences. Qed.
Lemma calm_find d name : calm (find_in_tree d name).
Proof. apply calm_behind, stays_find_in_tree. Qed.
#[local] Hint Resolve calm_focusApplication calm_resolve calm_find : respects.
Lemma calm_event d e : calm (event script d e).
Proof. unfold event. respects. Qed.
#[local] Hint Resolve calm_event : respects.
Lemma calm_application_load d : calm (application_load encodes script endpoint_text online d).
Proof. unfold application_load, text_field_object. respects. Qed.
#[local] Hint Resolve calm_application_load : respects.
Lemma calm_load_pending : calm (load_pending layout_junk encodes script endpoint_text png online).
Proof. unfold load_pending, manager_loadApplicationReal, application_setURL, manager_launchApplication. respects. Qed.
#[local] Hint Resolve calm_load_pending : respects.
Lemma calm_flush_widget a b i : calm (flush_widget ft defaultFont (Some defaultGradient) cos_radius junk a b i).
Proof. unfold flush_widget, queued, with_before, draw_partial, manager_drawScreenPartial. respects. Qed.
#[local] Hint Resolve calm_flush_widget : respects.
Lemma calm_flush : calm (renderman_flush ft defaultFont (Some defaultGradient) cos_radius junk layout_junk).
Proof. unfold renderman_flush, flush_before, queued, manager_resolveLayout. respects. Qed.
Lemma calm_BitBlt x1 y1 x2 y2 : calm (emo_BitBlt x1 y1 x2 y2).
Proof. by intros s b s' [= <- <-]. Qed.
#[local] Hint Resolve calm_flush calm_BitBlt : respects.
Lemma calm_updateScreen :
  calm (updateScreen ft defaultFont (Some defaultGradient) cos_radius junk layout_junk encodes script endpoint_text png online).
Proof. unfold updateScreen, draw_screen, manager_drawScreen, manager_drawScreenPartial, blit_region. respects. Qed.
#[local] Hint Resolve calm_updateScreen : respects.
Lemma calm_handleKey key : calm (manager_handleKey layout_junk encodes script endpoint_text online key).
Proof. unfold manager_handleKey, manager_focusNextApplication. respects. Qed.
#[local] Hint Resolve calm_handleKey : respects.
Lemma calm_netsurf_key key state : calm (netsurf_key_enqueue (St := St) key state).
Proof. by intros s b s' [= <- <-]. Qed.
#[local] Hint Resolve calm_netsurf_key : respects.
Lemma calm_keys i key : calm (UiHandleKeyEvents ft defaultFont (Some defaultGradient) cos_radius junk layout_junk encodes
  script endpoint_text png online i key).
Proof. unfold UiHandleKeyEvents, pass_key. respects. Qed.
Lemma calm_focusBootApp : calm (manager_focusBootApp ft defaultFont (Some defaultGradient) cos_radius junk layout_junk encodes
  script endpoint_text png online).
Proof. unfold manager_focusBootApp. respects. Qed.
(** *** The device *)
Abbreviation system := (system (St := St) (R := R) (V := V)).
Abbreviation device := (timers (V := system)).
Definition its_conn (d : device) : connection := mg_conn (sy_manager (tm_vsi d)).
Definition mild : relation system := λ y y', courteous (sy_manager y) (sy_manager y').
Definition mannerly : relation device := λ d d', polite (its_conn d) (its_conn d').
#[local] Instance mild_preorder : PreOrder mild.
Proof. split; unfold mild; [by intros y|intros y1 y2 y3 E1 E2; by etrans]. Qed.
#[local] Instance mannerly_preorder : PreOrder mannerly.
Proof. split; unfold mannerly; [by intros y|intros y1 y2 y3 E1 E2; by etrans]. Qed.
Lemma mild_manager {B} (m : MM B) : calm m → respects mild (in_manager m).
Proof.
  intros Hm y b y' E. unfold in_manager in E. destruct (m _) as [[b' x]| | |] eqn:E1; [|done..]. injection E as <- <-. by eapply Hm.
Qed.
Lemma mannerly_system {B} (m : M system B) : respects mild m → respects mannerly (in_system m).
Proof.
  intros Hm d b d' E. unfold in_system in E. destruct (m _) as [[b' y]| | |] eqn:E1; [|done..]. injection E as <- <-. by eapply Hm in E1.
Qed.
Lemma mild_modest : modest ft defaultFont cos_radius junk layout_junk encodes script endpoint_text png online mild.
Proof.
  split; intros.
  - intros y b y' E. unfold on_clock in E. destruct (f _). by injection E as <- <-.
  - intros y [] y' [= <-]. unfold mild. match goal with Hf : ∀ _, unmanaged _ = _ |- _ => injection (Hf y) as Em _ _ end. by rewrite Em.
  - apply mild_manager, calm_ui.
  - apply mild_manager, calm_in_conn, polite_parse.
  - apply mild_manager, calm_in_conn. apply construct_respects; [exact _|apply polite_other].
  - apply mild_manager, calm_in_conn, polite_syncRequestForce.
  - apply mild_manager, calm_in_conn, polite_loop.
  - apply mild_manager, calm_gui.
  - apply mild_manager, calm_updateScreen.
Qed.
Lemma mannerly_own d d' : tm_vsi d' = tm_vsi d → mannerly d d'.
Proof. intros E. unfold mannerly, its_conn. by rewrite E. Qed.
Lemma mannerly_vsi d ms : mannerly d (set_tmr (timerPrecMs d) (sig d) (vsi_t_start ms (tm_vsi d)) d) ∧
  mannerly d (set_tmr (timerPrecMs d) (sig d) (vsi_t_stop (tm_vsi d)) d).
Proof. done. Qed.
Lemma mannerly_start t i : respects mannerly (timerStart t i).
Proof. apply frame_timerStart; [exact _|exact mannerly_own|exact mannerly_vsi]. Qed.
Lemma mannerly_create b : respects mannerly (timerCreate (V := system) b).
Proof. apply frame_timerCreate; [exact _|exact mannerly_own|exact mannerly_vsi]. Qed.
Lemma mild_own f : (∀ y : system, sy_manager (f y) = sy_manager y) → respects mild (modify f).
Proof. intros Hf y [] y' [= <-]. unfold mild. by rewrite Hf. Qed.
#[local] Hint Resolve mannerly_start mannerly_create mannerly_system mild_manager calm_keys calm_updateScreen calm_focusBootApp : respects.
#[local] Hint Extern 1 (respects mild (modify _)) => apply mild_own; reflexivity : respects.
Abbreviation callback :=
  (device_callback ft defaultFont cos_radius junk layout_junk encodes script endpoint_text png online simAutoDetect).
Lemma mannerly_idle t : respects mannerly (idleBacklight t).
Proof. unfold idleBacklight, light, set_sleep, on_backlight. parts; apply mannerly_system; parts. Qed.
Lemma mannerly_snap : respects mannerly blightSnaptime.
Proof. unfold blightSnaptime, snap_time, light, set_sleep, on_backlight. parts; apply mannerly_system; parts. Qed.
#[local] Hint Resolve mannerly_idle mannerly_snap : respects.
Ltac mannerly := intros; first [exact _|by apply mannerly_system|apply mannerly_start|apply mannerly_create].
Lemma mannerly_callback t : respects mannerly (callback t).
Proof.
  unfold device_callback. parts; [eapply (modest_tick _ _ _ _ _ _ _ _ _ _ _ _ mild_modest)|
    eapply (modest_round _ _ _ _ _ _ _ _ _ _ simAutoDetect _ mild_modest)]; mannerly.
Qed.
Lemma mannerly_timeout j : respects mannerly
  (device_timeout ft defaultFont cos_radius junk layout_junk encodes script endpoint_text png online simAutoDetect j).
Proof. apply frame_mfw_timeout; [exact _|exact mannerly_own|exact mannerly_vsi|exact mannerly_callback]. Qed.
Lemma mannerly_key MsgId key : respects mannerly
  (device_key ft defaultFont cos_radius junk layout_junk encodes script endpoint_text png online MsgId key).
Proof. unfold device_key. parts. intros []. apply mannerly_system. parts. Qed.
Lemma mannerly_radio m : respects mannerly
  (in_system (on_message ft defaultFont cos_radius junk layout_junk encodes script endpoint_text png online simAutoDetect m)).
Proof. apply mannerly_system, modest_message; [exact _|apply mild_modest]. Qed.
End Online.

(** ** Messages, timeouts and runs *)
Abbreviation device := (timers (V := system (St := St) (R := R) (V := V))).
Abbreviation network := (network (St := St) (R := R) (V := V)).
Abbreviation NM := (M network).
Implicit Types (n : network).
Definition conn_of n : connection := its_conn (nw_device n).
Inductive network_event :=
  | NMessage (m : app_message) | NTimeout (timer_junk : Z) | NRadio (m : message) | NWait (v : V).
Definition on_radio (m : message) : NM () :=
  s ← get;
  in_device (in_system (on_message ft defaultFont cos_radius junk layout_junk encodes script endpoint_text png (nw_context s) simAutoDetect m)).
Definition handle (e : network_event) : NM () :=
  match e with
  | NMessage m => _ ← appdata_response_cb ft defaultFont cos_radius junk layout_junk encodes script imei endpoint_text decode png
                         simAutoDetect endpoint_junk m; mret ()
  | NTimeout timer_junk => network_timeout ft defaultFont cos_radius junk layout_junk encodes script endpoint_text png simAutoDetect timer_junk
  | NRadio Sent => uiAppSent_ encodes
  | NRadio m => on_radio m
  | NWait v => in_device (in_system (modify (set_vsi v)))
  end.
(** The packets received since the last connection. *)
Definition received n (ps : list FRIPacketP) (e : network_event) : list FRIPacketP :=
  match e with
  | NMessage EMOBIIX_SOCK_CONN => []
  | NMessage (EMOBIIX_SOCK_RECV data) =>
      let bytes := c_buffer (conn_of n) ++ data in ps ++ packets_in decode (S (length bytes)) bytes
  | _ => ps
  end.
Inductive nruns n0 : list FRIPacketP → network → Prop :=
  | nruns_nil : nruns n0 [] n0
  | nruns_step ps n e n' : nruns n0 ps n → handle e n = Ok ((), n') → nruns n0 (received n ps e) n'.

Definition civil : relation network := λ n n', polite (conn_of n) (conn_of n').
#[local] Instance civil_preorder : PreOrder civil.
Proof. split; unfold civil; [by intros n|intros n1 n2 n3 E1 E2; by etrans]. Qed.
Lemma civil_device {B} (m : M device B) : respects mannerly m → respects civil (in_device m).
Proof.
  intros Hm n b n' E. unfold in_device in E. destruct (m _) as [[b' d]| | |] eqn:E1; [|done..]. injection E as <- <-. by eapply Hm in E1.
Qed.
Lemma civil_own f : (∀ n, nw_device (f n) = nw_device n) → respects civil (modify f).
Proof. intros Hf n [] n' [= <-]. unfold civil, conn_of. by rewrite Hf. Qed.
#[local] Hint Resolve mild_manager calm_updateScreen calm_focusBootApp civil_device mannerly_timeout mannerly_key mannerly_radio : respects.
#[local] Hint Extern 1 (respects civil (modify _)) => apply civil_own; reflexivity : respects.
Lemma civil_recvProcess r : respects civil (setRecvProcess r).
Proof. unfold setRecvProcess. parts. Qed.
Lemma civil_draw : respects civil (updateScreen_now ft defaultFont cos_radius junk layout_junk encodes script endpoint_text png).
Proof. unfold updateScreen_now. parts. intros n. apply civil_device, mannerly_system. parts. Qed.
Lemma civil_full_draw : respects civil (emo_FullDraw ft defaultFont cos_radius junk layout_junk encodes script endpoint_text png).
Proof. unfold emo_FullDraw. parts. intros n. apply civil_device, mannerly_system. parts. Qed.
Lemma civil_sent : respects civil (uiAppSent_ encodes).
Proof.
  unfold uiAppSent_, with_context, conn_. respects. apply civil_device, mannerly_system, mild_manager, calm_in_conn, polite_loop.
Qed.
#[local] Hint Resolve civil_recvProcess civil_draw civil_full_draw civil_sent : respects.
Lemma conn__ok {B} (m : CM B) n b n' : conn_ m n = Ok (b, n') → m (conn_of n) = Ok (b, conn_of n') ∧ nw_context n' = nw_context n.
Proof.
  unfold conn_, in_device, in_system, in_manager, in_conn, conn_of, its_conn. intros E. destruct (m _) as [[b' c]| | |]; [|done..].
  by injection E as <- <-.
Qed.
(** A new connection: a new context, whatever there was. *)
Definition fresh (c : connection) : Prop :=
  c_needAuth c = NA_UNKNOWN ∧ c_hasAuth c = false ∧ c_sent c = [] ∧ c_requests c = [] ∧ c_inprogress c = [] ∧ c_buffer c = [] ∧
  c_sequenceID c = 1.
Lemma fresh_gated c : fresh c → gated [] c.
Proof. intros (En & Eh & Es & _). split; rewrite ?En, ?Eh, ?Es; [done|done|by intros p ?%elem_of_nil]. Qed.
Definition same_conn : relation device := keeping its_conn.
Lemma same_start t i : respects same_conn (timerStart t i).
Proof.
  apply frame_timerStart; [exact _| |by intros d ms]. intros d d' E. unfold same_conn, keeping, its_conn. by rewrite E.
Qed.
Lemma parse_host : ∃ u, u_scheme u = Some (lit "tcp") ∧ ∀ c, parse_url (Some (lit "tcp://10.150.9.6:12345/dataobject")) c = Ok (Some u, c).
Proof.
  eexists. split; [|intros c; vm_compute; reflexivity]. reflexivity.
Qed.
Lemma context_fresh ep c c' : connectionContext_new ep c = Ok ((), c') → (∃ e, ep = Some e ∧ ep_sequenceID e = 1) → fresh c'.
Proof. intros E (e & -> & He). injection E as <-. unfold fresh. by rewrite <-He. Qed.
Lemma uiAppConn_fresh n n' : uiAppConn simAutoDetect endpoint_junk n = Ok ((), n') → fresh (conn_of n') ∧ nw_context n' = true.
Proof.
  destruct parse_host as (u & Hu & Hp).
  unfold uiAppConn. intros (tm & n1 & _ & E)%bind_Ok_inv. apply bind_Ok_inv in E as ([] & n2 & _ & E).
  apply bind_Ok_inv in E as (url & n3 & [E3 _]%conn__ok & E). rewrite Hp in E3. injection E3 as <- _.
  erewrite bind_Ok in E by reflexivity. rewrite Hu in E. erewrite bind_Ok in E by reflexivity. cbv iota in E.
  erewrite bind_Ok in E by reflexivity. apply bind_Ok_inv in E as ([] & n4 & [E4 _]%conn__ok & E).
  apply context_fresh in E4; [|by eexists]. apply bind_Ok_inv in E as ([] & n5 & [= <-] & E).
  apply bind_Ok_inv in E as ([] & n6 & E6 & E). apply bind_Ok_inv in E as (z & n7 & E7 & [= <-]).
  assert (conn_of n6 = conn_of n4 ∧ nw_context n6 = true) as [Ec Ex] by (destruct simAutoDetect; injection E6 as <-; done).
  unfold in_device in E7. destruct (timerStart tm UI_SYNC_LOOP (nw_device n6)) as [[i d]| | |] eqn:Ed; [|done..]. injection E7 as _ <-.
  apply same_start in Ed. unfold same_conn, keeping in Ed. unfold conn_of in *. cbn. rewrite Ed, Ec. done.
Qed.
Lemma civil_gated tr n n' : civil n n' → gated tr (conn_of n) → gated tr (conn_of n').
Proof. apply gated_polite. Qed.
Lemma recv_gated ps n bytes n' : gated (EPacket <$> ps) (conn_of n) →
  uiAppRecv_ ft defaultFont cos_radius junk layout_junk encodes script imei endpoint_text decode png simAutoDetect bytes n = Ok ((), n') →
  gated (EPacket <$> received n ps (NMessage (EMOBIIX_SOCK_RECV bytes))) (conn_of n').
Proof.
  intros HG. unfold uiAppRecv_. intros ([] & n1 & E1 & E)%bind_Ok_inv. apply bind_Ok_inv in E as ([] & n2 & E2%civil_draw & E).
  unfold with_context in E1. erewrite bind_Ok in E1 by reflexivity. apply bind_Ok_inv in E1 as ([] & n3 & E3 & [E1 _]%conn__ok).
  assert (n3 = n) as -> by (destruct (nw_context n); [by injection E3 as <-|done]).
  eapply uiAppRecv_gated in E1; [|exact HG]. cbn [received]. rewrite fmap_app.
  eapply civil_gated; [|exact E1]. etrans; [exact E2|]. destruct (negb simAutoDetect); [by apply civil_recvProcess in E|by injection E as <-].
Qed.
Lemma step_gated ps n e n' : gated (EPacket <$> ps) (conn_of n) → handle e n = Ok ((), n') →
  gated (EPacket <$> received n ps e) (conn_of n').
Proof.
  intros HG E. assert (∀ m : NM (), respects civil m → m n = Ok ((), n') → gated (EPacket <$> ps) (conn_of n')) as Hcivil
    by (intros m Hm Em%Hm; by eapply civil_gated).
  destruct e as [m|j|m|v]; cbn [handle] in E.
  - apply bind_Ok_inv in E as (b & n1 & E & [= ->]). destruct m; cbn [appdata_response_cb received] in *;
      try (apply bind_Ok_inv in E as ([] & n2 & E & [= _ ->])); try (injection E as _ <-); try done.
    + by eapply recv_gated.
    + revert E. apply Hcivil, civil_sent.
    + apply uiAppConn_fresh in E as [Hf _]. by apply fresh_gated.
    + revert E. apply Hcivil, civil_full_draw.
    + revert E. apply Hcivil. unfold key_event. parts.
  - revert E. apply Hcivil. unfold network_timeout. parts.
  - revert E. destruct m; apply Hcivil; unfold on_radio; parts.
  - revert E. apply Hcivil. parts. apply civil_device, mannerly_system. intros y [] y' [= <-]. done.
Qed.
(** Before a connection a message of the socket ends the program. *)
Lemma no_context n bytes : nw_context n = false →
  handle (NMessage (EMOBIIX_SOCK_RECV bytes)) n = Abort ∧ handle (NMessage EMOBIIX_SOCK_SENT) n = Abort.
Proof.
  intros E. split; cbn [handle appdata_response_cb]; unfold uiAppRecv_, uiAppSent_, with_context, mbind, M_bind, get, gets, emo_assert; by rewrite E.
Qed.
(** A run, computed. *)
Fixpoint follow (es : list network_event) ps n : outcome (list FRIPacketP * network) :=
  match es with
  | [] => Ok (ps, n)
  | e :: es => match handle e n with
               | Ok ((), n') => follow es (received n ps e) n'
               | Abort => Abort | Fault => Fault | NoFuel => NoFuel
               end
  end.
Lemma follow_runs n0 es : ∀ ps n ps' n', nruns n0 ps n → follow es ps n = Ok (ps', n') → nruns n0 ps' n'.
Proof.
  induction es as [|e es IH]; intros ps n ps' n' Hr; cbn [follow]; [by intros [= <- <-]|].
  destruct (handle e n) as [[[] n1]| | |] eqn:E; [|done..]. apply IH. by eapply nruns_step.
Qed.
End Polite.

(** ** Instances: the device of the light with the note of the host; a packet is a byte *)
#[local] Existing Instances os_vsi os_vsi_time quartz fixed_fonts.
Definition note_system : system (St := mstate Bitmap) (R := T_RTC_DATE * T_RTC_TIME) (V := os) :=
  let m := off_manager in
  set_manager (mkManager host (mg_text m) (mg_rootApplication m) (mg_bootApp m) (mg_placeHolder m) (mg_dialogHolder m)
    (mg_topBar m) (mg_sent_rects m) (mg_netsurf m) (mg_netsurf_queue m)) off_system.
Definition note_network : network := mkNetwork (set_tmr 0 false note_system off_device) false 1.
Definition a_packet (bytes : list Z) : decoded :=
  match bytes with
  | 1 :: _ => RC_OK (authRequestP [] [atImplicitP]) 1
  | 2 :: _ => RC_OK (dataObjectSyncStartP host_url 0 0 1) 1
  | 3 :: _ => RC_OK (dataObjectSyncFinishP responseExpiredP 1) 1
  | _ => RC_WMORE
  end.
Abbreviation note_follow es := (follow no_font None (λ _ _, 0) no_junk 0 (λ _, true) (λ _ _, mret ()) (Some (lit "1")) (lit "0")
  a_packet (λ _, PNG_none) true 7 es [] note_network).
Definition note_events : list (network_event (V := os)) :=
  [NMessage EMOBIIX_SOCK_CONN; NMessage (EMOBIIX_SOCK_RECV [1]); NMessage (EMOBIIX_SOCK_RECV [2; 3]); NMessage EMOBIIX_SOCK_SENT].
Definition note_sent : list FRIPacketP * network := match note_follow note_events with Ok r => r | _ => ([], note_network) end.
Definition note_data : FRIPacketP := dataObjectSyncP 1 (blockSyncListP [mkOp (fieldNameStringP (lit "title")) (syncSetP (lit "hi"))]).
Lemma note_ok : note_follow note_events = Ok note_sent ∧ note_data ∈ c_sent (conn_of note_sent.2).
Proof. split; vm_compute; [reflexivity|repeat constructor]. Qed.
