(* ===== verification/Mailboxes.v ===== *)
(** * The tasks and their mailboxes: Exeapi.c, emailstask.c, and hwtask.c, kbd.c and hwpei.c of tasks/hwtask

    A task has five mailboxes, queues of the kernel, with counters of what is in them, and
    an event group with a flag for each mailbox.  The kernel is the class [Nucleus]: its
    queues, event groups and partitions of memory, with what its documentation promises in
    [NucleusLaws].  [MonFault] prints and returns, so the code goes on after it.  A byte is
    unsigned, as on the processor of the device. *)
From S2P Require Import Prelude.

(** ** The kernel *)
Record sExeMsg := mkMsg { msgId : Z; msgSize : Z; msgBuf : option positive }.
(** A call that waits for events: it does not return before there are some, or returns
    with its status and the events. *)
Inductive waited (G : Type) := Suspends | Woke (status events : Z) (g : G).
Arguments Suspends {G}.
Arguments Woke {G}.
Definition NU_SUCCESS : Z := 0.
Definition NU_QUEUE_EMPTY : Z := -45.
Definition NU_TIMEOUT : Z := -50.
Definition NU_SUSPEND : Z := 0xFFFFFFFF.
(** [Q]: queues; [G]: event groups; [P]: the partition pools, whose blocks have an address
    and some bytes. *)
Class Nucleus (Q G P : Type) := {
  QUCE_Send_To_Queue : Q → sExeMsg → Z * Q;
  QUCE_Receive_From_Queue : Q → Z * option sExeMsg * Q;
  EVCE_Set_Events : G → Z → Z * G;
  EVCE_Retrieve_Events : G → Z → Z → waited G;
  PMCE_Allocate_Partition : P → nat → Z * option (positive * list Z) * P;
  PMCE_Deallocate_Partition : P → positive → Z * P }.
(** What is in a queue, the oldest first, and the events that are set; the largest queue
    of exeapi.h has room for sixty messages. *)
Definition QUEUE_MAX : nat := 60.
Class NucleusLaws (Q G P : Type) `{Nucleus Q G P} := {
  contents : Q → list sExeMsg;
  events_set : G → Z;
  room_law q m q' : QUCE_Send_To_Queue q m = (NU_SUCCESS, q') → (length (contents q) < QUEUE_MAX)%nat;
  send_law q m : let '(r, q') := QUCE_Send_To_Queue q m in
    contents q' = contents q ++ (if r =? NU_SUCCESS then [m] else []);
  receive_law q : let '(r, m, q') := QUCE_Receive_From_Queue q in
    match contents q with
    | [] => r = NU_QUEUE_EMPTY ∧ contents q' = []
    | x :: l => r = NU_SUCCESS ∧ m = Some x ∧ contents q' = l
    end;
  set_law g e : let '(r, g') := EVCE_Set_Events g e in r = NU_SUCCESS ∧ events_set g' = Z.lor (events_set g) e;
  retrieve_law g e : match EVCE_Retrieve_Events g e NU_SUSPEND with
    | Suspends => Z.land (events_set g) e = 0
    | Woke r x g' => r = NU_SUCCESS ∧ x = Z.land (events_set g) e ∧ x ≠ 0 ∧ events_set g' = Z.ldiff (events_set g) e
    end }.

(** ** Constants (exeapi.h, ems.h) *)
Definition EXE_NUM_MAILBOX : nat := 5.
Definition EXE_MESSAGE_TYPE : Z := 0x1.
Definition EXE_SIGNAL_TYPE : Z := 0x2.
Definition EXE_TIMEOUT_TYPE : Z := 0x4.
Definition MailQueueSig : list Z := [0x8; 0x10; 0x20; 0x40; 0x80].
Definition EXE_SIGNAL_1 : Z := 0x100.
Definition EXE_SIGNAL_12 : Z := 0x80000.
Definition EXE_SIGNAL_20 : Z := 0x8000000.
Definition EXE_IOP_ID : Z := 1.
Definition EXE_BAL_ID : Z := 12.
Definition EXE_EM_S_ID : Z := 29.
Definition SYS_IRQ_INT : Z := 0x80.
Definition HW_KEY_MSG : Z := 0x2BC.
Definition EXE_FAULT_TYPE_2 : Z := 1.
Definition EXE_FAULT_TYPE_3 : Z := 2.
Definition EXE_MSG_BUFF_MEM_SIZE_ERR : Z := 1.
Definition EXE_MSG_BUFF_OVERWRITE_ERR : Z := 4.
Definition EXE_UNHANDLED_INT_ERR : Z := 8.
Definition EXE_MAIL_QUEUE_FULL_ERR : Z := 9.
(** The sizes a caller may ask for, and those of the partitions that [ExeInit] makes. *)
Definition ExeMsgBuffInfo : list Z := [32; 192; 448; 564].
Definition partition_sizes : list Z := [0x24; 0xc4; 0x1c4; 0x234].
Definition BUFFER_MARK : Z := 0xED.

Section Mailboxes.
Context {Q G P : Type} `{Nucleus Q G P}.
(** A task or an interrupt handler is running; what an unset local message holds. *)
Variable in_thread : bool.
Variable junk_message : sExeMsg.

(** ** State *)
Record ExeTaskCbT := mkTask { NumMsgs : Z; NumMsgsInQueue : list Z; MailQueueCb : list Q; EventGroupCb : G }.
(** [MonFaults]: the faults printed; [cpu_level]: the interrupts that are off;
    [blocks]: the message buffers in use; [HwIsReady]: the flag of hwpei.c. *)
Record exe := mkExe {
  ExeTaskCb : gmap Z ExeTaskCbT;
  MonFaults : list (Z * Z);
  TCD_Interrupt_Level : Z;
  cpu_level : Z;
  ExeIntStack : list Z;
  pools : P;
  blocks : gmap positive (list Z);
  HwIsReady : Z }.
Abbreviation XM := (M exe).
Definition set_tasks (t : gmap Z ExeTaskCbT) (s : exe) : exe :=
  mkExe t (MonFaults s) (TCD_Interrupt_Level s) (cpu_level s) (ExeIntStack s) (pools s) (blocks s) (HwIsReady s).
Definition set_interrupts (tcd level : Z) (stack : list Z) (s : exe) : exe :=
  mkExe (ExeTaskCb s) (MonFaults s) tcd level stack (pools s) (blocks s) (HwIsReady s).
Definition set_buffers (p : P) (b : gmap positive (list Z)) (s : exe) : exe :=
  mkExe (ExeTaskCb s) (MonFaults s) (TCD_Interrupt_Level s) (cpu_level s) (ExeIntStack s) p b (HwIsReady s).
Definition the_task (TaskId : Z) : XM ExeTaskCbT := s ← get; deref (ExeTaskCb s !! TaskId).
Definition put_task (TaskId : Z) (t : ExeTaskCbT) : XM () := modify (λ s, set_tasks (<[TaskId := t]> (ExeTaskCb s)) s).

(** ** Faults and interrupts *)
Definition MonFault (code1 code2 : Z) : XM () :=
  modify (λ s, mkExe (ExeTaskCb s) (MonFaults s ++ [(code1, code2)]) (TCD_Interrupt_Level s) (cpu_level s) (ExeIntStack s)
    (pools s) (blocks s) (HwIsReady s)).
Definition CallExeFault : XM () := MonFault 3 0.
Definition ExeFault (type err : Z) : XM () := MonFault type err.
Definition check_thread : XM () := when (negb in_thread) (MonFault 3 0).
(** The level before is kept on a stack. *)
Definition ExeInterruptDisable (mask : Z) : XM () :=
  modify (λ s, set_interrupts (TCD_Interrupt_Level s) (Z.lor (TCD_Interrupt_Level s) mask) (cpu_level s :: ExeIntStack s) s).
Definition ExeInterruptEnable : XM () :=
  s ← get;
  match ExeIntStack s with
  | [] => fault
  | level :: stack => put (set_interrupts (TCD_Interrupt_Level s) level stack s)
  end.
(** [(TCD_Interrupt_Level << 0x19) >> 0x19]: the low seven bits, with their sign. *)
Definition low_level (z : Z) : Z := Z.shiftr (int32 (Z.shiftl z 0x19)) 0x19.
Definition lower_level : XM () :=
  modify (λ s, set_interrupts (low_level (TCD_Interrupt_Level s)) (cpu_level s) (ExeIntStack s) s).

(** ** The parts of the operations on one task *)
Definition with_counts (n : Z) (l : list Z) (t : ExeTaskCbT) : ExeTaskCbT := mkTask n l (MailQueueCb t) (EventGroupCb t).
Definition with_queue (i : nat) (q : Q) (t : ExeTaskCbT) : ExeTaskCbT :=
  mkTask (NumMsgs t) (NumMsgsInQueue t) (<[i := q]> (MailQueueCb t)) (EventGroupCb t).
Definition with_events (g : G) (t : ExeTaskCbT) : ExeTaskCbT := mkTask (NumMsgs t) (NumMsgsInQueue t) (MailQueueCb t) g.
(** One message more or less. *)
Definition count (i : nat) (d : Z) (t : ExeTaskCbT) : ExeTaskCbT :=
  with_counts (int32 (NumMsgs t + d)) (alter (λ n, int32 (n + d)) i (NumMsgsInQueue t)) t.
Definition post (i : nat) (m : sExeMsg) (t : ExeTaskCbT) : option (Z * ExeTaskCbT) :=
  q ← MailQueueCb t !! i; let '(r, q) := QUCE_Send_To_Queue q m in Some (r, with_queue i q t).
Definition fetch (i : nat) (t : ExeTaskCbT) : option (Z * option sExeMsg * ExeTaskCbT) :=
  q ← MailQueueCb t !! i; let '(r, m, q) := QUCE_Receive_From_Queue q in Some (r, m, with_queue i q t).
Definition mark (e : Z) (t : ExeTaskCbT) : Z * ExeTaskCbT :=
  let '(r, g) := EVCE_Set_Events (EventGroupCb t) e in (r, with_events g t).
Definition mailbox_events (i : nat) : Z := Z.lor (default 0 (MailQueueSig !! i)) EXE_MESSAGE_TYPE.

(** ** Sending and receiving *)
Definition set_events (TaskId e : Z) : XM () :=
  t ← the_task TaskId;
  let '(r, t) := mark e t in
  put_task TaskId t;; when (negb (r =? NU_SUCCESS)) CallExeFault.
(** The byte behind the message must be the mark. *)
Definition check_buffer_mark (MsgBufferP : option positive) (MsgSize : Z) : XM () :=
  match MsgBufferP with
  | None => mret ()
  | Some p =>
      s ← get; b ← deref (blocks s !! p); x ← deref (if 0 <=? MsgSize then b !! Z.to_nat MsgSize else None);
      when (negb (x =? BUFFER_MARK)) (ExeFault EXE_FAULT_TYPE_3 EXE_MSG_BUFF_OVERWRITE_ERR)
  end.
Definition free_partition (p : positive) (code2 : Z → Z) : XM () :=
  s ← get;
  let '(r, pl) := PMCE_Deallocate_Partition (pools s) p in
  put (set_buffers pl (if r =? NU_SUCCESS then delete p (blocks s) else blocks s) s);;
  when (negb (r =? NU_SUCCESS)) (MonFault 4 (code2 r)).
Definition ExeMsgSend (TaskId : Z) (MailboxId : nat) (MsgId : Z) (MsgBufferP : option positive) (MsgSize : Z) : XM Z :=
  check_thread;;
  check_buffer_mark MsgBufferP MsgSize;;
  t ← the_task TaskId;
  '(errCode, t) ← deref (post MailboxId (mkMsg MsgId MsgSize MsgBufferP) t);
  put_task TaskId t;;
  if errCode =? NU_SUCCESS then
    ExeInterruptDisable SYS_IRQ_INT;;
    t ← the_task TaskId; put_task TaskId (count MailboxId 1 t);;
    lower_level;;
    set_events TaskId (mailbox_events MailboxId);;
    ExeInterruptEnable;;
    mret 0
  else
    (if (TaskId =? EXE_IOP_ID) && (MailboxId =? 0)%nat then
       match MsgBufferP with
       | Some p => free_partition p (λ _, 3)
       | None => set_events TaskId (Z.lor EXE_SIGNAL_12 EXE_SIGNAL_TYPE)
       end
     else ExeFault EXE_FAULT_TYPE_3 EXE_MAIL_QUEUE_FULL_ERR);;
    mret (-1).
(** The message, if there is one; the code goes on after any other error. *)
Definition ExeMsgRead (TaskId : Z) (MailboxId : nat) : XM (option sExeMsg) :=
  t ← the_task TaskId;
  '(errCode, m, t) ← deref (fetch MailboxId t);
  put_task TaskId t;;
  if errCode =? NU_QUEUE_EMPTY then mret None
  else
    when (negb (errCode =? NU_SUCCESS)) CallExeFault;;
    ExeInterruptDisable SYS_IRQ_INT;;
    t ← the_task TaskId; put_task TaskId (count MailboxId (-1) t);;
    ExeInterruptEnable;;
    mret (Some (default junk_message m)).
Definition ExeSignalSet (TaskId SignalFlg : Z) : XM () :=
  check_thread;;
  t ← the_task TaskId;
  let '(r, t) := mark (Z.lor EXE_SIGNAL_TYPE SignalFlg) t in
  put_task TaskId t;; when (negb (r =? NU_SUCCESS)) (MonFault 3 0).

(** ** Waiting *)
(** [~0xFD] for signals; all mailboxes for messages. *)
Definition wait_mask (Signal : bool) (Message : Z) : Z :=
  Z.lor (if Signal then 0xFFFFFF02 else 0)
    (if Message =? EXE_MESSAGE_TYPE then 0xF9 else Message).
(** A mailbox that counts messages gets its flag again. *)
Definition remind (TaskId : Z) (i : nat) : XM () :=
  t ← the_task TaskId;
  n ← deref (NumMsgsInQueue t !! i);
  when (negb (n =? 0)) (set_events TaskId (mailbox_events i)).
(** [None]: the task is suspended. *)
Definition ExeEventWait (TaskId : Z) (Signal : bool) (Message Timeout : Z) : XM (option Z) :=
  t ← the_task TaskId;
  when (negb (NumMsgs t =? 0)) (mfor (remind TaskId) (seq 0 EXE_NUM_MAILBOX));;
  t ← the_task TaskId;
  match EVCE_Retrieve_Events (EventGroupCb t) (wait_mask Signal Message) Timeout with
  | Suspends => mret None
  | Woke ret events g =>
      put_task TaskId (with_events g t);;
      if ret =? NU_TIMEOUT then mret (Some EXE_TIMEOUT_TYPE)
      else if ret =? NU_SUCCESS then mret (Some events)
      else CallExeFault;; mret (Some Timeout)
  end.
Definition ExeMsgCheck (TaskId : Z) (MailboxId : nat) : XM Z :=
  t ← the_task TaskId;
  n ← deref (NumMsgsInQueue t !! MailboxId);
  mret (if n <? 0 then 0 else n).

(** ** Message buffers *)
(** The first pool whose size is enough and that has a block. *)
Fixpoint first_partition (size : Z) (i : nat) (infos : list Z) : XM (option positive) :=
  match infos with
  | [] => mret None
  | info :: infos =>
      if info <? size then first_partition size (S i) infos else
      s ← get;
      let '(r, b, pl) := PMCE_Allocate_Partition (pools s) i in
      match (if r =? NU_SUCCESS then b else None) with
      | Some (p, bytes) => put (set_buffers pl (<[p := bytes]> (blocks s)) s);; mret (Some p)
      | None => put (set_buffers pl (blocks s) s);; first_partition size (S i) infos
      end
  end.
Definition set_mark (p : positive) (i : Z) : XM () :=
  s ← get; b ← deref (blocks s !! p);
  if (0 <=? i) && (i <? Z.of_nat (length b))
  then put (set_buffers (pools s) (<[p := <[Z.to_nat i := BUFFER_MARK]> b]> (blocks s)) s)
  else fault.
Definition ExeMsgBufferGet (MsgBufferSize : Z) : XM (option positive) :=
  check_thread;;
  if MsgBufferSize <=? default 0 (last ExeMsgBuffInfo) then
    p ← first_partition MsgBufferSize 0 ExeMsgBuffInfo;
    match p with
    | Some p => set_mark p MsgBufferSize;; mret (Some p)
    | None => ExeFault EXE_FAULT_TYPE_2 EXE_UNHANDLED_INT_ERR;; mret None
    end
  else ExeFault EXE_FAULT_TYPE_2 EXE_MSG_BUFF_MEM_SIZE_ERR;; mret None.
Definition ExeMsgBufferFree (MsgBufferP : positive) : XM () := check_thread;; free_partition MsgBufferP id.

(** ** The tasks *)
(** The task of the user interface (ui_pei.c) does not start before [HwStatusGet]. *)
Definition HwStatusSet : XM () :=
  modify (λ s, mkExe (ExeTaskCb s) (MonFaults s) (TCD_Interrupt_Level s) (cpu_level s) (ExeIntStack s) (pools s) (blocks s) 1).
Definition HwStatusGet : XM Z := s ← get; mret (HwIsReady s).
(** One round of [hwStart]: the messages of keys it hands on, or [None] when it waits. *)
Definition hw_mailbox (flags : Z) (i : nat) : XM (list sExeMsg) :=
  if Z.land flags (default 0 (MailQueueSig !! i)) =? 0 then mret [] else
  m ← ExeMsgRead EXE_BAL_ID i;
  match m with
  | None => mret []
  | Some m =>
      match msgBuf m with Some p => ExeMsgBufferFree p | None => mret () end;;
      mret (if msgId m =? HW_KEY_MSG then [m] else [])
  end.
Definition hw_round : XM (option (list sExeMsg)) :=
  HwStatusSet;;
  EvtStatus ← ExeEventWait EXE_BAL_ID true EXE_MESSAGE_TYPE NU_SUSPEND;
  match EvtStatus with
  | None => mret None
  | Some flags =>
      if Z.land flags EXE_MESSAGE_TYPE =? 0 then mret (Some []) else
      l0 ← hw_mailbox flags 0; l1 ← hw_mailbox flags 1; mret (Some (l0 ++ l1))
  end.
(** [hwStart] until it waits; the fuel bounds the rounds. *)
Fixpoint hwStart (fuel : nat) : XM (list sExeMsg) :=
  match fuel with
  | O => no_fuel
  | S fuel =>
      r ← hw_round;
      match r with
      | None => mret []
      | Some keys => rest ← hwStart fuel; mret (keys ++ rest)
      end
  end.
(** The calls a round of the mail task makes. *)
Inductive ems_call := EMSSignalFunc | EMSMailFunc (m : sExeMsg).
Inductive ems_result := Waits | Ends | Goes (calls : list ems_call).
Definition EM_S_END_SIGNAL : Z := EXE_SIGNAL_20.
Definition ems_round : XM ems_result :=
  EvtStatus ← ExeEventWait EXE_EM_S_ID true EXE_MESSAGE_TYPE NU_SUSPEND;
  match EvtStatus with
  | None => mret Waits
  | Some flags =>
      let signal := negb (Z.land flags EXE_SIGNAL_TYPE =? 0) in
      if signal && negb (Z.land flags EM_S_END_SIGNAL =? 0) then mret Ends else
      let calls := if signal && negb (Z.land EXE_SIGNAL_1 flags =? 0) then [EMSSignalFunc] else [] in
      if (Z.land flags EXE_MESSAGE_TYPE =? 0) || (Z.land flags (default 0 (MailQueueSig !! 0%nat)) =? 0) then mret (Goes calls) else
      m ← ExeMsgRead EXE_EM_S_ID 0;
      mret (Goes (calls ++ match m with Some m => [EMSMailFunc m] | None => [] end))
  end.
(** The keypad (kbd.c): a status message that is not good is dropped. *)
Inductive keypad_message := KPD_STATUS (ok : bool) | KPD_EVENT (virtual_key_id state press_state : Z).
Definition keypad_cb (parameter : keypad_message) : XM () :=
  match parameter with
  | KPD_STATUS false => mret ()
  | _ => _ ← ExeMsgSend EXE_BAL_ID 0 HW_KEY_MSG None 0; mret ()
  end.
End Mailboxes.
