(* ===== verification/MailboxRules.v ===== *)
(** * Properties of the mailboxes

    Tasks and interrupts interleave: [step] is one call of the kernel, or one section with
    interrupts off, of a sender or of the task that reads.  No wake-up is lost in any
    interleaving, although the events of several messages are one and the counters lag
    behind the queues; and messages arrive once and in order. *)
From stdpp Require Import relations.
From S2P Require Import Prelude Frames Mailboxes.

Section Steps.
Context {Q G P : Type} `{Nucleus Q G P} `{!NucleusLaws Q G P}.
(** How many of its mailboxes the task reads, and whether it waits for signals too. *)
Variable boxes : nat.
Variable signals : bool.
Abbreviation ExeTaskCbT := (ExeTaskCbT (Q := Q) (G := G)).
Implicit Types (t : ExeTaskCbT).

(** ** Configurations *)
(** Where the reading task is: before the test of [NumMsgs], before the test of a mailbox,
    before the wait, before the read of a mailbox, after it. *)
Inductive reader := Checks | Reminds (i : nat) | Retrieves | Reads (flags : Z) (i : nat) | Counts (flags : Z) (i : nat) (m : sExeMsg).
(** [posted]: the mailboxes of senders that have not counted their message; [counted]: of
    those that have not set their flag. *)
Record config := mkConfig {
  cb : ExeTaskCbT; posted : list nat; counted : list nat; pc : reader; got : list (nat * sExeMsg); sent : list (nat * sExeMsg) }.
Implicit Types (c : config).
Definition mask : Z := wait_mask signals EXE_MESSAGE_TYPE.
Definition marked e t : ExeTaskCbT := (mark e t).2.
Definition box_flag (i : nat) : Z := default 0 (MailQueueSig !! i).
Inductive step : config → config → Prop :=
  | step_post t ps cs k g s i m t' : post i m t = Some (NU_SUCCESS, t') →
      step (mkConfig t ps cs k g s) (mkConfig t' (i :: ps) cs k g (s ++ [(i, m)]))
  | step_full t ps cs k g s i m r t' : post i m t = Some (r, t') → r ≠ NU_SUCCESS →
      step (mkConfig t ps cs k g s) (mkConfig t' ps cs k g s)
  | step_count t l1 i l2 cs k g s :
      step (mkConfig t (l1 ++ i :: l2) cs k g s) (mkConfig (count i 1 t) (l1 ++ l2) (i :: cs) k g s)
  | step_mark t ps l1 i l2 k g s :
      step (mkConfig t ps (l1 ++ i :: l2) k g s) (mkConfig (marked (mailbox_events i) t) ps (l1 ++ l2) k g s)
  | step_signal t ps cs k g s e :
      step (mkConfig t ps cs k g s) (mkConfig (marked (Z.lor EXE_SIGNAL_TYPE e) t) ps cs k g s)
  | step_check t ps cs g s :
      step (mkConfig t ps cs Checks g s) (mkConfig t ps cs (if NumMsgs t =? 0 then Retrieves else Reminds 0) g s)
  | step_remind t ps cs i g s n : NumMsgsInQueue t !! i = Some n →
      step (mkConfig t ps cs (Reminds i) g s)
        (mkConfig (if n =? 0 then t else marked (mailbox_events i) t) ps cs
           (if decide (S i = EXE_NUM_MAILBOX) then Retrieves else Reminds (S i)) g s)
  | step_wake t ps cs g s r flags gr : EVCE_Retrieve_Events (EventGroupCb t) mask NU_SUSPEND = Woke r flags gr →
      step (mkConfig t ps cs Retrieves g s)
        (mkConfig (with_events gr t) ps cs (if Z.land flags EXE_MESSAGE_TYPE =? 0 then Checks else Reads flags 0) g s)
  | step_skip t ps cs flags i g s : (i < boxes)%nat → Z.land flags (box_flag i) = 0 →
      step (mkConfig t ps cs (Reads flags i) g s) (mkConfig t ps cs (Reads flags (S i)) g s)
  | step_empty t ps cs flags i g s m t' : (i < boxes)%nat → Z.land flags (box_flag i) ≠ 0 → fetch i t = Some (NU_QUEUE_EMPTY, m, t') →
      step (mkConfig t ps cs (Reads flags i) g s) (mkConfig t' ps cs (Reads flags (S i)) g s)
  | step_fetch t ps cs flags i g s m t' : (i < boxes)%nat → Z.land flags (box_flag i) ≠ 0 → fetch i t = Some (NU_SUCCESS, Some m, t') →
      step (mkConfig t ps cs (Reads flags i) g s) (mkConfig t' ps cs (Counts flags i m) g s)
  | step_uncount t ps cs flags i m g s :
      step (mkConfig t ps cs (Counts flags i m) g s) (mkConfig (count i (-1) t) ps cs (Reads flags (S i)) (g ++ [(i, m)]) s)
  | step_done t ps cs flags g s : step (mkConfig t ps cs (Reads flags boxes) g s) (mkConfig t ps cs Checks g s).
(** Empty mailboxes, and the task before its first wait. *)
Definition start c : Prop :=
  NumMsgs (cb c) = 0 ∧ NumMsgsInQueue (cb c) = replicate EXE_NUM_MAILBOX 0 ∧
  contents <$> MailQueueCb (cb c) = replicate EXE_NUM_MAILBOX [] ∧
  posted c = [] ∧ counted c = [] ∧ pc c = Checks ∧ got c = [] ∧ sent c = [].
Inductive reach : config → Prop :=
  | reach_start c : start c → reach c
  | reach_step c c' : reach c → step c c' → reach c'.
(** The task waits in the kernel. *)
Definition blocked c : Prop := pc c = Retrieves ∧ EVCE_Retrieve_Events (EventGroupCb (cb c)) mask NU_SUSPEND = Suspends.
(** The messages of a mailbox. *)
Definition of_box (i : nat) (l : list (nat * sExeMsg)) : list sExeMsg := (filter (λ p, p.1 = i) l).*2.
Definition queue i t : list sExeMsg := default [] (contents <$> MailQueueCb t !! i).

(** ** The invariant *)
Definition in_hand i (k : reader) : list sExeMsg :=
  match k with Counts _ j m => if decide (j = i) then [m] else [] | _ => [] end.
Definition here (i : nat) (l : list nat) : Z := Z.of_nat (length (filter (λ j, j = i) l)).
(** What the counter of a mailbox should be, but for the wrap-around. *)
Definition level i c : Z := Z.of_nat (length (queue i (cb c))) - here i (posted c) + Z.of_nat (length (in_hand i (pc c))).
Definition total (f : nat → Z) : Z := f 0%nat + f 1%nat + f 2%nat + f 3%nat + f 4%nat.
Definition flagged t : Prop := Z.testbit (events_set (EventGroupCb t)) 0 = true.
Definition busy c : Prop := flagged (cb c) ∨ posted c ≠ [] ∨ counted c ≠ [].
Definition pc_ok (k : reader) : Prop :=
  match k with Reminds i => (i < EXE_NUM_MAILBOX)%nat | Reads _ i => (i ≤ boxes)%nat | Counts _ i _ => (i < boxes)%nat | _ => True end.
Definition wakes c : Prop :=
  match pc c with
  | Retrieves => busy c ∨ ∀ i, queue i (cb c) = []
  | Reminds k => busy c ∨ ∀ i, (i < k)%nat → queue i (cb c) = []
  | _ => True
  end.
Record mailed c : Prop := {
  ml_queues : length (MailQueueCb (cb c)) = EXE_NUM_MAILBOX;
  ml_room i : (length (queue i (cb c)) ≤ QUEUE_MAX)%nat;
  ml_posted i : i ∈ posted c → (i < EXE_NUM_MAILBOX)%nat;
  ml_pc : pc_ok (pc c);
  ml_counts i : (i < EXE_NUM_MAILBOX)%nat → NumMsgsInQueue (cb c) !! i = Some (int32 (level i c));
  ml_total : NumMsgs (cb c) = int32 (total (λ i, level i c));
  ml_order i : of_box i (got c) ++ in_hand i (pc c) ++ queue i (cb c) = of_box i (sent c);
  ml_wake : wakes c }.

Lemma total_ext f g : (∀ i, (i < EXE_NUM_MAILBOX)%nat → f i = g i) → total f = total g.
Proof. intros E. unfold total. by rewrite !E by (unfold EXE_NUM_MAILBOX; lia). Qed.
Lemma total_add f i d : (i < EXE_NUM_MAILBOX)%nat → total (λ j, f j + if decide (j = i) then d else 0) = total f + d.
Proof. unfold total, EXE_NUM_MAILBOX. intros Hi. repeat case_decide; lia. Qed.
Lemma total_zero f : (∀ i, (i < EXE_NUM_MAILBOX)%nat → 0 ≤ f i ≤ Z.of_nat QUEUE_MAX) → int32 (total f) = 0 →
  ∀ i, (i < EXE_NUM_MAILBOX)%nat → f i = 0.
Proof.
  intros Hf E i Hi. unfold EXE_NUM_MAILBOX in *. pose proof (λ k Hk, Hf k Hk) as Hf'.
  pose proof (Hf 0%nat ltac:(lia)). pose proof (Hf 1%nat ltac:(lia)). pose proof (Hf 2%nat ltac:(lia)).
  pose proof (Hf 3%nat ltac:(lia)). pose proof (Hf 4%nat ltac:(lia)).
  unfold total, QUEUE_MAX in *. rewrite int32_small in E by lia.
  do 5 (destruct i as [|i]; [lia|]). lia.
Qed.
Lemma queue_with i q q' t j : MailQueueCb t !! i = Some q → queue j (with_queue i q' t) = if decide (j = i) then contents q' else queue j t.
Proof.
  intros Hq. unfold queue, with_queue. cbn. case_decide as E; [subst j|by rewrite list_lookup_insert_ne].
  by rewrite list_lookup_insert_eq by (by eapply lookup_lt_Some).
Qed.
Lemma queue_at i q t : MailQueueCb t !! i = Some q → queue i t = contents q.
Proof. intros E. unfold queue. by rewrite E. Qed.
(** What a kernel call does to the mailboxes. *)
Definition gains i (l : list sExeMsg) t t' : Prop :=
  (i < length (MailQueueCb t))%nat ∧ length (MailQueueCb t') = length (MailQueueCb t) ∧
  NumMsgs t' = NumMsgs t ∧ NumMsgsInQueue t' = NumMsgsInQueue t ∧ EventGroupCb t' = EventGroupCb t ∧
  ∀ j, queue j t' = queue j t ++ if decide (j = i) then l else [].
Lemma with_queue_gains i q q' t l : MailQueueCb t !! i = Some q → contents q' = contents q ++ l → gains i l t (with_queue i q' t).
Proof.
  intros Hq E. split_and!; [by eapply lookup_lt_Some|by cbn; rewrite length_insert|done..|]. intros j.
  rewrite (queue_with i q) by done. case_decide; [subst; by rewrite E, (queue_at i q)|by rewrite app_nil_r].
Qed.
Lemma post_gains i m t r t' : post i m t = Some (r, t') →
  gains i (if r =? NU_SUCCESS then [m] else []) t t' ∧ (r = NU_SUCCESS → length (queue i t) < QUEUE_MAX)%nat.
Proof.
  unfold post. destruct (MailQueueCb t !! i) as [q|] eqn:Eq; [|done]. cbn. pose proof (send_law q m) as Hs.
  destruct (QUCE_Send_To_Queue q m) as [r' q'] eqn:E. intros [= <- <-]. split; [by eapply with_queue_gains|].
  intros ->. rewrite (queue_at i q) by done. by eapply room_law.
Qed.
Lemma fetch_spec i t r m t' : fetch i t = Some (r, m, t') →
  match queue i t with
  | [] => r = NU_QUEUE_EMPTY ∧ gains i [] t t'
  | x :: l => r = NU_SUCCESS ∧ m = Some x ∧ (i < length (MailQueueCb t))%nat ∧ length (MailQueueCb t') = length (MailQueueCb t) ∧
      NumMsgs t' = NumMsgs t ∧ NumMsgsInQueue t' = NumMsgsInQueue t ∧ ∀ j, queue j t' = if decide (j = i) then l else queue j t
  end.
Proof.
  unfold fetch. destruct (MailQueueCb t !! i) as [q|] eqn:Eq; [|done]. cbn. pose proof (receive_law q) as Hr.
  destruct (QUCE_Receive_From_Queue q) as [[r' m'] q'] eqn:E. intros [= <- <- <-]. rewrite (queue_at i q) by done.
  destruct (contents q) as [|x l] eqn:El.
  - destruct Hr as [-> Hr]. split; [done|]. eapply with_queue_gains; [done|by rewrite Hr, El].
  - destruct Hr as (-> & -> & Hr). split_and!; [done|done|by eapply lookup_lt_Some|by cbn; rewrite length_insert|done..|].
    intros j. rewrite (queue_with i q) by done. by rewrite Hr.
Qed.
Lemma marked_spec e t : MailQueueCb (marked e t) = MailQueueCb t ∧ NumMsgs (marked e t) = NumMsgs t ∧
  NumMsgsInQueue (marked e t) = NumMsgsInQueue t ∧ events_set (EventGroupCb (marked e t)) = Z.lor (events_set (EventGroupCb t)) e.
Proof.
  unfold marked, mark. pose proof (set_law (EventGroupCb t) e) as Hs. destruct (EVCE_Set_Events _ _) as [r g]. by destruct Hs.
Qed.
Lemma marked_flagged e t : flagged t → flagged (marked e t).
Proof. unfold flagged. destruct (marked_spec e t) as (_ & _ & _ & ->). rewrite Z.lor_spec. by intros ->. Qed.
Lemma mark_flags i t : flagged (marked (mailbox_events i) t).
Proof.
  unfold flagged. destruct (marked_spec (mailbox_events i) t) as (_ & _ & _ & ->). unfold mailbox_events. rewrite !Z.lor_spec. change (Z.testbit EXE_MESSAGE_TYPE 0) with true. by rewrite !orb_true_r.
Qed.
Lemma marked_queue e t i : queue i (marked e t) = queue i t.
Proof. unfold queue. by destruct (marked_spec e t) as (-> & _). Qed.

(** *** Every step keeps the invariant *)
Lemma here_app i l1 l2 : here i (l1 ++ l2) = here i l1 + here i l2.
Proof. unfold here. rewrite filter_app, length_app. lia. Qed.
Lemma here_one i j : here i [j] = if decide (i = j) then 1 else 0.
Proof. unfold here. rewrite filter_cons, filter_nil. repeat case_decide; try done; congruence. Qed.
Lemma here_cons i j l : here i (j :: l) = (if decide (i = j) then 1 else 0) + here i l.
Proof. by rewrite <-here_one, <-here_app. Qed.
Lemma of_box_snoc i l j m : of_box i (l ++ [(j, m)]) = of_box i l ++ if decide (i = j) then [m] else [].
Proof. unfold of_box. rewrite filter_app, fmap_app, filter_cons, filter_nil. cbn. repeat case_decide; try done; congruence. Qed.
(** The counters follow a change of the levels. *)
Lemma count_spec i d t f : (i < EXE_NUM_MAILBOX)%nat → (∀ j, (j < EXE_NUM_MAILBOX)%nat → NumMsgsInQueue t !! j = Some (int32 (f j))) →
  NumMsgs t = int32 (total f) →
  (∀ j, (j < EXE_NUM_MAILBOX)%nat → NumMsgsInQueue (count i d t) !! j = Some (int32 (f j + if decide (j = i) then d else 0))) ∧
  NumMsgs (count i d t) = int32 (total (λ j, f j + if decide (j = i) then d else 0)).
Proof.
  intros Hi Hl Hn. split.
  - intros j Hj. cbn [count with_counts NumMsgsInQueue]. case_decide as E; [subst j; rewrite list_lookup_alter_eq|rewrite list_lookup_alter_ne by done];
      rewrite Hl by done; cbn; by rewrite ?int32_add_l, ?Z.add_0_r.
  - cbn [count with_counts NumMsgs]. by rewrite Hn, int32_add_l, total_add.
Qed.
Lemma counts_same c t' : (∀ i, (i < EXE_NUM_MAILBOX)%nat → NumMsgsInQueue (cb c) !! i = Some (int32 (level i c))) →
  NumMsgs (cb c) = int32 (total (λ i, level i c)) → NumMsgs t' = NumMsgs (cb c) → NumMsgsInQueue t' = NumMsgsInQueue (cb c) →
  ∀ c', cb c' = t' → (∀ i, level i c' = level i c) →
  (∀ i, (i < EXE_NUM_MAILBOX)%nat → NumMsgsInQueue (cb c') !! i = Some (int32 (level i c'))) ∧ NumMsgs (cb c') = int32 (total (λ i, level i c')).
Proof.
  intros Hl Hn E1 E2 c' -> E. split; [intros i Hi; by rewrite E2, E, Hl|]. rewrite E1, Hn. f_equal. by apply total_ext.
Qed.
(** A step that changes no level and no counter. *)
Lemma mailed_same c c' : mailed c → length (MailQueueCb (cb c')) = length (MailQueueCb (cb c)) →
  NumMsgs (cb c') = NumMsgs (cb c) → NumMsgsInQueue (cb c') = NumMsgsInQueue (cb c) →
  (∀ i, level i c' = level i c) → (∀ i, length (queue i (cb c')) ≤ QUEUE_MAX)%nat → (∀ i, i ∈ posted c' → (i < EXE_NUM_MAILBOX)%nat) →
  pc_ok (pc c') → (∀ i, of_box i (got c') ++ in_hand i (pc c') ++ queue i (cb c') = of_box i (sent c')) → wakes c' → mailed c'.
Proof.
  intros [M1 M2 M3 M4 M5 M6 M7 M8] Hq Hn Hc Hl Hr Hp Hk Ho Hw.
  destruct (counts_same c (cb c') M5 M6 Hn Hc c' eq_refl Hl) as [C1 C2]. split; try done. by rewrite Hq.
Qed.
(** The same for the mailboxes as they are. *)
Lemma level_same c c' i : queue i (cb c') = queue i (cb c) → here i (posted c') = here i (posted c) → in_hand i (pc c') = in_hand i (pc c) →
  level i c' = level i c.
Proof. intros E1 E2 E3. unfold level. by rewrite E1, E2, E3. Qed.
Ltac proj := cbn [cb posted counted pc got sent] in *.
Lemma post_mailed t ps cs k g s i m t' : mailed (mkConfig t ps cs k g s) → post i m t = Some (NU_SUCCESS, t') →
  mailed (mkConfig t' (i :: ps) cs k g (s ++ [(i, m)])).
Proof.
  intros HM E. apply post_gains in E as [(Hi & Hlen & Hn & Hc & Hg & Hq) Hroom].
  change (if NU_SUCCESS =? NU_SUCCESS then [m] else []) with [m] in Hq.
  destruct HM as [M1 M2 M3 M4 M5 M6 M7 M8]. proj. specialize (Hroom eq_refl).
  apply (mailed_same (mkConfig t ps cs k g s)); proj; [by split|done..| | | |done| |].
  - intros j. unfold level. proj. rewrite Hq, length_app, here_cons. case_decide; cbn; lia.
  - intros j. rewrite Hq, length_app. case_decide; [subst j; cbn; lia|]. cbn. rewrite Nat.add_0_r. apply M2.
  - intros j [->|Hj]%elem_of_cons; [lia|by apply M3].
  - intros j. rewrite Hq, of_box_snoc, <-M7. by rewrite <-!app_assoc.
  - unfold wakes. proj. destruct k; try done; left; right; by left.
Qed.
Lemma full_mailed t ps cs k g s i m r t' : mailed (mkConfig t ps cs k g s) → post i m t = Some (r, t') → r ≠ NU_SUCCESS →
  mailed (mkConfig t' ps cs k g s).
Proof.
  intros HM E Hr. apply post_gains in E as [(Hi & Hlen & Hn & Hc & Hg & Hq) _]. rewrite (proj2 (Z.eqb_neq _ _) Hr) in Hq.
  assert (∀ j, queue j t' = queue j t) as Hq' by (intros j; rewrite Hq; case_decide; by rewrite app_nil_r).
  pose proof HM as [M1 M2 M3 M4 M5 M6 M7 M8]. proj.
  apply (mailed_same (mkConfig t ps cs k g s)); proj; try done.
  - intros j. apply level_same; [apply Hq'|done..].
  - intros j. by rewrite Hq'.
  - intros j. by rewrite Hq'.
  - unfold wakes, busy, flagged in *. proj. destruct k; try done; rewrite Hg; by setoid_rewrite Hq'.
Qed.
Lemma count_mailed t l1 i l2 cs k g s : mailed (mkConfig t (l1 ++ i :: l2) cs k g s) →
  mailed (mkConfig (count i 1 t) (l1 ++ l2) (i :: cs) k g s).
Proof.
  intros [M1 M2 M3 M4 M5 M6 M7 M8]. proj. assert (i < EXE_NUM_MAILBOX)%nat as Hi by (apply M3; set_solver).
  destruct (count_spec i 1 t _ Hi M5 M6) as [C1 C2].
  assert (∀ j, level j (mkConfig (count i 1 t) (l1 ++ l2) (i :: cs) k g s) =
    level j (mkConfig t (l1 ++ i :: l2) cs k g s) + if decide (j = i) then 1 else 0) as Hl.
  { intros j. unfold level. cbn [cb posted pc]. rewrite !here_app, here_cons. change (queue j (count i 1 t)) with (queue j t). lia. }
  split; proj; try done.
  - intros j Hj. apply M3. set_solver.
  - intros j Hj. by rewrite C1, Hl.
  - rewrite C2. f_equal. apply total_ext. intros j _. by rewrite Hl.
  - unfold wakes. proj. destruct k; try done; left; right; by right.
Qed.
Lemma marked_mailed t ps cs k g s e cs' : mailed (mkConfig t ps cs k g s) →
  wakes (mkConfig (marked e t) ps cs' k g s) → mailed (mkConfig (marked e t) ps cs' k g s).
Proof.
  intros HM Hw. pose proof HM as [M1 M2 M3 M4 M5 M6 M7 M8]. proj. destruct (marked_spec e t) as (Hq & Hn & Hc & _).
  apply (mailed_same (mkConfig t ps cs k g s)); proj; try done.
  - by rewrite Hq.
  - intros j. apply level_same; [apply marked_queue|done..].
  - intros j. by rewrite marked_queue.
  - intros j. by rewrite marked_queue.
Qed.
Lemma mark_wakes t ps cs k g s i : wakes (mkConfig (marked (mailbox_events i) t) ps cs k g s).
Proof. pose proof (mark_flags i t). unfold wakes, busy. proj. destruct k; auto. Qed.
Lemma signal_wakes t ps cs k g s e : wakes (mkConfig t ps cs k g s) → wakes (mkConfig (marked e t) ps cs k g s).
Proof.
  unfold wakes, busy. proj. destruct k; try done; (intros [[Hf|Hb]|Hq]; [left; left; by apply marked_flagged|left; by right|
    right; intros; rewrite marked_queue; auto]).
Qed.
(** The task may move when it tells what it will need to wake. *)
Lemma moved_mailed t ps cs k k' g s : mailed (mkConfig t ps cs k g s) → (∀ i, in_hand i k = []) → (∀ i, in_hand i k' = []) → pc_ok k' →
  wakes (mkConfig t ps cs k' g s) → mailed (mkConfig t ps cs k' g s).
Proof.
  intros HM H1 H2 Hk Hw. pose proof HM as [M1 M2 M3 M4 M5 M6 M7 M8]. proj.
  apply (mailed_same (mkConfig t ps cs k g s)); proj; try done.
  - intros j. apply level_same; [done..|]. proj. by rewrite H1, H2.
  - intros j. by rewrite H2, <-M7, H1.
Qed.
Lemma queue_beyond t i : length (MailQueueCb t) = EXE_NUM_MAILBOX → (EXE_NUM_MAILBOX ≤ i)%nat → queue i t = [].
Proof. intros E Hi. unfold queue. by rewrite lookup_ge_None_2 by lia. Qed.
(** With no sender in the middle the counters are right. *)
Lemma level_quiet t cs k g s i : (∀ i, in_hand i k = []) → level i (mkConfig t [] cs k g s) = Z.of_nat (length (queue i t)).
Proof. intros Hk. unfold level. proj. rewrite Hk. change (here i []) with 0. cbn [length]. lia. Qed.
Lemma check_mailed t ps cs g s : mailed (mkConfig t ps cs Checks g s) →
  mailed (mkConfig t ps cs (if NumMsgs t =? 0 then Retrieves else Reminds 0) g s).
Proof.
  intros HM. pose proof HM as [M1 M2 M3 M4 M5 M6 M7 M8]. proj. apply (moved_mailed _ _ _ Checks); try done.
  - intros j. by destruct (NumMsgs t =? 0).
  - destruct (NumMsgs t =? 0); [done|]. apply Nat.ltb_lt. reflexivity.
  - unfold wakes. proj. destruct (Z.eqb_spec (NumMsgs t) 0) as [E|E]; [|right; lia].
    destruct ps as [|p ps]; [right|left; right; by left].
    assert (∀ i, (i < EXE_NUM_MAILBOX)%nat → level i (mkConfig t [] cs Checks g s) = 0) as Hz.
    { apply total_zero; [|by rewrite <-M6]. intros i _. rewrite level_quiet by done. specialize (M2 i). lia. }
    intros i. destruct (decide (i < EXE_NUM_MAILBOX)%nat) as [Hi|Hi]; [|by apply queue_beyond; [|lia]].
    specialize (Hz i Hi). rewrite level_quiet in Hz by done. apply nil_length_inv. lia.
Qed.
Lemma remind_mailed t ps cs i g s n : mailed (mkConfig t ps cs (Reminds i) g s) → NumMsgsInQueue t !! i = Some n →
  mailed (mkConfig (if n =? 0 then t else marked (mailbox_events i) t) ps cs (if decide (S i = EXE_NUM_MAILBOX) then Retrieves else Reminds (S i)) g s).
Proof.
  intros HM En. pose proof HM as [M1 M2 M3 M4 M5 M6 M7 M8]. proj. cbn [pc_ok] in M4.
  set (k' := if decide (S i = EXE_NUM_MAILBOX) then Retrieves else Reminds (S i)).
  assert ((∀ j, in_hand j k' = []) ∧ pc_ok k') as [Hk Hok].
  { unfold k'. case_decide; [done|]. split; [done|]. cbn. unfold EXE_NUM_MAILBOX in *. lia. }
  destruct (Z.eqb_spec n 0) as [->|Hn].
  - apply (moved_mailed _ _ _ (Reminds i)); try done. unfold wakes in *. proj.
    assert (busy (mkConfig t ps cs k' g s) ∨ ∀ j, (j < S i)%nat → queue j t = []) as Hw.
    { destruct M8 as [Hb|Hb]; [by left|]. destruct ps as [|p ps]; [right|left; right; by left].
      intros j Hj. destruct (decide (j = i)) as [->|]; [|apply Hb; lia].
      rewrite M5 in En by done. injection En as En. rewrite level_quiet in En by done. pose proof (M2 i).
      rewrite int32_small in En by (unfold QUEUE_MAX in *; lia). apply nil_length_inv. lia. }
    unfold k' in *. case_decide as E; [|exact Hw]. destruct Hw as [Hw|Hw]; [by left|right]. intros j.
    destruct (decide (j < S i)%nat); [by apply Hw|]. apply queue_beyond; [done|lia].
  - assert (mailed (mkConfig (marked (mailbox_events i) t) ps cs (Reminds i) g s)) as HM' by
      (eapply marked_mailed; [exact HM|apply mark_wakes]).
    apply (moved_mailed _ _ _ (Reminds i)); try done. apply mark_wakes.
Qed.
Lemma events_mailed t ps cs k g s gr k' : mailed (mkConfig t ps cs k g s) → (∀ i, in_hand i k = []) → (∀ i, in_hand i k' = []) → pc_ok k' →
  (∀ c, pc c = k' → wakes c) → mailed (mkConfig (with_events gr t) ps cs k' g s).
Proof.
  intros HM H1 H2 Hk Hw. pose proof HM as [M1 M2 M3 M4 M5 M6 M7 M8]. proj.
  apply (mailed_same (mkConfig t ps cs k g s)); proj; try done.
  - intros j. apply level_same; [done..|]. proj. by rewrite H1, H2.
  - intros j. rewrite H2, <-M7, H1. done.
  - by apply Hw.
Qed.
Lemma empty_mailed t ps cs flags i g s m t' : mailed (mkConfig t ps cs (Reads flags i) g s) → (i < boxes)%nat →
  fetch i t = Some (NU_QUEUE_EMPTY, m, t') → mailed (mkConfig t' ps cs (Reads flags (S i)) g s).
Proof.
  intros HM Hi E%fetch_spec. destruct (queue i t) as [|x l]; [|by destruct E as [[=] _]].
  destruct E as (_ & _ & Hlen & Hn & Hc & Hg & Hq). pose proof HM as [M1 M2 M3 M4 M5 M6 M7 M8]. proj.
  assert (∀ j, queue j t' = queue j t) as Hq' by (intros j; rewrite Hq; case_decide; by rewrite app_nil_r).
  apply (mailed_same (mkConfig t ps cs (Reads flags i) g s)); proj; try done.
  - intros j. apply level_same; [apply Hq'|done..].
  - intros j. by rewrite Hq'.
  - intros j. by rewrite Hq', <-M7.
Qed.
Lemma fetch_mailed t ps cs flags i g s m t' : mailed (mkConfig t ps cs (Reads flags i) g s) → (i < boxes)%nat →
  fetch i t = Some (NU_SUCCESS, Some m, t') → mailed (mkConfig t' ps cs (Counts flags i m) g s).
Proof.
  intros HM Hi E%fetch_spec. destruct (queue i t) as [|x l] eqn:Eq; [by destruct E as [[=] _]|].
  destruct E as (_ & [= <-] & _ & Hlen & Hn & Hc & Hq). pose proof HM as [M1 M2 M3 M4 M5 M6 M7 M8]. proj.
  apply (mailed_same (mkConfig t ps cs (Reads flags i) g s)); proj; try done.
  - intros j. unfold level. proj. cbn [in_hand]. rewrite Hq. case_decide as Ej.
    + subst j. rewrite decide_True, Eq by done. cbn [length]. lia.
    + by rewrite decide_False by congruence.
  - intros j. rewrite Hq. case_decide as Ej; [subst j|apply M2]. specialize (M2 i). rewrite Eq in M2. cbn [length] in M2. lia.
  - intros j. rewrite <-M7. cbn [in_hand]. rewrite Hq. case_decide as Ej.
    + subst j. rewrite decide_True, Eq by done. done.
    + by rewrite decide_False by congruence.
Qed.
Lemma uncount_mailed t ps cs flags i m g s : (boxes ≤ EXE_NUM_MAILBOX)%nat → mailed (mkConfig t ps cs (Counts flags i m) g s) →
  mailed (mkConfig (count i (-1) t) ps cs (Reads flags (S i)) (g ++ [(i, m)]) s).
Proof.
  intros boxes_ok [M1 M2 M3 M4 M5 M6 M7 M8]. proj. cbn [pc_ok] in M4. assert (i < EXE_NUM_MAILBOX)%nat as Hi by lia.
  destruct (count_spec i (-1) t _ Hi M5 M6) as [C1 C2].
  assert (∀ j, level j (mkConfig (count i (-1) t) ps cs (Reads flags (S i)) (g ++ [(i, m)]) s) =
    level j (mkConfig t ps cs (Counts flags i m) g s) + if decide (j = i) then -1 else 0) as Hl.
  { intros j. unfold level. proj. cbn [in_hand]. change (queue j (count i (-1) t)) with (queue j t). repeat case_decide; cbn [length]; try congruence; lia. }
  split; proj; try done.
  - intros j Hj. by rewrite C1, Hl.
  - rewrite C2. f_equal. apply total_ext. intros j _. by rewrite Hl.
  - intros j. rewrite of_box_snoc, <-M7. cbn [in_hand]. change (queue j (count i (-1) t)) with (queue j t).
    rewrite <-app_assoc. repeat case_decide; try congruence; done.
Qed.
Lemma start_mailed c : start c → mailed c.
Proof.
  intros (Hn & Hc & Hq & Hp & Ht & Hk & Hg & Hs). destruct c as [t ps cs k g s]. proj. subst.
  assert (∀ i, queue i t = []) as He.
  { intros i. unfold queue. rewrite <-list_lookup_fmap, Hq. destruct (decide (i < EXE_NUM_MAILBOX)%nat).
    - by rewrite lookup_replicate_2.
    - by rewrite lookup_ge_None_2 by (rewrite length_replicate; lia). }
  assert (∀ i, level i (mkConfig t [] [] Checks [] []) = 0) as Hl by (intros i; rewrite level_quiet by done; by rewrite He).
  split; proj; try done.
  - apply (f_equal length) in Hq. by rewrite length_fmap, length_replicate in Hq.
  - intros i. rewrite He. cbn. unfold QUEUE_MAX. lia.
  - intros i ?%elem_of_nil. done.
  - intros i Hi. rewrite Hc, lookup_replicate_2, Hl by done. done.
  - rewrite Hn. unfold total. by rewrite !Hl.
Qed.
Lemma step_mailed c c' : (boxes ≤ EXE_NUM_MAILBOX)%nat → mailed c → step c c' → mailed c'.
Proof.
  intros boxes_ok HM Hs. destruct Hs.
  - by eapply post_mailed.
  - by eapply full_mailed.
  - by apply count_mailed.
  - eapply marked_mailed; [exact HM|apply mark_wakes].
  - eapply marked_mailed; [exact HM|apply signal_wakes, (ml_wake _ HM)].
  - by apply check_mailed.
  - by apply remind_mailed.
  - apply (events_mailed _ _ _ Retrieves); [done|done|by case_match|case_match; [done|cbn; lia]|].
    intros c Hc. unfold wakes. rewrite Hc. by case_match.
  - apply (moved_mailed _ _ _ (Reads flags i)); [done..|cbn; lia|done].
  - by eapply empty_mailed.
  - by eapply fetch_mailed.
  - by apply uncount_mailed.
  - by apply (moved_mailed _ _ _ (Reads flags boxes)).
Qed.
Lemma reach_mailed c : (boxes ≤ EXE_NUM_MAILBOX)%nat → reach c → mailed c.
Proof. intros Hb. induction 1; [by apply start_mailed|by eapply step_mailed]. Qed.
Lemma mask_message : Z.testbit mask 0 = true.
Proof. unfold mask, wait_mask. by destruct signals. Qed.
Lemma blocked_unflagged c : blocked c → ¬ flagged (cb c).
Proof.
  intros [_ E] Hf. pose proof (retrieve_law (EventGroupCb (cb c)) mask) as Hr. rewrite E in Hr.
  apply (f_equal (λ z, Z.testbit z 0)) in Hr. rewrite Z.land_spec, Hf, mask_message in Hr. done.
Qed.
(** C12: whatever the interleaving of the senders, their interrupts and the task that reads,
    every mailbox delivers each message once and in the order of sending; and when the task
    waits in the kernel and no sender is inside a call, no mailbox holds a message: all
    messages sent have been delivered.  A wake-up is never lost, although one event stands
    for many messages, is consumed before they are read, and the counters from which the task
    renews it are behind the queues. *)
Theorem no_wakeup_is_lost c : (boxes ≤ EXE_NUM_MAILBOX)%nat → reach c →
  (∀ i, of_box i (got c) ++ in_hand i (pc c) ++ queue i (cb c) = of_box i (sent c)) ∧
  (blocked c → posted c = [] → counted c = [] → ∀ i, queue i (cb c) = [] ∧ of_box i (got c) = of_box i (sent c)).
Proof.
  intros Hboxes [M1 M2 M3 M4 M5 M6 M7 M8]%reach_mailed; [|done]. split; [exact M7|]. intros Hb Hp Hc i.
  pose proof (blocked_unflagged c Hb) as Hf. destruct Hb as [Hk _]. unfold wakes in M8. rewrite Hk in M8.
  destruct M8 as [[?|[?|?]]|He]; [done..|]. split; [apply He|]. rewrite <-M7, He, Hk. by rewrite app_nil_r.
Qed.

(** ** The operations of the code are runs of steps *)
Variable in_thread : bool.
Variable junk_message : sExeMsg.
Abbreviation exe := (exe (Q := Q) (G := G) (P := P)).
Implicit Types (s : exe) (T : Z).
Definition tasks_kept : relation exe := keeping ExeTaskCb.
Lemma kept_modify (f : exe → exe) : (∀ s, ExeTaskCb (f s) = ExeTaskCb s) → respects tasks_kept (modify f).
Proof. intros Hf s [] s' [= <-]. apply Hf. Qed.
Lemma kept_enable : respects tasks_kept (ExeInterruptEnable (Q := Q) (G := G) (P := P)).
Proof. unfold ExeInterruptEnable. intros s [] s' E. rewrite (bind_Ok _ _ _ _ _ eq_refl) in E. destruct (ExeIntStack s); [done|]. by injection E as <-. Qed.
Lemma kept_free p f : respects tasks_kept (free_partition (Q := Q) (G := G) (P := P) p f).
Proof.
  unfold free_partition. intros s [] s' E. rewrite (bind_Ok _ _ _ _ _ eq_refl) in E. destruct (PMCE_Deallocate_Partition _ _) as [r pl].
  apply bind_Ok_inv in E as ([] & s1 & [= <-] & E). destruct (negb _); [|by injection E as <-]. by injection E as <-.
Qed.
#[local] Hint Resolve kept_enable kept_free : respects.
#[local] Hint Extern 1 (respects tasks_kept (modify _)) => apply kept_modify; reflexivity : respects.
Lemma kept_fault a b : respects tasks_kept (MonFault (Q := Q) (G := G) (P := P) a b).
Proof. unfold MonFault. respects. Qed.
#[local] Hint Resolve kept_fault : respects.
Lemma kept_thread : respects tasks_kept (check_thread (Q := Q) (G := G) (P := P) in_thread).
Proof. unfold check_thread. respects. Qed.
Lemma kept_check p z : respects tasks_kept (check_buffer_mark (Q := Q) (G := G) (P := P) p z).
Proof. unfold check_buffer_mark, ExeFault. respects. Qed.
Lemma kept_disable z : respects tasks_kept (ExeInterruptDisable (Q := Q) (G := G) (P := P) z).
Proof. unfold ExeInterruptDisable. respects. Qed.
Lemma kept_lower : respects tasks_kept (lower_level (Q := Q) (G := G) (P := P)).
Proof. unfold lower_level. respects. Qed.
#[local] Hint Resolve kept_thread kept_check kept_disable kept_lower : respects.
Lemma kept_buffer p : respects tasks_kept (ExeMsgBufferFree (Q := Q) (G := G) (P := P) in_thread p).
Proof. unfold ExeMsgBufferFree. respects. Qed.
(** The control block of [T] is [t]. *)
Definition at_task T t s : Prop := ExeTaskCb s !! T = Some t.
Lemma kept_at {B} T t (m : M exe B) s b s' : respects tasks_kept m → at_task T t s → m s = Ok (b, s') → at_task T t s'.
Proof. intros Hm Ht E%Hm. unfold at_task. by rewrite E. Qed.
Lemma the_task_at {B} T t (f : ExeTaskCbT → M exe B) s : at_task T t s → (the_task T ≫= f) s = f t s.
Proof. intros E. apply bind_Ok. unfold the_task. rewrite (bind_Ok _ _ _ _ _ eq_refl). by rewrite E. Qed.
Lemma put_task_at {B} T t (f : () → M exe B) s b s' : (put_task T t ≫= f) s = Ok (b, s') → ∃ s1, at_task T t s1 ∧ f () s1 = Ok (b, s').
Proof. intros ([] & s1 & [= <-] & E)%bind_Ok_inv. eexists; split; [|exact E]. unfold at_task. cbn. by rewrite lookup_insert_eq. Qed.
Lemma set_events_at T t e s s' : at_task T t s → set_events T e s = Ok ((), s') → at_task T (marked e t) s'.
Proof.
  unfold set_events. intros Ht E. rewrite (the_task_at T t) in E by done. unfold marked. destruct (mark e t) as [r t1] eqn:Em.
  apply put_task_at in E as (s1 & H1 & E). eapply kept_at; [|exact H1|exact E]. unfold CallExeFault. respects.
Qed.
Lemma then_at {A B} T t (m : M exe A) (f : A → M exe B) s b s' : respects tasks_kept m → at_task T t s →
  (m ≫= f) s = Ok (b, s') → ∃ a s1, m s = Ok (a, s1) ∧ at_task T t s1 ∧ f a s1 = Ok (b, s').
Proof. intros Hm Ht (a & s1 & E1 & E2)%bind_Ok_inv. exists a, s1. split_and!; [done|by eapply kept_at|done]. Qed.
(** [ExeMsgSend] without anything in between: the message is posted, counted and marked, or it is not sent. *)
Lemma send_run T t i id p size s r s' : at_task T t s → ExeMsgSend in_thread T i id p size s = Ok (r, s') →
  ∃ t', at_task T t' s' ∧ ∀ ps cs k g sn,
    rtc step (mkConfig t ps cs k g sn) (mkConfig t' ps cs k g (sn ++ if r =? 0 then [(i, mkMsg id size p)] else [])).
Proof.
  intros Ht E. unfold ExeMsgSend in E.
  apply (then_at T t) in E as (? & s1 & _ & Ht1 & E); [|respects|exact Ht].
  apply (then_at T t) in E as (? & s2 & _ & Ht2 & E); [|respects|exact Ht1].
  rewrite (the_task_at T t) in E by done. destruct (post i (mkMsg id size p) t) as [[errCode t1]|] eqn:Ep; [|done].
  erewrite bind_Ok in E by reflexivity. apply put_task_at in E as (s3 & Ht3 & E). destruct (Z.eqb_spec errCode NU_SUCCESS) as [->|Hne].
  - apply (then_at T t1) in E as (? & s4 & _ & Ht4 & E); [|respects|exact Ht3].
    rewrite (the_task_at T t1) in E by done. apply put_task_at in E as (s5 & Ht5 & E).
    apply (then_at T (count i 1 t1)) in E as (? & s6 & _ & Ht6 & E); [|respects|exact Ht5].
    apply bind_Ok_inv in E as ([] & s7 & E7%(set_events_at _ _ _ _ _ Ht6) & E).
    eapply then_at in E as (? & s8 & _ & Ht8 & E); [|respects|exact E7]. injection E as <- <-.
    eexists. split; [exact Ht8|]. intros ps cs k g sn. change (0 =? 0) with true. cbv iota.
    eapply rtc_l; [by eapply step_post|]. eapply rtc_l; [apply (step_count _ [] i ps)|].
    eapply rtc_once. apply (step_mark _ ps [] i cs).
  - apply bind_Ok_inv in E as ([] & s4 & E4 & [= <- <-]).
    assert (∃ t', at_task T t' s4 ∧ ∀ ps cs k g sn, rtc step (mkConfig t1 ps cs k g sn) (mkConfig t' ps cs k g sn)) as (t' & Ht' & Hr).
    { destruct ((T =? EXE_IOP_ID) && (i =? 0)%nat); [destruct p as [p|]|].
      - exists t1. split; [eapply kept_at; [|exact Ht3|exact E4]; respects|done].
      - eexists. split; [by eapply set_events_at|]. intros. rewrite Z.lor_comm. apply rtc_once, step_signal.
      - exists t1. split; [eapply kept_at; [|exact Ht3|exact E4]; respects|done]. }
    exists t'. split; [done|]. intros ps cs k g sn. change (-1 =? 0) with false. cbv iota. rewrite app_nil_r.
    eapply rtc_l; [by eapply step_full|apply Hr].
Qed.
Lemma reminds_run T n : ∀ i t s s', (S n + i = EXE_NUM_MAILBOX)%nat → at_task T t s →
  mfor (remind T) (seq i (S n)) s = Ok ((), s') →
  ∃ t', at_task T t' s' ∧ ∀ ps cs g sn, rtc step (mkConfig t ps cs (Reminds i) g sn) (mkConfig t' ps cs Retrieves g sn).
Proof.
  induction n as [|n IH]; intros i t s s' Hi Ht E; cbn [seq mfor] in E; apply bind_Ok_inv in E as ([] & s1 & E1 & E);
    unfold remind in E1; rewrite (the_task_at T t) in E1 by done; apply bind_Ok_inv in E1 as (k & s2 & E2 & E1);
    (destruct (NumMsgsInQueue t !! i) as [k'|] eqn:Ek; [|done]); injection E2 as <- <-;
    assert (at_task T (if k' =? 0 then t else marked (mailbox_events i) t) s1) as Ht1 by
      (destruct (k' =? 0); [by injection E1 as <-|by eapply set_events_at]).
  - injection E as <-. eexists. split; [exact Ht1|]. intros. eapply rtc_once.
    pose proof (step_remind t ps cs i g sn k' Ek) as Hs. by rewrite decide_True in Hs by lia.
  - destruct (IH (S i) _ _ _ ltac:(lia) Ht1 E) as (t' & Ht' & Hr). exists t'. split; [done|]. intros. eapply rtc_l; [|apply Hr].
    pose proof (step_remind t ps cs i g sn k' Ek) as Hs. by rewrite decide_False in Hs by lia.
Qed.
Definition after_wake (flags : Z) : reader := if Z.land flags EXE_MESSAGE_TYPE =? 0 then Checks else Reads flags 0.
Lemma wait_run T t s r s' : at_task T t s → ExeEventWait T signals EXE_MESSAGE_TYPE NU_SUSPEND s = Ok (r, s') →
  ∃ t', at_task T t' s' ∧ ∀ ps cs g sn,
    rtc step (mkConfig t ps cs Checks g sn) (mkConfig t' ps cs (match r with Some flags => after_wake flags | None => Retrieves end) g sn) ∧
    (r = None → blocked (mkConfig t' ps cs Retrieves g sn)).
Proof.
  intros Ht E. unfold ExeEventWait in E. rewrite (the_task_at T t) in E by done.
  apply bind_Ok_inv in E as ([] & s1 & E1 & E).
  assert (∃ t1, at_task T t1 s1 ∧ ∀ ps cs g sn, rtc step (mkConfig t ps cs Checks g sn) (mkConfig t1 ps cs Retrieves g sn)) as (t1 & Ht1 & H1).
  { pose proof (λ ps cs g sn, step_check t ps cs g sn) as Hc. destruct (NumMsgs t =? 0).
    - injection E1 as <-. exists t. split; [done|]. intros. apply rtc_once, Hc.
    - destruct (reminds_run T 4 0 t s s1 eq_refl Ht E1) as (t1 & Ht1 & H1). exists t1. split; [done|]. intros. eapply rtc_l; [apply Hc|apply H1]. }
  rewrite (the_task_at T t1) in E by done. fold mask in E. pose proof (retrieve_law (EventGroupCb t1) mask) as Hr.
  destruct (EVCE_Retrieve_Events (EventGroupCb t1) mask NU_SUSPEND) as [|ret events gr] eqn:Er.
  - injection E as <- <-. exists t1. split; [done|]. intros. split; [apply H1|done].
  - destruct Hr as (-> & -> & Hne & _). apply put_task_at in E as (s2 & Ht2 & [= <- <-]). eexists. split; [exact Ht2|]. intros. split; [|done].
    eapply rtc_r; [apply H1|]. by eapply step_wake.
Qed.
Lemma read_run T t i flags s m s' : at_task T t s → (i < boxes)%nat → Z.land flags (box_flag i) ≠ 0 →
  ExeMsgRead junk_message T i s = Ok (m, s') →
  ∃ t', at_task T t' s' ∧ ∀ ps cs g sn,
    rtc step (mkConfig t ps cs (Reads flags i) g sn)
      (mkConfig t' ps cs (Reads flags (S i)) (g ++ match m with Some m => [(i, m)] | None => [] end) sn).
Proof.
  intros Ht Hi Hf E. unfold ExeMsgRead in E. rewrite (the_task_at T t) in E by done.
  destruct (fetch i t) as [[[errCode m0] t1]|] eqn:Ef; [|done]. erewrite bind_Ok in E by reflexivity.
  apply put_task_at in E as (s1 & Ht1 & E). pose proof (fetch_spec _ _ _ _ _ Ef) as Hs. destruct (queue i t) as [|x l].
  - destruct Hs as [-> _]. injection E as <- <-. exists t1. split; [done|]. intros. rewrite app_nil_r. eapply rtc_once. by eapply step_empty.
  - destruct Hs as (-> & -> & _). change (NU_SUCCESS =? NU_QUEUE_EMPTY) with false in E. cbv iota in E.
    change (negb (NU_SUCCESS =? NU_SUCCESS)) with false in E. erewrite bind_Ok in E by reflexivity.
    apply (then_at T t1) in E as (? & s2 & _ & Ht2 & E); [|respects|exact Ht1]. rewrite (the_task_at T t1) in E by done.
    apply put_task_at in E as (s3 & Ht3 & E).
    eapply then_at in E as (? & s4 & _ & Ht4 & E); [|respects|exact Ht3]. injection E as <- <-. eexists. split; [exact Ht4|].
    intros. eapply rtc_l; [by eapply step_fetch|]. eapply rtc_once. apply step_uncount.
Qed.

(** ** Nothing stops a task that runs alone *)
Lemma set_events_ok T t e s : at_task T t s → ∃ s', set_events T e s = Ok ((), s') ∧ at_task T (marked e t) s'.
Proof.
  intros Ht. destruct (set_events T e s) as [[[] s']| | |] eqn:E; [by exists s'; split; [|by eapply set_events_at]|exfalso..];
    unfold set_events in E; rewrite (the_task_at T t) in E by done; destruct (mark e t) as [r t1];
    rewrite (bind_Ok _ _ _ _ _ eq_refl) in E; by destruct (negb _).
Qed.
(** A mailbox that counts messages has its event after the reminders. *)
Definition box_set (i : nat) t : Prop := Z.testbit (events_set (EventGroupCb t)) (Z.of_nat i + 3) = true ∧ flagged t.
Lemma box_set_marked i e t : box_set i t → box_set i (marked e t).
Proof.
  intros [Hb Hf]. split; [|by apply marked_flagged]. destruct (marked_spec e t) as (_ & _ & _ & ->). by rewrite Z.lor_spec, Hb.
Qed.
Lemma mailbox_events_bit i : (i < EXE_NUM_MAILBOX)%nat → Z.testbit (mailbox_events i) (Z.of_nat i + 3) = true.
Proof. unfold EXE_NUM_MAILBOX. intros Hi. do 5 (destruct i as [|i]; [done|]). lia. Qed.
Lemma mark_sets i t : (i < EXE_NUM_MAILBOX)%nat → box_set i (marked (mailbox_events i) t).
Proof.
  intros Hi. split; [|apply mark_flags]. destruct (marked_spec (mailbox_events i) t) as (_ & _ & _ & ->).
  by rewrite Z.lor_spec, mailbox_events_bit, orb_true_r.
Qed.
(** The same mailboxes and counters. *)
Definition same_mail t t' : Prop := MailQueueCb t' = MailQueueCb t ∧ NumMsgs t' = NumMsgs t ∧ NumMsgsInQueue t' = NumMsgsInQueue t.
Lemma marked_mail e t : same_mail t (marked e t).
Proof. by destruct (marked_spec e t) as (? & ? & ? & _). Qed.
#[local] Instance same_mail_preorder : PreOrder same_mail.
Proof. split; [done|]. intros t1 t2 t3 (A1 & A2 & A3) (B1 & B2 & B3). unfold same_mail. by rewrite B1, B2, B3. Qed.
Definition counting t : Prop := ∀ i, (i < EXE_NUM_MAILBOX)%nat → is_Some (NumMsgsInQueue t !! i).
Lemma reminds_ok T : ∀ js t s, at_task T t s → counting t → (∀ i, i ∈ js → (i < EXE_NUM_MAILBOX)%nat) →
  ∃ t' s', mfor (remind T) js s = Ok ((), s') ∧ at_task T t' s' ∧ same_mail t t' ∧
    (∀ j, box_set j t → box_set j t') ∧ ∀ j n, j ∈ js → NumMsgsInQueue t !! j = Some n → n ≠ 0 → box_set j t'.
Proof.
  induction js as [|i js IH]; intros t s Ht Hlen His; cbn [mfor].
  { exists t, s. split_and!; [done..|]. intros j n ?%elem_of_nil. done. }
  destruct (Hlen i) as [n En]; [apply His; by left|].
  set (t1 := if n =? 0 then t else marked (mailbox_events i) t).
  assert (∃ s1, remind T i s = Ok ((), s1) ∧ at_task T t1 s1) as (s1 & E1 & Ht1).
  { unfold remind. rewrite (the_task_at T t) by done. rewrite En. erewrite bind_Ok by reflexivity. unfold t1. destruct (n =? 0); [by exists s|].
    by apply set_events_ok. }
  assert (same_mail t t1) as Hsame by (unfold t1; destruct (n =? 0); [done|apply marked_mail]).
  assert (NumMsgsInQueue t1 = NumMsgsInQueue t) as Hc by apply Hsame.
  destruct (IH t1 s1 Ht1) as (t' & s' & E & Ht' & Hs' & Hb & Hset); [intros j; rewrite Hc; apply Hlen|intros j Hj; apply His; by right|].
  exists t', s'. rewrite (bind_Ok _ _ _ _ _ E1). split_and!; [done|done|by etrans| |].
  - intros j Hj. apply Hb. unfold t1. destruct (n =? 0); [done|by apply box_set_marked].
  - intros j k [->|Hj]%elem_of_cons Ek Hk; [|by apply (Hset j k); rewrite ?Hc]. apply Hb. unfold t1. rewrite En in Ek. injection Ek as ->.
    rewrite (proj2 (Z.eqb_neq _ _) Hk). apply mark_sets, His. by left.
Qed.
Lemma box_flag_bit i z : (i < EXE_NUM_MAILBOX)%nat → Z.testbit z (Z.of_nat i + 3) = true → Z.land z (box_flag i) ≠ 0.
Proof.
  intros Hi Hz E. apply (f_equal (λ x, Z.testbit x (Z.of_nat i + 3))) in E. rewrite Z.land_spec, Hz, Z.bits_0 in E. revert E.
  unfold EXE_NUM_MAILBOX in Hi. do 5 (destruct i as [|i]; [done|]). lia.
Qed.
Lemma mask_bit i : (i < EXE_NUM_MAILBOX)%nat → Z.testbit mask (Z.of_nat i + 3) = true.
Proof. unfold EXE_NUM_MAILBOX, mask, wait_mask. intros Hi. do 5 (destruct i as [|i]; [by destruct signals|]). lia. Qed.
(** A wait returns when a mailbox counts messages, with the event of each that does, and
    leaves no event. *)
Lemma wait_ok T t s : at_task T t s → counting t →
  ∃ r t' s', ExeEventWait T signals EXE_MESSAGE_TYPE NU_SUSPEND s = Ok (r, s') ∧ at_task T t' s' ∧ same_mail t t' ∧
    match r with
    | None => NumMsgs t ≠ 0 → ∀ j n, (j < EXE_NUM_MAILBOX)%nat → NumMsgsInQueue t !! j = Some n → n = 0
    | Some flags => (NumMsgs t = 0 → Z.land (events_set (EventGroupCb t)) mask ≠ 0) ∧ Z.land (events_set (EventGroupCb t')) mask = 0 ∧
        (NumMsgs t ≠ 0 → ∀ j n, (j < EXE_NUM_MAILBOX)%nat → NumMsgsInQueue t !! j = Some n → n ≠ 0 → Z.land flags (box_flag j) ≠ 0 ∧ Z.land flags EXE_MESSAGE_TYPE ≠ 0)
    end.
Proof.
  intros Ht Hlen. unfold ExeEventWait. rewrite (the_task_at T t) by done.
  assert (∃ t1 s1, when (negb (NumMsgs t =? 0)) (mfor (remind T) (seq 0 EXE_NUM_MAILBOX)) s = Ok ((), s1) ∧ at_task T t1 s1 ∧ same_mail t t1 ∧
    (NumMsgs t = 0 → t1 = t) ∧
    (NumMsgs t ≠ 0 → ∀ j n, (j < EXE_NUM_MAILBOX)%nat → NumMsgsInQueue t !! j = Some n → n ≠ 0 → box_set j t1)) as (t1 & s1 & E1 & Ht1 & Hs1 & H01 & Hb).
  { destruct (Z.eqb_spec (NumMsgs t) 0) as [E0|E0]; [by exists t, s|].
    destruct (reminds_ok T (seq 0 EXE_NUM_MAILBOX) t s Ht Hlen) as (t1 & s1 & E1 & Ht1 & Hs1 & _ & Hb); [intros i Hi%elem_of_seq; lia|].
    exists t1, s1. split_and!; [done..|]. intros _ j n Hj Ej Hn. eapply Hb; [apply elem_of_seq; lia|done|done]. }
  rewrite (bind_Ok _ _ _ _ _ E1), (the_task_at T t1) by done. fold mask. pose proof (retrieve_law (EventGroupCb t1) mask) as Hr.
  destruct (EVCE_Retrieve_Events (EventGroupCb t1) mask NU_SUSPEND) as [|ret events gr] eqn:Er.
  - exists None, t1, s1. split_and!; [done..|]. intros E0 j n Hj Ej. destruct (decide (n = 0)) as [|Hn]; [done|].
    destruct (Hb E0 j n Hj Ej Hn) as [_ Hf]. exfalso. apply (f_equal (λ z, Z.testbit z 0)) in Hr.
    by rewrite Z.land_spec, Hf, mask_message in Hr.
  - destruct Hr as (-> & -> & Hne & Hleft). eexists (Some _), (with_events gr t1), _. split_and!.
    + unfold put_task. rewrite (bind_Ok _ _ _ () _ eq_refl). reflexivity.
    + unfold at_task. cbn. by rewrite lookup_insert_eq.
    + by destruct Hs1 as (A1 & A2 & A3).
    + by intros E0; rewrite <-(H01 E0).
    + cbn. rewrite Hleft. rewrite Z.land_comm. apply Z.bits_inj'. intros k _. rewrite Z.land_spec, Z.ldiff_spec, Z.bits_0.
      destruct (Z.testbit mask k); [by rewrite andb_false_r|done].
    + intros E0 j n Hj Ej Hn. destruct (Hb E0 j n Hj Ej Hn) as [Hbit Hf]. split.
      * apply box_flag_bit; [done|]. by rewrite Z.land_spec, Hbit, mask_bit.
      * intros E. apply (f_equal (λ z, Z.testbit z 0)) in E. by rewrite !Z.land_spec, Hf, mask_message in E.
Qed.
Lemma read_ok T t i s : at_task T t s → (i < length (MailQueueCb t))%nat →
  ∃ m t' s', ExeMsgRead junk_message T i s = Ok (m, s') ∧ at_task T t' s' ∧ EventGroupCb t' = EventGroupCb t ∧
    (queue i t ≠ [] → m ≠ None).
Proof.
  intros Ht Hi. unfold ExeMsgRead. rewrite (the_task_at T t) by done.
  destruct (fetch i t) as [[[errCode m] t1]|] eqn:Ef; [|unfold fetch in Ef; destruct (lookup_lt_is_Some_2 _ _ Hi) as [q Eq];
    rewrite Eq in Ef; cbn in Ef; by destruct (QUCE_Receive_From_Queue q) as [[]]].
  erewrite bind_Ok by reflexivity. unfold put_task. rewrite (bind_Ok _ _ _ () _ eq_refl). set (s1 := set_tasks _ s).
  assert (at_task T t1 s1) as Ht1 by (unfold at_task; cbn; by rewrite lookup_insert_eq).
  assert (EventGroupCb t1 = EventGroupCb t) as Hg.
  { unfold fetch in Ef. destruct (MailQueueCb t !! i); [|done]. cbn in Ef. destruct (QUCE_Receive_From_Queue _) as [[]]. by injection Ef as _ _ <-. }
  pose proof (fetch_spec _ _ _ _ _ Ef) as Hs. destruct (queue i t) as [|x l].
  - destruct Hs as [-> _]. by exists None, t1, s1.
  - destruct Hs as (-> & -> & _). cbn [when]. change (NU_SUCCESS =? NU_QUEUE_EMPTY) with false. cbv iota.
    change (negb (NU_SUCCESS =? NU_SUCCESS)) with false. cbn [when]. rewrite (bind_Ok (mret ()) _ s1 () s1 eq_refl).
    unfold ExeInterruptDisable. erewrite bind_Ok by reflexivity. rewrite (the_task_at T t1) by done. unfold put_task.
    erewrite bind_Ok by reflexivity. unfold ExeInterruptEnable. rewrite bind_assoc. erewrite bind_Ok by reflexivity. cbv beta.
    cbn [ExeIntStack set_tasks set_interrupts]. erewrite bind_Ok by reflexivity.
    eexists (Some x), (count i (-1) t1), _. split_and!; [reflexivity|unfold at_task; cbn; by rewrite lookup_insert_eq|exact Hg|done].
Qed.
End Steps.

(** ** The task of the hardware, and that of the mails *)
Section Tasks.
Context {Q G P : Type} `{Nucleus Q G P} `{!NucleusLaws Q G P}.
Variable in_thread : bool.
Variable junk_message : sExeMsg.
Abbreviation ExeTaskCbT := (ExeTaskCbT (Q := Q) (G := G)).
Abbreviation exe := (exe (Q := Q) (G := G) (P := P)).
Abbreviation hw_step := (step (P := P) 2 true).
Implicit Types (t : ExeTaskCbT) (s : exe).
Lemma rtc_mailed boxes signals c c' : (boxes ≤ EXE_NUM_MAILBOX)%nat → mailed (P := P) boxes c → rtc (step (P := P) boxes signals) c c' →
  mailed (P := P) boxes c'.
Proof. intros Hb HM Hr. induction Hr as [|c1 c2 c3 Hs _ IH]; [done|]. apply IH. by eapply step_mailed. Qed.
Lemma buffer_free_ok p s : ∃ s', ExeMsgBufferFree in_thread p s = Ok ((), s') ∧ ExeTaskCb s' = ExeTaskCb s.
Proof.
  destruct (ExeMsgBufferFree in_thread p s) as [[[] s']| | |] eqn:E; [exists s'; split; [done|by eapply kept_buffer]|exfalso..]; revert E;
    unfold ExeMsgBufferFree, check_thread, free_partition, MonFault; destruct in_thread; cbn; unfold mbind, M_bind; cbn;
    destruct (PMCE_Deallocate_Partition _ _) as [r pl]; by destruct (negb _).
Qed.
Definition is_key (m : sExeMsg) : Prop := msgId m = HW_KEY_MSG.
#[export] Instance is_key_dec m : Decision (is_key m) := decide (msgId m = HW_KEY_MSG).
Definition keys_of (l : list (nat * sExeMsg)) : list sExeMsg := filter is_key l.*2.
Lemma keys_app l1 l2 : keys_of (l1 ++ l2) = keys_of l1 ++ keys_of l2.
Proof. unfold keys_of. by rewrite fmap_app, filter_app. Qed.
Abbreviation hw_mailbox := (hw_mailbox in_thread junk_message).
Lemma hw_mailbox_ok t s flags i : at_task EXE_BAL_ID t s → (i < 2)%nat → length (MailQueueCb t) = EXE_NUM_MAILBOX →
  ∃ l t' s', hw_mailbox flags i s = Ok (keys_of l, s') ∧ at_task EXE_BAL_ID t' s' ∧ EventGroupCb t' = EventGroupCb t ∧
    (∀ p, p ∈ l → p.1 = i) ∧ (Z.land flags (box_flag i) ≠ 0 → queue (P := P) i t ≠ [] → l ≠ []) ∧
    ∀ ps cs g sn, rtc hw_step (mkConfig t ps cs (Reads flags i) g sn) (mkConfig t' ps cs (Reads flags (S i)) (g ++ l) sn).
Proof.
  intros Ht Hi Hlen. unfold Mailboxes.hw_mailbox. destruct (Z.eqb_spec (Z.land flags (default 0 (MailQueueSig !! i))) 0) as [E|E].
  - exists [], t, s. split_and!; [done..|by intros ? ?%elem_of_nil|done|]. intros. rewrite app_nil_r. apply rtc_once. by apply step_skip.
  - destruct (read_ok junk_message EXE_BAL_ID t i s Ht) as (m & t' & s1 & E1 & Ht' & Hg & Hm).
    { rewrite Hlen. unfold EXE_NUM_MAILBOX. lia. }
    pose proof (read_run 2 true junk_message EXE_BAL_ID t i flags s m s1 Ht Hi E E1) as (t2 & Ht2 & Hr).
    assert (t2 = t') as -> by (unfold at_task in *; congruence). rewrite (bind_Ok _ _ _ _ _ E1). destruct m as [m|].
    + assert (∃ s2, match msgBuf m with Some p => ExeMsgBufferFree in_thread p | None => mret () end s1 = Ok ((), s2) ∧
        at_task EXE_BAL_ID t' s2) as (s2 & E2 & Ht3).
      { destruct (msgBuf m) as [p|]; [|by exists s1]. destruct (buffer_free_ok p s1) as (s2 & E2 & Ek). exists s2. split; [done|]. unfold at_task. by rewrite Ek. }
      rewrite (bind_Ok _ _ _ _ _ E2). exists [(i, m)], t', s2. split_and!; [|done|done| |done|exact Hr].
      * unfold keys_of. cbn. destruct (Z.eqb_spec (msgId m) HW_KEY_MSG); [by rewrite decide_True|by rewrite decide_False].
      * by intros p ->%list_elem_of_singleton.
    + exists [], t', s1. split_and!; [done|done|done|by intros ? ?%elem_of_nil| |exact Hr]. intros _ Hq. by destruct (Hm Hq).
Qed.
Ltac proj := cbn [cb posted counted pc got sent] in *.
Lemma of_box_others i (l0 l : list (nat * sExeMsg)) : (∀ p, p ∈ l → p.1 ≠ i) → of_box i (l0 ++ l) = of_box i l0.
Proof.
  intros Hl. unfold of_box. rewrite filter_app, fmap_app. replace (filter (λ p, p.1 = i) l) with (@nil (nat * sExeMsg)); [by rewrite app_nil_r|].
  symmetry. induction l as [|p l IH]; [done|]. rewrite filter_cons, decide_False by (apply Hl; by left). apply IH. intros q Hq. apply Hl. by right.
Qed.
Abbreviation hw_mailed := (mailed (P := P) 2).
Lemma two_boxes : (2 ≤ EXE_NUM_MAILBOX)%nat.
Proof. unfold EXE_NUM_MAILBOX. lia. Qed.
(** When no sender is in the middle, a mailbox with messages counts them. *)
Lemma counts_nonzero t cs g sn i : hw_mailed (mkConfig t [] cs Checks g sn) → queue (P := P) i t ≠ [] →
  NumMsgs t ≠ 0 ∧ ∃ n, NumMsgsInQueue t !! i = Some n ∧ n ≠ 0.
Proof.
  intros [M1 M2 M3 M4 M5 M6 M7 M8] Hq. proj.
  destruct (decide (i < EXE_NUM_MAILBOX)%nat) as [Hi|Hi]; [|by destruct Hq; apply queue_beyond; [|lia]].
  assert (∀ j, level (P := P) j (mkConfig t [] cs Checks g sn) = Z.of_nat (length (queue (P := P) j t))) as Hl by (intros j; by apply level_quiet).
  assert (length (queue (P := P) i t) ≠ 0)%nat as Hne by (by intros ?%nil_length_inv).
  assert (length (queue (P := P) i t) ≤ QUEUE_MAX)%nat as Hmax by apply M2.
  split.
  - intros E0. rewrite M6 in E0. assert (level (P := P) i (mkConfig t [] cs Checks g sn) = 0) as Ez; [|rewrite Hl in Ez; lia].
    refine (total_zero (λ j, level (P := P) j (mkConfig t [] cs Checks g sn)) _ E0 i Hi). intros j _. rewrite Hl. specialize (M2 j). lia.
  - exists (int32 (level (P := P) i (mkConfig t [] cs Checks g sn))). split; [by apply M5|]. rewrite Hl. unfold QUEUE_MAX in Hmax. rewrite int32_small by lia. lia.
Qed.
Lemma counts_zero t cs g sn : hw_mailed (mkConfig t [] cs Checks g sn) → (∀ i, queue (P := P) i t = []) → NumMsgs t = 0.
Proof.
  intros [M1 M2 M3 M4 M5 M6 M7 M8] Hq. proj. rewrite M6. unfold total. by rewrite !level_quiet, !Hq.
Qed.
Lemma mailed_counting boxes c : mailed (P := P) boxes c → counting (cb c).
Proof. intros [_ _ _ _ Hc _ _ _] i Hi. rewrite Hc by done. by eexists. Qed.
(** Waiting leaves the flag of hwpei.c as it is. *)
Definition steady {A} (m : M exe A) : Prop := ∀ s a s', m s = Ok (a, s') → HwIsReady (P := P) s' = HwIsReady s.
Lemma steady_bind {A B} (m : M exe A) (f : A → M exe B) : steady m → (∀ a, steady (f a)) → steady (a ← m; f a).
Proof. intros Hm Hf s b s' (a & s1 & E1 & E2)%bind_Ok_inv. by rewrite (Hf a s1 b s'), (Hm s a s1). Qed.
Lemma steady_when b (m : M exe ()) : steady m → steady (when b m).
Proof. intros Hm. destruct b; [done|]. by intros s a s' [= _ <-]. Qed.
Lemma steady_ret {A} (a : A) : steady (mret a).
Proof. by intros s a' s' [= _ <-]. Qed.
Lemma steady_get : steady get.
Proof. by intros s a s' [= _ <-]. Qed.
Lemma steady_deref {A} (o : option A) : steady (deref o).
Proof. destruct o; [apply steady_ret|by intros ? ? ?]. Qed.
Lemma steady_modify f : (∀ s, HwIsReady (f s) = HwIsReady s) → steady (modify f).
Proof. by intros Hf s a s' [= _ <-]. Qed.
Lemma steady_mfor {B} (f : B → M exe ()) l : (∀ x, steady (f x)) → steady (mfor f l).
Proof. intros Hf. induction l; cbn [mfor]; [apply steady_ret|]. by apply steady_bind. Qed.
Ltac steady := repeat first [match goal with IH : ∀ T e, steady (set_events T e) |- _ => apply IH end | apply steady_ret | apply steady_get | apply steady_deref | by apply steady_modify
  | apply steady_when | apply steady_mfor; intros ? | apply steady_bind; [|intros ?]].
Lemma steady_set_events T e : steady (set_events T e).
Proof. unfold set_events. steady. destruct (mark _ _). steady. Qed.
Lemma steady_wait T sig m timeout : steady (ExeEventWait T sig m timeout).
Proof.
  pose proof steady_set_events as Hset. unfold ExeEventWait, remind. steady. destruct (EVCE_Retrieve_Events _ _ _) as [|ret events g]; steady.
  destruct (ret =? NU_TIMEOUT), (ret =? NU_SUCCESS); steady.
Qed.
(** A round of [hwStart] alone. *)
Lemma hw_round_ok t s cs g sn : at_task EXE_BAL_ID t s → hw_mailed (mkConfig t [] cs Checks g sn) →
  ∃ r l t' s', hw_round in_thread junk_message s = Ok (r, s') ∧ at_task EXE_BAL_ID t' s' ∧
    rtc hw_step (mkConfig t [] cs Checks g sn) (mkConfig t' [] cs (if r then Checks else Retrieves) (g ++ l) sn) ∧
    match r with
    | None => HwIsReady s' = 1 ∧ l = [] ∧ (∀ i, queue (P := P) i t = []) ∧ EVCE_Retrieve_Events (P := P) (EventGroupCb t') (mask true) NU_SUSPEND = Suspends
    | Some keys => keys = keys_of l ∧ Z.land (events_set (EventGroupCb t')) (mask true) = 0 ∧
        (l = [] → queue (P := P) 0 t = [] ∧ queue (P := P) 1 t = []) ∧
        ((∀ i, queue (P := P) i t = []) → Z.land (events_set (EventGroupCb t)) (mask true) ≠ 0)
    end.
Proof.
  intros Ht HM. unfold hw_round. pose proof (mailed_counting _ _ HM) as Hcnt.
  set (s0 := mkExe (ExeTaskCb s) (MonFaults s) (TCD_Interrupt_Level s) (cpu_level s) (ExeIntStack s) (pools s) (blocks s) 1).
  rewrite (bind_Ok HwStatusSet _ s () s0 eq_refl). change (at_task EXE_BAL_ID t s0) in Ht.
  destruct (wait_ok true EXE_BAL_ID t s0 Ht Hcnt) as (r & t1 & s1 & E1 & Ht1 & Hsame & Hr). rewrite (bind_Ok _ _ _ _ _ E1).
  destruct (wait_run 2 true EXE_BAL_ID t s0 r s1 Ht E1) as (t1' & Ht1' & Hrun).
  assert (t1' = t1) as -> by (unfold at_task in *; congruence).
  assert (∀ i, queue (P := P) i t1 = queue (P := P) i t) as Hq1 by (intros i; unfold queue; by destruct Hsame as (-> & _)).
  assert (∀ i, queue (P := P) i t ≠ [] → NumMsgs t ≠ 0 ∧ (i < EXE_NUM_MAILBOX)%nat ∧ ∃ n, NumMsgsInQueue t !! i = Some n ∧ n ≠ 0) as Hcn.
  { intros i Hi. destruct (counts_nonzero _ _ _ _ _ HM Hi) as [H0 Hn]. split_and!; [done| |done].
    destruct (decide (i < EXE_NUM_MAILBOX)%nat) as [|Hlt]; [done|]. destruct Hi. apply queue_beyond; [apply (ml_queues _ _ HM)|lia]. }
  destruct r as [flags|].
  - destruct Hr as (Hz & Hleft & Hset).
    assert (∀ i, queue (P := P) i t ≠ [] → Z.land flags (box_flag i) ≠ 0 ∧ Z.land flags EXE_MESSAGE_TYPE ≠ 0) as Hflag.
    { intros i Hi. destruct (Hcn i Hi) as (H0 & Hlt & n & En & Hn). by apply (Hset H0 i n). }
    assert ((∀ i, queue (P := P) i t = []) → Z.land (events_set (EventGroupCb t)) (mask true) ≠ 0) as Hz' by
      (intros He; apply Hz; by eapply counts_zero).
    destruct (Z.eqb_spec (Z.land flags EXE_MESSAGE_TYPE) 0) as [E0|E0].
    + exists (Some []), [], t1, s1. split_and!; [done|done| |done|done| |done].
      * rewrite app_nil_r. pose proof (proj1 (Hrun [] cs g sn)) as Hrun'. unfold after_wake in Hrun'. by rewrite E0 in Hrun'.
      * assert (∀ i, queue (P := P) i t = []) as He; [|by intros _]. intros i. destruct (queue (P := P) i t) eqn:Eq; [done|].
        destruct (Hflag i) as [_ Hm]; [by rewrite Eq|done].
    + pose proof (proj1 (Hrun [] cs g sn)) as R0. unfold after_wake in R0. rewrite (proj2 (Z.eqb_neq _ _) E0) in R0.
      pose proof (rtc_mailed _ _ _ _ two_boxes HM R0) as M0.
      destruct (hw_mailbox_ok t1 s1 flags 0 Ht1 ltac:(lia) (ml_queues _ _ M0)) as (l0 & t2 & s2 & E2 & Ht2 & G2 & B2 & N2 & R1).
      specialize (R1 [] cs g sn). pose proof (rtc_mailed _ _ _ _ two_boxes M0 R1) as M1.
      destruct (hw_mailbox_ok t2 s2 flags 1 Ht2 ltac:(lia) (ml_queues _ _ M1)) as (l1 & t3 & s3 & E3 & Ht3 & G3 & B3 & N3 & R2).
      specialize (R2 [] cs (g ++ l0) sn). rewrite (bind_Ok _ _ _ _ _ E2), (bind_Ok _ _ _ _ _ E3).
      exists (Some (keys_of l0 ++ keys_of l1)), (l0 ++ l1), t3, s3.
      assert (queue (P := P) 1 t2 = queue (P := P) 1 t) as Hq2.
      { pose proof (ml_order _ _ M0 1%nat) as O0. pose proof (ml_order _ _ M1 1%nat) as O1. proj. rewrite <-O0, Hq1 in O1.
        assert (of_box 1 (g ++ l0) = of_box 1 g) as Eg by (apply of_box_others; intros p Hp; rewrite (B2 p Hp); lia).
        rewrite Eg in O1. by apply app_inv_head in O1. }
      split_and!; [done|done| |by rewrite keys_app|by rewrite G3, G2| |done].
      * rewrite app_assoc. etrans; [exact R0|]. etrans; [exact R1|]. eapply rtc_r; [exact R2|]. apply step_done.
      * intros [-> ->]%app_eq_nil. split.
        -- destruct (queue (P := P) 0 t) eqn:Eq; [done|exfalso]. apply N2; [by apply Hflag; rewrite Eq|by rewrite Hq1, Eq|done].
        -- destruct (queue (P := P) 1 t) eqn:Eq; [done|exfalso]. apply N3; [by apply Hflag; rewrite Eq|by rewrite Hq2|done].
  - exists None, [], t1, s1. split_and!; [done|done| |by apply steady_wait in E1|done| |by destruct (Hrun [] cs g sn) as [_ [_ Hb]]].
    + rewrite app_nil_r. apply Hrun.
    + intros i. destruct (queue (P := P) i t) eqn:Eq; [done|]. destruct (Hcn i) as (H0 & Hlt & n & En & Hn); [by rewrite Eq|].
      by destruct Hn; apply (Hr H0 i).
Qed.
(** What a run of the task alone delivers. *)
Lemma delivered t t' cs k k' g l sn i : hw_mailed (mkConfig t [] cs k g sn) → hw_mailed (mkConfig t' [] cs k' (g ++ l) sn) →
  (∀ j, in_hand j k = []) → (∀ j, in_hand j k' = []) → queue (P := P) i t = of_box i l ++ queue (P := P) i t'.
Proof.
  intros M1 M2 H1 H2. pose proof (ml_order _ _ M1 i) as O1. pose proof (ml_order _ _ M2 i) as O2. proj. rewrite H1 in O1. rewrite H2 in O2.
  unfold of_box in *. rewrite filter_app, fmap_app, <-O1, <-app_assoc in O2. by apply app_inv_head in O2.
Qed.
Definition pending_event t : nat := if Z.land (events_set (EventGroupCb t)) (mask true) =? 0 then 0 else 1.
Definition waiting t : nat := length (queue (P := P) 0 t) + length (queue (P := P) 1 t).
Definition unread t : Prop := ∀ i, (2 ≤ i)%nat → queue (P := P) i t = [].
Lemma waiting_less t t' cs g l sn : hw_mailed (mkConfig t [] cs Checks g sn) → hw_mailed (mkConfig t' [] cs Checks (g ++ l) sn) →
  unread t → unread t' ∧ (waiting t' ≤ waiting t)%nat ∧ (l ≠ [] → (waiting t' < waiting t)%nat).
Proof.
  intros M1 M2 Hu. pose proof (λ i, delivered _ _ _ _ _ _ _ _ i M1 M2 (λ _, eq_refl) (λ _, eq_refl)) as Hd. split_and!.
  - intros i Hi. specialize (Hd i). rewrite (Hu i Hi) in Hd. symmetry in Hd. by apply app_eq_nil in Hd as [_ ?].
  - unfold waiting. rewrite (Hd 0%nat), (Hd 1%nat), !length_app. lia.
  - intros Hl. destruct l as [|[j m] l]; [done|].
    assert (of_box j ((j, m) :: l) = m :: of_box j l) as Ej by (unfold of_box; by rewrite filter_cons, decide_True).
    destruct (decide (2 ≤ j)%nat) as [Hj|Hj].
    { specialize (Hd j). by rewrite (Hu j Hj), Ej in Hd. }
    unfold waiting. rewrite (Hd 0%nat), (Hd 1%nat), !length_app.
    destruct j as [|[|j]]; [rewrite Ej; cbn [length]; lia..|lia].
Qed.
Lemma hwStart_ok fuel : ∀ t s cs g sn, at_task EXE_BAL_ID t s → hw_mailed (mkConfig t [] cs Checks g sn) → unread t →
  (waiting t + pending_event t < fuel)%nat →
  ∃ l t' s', hwStart in_thread junk_message fuel s = Ok (keys_of l, s') ∧ at_task EXE_BAL_ID t' s' ∧
    rtc hw_step (mkConfig t [] cs Checks g sn) (mkConfig t' [] cs Retrieves (g ++ l) sn) ∧ (∀ i, queue (P := P) i t' = []) ∧
    EVCE_Retrieve_Events (P := P) (EventGroupCb t') (mask true) NU_SUSPEND = Suspends ∧ HwIsReady s' = 1.
Proof.
  induction fuel as [|fuel IH]; intros t s cs g sn Ht HM Hu Hf; [lia|]. cbn [hwStart].
  destruct (hw_round_ok t s cs g sn Ht HM) as (r & l & t1 & s1 & E1 & Ht1 & Hr & Hres). rewrite (bind_Ok _ _ _ _ _ E1).
  pose proof (rtc_mailed _ _ _ _ two_boxes HM Hr) as HM1. destruct r as [keys|].
  - destruct Hres as (-> & Hev & Hl & He). destruct (waiting_less _ _ _ _ _ _ HM HM1 Hu) as (Hu1 & Hle & Hlt).
    assert (pending_event t1 = 0%nat) as Hp1 by (unfold pending_event; by rewrite Hev).
    destruct (IH t1 s1 cs (g ++ l) sn Ht1 HM1 Hu1) as (l' & t' & s' & E2 & Ht' & Hr2 & Hq & Hb & Hw).
    { rewrite Hp1. destruct (decide (l = [])) as [El|El]; [|specialize (Hlt El); lia].
      destruct (Hl El) as [H0 H1]. assert (∀ i, queue (P := P) i t = []) as Hall.
      { intros [|[|i]]; [done..|]. apply Hu. lia. }
      specialize (He Hall). unfold pending_event in Hf. rewrite (proj2 (Z.eqb_neq _ _) He) in Hf. lia. }
    exists (l ++ l'), t', s'. rewrite (bind_Ok _ _ _ _ _ E2), keys_app. split_and!; [done|done| |done|done|done]. rewrite app_assoc. by etrans.
  - destruct Hres as (Hw & -> & He & Hb). exists [], t1, s1. split_and!; [done|done|exact Hr| |exact Hb|done]. intros i.
    pose proof (delivered _ _ _ _ _ _ _ _ i HM HM1 (λ _, eq_refl) (λ _, eq_refl)) as Hd. by rewrite He in Hd.
Qed.
(** C13: the task of the hardware hands on every message.  Whatever the senders did before,
    once none of them is inside a call and nothing is in the mailboxes it does not read,
    the task ends its rounds and waits; each of its two mailboxes is read to the end and
    in order, and the messages of keys among them are handed on.  When it waits, the
    flag is set for which the task of the user interface waits before it starts. *)
Theorem hwStart_hands_on c s fuel : reach (P := P) 2 true c → posted c = [] → pc c = Checks → at_task EXE_BAL_ID (cb c) s → unread (cb c) →
  (waiting (cb c) + 1 < fuel)%nat →
  ∃ l t' s', hwStart in_thread junk_message fuel s = Ok (keys_of l, s') ∧ at_task EXE_BAL_ID t' s' ∧
    (∀ i, of_box i l = queue (P := P) i (cb c)) ∧ (∀ i, queue (P := P) i t' = []) ∧
    ExeEventWait EXE_BAL_ID true EXE_MESSAGE_TYPE NU_SUSPEND s' = Ok (None, s') ∧ HwStatusGet s' = Ok (1, s').
Proof.
  intros HM%reach_mailed Hp Hk Ht Hu Hf; [|exact two_boxes]. destruct c as [t ps cs k g sn]. proj. subst.
  destruct (hwStart_ok fuel t s cs g sn Ht HM Hu) as (l & t' & s' & E & Ht' & Hr & Hq & Hb & Hw).
  { unfold pending_event. case_match; lia. }
  pose proof (rtc_mailed _ _ _ _ two_boxes HM Hr) as HM'. exists l, t', s'. split_and!; [done|done| |done| |].
  - intros i. pose proof (delivered _ _ _ _ _ _ _ _ i HM HM' (λ _, eq_refl) (λ _, eq_refl)) as Hd. by rewrite Hd, Hq, app_nil_r.
  - pose proof (ml_total _ _ HM') as Hn. unfold total in Hn. proj. rewrite !level_quiet, !Hq in Hn by done. cbn in Hn.
    unfold ExeEventWait. rewrite (the_task_at _ t') by done. rewrite Hn. erewrite bind_Ok by reflexivity.
    rewrite (the_task_at _ t') by done. unfold mask in Hb. by rewrite Hb.
  - unfold HwStatusGet. erewrite bind_Ok by reflexivity. by rewrite Hw.
Qed.
(** The task of the mails: it reads one mailbox, and ends without reading when it is told. *)
Definition mails (calls : list ems_call) : list sExeMsg := omap (λ c, match c with EMSMailFunc m => Some m | EMSSignalFunc => None end) calls.
Lemma ems_round_run t s r s' : at_task EXE_EM_S_ID t s → ems_round junk_message s = Ok (r, s') →
  ∃ t' l k, at_task EXE_EM_S_ID t' s' ∧
    (∀ ps cs g sn, rtc (step (P := P) 1 true) (mkConfig t ps cs Checks g sn) (mkConfig t' ps cs k (g ++ l) sn)) ∧
    match r with Waits => k = Retrieves ∧ l = [] | Ends => l = [] | Goes calls => k = Checks ∧ mails calls = l.*2 end.
Proof.
  intros Ht E. unfold ems_round in E. apply bind_Ok_inv in E as (w & s1 & E1 & E).
  destruct (wait_run 1 true EXE_EM_S_ID t s w s1 Ht E1) as (t1 & Ht1 & Hr). destruct w as [flags|].
  2: { injection E as <- <-. exists t1, [], Retrieves. split_and!; [done| |done|done]. intros. rewrite app_nil_r. apply Hr. }
  set (signal := negb (Z.land flags EXE_SIGNAL_TYPE =? 0)) in E. destruct (signal && _).
  { injection E as <- <-. exists t1, [], (after_wake flags). split_and!; [done| |done]. intros. rewrite app_nil_r. apply Hr. }
  set (calls := if signal && _ then [EMSSignalFunc] else []) in E.
  assert (mails calls = []) as Hcalls by (unfold calls; by destruct (signal && _)).
  assert (∀ m, mails (calls ++ m) = mails m) as Hm by (intros m; unfold mails in *; by rewrite omap_app, Hcalls).
  destruct (Z.eqb_spec (Z.land flags EXE_MESSAGE_TYPE) 0) as [E0|E0].
  { injection E as <- <-. exists t1, [], Checks. split_and!; [done| |done|done]. intros. rewrite app_nil_r.
    pose proof (proj1 (Hr ps cs g sn)) as R0. unfold after_wake in R0. by rewrite E0 in R0. }
  assert (∀ ps cs g sn, rtc (step (P := P) 1 true) (mkConfig t ps cs Checks g sn) (mkConfig t1 ps cs (Reads flags 0) g sn)) as R0.
  { intros. pose proof (proj1 (Hr ps cs g sn)) as R0. unfold after_wake in R0. by rewrite (proj2 (Z.eqb_neq _ _) E0) in R0. }
  cbn [orb] in E. destruct (Z.eqb_spec (Z.land flags (default 0 (MailQueueSig !! 0%nat))) 0) as [Eb|Eb].
  - injection E as <- <-. exists t1, [], Checks. split_and!; [done| |done|done]. intros. rewrite app_nil_r.
    etrans; [apply R0|]. eapply rtc_l; [by apply step_skip; [lia|]|]. apply rtc_once, step_done.
  - apply bind_Ok_inv in E as (m & s2 & E2 & [= <- <-]).
    destruct (read_run 1 true junk_message EXE_EM_S_ID t1 0 flags s1 m s2 Ht1 ltac:(lia) Eb E2) as (t2 & Ht2 & R1).
    eexists t2, _, Checks. split_and!; [done| |done|].
    + intros. etrans; [apply R0|]. eapply rtc_r; [apply R1|apply step_done].
    + rewrite Hm. by destruct m.
Qed.
End Tasks.

(** ** Message buffers *)
Section Buffers.
Context {Q G P : Type} `{Nucleus Q G P}.
Variable in_thread : bool.
Abbreviation exe := (exe (Q := Q) (G := G) (P := P)).
Implicit Types (s : exe).
(** A pool gives blocks of the size it was made with. *)
Hypothesis partition_law : ∀ pl i p bytes pl', PMCE_Allocate_Partition pl i = (NU_SUCCESS, Some (p, bytes), pl') →
  Some (Z.of_nat (length bytes)) = partition_sizes !! i.
Lemma first_partition_ok size infos : ∀ i s, ∃ r s', first_partition size i infos s = Ok (r, s') ∧
  ∀ p, r = Some p → ∃ k info bytes, infos !! k = Some info ∧ size ≤ info ∧ blocks s' !! p = Some bytes ∧
    Some (Z.of_nat (length bytes)) = partition_sizes !! (i + k)%nat.
Proof using partition_law.
  induction infos as [|info infos IH]; intros i s; cbn [first_partition]; [by exists None, s|].
  assert (∀ s1, ∃ r s', first_partition size (S i) infos s1 = Ok (r, s') ∧ ∀ p, r = Some p → ∃ k info' bytes,
    (info :: infos) !! k = Some info' ∧ size ≤ info' ∧ blocks s' !! p = Some bytes ∧
    Some (Z.of_nat (length bytes)) = partition_sizes !! (i + k)%nat) as Hnext.
  { intros s1. destruct (IH (S i) s1) as (r & s' & E & Hr). exists r, s'. split; [done|]. intros p Ep.
    destruct (Hr p Ep) as (k & info' & bytes & Hk & Hle & Hb & Hlen). exists (S k), info', bytes. split_and!; [done..|].
    by replace (i + S k)%nat with (S i + k)%nat by lia. }
  destruct (Z.ltb_spec info size) as [|Hle]; [apply Hnext|]. erewrite bind_Ok by reflexivity.
  destruct (PMCE_Allocate_Partition (pools s) i) as [[r b] pl] eqn:Ea. destruct (Z.eqb_spec r NU_SUCCESS) as [->|].
  2: { erewrite bind_Ok by reflexivity. apply Hnext. }
  destruct b as [[p bytes]|]; [|erewrite bind_Ok by reflexivity; apply Hnext]. erewrite bind_Ok by reflexivity.
  eexists _, _. split; [reflexivity|]. intros q [= <-]. exists 0%nat, info, bytes. split_and!; [done|done| |].
  - cbn. by rewrite lookup_insert_eq.
  - rewrite Nat.add_0_r. by eapply partition_law.
Qed.
Lemma fits k info n : ExeMsgBuffInfo !! k = Some info → Some n = partition_sizes !! k → info ≤ 564 ∧ (info < 564 → info < n).
Proof. intros H1 H2. do 4 (destruct k as [|k]; [injection H1 as <-; injection H2 as ->; lia|]). done. Qed.
Lemma thread_ok s : ∃ s', check_thread in_thread s = Ok ((), s') ∧ pools s' = pools s.
Proof. unfold check_thread. destruct in_thread; [by exists s|]. by eexists. Qed.
(** A message buffer of less than 564 bytes carries its mark behind the message, so that
    sending it finds the mark; one of 564 bytes is what its block holds, and the mark is
    written behind the block. *)
Theorem message_buffer_marked s size : 0 ≤ size ≤ 564 →
  (size < 564 → ∃ r s', ExeMsgBufferGet in_thread size s = Ok (r, s') ∧ ∀ p, r = Some p → check_buffer_mark (Some p) size s' = Ok ((), s')) ∧
  ∀ p bytes pl, PMCE_Allocate_Partition (pools s) 3 = (NU_SUCCESS, Some (p, bytes), pl) → ExeMsgBufferGet in_thread 564 s = Fault.
Proof using partition_law.
  intros Hsize. destruct (thread_ok s) as (s1 & E1 & Hp). unfold ExeMsgBufferGet. rewrite !(bind_Ok _ _ _ _ _ E1). split.
  - intros Hlt. change (default 0 (last ExeMsgBuffInfo)) with 564. rewrite (proj2 (Z.leb_le _ _)) by lia.
    destruct (first_partition_ok size ExeMsgBuffInfo 0 s1) as (r & s2 & E2 & Hr). rewrite (bind_Ok _ _ _ _ _ E2).
    destruct r as [p|]; [|by eexists None, _]. destruct (Hr p eq_refl) as (k & info & bytes & Hk & Hle & Hb & Hlen).
    destruct (fits k info _ Hk Hlen) as [Hmax Hin]. assert (size < Z.of_nat (length bytes)) as Hs by (destruct (decide (info < 564)); [lia|];
      assert (info = 564) as -> by lia; do 4 (destruct k as [|k]; [by injection Hk|| (injection Hlen; lia)|]); done).
    unfold set_mark. rewrite bind_assoc, (bind_Ok _ _ _ _ _ eq_refl). cbv beta. rewrite Hb, bind_assoc. erewrite bind_Ok by reflexivity. cbv beta.
    rewrite (proj2 (Z.leb_le 0 size)), (proj2 (Z.ltb_lt size _)) by lia. cbn [andb]. erewrite bind_Ok by reflexivity.
    eexists (Some p), _. split; [reflexivity|]. intros q [= <-]. unfold check_buffer_mark. erewrite bind_Ok by reflexivity.
    cbn [blocks set_buffers]. rewrite lookup_insert_eq. erewrite bind_Ok by reflexivity.
    rewrite (proj2 (Z.leb_le 0 size)), list_lookup_insert_eq by lia. erewrite bind_Ok by reflexivity. done.
  - intros p bytes pl Ea. change (564 <=? default 0 (last ExeMsgBuffInfo)) with true. cbv iota.
    unfold ExeMsgBuffInfo. cbn [first_partition]. change (32 <? 564) with true. change (192 <? 564) with true.
    change (448 <? 564) with true. change (564 <? 564) with false. cbv iota. rewrite bind_assoc, (bind_Ok _ _ _ _ _ eq_refl). cbv beta.
    rewrite Hp, Ea. change (NU_SUCCESS =? NU_SUCCESS) with true. cbv iota. rewrite bind_assoc, (bind_Ok _ _ _ _ _ eq_refl). cbv beta.
    erewrite bind_Ok by reflexivity. unfold set_mark. rewrite bind_assoc, (bind_Ok _ _ _ _ _ eq_refl). cbv beta. cbn [blocks set_buffers].
    rewrite lookup_insert_eq. rewrite bind_assoc. erewrite bind_Ok by reflexivity. cbv beta.
    apply partition_law in Ea. injection Ea as ->. done.
Qed.
End Buffers.

(** ** Instance: queues as lists, events as a number, and one key *)
Definition list_send (q : list sExeMsg) (m : sExeMsg) : Z * list sExeMsg :=
  if decide (length q < QUEUE_MAX)%nat then (NU_SUCCESS, q ++ [m]) else (-46, q).
#[local] Instance list_nucleus : Nucleus (list sExeMsg) Z () := {|
  QUCE_Send_To_Queue := list_send;
  QUCE_Receive_From_Queue := λ q, match q with [] => (NU_QUEUE_EMPTY, None, []) | m :: q => (NU_SUCCESS, Some m, q) end;
  EVCE_Set_Events := λ g e, (NU_SUCCESS, Z.lor g e);
  EVCE_Retrieve_Events := λ g e _, if Z.land g e =? 0 then Suspends else Woke NU_SUCCESS (Z.land g e) (Z.ldiff g e);
  PMCE_Allocate_Partition := λ p _, (-1, None, p);
  PMCE_Deallocate_Partition := λ p _, (-1, p) |}.
#[local] Program Instance list_nucleus_laws : NucleusLaws (list sExeMsg) Z () := {| contents := id; events_set := id |}.
Next Obligation. intros q m q'. cbn. unfold list_send. by case_decide. Qed.
Next Obligation. intros q m. cbn. unfold list_send. case_decide; [done|]. cbn. by rewrite app_nil_r. Qed.
Next Obligation. by intros []. Qed.
Next Obligation. done. Qed.
Next Obligation. intros g e. cbn. destruct (Z.eqb_spec (Z.land g e) 0); [done|]. by split_and!. Qed.
Definition no_message : sExeMsg := mkMsg 0 0 None.
Definition a_key : sExeMsg := mkMsg HW_KEY_MSG 0 None.
Definition idle_task : ExeTaskCbT (Q := list sExeMsg) (G := Z) := mkTask 0 (replicate EXE_NUM_MAILBOX 0) (replicate EXE_NUM_MAILBOX []) 0.
Definition idle : exe (Q := list sExeMsg) (G := Z) (P := ()) := mkExe {[EXE_BAL_ID := idle_task]} [] 0 0 [] () ∅ 0.
Definition pressed : exe (Q := list sExeMsg) (G := Z) (P := ()) := match keypad_cb true (KPD_EVENT 1 0 0) idle with Ok (_, s) => s | _ => idle end.
Definition pressed_task : ExeTaskCbT := default idle_task (ExeTaskCb pressed !! EXE_BAL_ID).
Definition pressed_config : config := mkConfig pressed_task [] [] Checks [] [(0%nat, a_key)].
Lemma pressed_reach : reach 2 true pressed_config.
Proof.
  assert (ExeMsgSend true EXE_BAL_ID 0 HW_KEY_MSG None 0 idle = Ok (0, pressed)) as E by (vm_compute; reflexivity).
  destruct (send_run 2 true true EXE_BAL_ID idle_task 0 HW_KEY_MSG None 0 idle 0 pressed eq_refl E) as (t' & Ht' & Hr).
  assert (t' = pressed_task) as -> by (unfold at_task in Ht'; unfold pressed_task; by rewrite Ht').
  assert (reach 2 true (mkConfig idle_task [] [] Checks [] [])) as Hs by (apply reach_start; by split_and!).
  specialize (Hr [] [] Checks [] []). change ([] ++ _) with [(0%nat, a_key)] in Hr. fold pressed_config in Hr.
  revert Hs. induction Hr as [|c1 c2 c3 Hst _ IH]; [done|]. intros Hc. apply IH. by eapply reach_step.
Qed.
Lemma hwStart_hands_on_witness : ∃ l s', hwStart true no_message 3 pressed = Ok (keys_of l, s') ∧ of_box 0 l = [a_key].
Proof.
  destruct (hwStart_hands_on true no_message pressed_config pressed 3 pressed_reach) as (l & t' & s' & E & _ & Hl & _).
  - done.
  - done.
  - vm_compute. reflexivity.
  - intros [|[|[|[|[|i]]]]] Hi; [lia|lia|vm_compute; reflexivity..|]. vm_compute. by destruct i.
  - vm_compute. lia.
  - exists l, s'. split; [exact E|]. rewrite (Hl 0%nat). vm_compute. reflexivity.
Defined.
(** The task looks at its counters between the posting of a message and its counting. *)
Definition late_task : ExeTaskCbT (Q := list sExeMsg) (G := Z) := mkTask 0 (replicate EXE_NUM_MAILBOX 0) (replicate EXE_NUM_MAILBOX []) 0.
Lemma late_reach : reach 2 true (mkConfig late_task [] [] Retrieves [(0%nat, a_key)] [(0%nat, a_key)]).
Proof.
  assert (reach 2 true (mkConfig idle_task [] [] Checks [] [])) as R by (apply reach_start; by split_and!).
  eapply reach_step in R; [|eapply (step_post _ _ _ _ _ _ _ _ 0 a_key); vm_compute; reflexivity].
  eapply reach_step in R; [|apply step_check].
  eapply reach_step in R; [|apply (step_count _ _ _ [] 0 [])].
  eapply reach_step in R; [|apply (step_mark _ _ _ _ [] 0 [])].
  eapply reach_step in R; [|eapply step_wake; vm_compute; reflexivity].
  eapply reach_step in R; [|eapply step_fetch; [lia|vm_compute; discriminate|vm_compute; reflexivity]].
  eapply reach_step in R; [|apply step_uncount].
  eapply reach_step in R; [|apply step_skip; [lia|vm_compute; reflexivity]].
  eapply reach_step in R; [|apply step_done].
  eapply reach_step in R; [|apply step_check].
  exact R.
Qed.
Lemma no_wakeup_is_lost_witness : queue 0 late_task = [] ∧ of_box 0 [(0%nat, a_key)] = [a_key].
Proof.
  refine (proj2 (no_wakeup_is_lost 2 true _ two_boxes late_reach) _ eq_refl eq_refl 0%nat).
  split; [reflexivity|vm_compute; reflexivity].
Defined.
